(* ===== verification/_CoqProject ===== *)
-Q . S2P
Prelude.v
Strings.v
Kube.v
ConfigTypes.v
Scheme.v
Heap.v
DeepCopy.v
Regexp.v
Json.v
Url.v
JsonDecode.v
Contract.v
Api.v
Admission.v
Sentinel.v
Bundle.v
NetAddr.v
AddrText.v
DiscoveryGuard.v
Sha256.v
Env.v
ConfigHash.v
Version.v
Metrics.v
State.v
Sim.v
Jwks.v
Locking.v
Status.v
Apply.v
Observability.v
Reconciler.v
ReconcilerMetrics.v
MetricsBounds.v
ReconcilerCalls.v
Learning.v
ReconcilerStatus.v
ReconcilerLive.v
AdmittedStatus.v
Quiescence.v
Operands.v
Flags.v
ServiceMonitor.v
Startup.v
CommandLine.v
Rbac.v
RelatedImages.v
TestUtils.v
