(* ===== verification/Prelude.v ===== *)
(** * HyperFleet operator: verification library

    This library models the HyperFleet operator, a Kubernetes controller in Go,
    and proves what makes it correct.  The controller watches one cluster-wide
    resource, [HyperFleetConfig], and keeps the operands of a "bundle" (the
    HyperFleet API and one Sentinel per registered entity type) in the state
    that resource describes.

    ** The program, and the file that models each part

    - [api/v1alpha1/hyperfleetconfig_types.go], the resource: [ConfigTypes], and its
      kubebuilder markers, what the API server checks: [Admission].
      The fields of Kubernetes types that are read or set: [Kube].
    - [api/v1alpha1/groupversion_info.go] and the [init] functions that register the
      types before [main] runs: [Scheme].
    - [api/v1alpha1/zz_generated.deepcopy.go]: [DeepCopy], over [Heap], a model of
      Go's memory with pointers, slices and allocation.
    - [internal/component/rollout.go] and the [Component] interface of
      [internal/bundle/bundle.go]: [Contract].  The interface is the class
      [IsComponent]; what an implementation owes the controller is the class
      [ComponentContract], proved for both components and used by the loop.
    - [internal/component/api/*.go]: [Api]; [internal/component/sentinel/*.go]:
      [Sentinel]; the JSON their struct tags describe and the text
      [encoding/json] writes: [Json].
    - [internal/bundle/bundle.go], from a bundle to its components: [Bundle].
    - [internal/controller/hyperfleetconfig_rollout.go]: the policy on the
      addresses OIDC discovery may dial is [DiscoveryGuard], over [NetAddr] and
      [AddrText], models of the [net] and [net/netip] functions it calls; discovery and its
      cache are [Jwks], over [Url] and [JsonDecode], models of [net/url] and of
      [json.Unmarshal], and calls of them that run at once are [Locking]; the rollout hash
      is [ConfigHash], over [Sha256].
    - [internal/controller/hyperfleetconfig_status.go]: [Status].
    - [internal/apply/apply.go]: [Apply].
    - [internal/controller/observability.go]: [Observability].
    - [internal/controller/hyperfleetconfig_controller.go] and
      [operand_types.go]: [Reconciler], with its theorems in
      [ReconcilerMetrics], [MetricsBounds], [ReconcilerCalls], [Learning], [ReconcilerStatus],
      [ReconcilerLive], [AdmittedStatus], [Quiescence] and [Operands].
    - [internal/metrics/metrics.go]: [Metrics]; [internal/version/version.go]:
      [Version].
    - [cmd/main.go]: [Startup] and [CommandLine], over [Flags] (the flag table and Go's [flag] parser)
      and [Regexp] (the fragment of [regexp] that its pattern and those of [Admission] need).
    - [internal/servicemonitor/servicemonitor.go]: [ServiceMonitor].
    - The permission markers of [hyperfleetconfig_controller.go] and
      [servicemonitor.go]: [Rbac].
    - [validators/related-images/main.go], a build-time tool: [RelatedImages].
    - [test/utils/utils.go], the helpers of the end-to-end suite: [TestUtils].
    Functions of [strings], [bufio] and [path/filepath] that several parts use are in
    [Strings], those that every part uses in this file.

    ** How state and effects are modelled

    A function that can return a Go error yields an [outcome]: a value, an
    error value that keeps its format, arguments and wrapped cause, or a panic
    (nil dereference, nil map write).  Code that acts on the outside world is
    state passing over an abstract world: the class [Env] ([Env.v]) is the API
    server, the network and the clock, where every call may change the world
    and may fail; [EnvLaws] are the two facts about them that are used, and the liveness
    theorems add what a healthy ([Healthy]) or a settled ([Settled]) cluster does.  Any
    environment can be run with a log of the calls made, which is how
    statements on order and on what is sent are made.  [RState] ([State.v]) adds
    the reconciler's two mutable fields and the process's metrics; [Learned]
    ([Reconciler.v]) is what the deferred status update reads.  [Sim.v] is one
    concrete environment, for concrete runs.

    Objects are values.  Renderers return freshly allocated objects, no two of
    which alias, and each is mutated in place only between its rendering
    and the end of its component's turn; so the in-place updates (stamping,
    the owner reference, the read-back) are functions from list to list.  The
    setters of [bundle.go] write through pointers held once.  That the resource itself is
    a value of its own, whatever a cache keeps, is what [DeepCopy] shows of the copies a client
    hands out.  The reconcile loop is sequential, as the controller's one worker runs it;
    [Locking] is the step relation of any number of calls of the discovery code that share the
    reconciler's mutex, its [sync.Once] and the two fields they guard.

    ** What is outside

    Code that is not in the repository is a class argument: the YAML encoder
    ([YamlLib]), the syntax of a URL's authority ([UrlLib]), the JSON of a pod template
    ([TemplateLib]), the layout and deep copies of apimachinery's metadata and conditions ([MetaLib],
    with [MetaLaws]), CEL's functions on URLs ([CelLib]), [meta.SetStatusCondition] ([ConditionsLib], with its
    documented behaviour as [ConditionsLaws]), the manager ([ManagerLib]) and the
    flags of the zap options ([ZapFlags]), the clients of the ServiceMonitor
    bootstrap ([BootstrapEnv]), the CSV decoder, the pullspec parser and the files of the
    validator ([BundleLib], [Files]), apimachinery's scheme and its builder ([SchemeLib], with
    [SchemeLaws]) and the operating system as the suite's helpers call it ([OSLib]).
    Log lines are left out.

    ** What the theorems show

    - The loop.  [ReconcilerCalls]: [Reconcile] refines an abstract trace of
      calls, so nothing is written before every declared Secret was read and a
      JWKS URL resolved, everything is sent with the operator's field
      manager, and the status is written last and at most once.
      [ReconcilerMetrics]: no panic, one duration, each failure counted once, the
      applied-config gauge only after a full success.  [MetricsBounds]: a bound on the
      series exported over the life of the process.  [Learning]: a successful
      body as a chain of worlds, from the answers to the Secret reads to what each component
      reports on the objects read back.  [ReconcilerStatus]: what
      is published, in those terms, after a success, what is written after a failure, and that
      rollouts are counted only when applied.  [ReconcilerLive]: on a healthy cluster a valid
      configuration reconciles.  [Quiescence]: once the cluster has settled, later
      reconciles write no status, for ever.  [Operands]: all operands are owned,
      in the operator's namespace, and distinct.
    - The resource.  [Admission]: what every stored resource satisfies after any history of
      creations, updates, status writes and deletions, and what never changes in it.
      [AdmittedStatus]: every status the operator writes fits the schema, so an API server that
      validates it never refuses one (given that replica counts are 32-bit integers, class
      [Int32World], and that the clock never reads the zero time, class [ClockWorld]); and which admitted resources reconcile.  [DeepCopy]: a
      generated deep copy reads the same and shares no memory; each method is proved an instance
      of the contract [DeepCopierLaws].
    - The guard.  [DiscoveryGuard]: the table lookup is a longest-prefix match,
      the NAT64 recursion terminates, and no dial that is let through goes to a
      denied block.
    - Discovery.  [Jwks]: what a discovered URL was checked for, that the document of a
      well-behaved issuer is accepted, every branch of the fallback, and the invariant of the cache.
      [Locking]: concurrent calls do not race, never deadlock, and every interleaving is one of
      atomic runs of the sequential operations, which carries the cache's invariant over.
      They rest on [JsonDecode] (decoding what was encoded gives it back, so encoding is
      injective; the decoder's fuel is enough) and [Url] (what an accepted URL looks like).
    - Hashing.  [ConfigHash] and [Observability]: the hashed bytes determine
      what they are meant to cover, do not depend on the listing order, and
      stamping is idempotent and causes no rollout of its own.
    - Status.  [Status]: the rollup is AND and OR, aggregation is idempotent,
      keeps transition times, and makes nothing up after a failure.
    - Rendering.  [Api], [Sentinel], [Bundle]: when rendering fails, that the
      operands fit together (ports, selectors, mounts, files, Secrets), that
      health reports are true of the Deployment, and that a resolved bundle renders.

    - Start-up.  [Startup]: [main] makes its planned calls in order up to the first
      that is refused, starts the manager last and only on accepted inputs; what it starts
      with is safe, and the reconciler it registers is one that [ReconcilerLive] is about.
      [CommandLine]: for any choice of flags, the calls that a start makes, with every
      default.  [Flags]: parsing what was printed gives it back, and every variable has a
      value of its kind.  [ServiceMonitor]: the bootstrap is one of the permitted call
      sequences and its endpoint never weakens TLS.  [Rbac]: the declared permissions cover
      every call of the loop, of its informers and of the bootstrap; Secrets are read-only,
      and outside the operator's namespace there is only the resource itself.
    - The validator.  [RelatedImages]: it accepts exactly the consistent documents,
      in whatever order Go ranges over its maps.
    - Around the program.  [Scheme]: the process starts with a scheme that recognises the
      resource and its list.  [Metrics]: the table of collectors passes Prometheus's checks.
      [TestUtils]: uncommenting undoes commenting and changes nothing else of the file,
      cutting a command's output into lines loses no match, and the temporary archive
      of an image is removed last, however loading ends.

    ** Bounds and fuel

    Go's memory is unbounded, and a slice is a window without a capacity, since nothing copied is
    appended to.  The NAT64 recursion has fuel two, which [isDisallowed_terminates] shows is
    enough; the address parsers of [NetAddr] recurse on the text; SHA-256's
    block loop has the message length as fuel, more than it has blocks; the JSON
    decoder has the length of the text, which [decode_complete] shows is enough.
    Counters and generations are integers that the code only compares or
    increments; bytes and 32-bit words are kept at their width.  [slices.SortFunc]
    is insertion sort, as Go runs it on short slices; [sort_unique] shows that with
    distinct keys every sorting algorithm gives that result.

    ** Not modelled

    The logger holds no logic of the program.  Of a URL, the path, query and fragment are
    checked but not kept; of a decoded number, its literal is kept. *)

From stdpp Require Export prelude list strings gmap sorting.
From Stdlib Require Export ZArith Ascii Lia.
From Stdlib Require Import DecimalString DecimalN.

(** ** Go error values and outcomes *)

(** An [error] value.  [Errorf] records a call of [fmt.Errorf] (or
    [errors.New]) that wraps nothing: its format and its printed arguments.
    [Wrapf] is a call whose format ends in [%w], with the wrapped error.
    [JoinErrors] is [errors.Join] of two non-nil errors.  [External] is an
    error produced by code the repository calls. *)
Inductive error :=
| Errorf (format : string) (args : list string)
| Wrapf (format : string) (args : list string) (wrapped : error)
| JoinErrors (e1 e2 : error)
| External (msg : string).

(** What a Go call that returns [(A, error)] can do: return a value, return a
    non-nil error, or panic (nil dereference, write to a nil map). *)
Inductive outcome (A : Type) :=
| Ok (a : A)
| Fail (e : error)
| Panic.
Arguments Ok {A} _.
Arguments Fail {A} _.
Arguments Panic {A}.

Declare Scope go_scope.
Delimit Scope go_scope with go.

Definition outcome_bind {A B} (m : outcome A) (k : A -> outcome B) : outcome B :=
  match m with
  | Ok a => k a
  | Fail e => Fail e
  | Panic => Panic
  end.

Notation "'let?' p := c 'in' k" := (outcome_bind c (fun p => k))
  (at level 10, p pattern, c at level 100, k at level 200) : go_scope.

(** [wrapErr f args m]: [if err != nil { return ..., fmt.Errorf(f, args, err) }]. *)
Definition wrapErr {A} (format : string) (args : list string) (m : outcome A) : outcome A :=
  match m with
  | Fail e => Fail (Wrapf format args e)
  | _ => m
  end.

Definition is_ok {A} (m : outcome A) : bool :=
  match m with Ok _ => true | _ => false end.

Lemma outcome_bind_ok {A B} (m : outcome A) (k : A -> outcome B) b :
  outcome_bind m k = Ok b -> exists a, m = Ok a /\ k a = Ok b.
Proof. destruct m; simpl; naive_solver. Qed.

Lemma wrapErr_ok {A} f args (m : outcome A) a : wrapErr f args m = Ok a <-> m = Ok a.
Proof. destruct m; simpl; naive_solver. Qed.

(** ** State passing *)

(** A computation that reads and writes a state (the cluster, the clock, the
    reconciler's own fields) and returns a value. *)
Definition ST (S A : Type) : Type := S -> A * S.

Definition st_ret {S A} (a : A) : ST S A := fun s => (a, s).
Definition st_bind {S A B} (m : ST S A) (k : A -> ST S B) : ST S B :=
  fun s => let '(a, s') := m s in k a s'.

Declare Scope st_scope.
Delimit Scope st_scope with st.
Notation "'let!' p := c 'in' k" := (st_bind c (fun p => k))
  (at level 10, p pattern, c at level 100, k at level 200) : st_scope.

(** State passing with an [outcome]: a failed step keeps the state it reached. *)
Definition so_bind {S A B} (m : ST S (outcome A)) (k : A -> ST S (outcome B)) :
    ST S (outcome B) :=
  fun s => match m s with
           | (Ok a, s') => k a s'
           | (Fail e, s') => (Fail e, s')
           | (Panic, s') => (Panic, s')
           end.
Notation "'let!?' p := c 'in' k" := (so_bind c (fun p => k))
  (at level 10, p pattern, c at level 100, k at level 200) : st_scope.

Definition so_wrap {S A} (format : string) (args : list string) (m : ST S (outcome A)) :
    ST S (outcome A) :=
  fun s => let '(r, s') := m s in (wrapErr format args r, s').

Definition get_state {S A} (f : S -> A) : ST S A := fun s => (f s, s).
Definition modify {S} (f : S -> S) : ST S unit := fun s => (tt, f s).

(** A loop over a slice whose body may stop the function. *)
Fixpoint so_iter {S A} (f : A -> ST S (outcome unit)) (l : list A) : ST S (outcome unit) :=
  match l with
  | [] => st_ret (Ok tt)
  | x :: l' => so_bind (f x) (fun _ => so_iter f l')
  end.

(** A loop that cannot stop the function. *)
Fixpoint st_iter {S A} (f : A -> ST S unit) (l : list A) : ST S unit :=
  match l with
  | [] => st_ret tt
  | x :: l' => st_bind (f x) (fun _ => st_iter f l')
  end.

Lemma so_bind_ok {S A B} (m : ST S (outcome A)) (k : A -> ST S (outcome B)) s b s2 :
  so_bind m k s = (Ok b, s2) -> exists a s1, m s = (Ok a, s1) /\ k a s1 = (Ok b, s2).
Proof. unfold so_bind. destruct (m s) as [[a|e|] s1]; naive_solver. Qed.

(** ** The development's tactics *)

(** Case analysis on the matches and conditionals of the goal, then of the
    hypotheses, with stdpp's equation simplifier in between. *)

Ltac go_cases :=
  simplify_eq/=; try done;
  repeat (case_match; simplify_eq/=; try done).

(** Inversion of a chain of [outcome] binds that ended in [Ok]. *)
Ltac inv_ok :=
  repeat match goal with
  | H : outcome_bind _ _ = Ok _ |- _ =>
      let a := fresh "a" in let Ha := fresh "Ha" in
      apply outcome_bind_ok in H as (a & Ha & H)
  | H : wrapErr _ _ _ = Ok _ |- _ => apply wrapErr_ok in H
  | H : Ok _ = Ok _ |- _ => injection H as H; try subst
  end.

(** Boolean tests to propositions. *)
Ltac bool_prop :=
  repeat match goal with
  | H : andb _ _ = true |- _ => apply andb_true_iff in H as [? ?]
  | H : orb _ _ = false |- _ => apply orb_false_iff in H as [? ?]
  | H : negb _ = true |- _ => apply negb_true_iff in H
  | H : negb _ = false |- _ => apply negb_false_iff in H
  | H : String.eqb _ _ = true |- _ => apply String.eqb_eq in H
  | H : String.eqb _ _ = false |- _ => apply String.eqb_neq in H
  | H : Z.eqb _ _ = true |- _ => apply Z.eqb_eq in H
  | H : Z.eqb _ _ = false |- _ => apply Z.eqb_neq in H
  | H : Z.ltb _ _ = true |- _ => apply Z.ltb_lt in H
  | H : Z.ltb _ _ = false |- _ => apply Z.ltb_ge in H
  | H : Z.leb _ _ = true |- _ => apply Z.leb_le in H
  | H : Z.leb _ _ = false |- _ => apply Z.leb_gt in H
  end.

(** ** Strings *)

(** A Go string literal with a double quote around [s]. *)
Definition dq (s : string) : string := String "034" (s +:+ String "034" "").

Definition nul : string := String "000" "".

(** [strings.HasPrefix], [strings.HasSuffix], [strings.TrimSuffix],
    [strings.Join], [strings.Contains]. *)
Definition HasPrefix (s p : string) : bool := String.prefix p s.

Definition drop_string (n : nat) (s : string) : string :=
  String.substring n (String.length s - n) s.

Definition HasSuffix (s suf : string) : bool :=
  (String.length suf <=? String.length s) &&
  String.eqb (drop_string (String.length s - String.length suf) s) suf.

Definition TrimSuffix (s suf : string) : string :=
  if HasSuffix s suf
  then String.substring 0 (String.length s - String.length suf) s
  else s.

Definition JoinStrings (l : list string) (sep : string) : string := String.concat sep l.

Fixpoint Contains (s sub : string) : bool :=
  String.prefix sub s ||
  match s with
  | "" => false
  | String _ s' => Contains s' sub
  end.

(** [strings.Compare]: the byte-wise lexicographic order. *)
Definition Compare (a b : string) : comparison := String.compare a b.

(** Slicing [s[:n]]. *)
Definition take_string (n : nat) (s : string) : string := String.substring 0 n s.

(** [%d] of an integer. *)
Definition dec_N (n : N) : string := NilEmpty.string_of_uint (N.to_uint n).
Definition dec_Z (z : Z) : string :=
  match z with
  | Z0 => "0"
  | Zpos p => dec_N (Npos p)
  | Zneg p => "-" +:+ dec_N (Npos p)
  end.

Lemma dec_N_inj n m : dec_N n = dec_N m -> n = m.
Proof.
  unfold dec_N. intros H.
  apply (f_equal NilEmpty.uint_of_string) in H. rewrite !NilEmpty.usu in H.
  injection H as H. apply (f_equal N.of_uint) in H.
  by rewrite !DecimalN.Unsigned.of_to in H.
Qed.

Definition is_digit (c : ascii) : bool :=
  (48 <=? N_of_ascii c)%N && (N_of_ascii c <=? 57)%N.

Lemma dec_N_digits n : Forall (fun c => is_digit c = true) (String.list_ascii_of_string (dec_N n)).
Proof.
  unfold dec_N. generalize (N.to_uint n). intros u.
  induction u; simpl; constructor; done.
Qed.

(** A decimal has at most as many digits as the number has bits, and one. *)
Lemma nb_digits_double d : Decimal.nb_digits (Decimal.Little.double d) <= S (Decimal.nb_digits d)
  /\ Decimal.nb_digits (Decimal.Little.succ_double d) <= S (Decimal.nb_digits d).
Proof. induction d; cbn; lia. Qed.

Lemma nb_digits_revapp d e : Decimal.nb_digits (Decimal.revapp d e) = Decimal.nb_digits d + Decimal.nb_digits e.
Proof. revert e. induction d; intros e; cbn; rewrite ?IHd; cbn; lia. Qed.

Lemma nb_digits_Pos p : Decimal.nb_digits (Pos.to_little_uint p) <= S (Pos.size_nat p).
Proof.
  induction p as [p IH|p IH|]; cbn; [| |lia];
    destruct (nb_digits_double (Pos.to_little_uint p)); lia.
Qed.

Lemma dec_N_length n : String.length (dec_N n) <= S (N.size_nat n).
Proof.
  assert (H : forall d, String.length (NilEmpty.string_of_uint d) = Decimal.nb_digits d) by (induction d; cbn; lia).
  unfold dec_N. rewrite H. destruct n as [|p]; [cbn; lia|]. cbn. unfold Pos.to_uint, Decimal.rev.
  rewrite nb_digits_revapp. cbn. pose proof (nb_digits_Pos p). lia.
Qed.

(** *** Lemmas on string append and lists of characters *)

Lemma string_app_cons c a b : String c a +:+ b = String c (a +:+ b).
Proof. done. Qed.

Lemma string_app_nil_r s : s +:+ "" = s.
Proof. induction s as [|x s IH]; [done|]. by rewrite string_app_cons, IH. Qed.

Lemma string_app_assoc a b c : (a +:+ b) +:+ c = a +:+ (b +:+ c).
Proof. induction a as [|x a IH]; [done|]. simpl. by rewrite !string_app_cons, IH. Qed.


Lemma string_app_length a b : String.length (a +:+ b) = String.length a + String.length b.
Proof. induction a as [|x a IH]; [done|]. rewrite string_app_cons. simpl. by rewrite IH. Qed.

Lemma HasPrefix_app s p : HasPrefix s p = true -> exists t, s = p +:+ t.
Proof.
  unfold HasPrefix. revert s. induction p as [|c p IH]; intros s H; [by exists s|].
  destruct s as [|d s]; [done|]. cbn in H. destruct (ascii_dec c d) as [->|]; [|done].
  destruct (IH s H) as [t ->]. by exists t.
Qed.

Lemma substring_all s : String.substring 0 (String.length s) s = s.
Proof. induction s as [|c s IH]; [done|]. cbn. by rewrite IH. Qed.

Lemma drop_string_app (w r : string) : drop_string (String.length w) (w +:+ r) = r.
Proof.
  unfold drop_string. rewrite string_app_length. replace (_ + _ - _)%nat with (String.length r) by lia.
  induction w as [|c w IH]; [apply substring_all|exact IH].
Qed.

Lemma HasPrefix_self (w r : string) : HasPrefix (w +:+ r) w = true.
Proof.
  unfold HasPrefix. induction w as [|c w IH]; [by destruct r|]. rewrite string_app_cons. cbn.
  by destruct (ascii_dec c c).
Qed.

Lemma take_string_short n s : (String.length s <= n)%nat -> take_string n s = s.
Proof.
  revert n. induction s as [|c s IH]; intros [|n] H; cbn in *; try done; [lia|]. f_equal. apply IH. lia.
Qed.

Lemma string_app_inj_l a1 a2 b1 b2 :
  String.length a1 = String.length a2 -> a1 +:+ b1 = a2 +:+ b2 -> a1 = a2 /\ b1 = b2.
Proof.
  revert a2. induction a1 as [|c a1 IH]; intros [|c' a2] Hl; simpl in Hl; try lia; [done|].
  rewrite !string_app_cons. intros [= -> H]. injection Hl as Hl.
  destruct (IH a2 Hl H) as [-> ->]. done.
Qed.

Lemma string_app_inj_r a b1 b2 : a +:+ b1 = a +:+ b2 -> b1 = b2.
Proof. intros H. by apply string_app_inj_l in H as [_ ?]. Qed.

(** ** Sorting: [slices.SortFunc] by a string key

    Go sorts slices of at most 12 elements by insertion sort; this is that
    algorithm.  Theorem [sort_unique] shows that when the keys are distinct
    every sorting algorithm returns the same list. *)
Section sort.
Context {A : Type} (key : A -> string).

Definition key_le (a b : A) : Prop := String.le (key a) (key b).

Fixpoint insert_sorted (x : A) (l : list A) : list A :=
  match l with
  | [] => [x]
  | y :: l' =>
      match Compare (key x) (key y) with
      | Lt => x :: y :: l'
      | _ => y :: insert_sorted x l'
      end
  end.

Definition SortBy (l : list A) : list A :=
  fold_left (fun acc x => insert_sorted x acc) l [].

#[local] Instance key_le_trans : Transitive key_le.
Proof. intros a b c. unfold key_le. intros H1 H2. by etrans. Qed.

Lemma compare_not_lt a b : Compare (key a) (key b) <> Lt -> key_le b a.
Proof.
  unfold Compare, key_le, String.le, String.leb. intros H.
  rewrite String.compare_antisym. by destruct (String.compare (key a) (key b)).
Qed.

Lemma compare_lt_le a b : Compare (key a) (key b) = Lt -> key_le a b.
Proof. unfold Compare, key_le, String.le, String.leb. by intros ->. Qed.

Lemma le_compare_not_lt a b : key_le a b -> Compare (key b) (key a) <> Lt.
Proof.
  unfold Compare, key_le, String.le, String.leb. intros H.
  rewrite String.compare_antisym. by destruct (String.compare (key a) (key b)).
Qed.

Lemma insert_sorted_perm x l : insert_sorted x l ≡ₚ x :: l.
Proof.
  induction l as [|y l IH]; simpl; [done|].
  destruct (Compare (key x) (key y)); [|done|]; rewrite IH; apply perm_swap.
Qed.

Lemma fold_insert_perm l acc :
  fold_left (fun acc x => insert_sorted x acc) l acc ≡ₚ l ++ acc.
Proof.
  revert acc. induction l as [|x l IH]; intros acc; simpl; [done|].
  rewrite IH, insert_sorted_perm. symmetry. apply Permutation_middle.
Qed.

Lemma SortBy_perm l : SortBy l ≡ₚ l.
Proof. unfold SortBy. rewrite fold_insert_perm. by rewrite app_nil_r. Qed.

Lemma insert_sorted_HdRel y x l :
  key_le y x -> HdRel key_le y l -> HdRel key_le y (insert_sorted x l).
Proof.
  intros Hyx Hl. destruct l as [|z l]; simpl; [by constructor|].
  inversion Hl; subst. destruct (Compare (key x) (key z)); by constructor.
Qed.

Lemma insert_sorted_Sorted x l : Sorted key_le l -> Sorted key_le (insert_sorted x l).
Proof.
  induction 1 as [|y l Hs IH Hd]; simpl; [by repeat constructor|].
  destruct (Compare (key x) (key y)) eqn:Hc.
  - constructor; [done|]. apply insert_sorted_HdRel; [|done]. apply compare_not_lt. by rewrite Hc.
  - constructor; [by constructor|]. constructor. by apply compare_lt_le.
  - constructor; [done|]. apply insert_sorted_HdRel; [|done]. apply compare_not_lt. by rewrite Hc.
Qed.

Lemma SortBy_Sorted l : Sorted key_le (SortBy l).
Proof.
  unfold SortBy. assert (H : Sorted key_le ([] : list A)) by constructor. revert H.
  generalize ([] : list A). induction l as [|x l IH]; intros acc H; simpl; [done|].
  by apply IH, insert_sorted_Sorted.
Qed.

Lemma insert_sorted_last x l : Forall (fun y => key_le y x) l -> insert_sorted x l = l ++ [x].
Proof.
  induction 1 as [|y l Hy Hl IH]; simpl; [done|].
  pose proof (le_compare_not_lt _ _ Hy).
  destruct (Compare (key x) (key y)); [|done|]; by rewrite IH.
Qed.

Lemma SortBy_id l : Sorted key_le l -> SortBy l = l.
Proof.
  intros Hs. apply Sorted_StronglySorted in Hs; [|apply key_le_trans]. unfold SortBy.
  cut (forall acc, Forall (fun x => Forall (fun y => key_le y x) acc) l ->
    fold_left (fun acc x => insert_sorted x acc) l acc = acc ++ l).
  { intros H. rewrite H; [done|]. apply Forall_true. by constructor. }
  induction Hs as [|x l Hs IH Hx]; intros acc Hacc; simpl; [by rewrite app_nil_r|].
  apply Forall_cons in Hacc as [Ha Hacc]. rewrite insert_sorted_last by done.
  rewrite IH, <-app_assoc; [done|].
  apply Forall_forall. intros z Hz. apply Forall_app; split.
  - rewrite Forall_forall in Hacc. by apply Hacc.
  - rewrite Forall_forall in Hx. constructor; [by apply Hx|constructor].
Qed.

Lemma NoDup_key_inj l a b :
  NoDup (key <$> l) -> a ∈ l -> b ∈ l -> key a = key b -> a = b.
Proof.
  induction l as [|x l IH]; intros Hnd Ha Hb E; [by apply not_elem_of_nil in Ha|].
  rewrite fmap_cons in Hnd. apply NoDup_cons in Hnd as [Hx Hnd].
  apply elem_of_cons in Ha as [->|Ha], Hb as [->|Hb]; [done| | |by apply IH].
  - destruct Hx. rewrite E. by apply list_elem_of_fmap_2.
  - destruct Hx. rewrite <-E. by apply list_elem_of_fmap_2.
Qed.

(** Two sorted permutations of a list with distinct keys are equal. *)
Lemma sort_unique l1 l2 :
  NoDup (key <$> l1) -> l1 ≡ₚ l2 -> Sorted key_le l2 -> SortBy l1 = l2.
Proof.
  intros Hnd Hp Hs. apply (Sorted_unique_strong key_le).
  - intros a b Ha Hb Hab Hba. apply (NoDup_key_inj l1); [done| | |].
    + by rewrite <-(SortBy_perm l1).
    + by rewrite Hp.
    + by apply (anti_symm String.le).
  - apply SortBy_Sorted.
  - done.
  - by rewrite SortBy_perm.
Qed.

Lemma SortBy_perm_eq l1 l2 : NoDup (key <$> l1) -> l1 ≡ₚ l2 -> SortBy l1 = SortBy l2.
Proof.
  intros Hnd Hp. apply sort_unique; [done| |apply SortBy_Sorted].
  by rewrite Hp, SortBy_perm.
Qed.

End sort.

#[global] Instance SortBy_Proper {A} (key : A -> string) :
  Proper ((≡ₚ) ==> (≡ₚ)) (SortBy key).
Proof. intros l1 l2 H. by rewrite !SortBy_perm. Qed.

(** ** [slices.Compact] and [slices.Sort] on strings *)

Fixpoint Compact (l : list string) : list string :=
  match l with
  | x :: ((y :: _) as l') => if String.eqb x y then Compact l' else x :: Compact l'
  | _ => l
  end.

Definition SortStrings (l : list string) : list string := SortBy id l.

Lemma Compact_cons_cons x y l :
  Compact (x :: y :: l) = if String.eqb x y then Compact (y :: l) else x :: Compact (y :: l).
Proof. done. Qed.

Lemma elem_of_Compact x l : x ∈ Compact l <-> x ∈ l.
Proof.
  induction l as [|y [|z l] IH]; [done|done|]. rewrite Compact_cons_cons.
  destruct (String.eqb_spec y z) as [->|Hne].
  - rewrite IH. set_solver.
  - rewrite elem_of_cons, IH. set_solver.
Qed.

Lemma Compact_NoDup l : Sorted (key_le id) l -> NoDup (Compact l).
Proof.
  intros Hs. apply Sorted_StronglySorted in Hs; [|apply key_le_trans].
  induction Hs as [|x l Hs IH Hx]; [constructor|].
  destruct l as [|y l]; [apply NoDup_singleton|]. rewrite Compact_cons_cons.
  destruct (String.eqb_spec x y) as [->|Hne]; [done|]. constructor; [|done].
  rewrite elem_of_Compact. intros Hin. apply Hne.
  apply StronglySorted_inv in Hs as [_ Hy]. apply elem_of_cons in Hin as [->|Hin]; [done|].
  apply (anti_symm String.le).
  - rewrite Forall_forall in Hx. apply (Hx y). left.
  - rewrite Forall_forall in Hy. by apply (Hy x).
Qed.

Lemma SortStrings_elem x l : x ∈ SortStrings l <-> x ∈ l.
Proof. unfold SortStrings. by rewrite SortBy_perm. Qed.

Create HintDb go.
#[export] Hint Resolve SortBy_perm SortBy_Sorted Compact_NoDup : go.
Create Rewrite HintDb go_str.
#[export] Hint Rewrite string_app_nil_r string_app_assoc : go_str.
