(* ===== verification/Strings.v ===== *)
(** * Go's [strings], [path/filepath] and [bufio.Scanner]

    The functions of the standard library on texts and paths that more than one
    component uses, with the laws their clients rely on. *)

From S2P Require Import Prelude.

Module gostrings.

Definition LF : ascii := "010"%char.
Definition CR : ascii := "013"%char.
Definition nl : string := String LF "".

(** ** Searching and cutting *)

(** [strings.Index]; [None] stands for -1. *)
Fixpoint Index (s sub : string) : option nat :=
  if HasPrefix s sub then Some O
  else match s with "" => None | String _ s' => S <$> Index s' sub end.

(** [strings.TrimPrefix]. *)
Definition TrimPrefix (s p : string) : string :=
  if HasPrefix s p then drop_string (String.length p) s else s.

(** [strings.ReplaceAll] for a non-empty [old]: the matches do not overlap, and
    [skip] counts the bytes of the current one that are still to be passed. *)
Fixpoint replace_from (old new : string) (skip : nat) (s : string) : string :=
  match s with
  | "" => ""
  | String c s' =>
      match skip with
      | S k => replace_from old new k s'
      | O => if HasPrefix s old
             then new +:+ replace_from old new (String.length old - 1) s'
             else String c (replace_from old new 0 s')
      end
  end.

Definition ReplaceAll (s old new : string) : string := replace_from old new 0 s.

(** [strings.Split] and [strings.SplitSeq] at a separator of one byte. *)
Fixpoint SplitByte (sep : ascii) (s : string) : list string :=
  match s with
  | "" => [""]
  | String c s' =>
      if Ascii.eqb c sep then "" :: SplitByte sep s'
      else match SplitByte sep s' with
           | piece :: pieces => String c piece :: pieces
           | [] => [String c ""]
           end
  end.

Fixpoint has_byte (c : ascii) (s : string) : bool :=
  match s with "" => false | String d s' => Ascii.eqb d c || has_byte c s' end.

(** ** [bufio.Scanner] with [ScanLines] *)

(** A line loses one carriage return at its end. *)
Fixpoint dropCR (s : string) : string :=
  match s with
  | "" => ""
  | String c "" => if Ascii.eqb c CR then "" else s
  | String c s' => String c (dropCR s')
  end.

(** A text that ends in a line feed has no empty line after it. *)
Fixpoint drop_last_empty (lines : list string) : list string :=
  match lines with
  | [] => []
  | [last] => if String.eqb last "" then [] else [last]
  | l :: lines' => l :: drop_last_empty lines'
  end.

(** The buffer of a scanner grows to 65,536 bytes at most; a line that does not
    fit in it with its line feed ends the scan, with an error that only
    [Scanner.Err] shows. *)
Definition MaxScanTokenSize : Z := 65536.
Definition fits (line : string) : bool := (Z.of_nat (String.length line) <? MaxScanTokenSize)%Z.

Fixpoint scan_tokens (lines : list string) : list string :=
  match lines with
  | [] => []
  | l :: lines' => if fits l then dropCR l :: scan_tokens lines' else []
  end.

(** The texts of the successful calls of [Scan] on a reader of [s]. *)
Definition ScanLines (s : string) : list string :=
  scan_tokens (drop_last_empty (SplitByte LF s)).

(** ** [path/filepath] on a Unix system *)

Definition clean_step (rooted : bool) (out : list string) (e : string) : list string :=
  if String.eqb e "" || String.eqb e "." then out
  else if String.eqb e ".." then
    match out with
    | top :: out' => if String.eqb top ".." then ".." :: out else out'
    | [] => if rooted then [] else [".."]
    end
  else e :: out.

Definition Clean (path : string) : string :=
  let rooted := match path with String "/" _ => true | _ => false end in
  let out := JoinStrings (reverse (fold_left (clean_step rooted) (SplitByte "/" path) [])) "/" in
  if rooted then "/" +:+ out else if String.eqb out "" then "." else out.

Fixpoint JoinPath (elem : list string) : string :=
  match elem with
  | [] => ""
  | e :: elem' => if String.eqb e "" then JoinPath elem' else Clean (JoinStrings elem "/")
  end.

Example join_demo : JoinPath ["/certs/"; "tls.crt"] = "/certs/tls.crt"
  /\ JoinPath [""; "tls.crt"] = "tls.crt" /\ JoinPath ["a/../../b"; "./tls.crt"] = "../b/tls.crt".
Proof. vm_compute. auto. Qed.

Example replace_demo : ReplaceAll "/src/test/e2e" "/test/e2e" "" = "/src" /\ ReplaceAll "aaa" "aa" "b" = "ba".
Proof. vm_compute. auto. Qed.

Example scan_demo : ScanLines ("a" +:+ nl +:+ nl +:+ "b" +:+ String CR nl) = ["a"; ""; "b"]
  /\ ScanLines "" = [] /\ ScanLines nl = [""].
Proof. vm_compute. auto. Qed.

(** ** Laws *)

Lemma TrimPrefix_app p t : TrimPrefix (p +:+ t) p = t.
Proof. unfold TrimPrefix. by rewrite HasPrefix_self, drop_string_app. Qed.

Lemma take_string_app a b : take_string (String.length a) (a +:+ b) = a.
Proof.
  unfold take_string. induction a as [|c a IH]; simpl; [by destruct b|].
  by f_equal.
Qed.

(** The index found is that of an occurrence. *)
Lemma Index_split s sub i : Index s sub = Some i -> exists before after,
  s = before +:+ sub +:+ after /\ String.length before = i.
Proof.
  revert i. induction s as [|c s IH]; intros i H; cbn [Index] in H.
  - destruct (HasPrefix "" sub) eqn:E; [|discriminate H]. apply HasPrefix_app in E as [t E].
    injection H as <-. exists "", t. split; [exact E|done].
  - destruct (HasPrefix (String c s) sub) eqn:E.
    + apply HasPrefix_app in E as [t E]. injection H as <-. exists "", t. split; [exact E|done].
    + destruct (Index s sub) as [j|]; [|discriminate H]. injection H as <-.
      destruct (IH j eq_refl) as (b & a & -> & <-). by exists (String c b), a.
Qed.

Lemma SplitByte_cons sep s : exists piece pieces, SplitByte sep s = piece :: pieces.
Proof.
  destruct s as [|c s]; simpl; [eauto|]. destruct (Ascii.eqb c sep); [eauto|].
  destruct (SplitByte sep s); eauto.
Qed.

Lemma SplitByte_none sep s : has_byte sep s = false -> SplitByte sep s = [s].
Proof.
  induction s as [|c s IH]; simpl; [done|]. intros [-> H]%orb_false_iff. by rewrite (IH H).
Qed.

Lemma SplitByte_app sep a b : has_byte sep a = false ->
  SplitByte sep (a +:+ String sep b) = a :: SplitByte sep b.
Proof.
  induction a as [|c a IH]; simpl; intros H.
  - by rewrite Ascii.eqb_refl.
  - apply orb_false_iff in H as [Hc H]. by rewrite Hc, (IH H).
Qed.

(** Splitting undoes joining when no piece holds the separator. *)
Lemma SplitByte_join sep ls : ls <> [] -> Forall (fun l => has_byte sep l = false) ls ->
  SplitByte sep (JoinStrings ls (String sep "")) = ls.
Proof.
  intros Hne H. induction H as [|l ls Hl H IH]; [done|]. destruct ls as [|l2 ls].
  - simpl. by apply SplitByte_none.
  - change (JoinStrings (l :: l2 :: ls) (String sep "")) with
      (l +:+ String sep (JoinStrings (l2 :: ls) (String sep ""))).
    rewrite SplitByte_app by done. by rewrite IH.
Qed.

Lemma SplitByte_pieces sep s : Forall (fun l => has_byte sep l = false) (SplitByte sep s).
Proof.
  induction s as [|c s IH]; simpl; [by repeat constructor|].
  destruct (Ascii.eqb c sep) eqn:E; [by constructor|].
  destruct IH as [|p ps Hp IH]; constructor; simpl; rewrite ?E; auto.
Qed.

Lemma dropCR_id s t : s = t -> (forall u, s <> u +:+ String CR "") -> dropCR s = t.
Proof.
  intros <-. induction s as [|c s IH]; simpl; intros H; [done|]. destruct s as [|d s].
  - destruct (Ascii.eqb_spec c CR) as [->|]; [|done]. by destruct (H "").
  - f_equal. apply IH. intros u E. apply (H (String c u)). by rewrite string_app_cons, <- E.
Qed.

Lemma drop_last_empty_id ls : last ls <> Some "" -> drop_last_empty ls = ls.
Proof.
  induction ls as [|l ls IH]; simpl; [done|]. destruct ls as [|l2 ls]; simpl in *.
  - destruct (String.eqb_spec l "") as [->|]; [by intros []|done].
  - intros H. f_equal. exact (IH H).
Qed.

Lemma drop_last_empty_snoc ls : drop_last_empty (ls ++ [""]) = ls.
Proof. induction ls as [|l ls IH]; [done|]. cbn. rewrite IH. by destruct ls. Qed.

Lemma SplitByte_final sep s : SplitByte sep (s +:+ String sep "") = SplitByte sep s ++ [""].
Proof.
  induction s as [|c s IH].
  - simpl. by rewrite Ascii.eqb_refl.
  - rewrite string_app_cons. cbn [SplitByte]. rewrite IH. destruct (Ascii.eqb c sep); [done|].
    by destruct (SplitByte_cons sep s) as (l & ls & ->).
Qed.

(** A final line feed makes no difference to a scanner, unless the last line is
    empty. *)
Lemma ScanLines_final s : last (SplitByte LF s) <> Some "" -> ScanLines (s +:+ nl) = ScanLines s.
Proof.
  intros H. unfold ScanLines, nl. by rewrite SplitByte_final, drop_last_empty_snoc, drop_last_empty_id.
Qed.

Lemma scan_tokens_id ls : Forall (fun l => fits l = true /\ dropCR l = l) ls -> scan_tokens ls = ls.
Proof. induction 1 as [|l ls [Hf Hd] H IH]; simpl; [done|]. by rewrite Hf, Hd, IH. Qed.

(** A text cut at line feeds mentions a word without line feeds exactly when a
    line does. *)
Lemma HasPrefix_line sub s : has_byte LF sub = false ->
  HasPrefix s sub = match SplitByte LF s with l :: _ => HasPrefix l sub | [] => false end.
Proof.
  revert s. induction sub as [|c sub IH]; intros s H; simpl in H.
  - destruct (SplitByte_cons LF s) as (l & ls & ->). by destruct s, l.
  - apply orb_false_iff in H as [Hc H]. destruct s as [|d s]; simpl; [done|].
    destruct (Ascii.eqb d LF) eqn:Ed.
    + apply Ascii.eqb_eq in Ed as ->. unfold HasPrefix. simpl.
      destruct (ascii_dec c LF) as [->|]; [by rewrite Ascii.eqb_refl in Hc|done].
    + destruct (SplitByte_cons LF s) as (l & ls & E). specialize (IH s H). rewrite E in IH |- *.
      unfold HasPrefix in *. simpl. by destruct (ascii_dec c d).
Qed.

Lemma Contains_nil s : Contains s "" = true.
Proof. by destruct s. Qed.

Lemma Contains_cons c s sub : Contains (String c s) sub = HasPrefix (String c s) sub || Contains s sub.
Proof. reflexivity. Qed.

Lemma Contains_lines sub s : sub <> "" -> has_byte LF sub = false ->
  Contains s sub = existsb (fun l => Contains l sub) (SplitByte LF s).
Proof.
  intros Hne H. induction s as [|c s IH].
  - simpl. by destruct sub.
  - rewrite Contains_cons, (HasPrefix_line sub (String c s) H), IH. cbn [SplitByte].
    destruct (Ascii.eqb c LF); cbn [existsb]; [by destruct sub|].
    destruct (SplitByte_cons LF s) as (l & ls & ->). cbn [existsb].
    by rewrite Contains_cons, orb_assoc.
Qed.

End gostrings.
