(* ===== verification/Kube.v ===== *)
(** * Kubernetes objects

    The fields of the Kubernetes API types that the operator sets or reads.
    These types belong to [k8s.io/api] and [k8s.io/apimachinery]; only their
    fields are used, so they are plain records.  A nil Go map is [None].
    Quantities stay the literal given to [resource.MustParse]. *)

From S2P Require Import Prelude.

(** ** Metadata *)

Record TypeMeta := mkTypeMeta { APIVersion : string; Kind : string }.

Record OwnerReference := mkOwnerReference {
  or_APIVersion : string; or_Kind : string; or_Name : string; or_UID : string;
  or_Controller : bool }.

Record ObjectMeta := mkObjectMeta {
  om_Name : string;
  om_Namespace : string;
  om_Labels : gmap string string;
  om_Annotations : option (gmap string string);
  om_Generation : Z;
  om_ResourceVersion : string;
  om_UID : string;
  om_OwnerReferences : list OwnerReference }.

(** [metav1.ObjectMeta{Name, Namespace, Labels}]: the rest has zero values. *)
Definition newMeta (name namespace : string) (labels : gmap string string) : ObjectMeta :=
  mkObjectMeta name namespace labels None 0 "" "" [].

Definition with_annotations (m : ObjectMeta) (a : option (gmap string string)) : ObjectMeta :=
  mkObjectMeta (om_Name m) (om_Namespace m) (om_Labels m) a (om_Generation m)
    (om_ResourceVersion m) (om_UID m) (om_OwnerReferences m).

(** Reading a possibly nil map; a missing key gives the zero value [""]. *)
Definition map_get (m : option (gmap string string)) (k : string) : string :=
  default "" (m ≫= lookup k).

(** [metav1.Condition].  [LastTransitionTime] is compared for equality only. *)
Record Condition := mkCondition {
  c_Type : string;
  c_Status : string;
  c_ObservedGeneration : Z;
  c_LastTransitionTime : Z;
  c_Reason : string;
  c_Message : string }.

#[global] Instance Condition_eq_dec : EqDecision Condition.
Proof. solve_decision. Defined.

Definition ConditionTrue : string := "True".
Definition ConditionFalse : string := "False".

(** A condition built by a literal that sets type, status, reason, message. *)
Definition newCondition (type status reason message : string) : Condition :=
  mkCondition type status 0 0 reason message.

Definition set_ObservedGeneration (g : Z) (c : Condition) : Condition :=
  mkCondition (c_Type c) (c_Status c) g (c_LastTransitionTime c) (c_Reason c) (c_Message c).

(** ** Pods *)

Inductive IntOrString := FromInt32 (n : Z) | FromString (s : string).

Inductive Quantity := MustParse (s : string).

Record ResourceRequirements := mkResources {
  Limits : list (string * Quantity); Requests : list (string * Quantity) }.

Record SecurityContext := mkSecurityContext {
  AllowPrivilegeEscalation : option bool;
  ReadOnlyRootFilesystem : option bool;
  CapabilitiesDrop : list string;
  SeccompProfileType : string }.

Record SecretKeySelector := mkSecretKeySelector { sks_Name : string; sks_Key : string }.

Record EnvVar := mkEnvVar {
  ev_Name : string; ev_Value : string; ev_SecretKeyRef : option SecretKeySelector }.

Definition envValue (name value : string) : EnvVar := mkEnvVar name value None.

Record VolumeMount := mkVolumeMount {
  vm_Name : string; vm_MountPath : string; vm_SubPath : string; vm_ReadOnly : bool }.

Record ServiceAccountTokenProjection := mkTokenProjection {
  tp_Audience : string; tp_ExpirationSeconds : option Z; tp_Path : string }.

Inductive VolumeSource :=
| VolConfigMap (name : string)
| VolSecret (name : string)
| VolEmptyDir
| VolProjected (defaultMode : option Z) (sources : list ServiceAccountTokenProjection).

Record Volume := mkVolume { v_Name : string; v_Source : VolumeSource }.

Record ContainerPort := mkContainerPort {
  cp_Name : string; cp_ContainerPort : Z; cp_Protocol : string }.

Record Probe := mkProbe {
  HTTPGetPath : string; HTTPGetPort : IntOrString;
  InitialDelaySeconds : Z; PeriodSeconds : Z; TimeoutSeconds : Z; FailureThreshold : Z }.

Record Container := mkContainer {
  ct_Name : string;
  ct_Image : string;
  ct_ImagePullPolicy : string;
  ct_WorkingDir : string;
  ct_Command : list string;
  ct_Args : list string;
  ct_Ports : list ContainerPort;
  ct_Env : list EnvVar;
  ct_LivenessProbe : option Probe;
  ct_ReadinessProbe : option Probe;
  ct_Resources : ResourceRequirements;
  ct_SecurityContext : option SecurityContext;
  ct_VolumeMounts : list VolumeMount }.

Record PodSpec := mkPodSpec {
  AutomountServiceAccountToken : option bool;
  ServiceAccountName : string;
  TerminationGracePeriodSeconds : option Z;
  RunAsNonRoot : option bool;
  InitContainers : list Container;
  Containers : list Container;
  Volumes : list Volume }.

Record PodTemplateSpec := mkPodTemplateSpec {
  tpl_Labels : gmap string string;
  tpl_Annotations : option (gmap string string);
  tpl_Spec : PodSpec }.

(** ** Deployments *)

Record RollingUpdate := mkRollingUpdate { MaxSurge : IntOrString; MaxUnavailable : IntOrString }.

Record DeploymentSpec := mkDeploymentSpec {
  Replicas : option Z;
  ds_Selector : gmap string string;
  StrategyType : string;
  ds_RollingUpdate : option RollingUpdate;
  Template : PodTemplateSpec }.

Record DeploymentCondition := mkDeploymentCondition { dc_Type : string; dc_Status : string }.

(** Replica counts are [int32], the generation [int64]; the operator only
    compares them. *)
Record DeploymentStatus := mkDeploymentStatus {
  st_ObservedGeneration : Z;
  st_Replicas : Z;
  st_UpdatedReplicas : Z;
  st_AvailableReplicas : Z;
  st_Conditions : list DeploymentCondition }.

Definition zeroDeploymentStatus : DeploymentStatus := mkDeploymentStatus 0 0 0 0 [].

Record Deployment := mkDeployment {
  dep_TypeMeta : TypeMeta;
  dep_Meta : ObjectMeta;
  dep_Spec : DeploymentSpec;
  dep_Status : DeploymentStatus }.

Definition dep_Name (d : Deployment) : string := om_Name (dep_Meta d).

Definition with_template (d : Deployment) (t : PodTemplateSpec) : Deployment :=
  let s := dep_Spec d in
  mkDeployment (dep_TypeMeta d) (dep_Meta d)
    (mkDeploymentSpec (Replicas s) (ds_Selector s) (StrategyType s) (ds_RollingUpdate s) t)
    (dep_Status d).

Definition with_template_annotations (t : PodTemplateSpec) (a : option (gmap string string)) :
    PodTemplateSpec :=
  mkPodTemplateSpec (tpl_Labels t) a (tpl_Spec t).

(** ** The other operand kinds *)

Record ServicePort := mkServicePort {
  sp_Name : string; sp_Port : Z; sp_TargetPort : IntOrString; sp_Protocol : string;
  sp_AppProtocol : option string }.

Record Service := mkService {
  svc_TypeMeta : TypeMeta; svc_Meta : ObjectMeta;
  svc_Type : string; svc_Selector : gmap string string; svc_Ports : list ServicePort }.

Record ServiceAccount := mkServiceAccount { sa_TypeMeta : TypeMeta; sa_Meta : ObjectMeta }.

Record ConfigMap := mkConfigMap {
  cm_TypeMeta : TypeMeta; cm_Meta : ObjectMeta; cm_Data : gmap string string }.

Record PolicyRule := mkPolicyRule { Verbs : list string; Resources : list string }.

Record Role := mkRole { role_TypeMeta : TypeMeta; role_Meta : ObjectMeta; Rules : list PolicyRule }.

Record RoleRef := mkRoleRef { rr_APIGroup : string; rr_Kind : string; rr_Name : string }.
Record Subject := mkSubject { sj_Kind : string; sj_Name : string; sj_Namespace : string }.

Record RoleBinding := mkRoleBinding {
  rb_TypeMeta : TypeMeta; rb_Meta : ObjectMeta; rb_RoleRef : RoleRef; rb_Subjects : list Subject }.

Record NetworkPolicy := mkNetworkPolicy {
  np_TypeMeta : TypeMeta; np_Meta : ObjectMeta;
  np_PodSelector : gmap string string; np_PolicyTypes : list string;
  np_Ingress : list (list string) }.

(** [client.Object]: a pointer to one of the operand kinds.  Renderers return
    freshly allocated objects, so no two entries of a rendered list alias. *)
Inductive Object :=
| ODeployment (d : Deployment)
| OService (s : Service)
| OServiceAccount (s : ServiceAccount)
| OConfigMap (c : ConfigMap)
| ORole (r : Role)
| ORoleBinding (r : RoleBinding)
| ONetworkPolicy (n : NetworkPolicy).

Definition obj_TypeMeta (o : Object) : TypeMeta :=
  match o with
  | ODeployment d => dep_TypeMeta d
  | OService s => svc_TypeMeta s
  | OServiceAccount s => sa_TypeMeta s
  | OConfigMap c => cm_TypeMeta c
  | ORole r => role_TypeMeta r
  | ORoleBinding r => rb_TypeMeta r
  | ONetworkPolicy n => np_TypeMeta n
  end.

Definition obj_Meta (o : Object) : ObjectMeta :=
  match o with
  | ODeployment d => dep_Meta d
  | OService s => svc_Meta s
  | OServiceAccount s => sa_Meta s
  | OConfigMap c => cm_Meta c
  | ORole r => role_Meta r
  | ORoleBinding r => rb_Meta r
  | ONetworkPolicy n => np_Meta n
  end.

Definition obj_Name (o : Object) : string := om_Name (obj_Meta o).
Definition obj_Namespace (o : Object) : string := om_Namespace (obj_Meta o).
Definition obj_Labels (o : Object) : gmap string string := om_Labels (obj_Meta o).

(** The Go type of an object, as [GroupVersionKind] strings. *)
Inductive ObjectType :=
| TDeployment | TService | TServiceAccount | TConfigMap | TRole | TRoleBinding | TNetworkPolicy
| TSecret.

#[global] Instance ObjectType_eq_dec : EqDecision ObjectType.
Proof. solve_decision. Defined.

Definition obj_type (o : Object) : ObjectType :=
  match o with
  | ODeployment _ => TDeployment
  | OService _ => TService
  | OServiceAccount _ => TServiceAccount
  | OConfigMap _ => TConfigMap
  | ORole _ => TRole
  | ORoleBinding _ => TRoleBinding
  | ONetworkPolicy _ => TNetworkPolicy
  end.

(** The type assertions [o.( *appsv1.Deployment)] and [o.( *corev1.ConfigMap)]. *)
Definition as_deployment (o : Object) : option Deployment :=
  match o with ODeployment d => Some d | _ => None end.
Definition as_configmap (o : Object) : option ConfigMap :=
  match o with OConfigMap c => Some c | _ => None end.

(** The metadata a Secret read uses. *)
Record Secret := mkSecret { secret_Name : string; secret_ResourceVersion : string }.

(** ** What pods consume *)

(** The Secrets a pod spec needs at start: Secret volumes, and environment
    variables taken from a Secret key. *)
Definition volume_secrets (vs : list Volume) : list string :=
  vs ≫= fun v => match v_Source v with VolSecret n => [n] | _ => [] end.

Definition env_secrets (cs : list Container) : list string :=
  cs ≫= fun c => ct_Env c ≫= fun e =>
    match ev_SecretKeyRef e with Some k => [sks_Name k] | None => [] end.

Definition pod_secrets (p : PodSpec) : list string :=
  volume_secrets (Volumes p) ++ env_secrets (InitContainers p ++ Containers p).

Definition pod_configmaps (p : PodSpec) : list string :=
  Volumes p ≫= fun v => match v_Source v with VolConfigMap n => [n] | _ => [] end.

(** Every mount of every container names a volume of the pod. *)
Definition mounts_resolve (p : PodSpec) : bool :=
  forallb (fun c => forallb (fun m => existsb (fun v => String.eqb (v_Name v) (vm_Name m)) (Volumes p))
             (ct_VolumeMounts c))
          (InitContainers p ++ Containers p).
