(* ===== verification/ConfigTypes.v ===== *)
(** * The [HyperFleetConfig] resource ([api/v1alpha1])

    The custom resource's spec and status and the published vocabulary of its
    conditions.  A Go pointer field is an [option]. *)

From S2P Require Import Prelude Kube.

Definition SingletonName : string := "cluster".

(** [BundleType] is a string type; the CRD's enum lists the two constants. *)
Definition BundleType : Type := string.
Definition BundleCloudCAPI : BundleType := "cloud-capi".
Definition BundleOnPremAgent : BundleType := "onprem-agent".
Definition AllBundleTypes : list BundleType := [BundleCloudCAPI; BundleOnPremAgent].

Definition SizingProfile : Type := string.
Definition SizingProfileSmall : SizingProfile := "small".
Definition SizingProfileMedium : SizingProfile := "medium".
Definition SizingProfileLarge : SizingProfile := "large".
Definition AllSizingProfiles : list SizingProfile :=
  [SizingProfileSmall; SizingProfileMedium; SizingProfileLarge].

Definition ConditionAvailable : string := "Available".
Definition ConditionProgressing : string := "Progressing".
Definition ConditionDegraded : string := "Degraded".

Definition ReasonDeploymentAvailable : string := "DeploymentAvailable".
Definition ReasonDeploymentUnavailable : string := "DeploymentUnavailable".
Definition ReasonDeploymentNotReady : string := "DeploymentNotReady".
Definition ReasonRolloutInProgress : string := "RolloutInProgress".
Definition ReasonRolloutComplete : string := "RolloutComplete".
Definition ReasonAsExpected : string := "AsExpected".
Definition ReasonReferencedSecretMissing : string := "ReferencedSecretMissing".
Definition ReasonReconcileError : string := "ReconcileError".

(** [v1alpha1.SecretReference]. *)
Record SecretRef := mkSecretRef { ref_Name : string }.

Record DatabaseSpec := mkDatabaseSpec { db_SecretRef : SecretRef }.

Record AuthSpec := mkAuthSpec {
  Enabled : option bool;
  Issuer : string;
  Audience : string;
  JWKCertSecretRef : option SecretRef }.

Record TLSSpec := mkTLSSpec { tls_SecretRef : SecretRef }.

Record APISpec := mkAPISpec {
  Database : DatabaseSpec;
  Auth : AuthSpec;
  TLS : option TLSSpec;
  Profile : SizingProfile }.

Record HyperFleetConfigSpec := mkSpec { spec_Bundle : BundleType; spec_API : APISpec }.

Record ComponentConditions := mkComponentConditions {
  cc_Name : string; cc_Conditions : list Condition }.

Record HyperFleetConfigStatus := mkStatus {
  status_ObservedGeneration : Z;
  status_Conditions : list Condition;
  status_Components : list ComponentConditions }.

Record HyperFleetConfig := mkConfig {
  cr_Name : string;
  cr_Generation : Z;
  cr_UID : string;
  cr_Spec : HyperFleetConfigSpec;
  cr_Status : HyperFleetConfigStatus }.

Definition with_status (cr : HyperFleetConfig) (s : HyperFleetConfigStatus) : HyperFleetConfig :=
  mkConfig (cr_Name cr) (cr_Generation cr) (cr_UID cr) (cr_Spec cr) s.

Definition with_conditions (s : HyperFleetConfigStatus) (l : list Condition) :
    HyperFleetConfigStatus :=
  mkStatus (status_ObservedGeneration s) l (status_Components s).

(** Field paths the components read. *)
Definition auth_of (cr : HyperFleetConfig) : AuthSpec := Auth (spec_API (cr_Spec cr)).
Definition tls_of (cr : HyperFleetConfig) : option TLSSpec := TLS (spec_API (cr_Spec cr)).
Definition database_secret (cr : HyperFleetConfig) : string :=
  ref_Name (db_SecretRef (Database (spec_API (cr_Spec cr)))).

#[global] Instance ComponentConditions_eq_dec : EqDecision ComponentConditions.
Proof. solve_decision. Defined.

(** The condition reasons an operator publishes. *)
Definition published_reasons : list string :=
  [ReasonDeploymentAvailable; ReasonDeploymentUnavailable; ReasonDeploymentNotReady;
   ReasonRolloutInProgress; ReasonRolloutComplete; ReasonAsExpected;
   ReasonReferencedSecretMissing; ReasonReconcileError].
