(* ===== verification/Scheme.v ===== *)
(** * Registration of the resource's types ([groupversion_info.go], [init] of the types and of [cmd/main.go])

    Before [main] runs, the initialisation of the packages fills the scheme every
    client and cache of the operator is built on.  The scheme and its builder are
    apimachinery's, the class [SchemeLib]; what is modelled is the order in which
    the packages use them, and that [AddToScheme] is bound to the variable
    [SchemeBuilder], not to the value it has when [AddToScheme] is initialised. *)

From S2P Require Import Prelude.

Module scheme.

Record GroupVersion := mkGroupVersion { Group : string; Version : string }.

#[export] Instance GroupVersion_eq_dec : EqDecision GroupVersion.
Proof. solve_decision. Defined.

Definition SchemeGroupVersion : GroupVersion := mkGroupVersion "hyperfleet.redhat.com" "v1alpha1".
Definition GroupVersionAlias : GroupVersion := SchemeGroupVersion.

(** ** The library *)

(** A function on a pointer to a scheme that returns an error. *)
Definition SchemeFunc (S : Type) : Type := ST S (outcome unit).

(** A type is named by its kind, the name of the Go type. *)
Class SchemeLib := {
  Scheme : Type;
  Builder : Type;
  NewScheme : Scheme;
  NewSchemeBuilder (funcs : list (SchemeFunc Scheme)) : Builder;
  Register (sb : Builder) (funcs : list (SchemeFunc Scheme)) : Builder;
  Builder_AddToScheme (sb : Builder) : SchemeFunc Scheme;
  AddToGroupVersion (gv : GroupVersion) : Scheme -> Scheme;
  AddKnownTypes (gv : GroupVersion) (kinds : list string) : SchemeFunc Scheme;
  clientgoscheme_AddToScheme : SchemeFunc Scheme;
  recognizes : Scheme -> GroupVersion -> string -> bool;
  metaKinds : list string }.

(** A builder calls its functions in the order of registration, up to the first
    error; registering a kind twice for different types panics. *)
Class SchemeLaws (L : SchemeLib) := {
  AddToScheme_New funcs s :
    Builder_AddToScheme (NewSchemeBuilder funcs) s = so_iter id funcs s;
  AddToScheme_Register sb funcs s :
    Builder_AddToScheme (Register sb funcs) s = so_bind (Builder_AddToScheme sb) (fun _ => so_iter id funcs) s;
  AddToGroupVersion_adds gv s gv' k :
    recognizes (AddToGroupVersion gv s) gv' k = recognizes s gv' k || bool_decide (gv' = gv /\ k ∈ metaKinds);
  AddKnownTypes_adds gv kinds s : Forall (fun k => recognizes s gv k = false) kinds ->
    exists s', AddKnownTypes gv kinds s = (Ok tt, s') /\
      forall gv' k, recognizes s' gv' k = recognizes s gv' k || bool_decide (gv' = gv /\ k ∈ kinds) }.

Section init.
Context `{L : SchemeLib}.
#[local] Open Scope st_scope.

(** ** The package variables *)

Record Globals := mkGlobals { SchemeBuilder : Builder; main_scheme : Scheme }.

(** The function that [SchemeBuilder] is created with. *)
Definition add_group_version : SchemeFunc Scheme :=
  fun s => (Ok tt, AddToGroupVersion SchemeGroupVersion s).

(** The variables of [v1alpha1] and of [main]. *)
Definition init_vars : Globals := mkGlobals (NewSchemeBuilder [add_group_version]) NewScheme.

(** [&HyperFleetConfig{}, &HyperFleetConfigList{}]. *)
Definition known_kinds : list string := ["HyperFleetConfig"; "HyperFleetConfigList"].

Definition add_known_types : SchemeFunc Scheme :=
  let!? _ := AddKnownTypes SchemeGroupVersion known_kinds in st_ret (Ok tt).

(** [init] of [hyperfleetconfig_types.go]. *)
Definition init_types : ST Globals unit :=
  modify (fun g => mkGlobals (Register (SchemeBuilder g) [add_known_types]) (main_scheme g)).

(** A function run on the scheme of [main]. *)
Definition on_scheme (f : Globals -> SchemeFunc Scheme) : ST Globals (outcome unit) :=
  fun g => let '(r, s) := f g (main_scheme g) in (r, mkGlobals (SchemeBuilder g) s).

(** The method value [SchemeBuilder.AddToScheme] has the variable's address as its
    receiver, so it uses what is registered when it is called. *)
Definition AddToScheme : ST Globals (outcome unit) :=
  on_scheme (fun g => Builder_AddToScheme (SchemeBuilder g)).

(** [utilruntime.Must] panics on an error. *)
Definition Must (m : ST Globals (outcome unit)) : ST Globals (outcome unit) :=
  fun g => match m g with
           | (Fail _, g') => (Panic, g')
           | r => r
           end.

(** [init] of [cmd/main.go]. *)
Definition init_main : ST Globals (outcome unit) :=
  let!? _ := Must (on_scheme (fun _ => clientgoscheme_AddToScheme)) in
  let!? _ := Must AddToScheme in
  st_ret (Ok tt).

(** The imported package is initialised first. *)
Definition package_init : ST Globals (outcome unit) :=
  let! _ := init_types in init_main.

(** ** Theorems *)

Context {SL : SchemeLaws L}.

Lemma builder_run s : exists r, Builder_AddToScheme (SchemeBuilder (snd (init_types init_vars))) s = r /\
  r = so_bind (AddKnownTypes SchemeGroupVersion known_kinds) (fun _ => st_ret (Ok tt))
        (AddToGroupVersion SchemeGroupVersion s).
Proof.
  eexists. split; [reflexivity|]. cbn [SchemeBuilder init_types init_vars modify snd].
  rewrite AddToScheme_Register. unfold so_bind at 1. rewrite AddToScheme_New. cbn.
  unfold so_bind, add_known_types, st_ret. unfold so_bind.
  by destruct (AddKnownTypes _ _ _) as [[[]|e|] s'].
Qed.

(** When the types of client-go can be added and none of them takes the kinds of
    the resource, the process starts, its scheme recognises the resource and its
    list in the group's version, and everything client-go added. *)
Theorem scheme_recognizes s1 :
  clientgoscheme_AddToScheme NewScheme = (Ok tt, s1) ->
  Forall (fun k => recognizes s1 SchemeGroupVersion k = false /\ k ∉ metaKinds) known_kinds ->
  exists g, package_init init_vars = (Ok tt, g)
  /\ Forall (fun k => recognizes (main_scheme g) GroupVersionAlias k = true) known_kinds
  /\ forall gv k, recognizes s1 gv k = true -> recognizes (main_scheme g) gv k = true.
Proof.
  intros Hc Hfree. unfold package_init, st_bind.
  destruct (init_types init_vars) as [u g0] eqn:E0.
  assert (Hg0 : SchemeBuilder g0 = SchemeBuilder (snd (init_types init_vars)) /\ main_scheme g0 = NewScheme).
  { rewrite E0. by injection E0 as _ <-. }
  destruct Hg0 as [Hb Hs]. unfold init_main, so_bind at 1, Must at 1, on_scheme. rewrite Hs, Hc.
  unfold so_bind, Must, AddToScheme, on_scheme. cbn [SchemeBuilder main_scheme]. rewrite Hb.
  destruct (builder_run s1) as (r & -> & ->). unfold so_bind.
  destruct (AddKnownTypes_adds SchemeGroupVersion known_kinds
              (AddToGroupVersion SchemeGroupVersion s1)) as (s2 & -> & Hs2).
  { eapply Forall_impl; [exact Hfree|]. intros k [Hk Hm]. rewrite AddToGroupVersion_adds, Hk.
    apply bool_decide_eq_false_2. by intros [_ ?]. }
  eexists. split; [reflexivity|]. cbn [main_scheme]. split.
  - apply Forall_forall. intros k Hk. rewrite Hs2. apply orb_true_intro. right.
    by apply bool_decide_eq_true_2.
  - intros gv k Hk. by rewrite Hs2, AddToGroupVersion_adds, Hk.
Qed.

End init.

(** ** A concrete library: the scheme is the list of what it recognises *)

#[local] Instance list_scheme : SchemeLib := {
  Scheme := list (GroupVersion * string);
  Builder := list (SchemeFunc (list (GroupVersion * string)));
  NewScheme := [];
  NewSchemeBuilder funcs := funcs;
  Register sb funcs := sb ++ funcs;
  Builder_AddToScheme sb := so_iter id sb;
  AddToGroupVersion gv s := s ++ ((fun k => (gv, k)) <$> ["ListOptions"; "WatchEvent"]);
  AddKnownTypes gv kinds s := (Ok tt, s ++ ((fun k => (gv, k)) <$> kinds));
  clientgoscheme_AddToScheme s := (Ok tt, s ++ [(mkGroupVersion "apps" "v1", "Deployment")]);
  recognizes s gv k := bool_decide ((gv, k) ∈ s);
  metaKinds := ["ListOptions"; "WatchEvent"] }.

Lemma so_iter_app {S A} (f : A -> ST S (outcome unit)) l1 l2 s :
  so_iter f (l1 ++ l2) s = so_bind (so_iter f l1) (fun _ => so_iter f l2) s.
Proof.
  revert s. induction l1 as [|x l1 IH]; intros s; cbn; [done|]. unfold so_bind.
  destruct (f x s) as [[a|e|] s']; [|done|done]. rewrite IH. unfold so_bind.
  by destruct (so_iter f l1 s') as [[?|?|] ?].
Qed.

Lemma recognizes_app (gv : GroupVersion) (ks : list string) (s : list (GroupVersion * string)) gv' k :
  bool_decide ((gv', k) ∈ s ++ ((fun k => (gv, k)) <$> ks)) =
  bool_decide ((gv', k) ∈ s) || bool_decide (gv' = gv /\ k ∈ ks).
Proof.
  rewrite <- bool_decide_or. apply bool_decide_ext.
  rewrite elem_of_app, list_elem_of_fmap. naive_solver.
Qed.

#[local] Instance list_scheme_laws : SchemeLaws list_scheme.
Proof.
  split; cbn.
  - done.
  - intros. apply so_iter_app.
  - intros. exact (recognizes_app gv ["ListOptions"; "WatchEvent"] s gv' k).
  - intros gv kinds s _. eexists. split; [reflexivity|]. intros. apply recognizes_app.
Qed.

Lemma scheme_recognizes_demo : exists g, package_init init_vars = (Ok tt, g)
  /\ Forall (fun k => recognizes (main_scheme g) GroupVersionAlias k = true) known_kinds
  /\ forall gv k, recognizes [(mkGroupVersion "apps" "v1", "Deployment")] gv k = true -> recognizes (main_scheme g) gv k = true.
Proof.
  apply scheme_recognizes; [reflexivity|].
  repeat (apply Forall_cons; split; [split; [vm_compute; reflexivity|apply (bool_decide_unpack _); vm_compute; exact I]|]).
  apply Forall_nil_2.
Defined.

End scheme.
