(* ===== verification/Heap.v ===== *)
(** * Memory

    Go's memory as far as aliasing matters: variables and arrays at locations,
    pointers, slices, allocation, loads and stores.  The class [DeepCopier] is the
    contract of a [DeepCopyInto] method: [DeepCopierLaws] says that the copy reads
    as the original does and shares no location with anything that existed before.
    Pointers and slices of copyable types are copyable. *)

From S2P Require Import Prelude.

Module heap.

Abbreviation loc := positive.

(** What is stored at each location: a variable, or the array under a slice. *)
Abbreviation Heap Cell := (gmap loc Cell).

(** A Go type whose variables can be allocated. *)
Class Storable (Cell T : Type) := {
  inject : T -> Cell;
  project : Cell -> option T;
  project_inject x : project (inject x) = Some x;
}.

(** The zero value of a type. *)
Class Zero (T : Type) := zero : T.

(** A pointer, possibly nil, and a slice: a window of an array, or nil. *)
Definition Ptr (T : Type) : Type := option loc.
Record Window := mkWindow { arr : loc; off : nat; len : nat }.
Definition Slice (T : Type) : Type := option Window.

Section operations.
Context {Cell T : Type} `{!Storable Cell T}.

(** [*p]: a nil or dangling pointer panics. *)
Definition load (p : loc) : ST (Heap Cell) (outcome T) := fun h =>
  (match h !! p ≫= project with Some x => Ok x | None => Panic end, h).
Definition store (p : loc) (x : T) : ST (Heap Cell) (outcome unit) := fun h =>
  match h !! p with Some _ => (Ok tt, <[p := inject x]> h) | None => (Panic, h) end.

(** [new(T)], initialised. *)
Definition new (x : T) : ST (Heap Cell) (outcome loc) := fun h =>
  let p := fresh (dom h : gset loc) in (Ok p, <[p := inject x]> h).

End operations.

Section slices.
Context {Cell T : Type} `{!Storable Cell (list T)} `{!Zero T}.

(** [make([]T, n)]. *)
Definition make (n : nat) : ST (Heap Cell) (outcome Window) :=
  (let!? p := new (replicate n zero) in st_ret (Ok (mkWindow p 0 n)))%st.

(** [s[i]] and [s[i] = x]: an index out of range panics. *)
Definition load_index (s : Window) (i : nat) : ST (Heap Cell) (outcome T) :=
  (let!? l := load (T := list T) (arr s) in
   st_ret (if (i <? len s)%nat then match l !! (off s + i)%nat with Some x => Ok x | None => Panic end
           else Panic))%st.
Definition store_index (s : Window) (i : nat) (x : T) : ST (Heap Cell) (outcome unit) :=
  (let!? l := load (T := list T) (arr s) in
   if ((i <? len s) && (off s + i <? length l))%nat
   then store (arr s) (<[(off s + i)%nat := x]> l)
   else st_ret Panic)%st.

(** The elements in a window. *)
Definition elements (h : Heap Cell) (s : Window) : option (list T) :=
  match h !! arr s ≫= project with
  | Some l => if (off s + len s <=? length l)%nat then Some (take (len s) (drop (off s) l)) else None
  | None => None
  end.

End slices.

(** ** Copyable types *)

(** [reads h v]: the tree of values that [v] stands for in memory [h], if no
    pointer dangles; [reach h v]: the locations it goes through. *)
Class DeepCopier (Cell T V : Type) := {
  reads : Heap Cell -> T -> option V;
  reach : Heap Cell -> T -> gset loc;
  DeepCopyInto : T -> ST (Heap Cell) (outcome T);
}.

(** [v'] in [h'] is an independent copy of what reads as [x] in [h]. *)
Definition copied `{!DeepCopier Cell T V} (h : Heap Cell) (x : V) (v' : T) (h' : Heap Cell) : Prop :=
  h ⊆ h' /\ reads h' v' = Some x /\ reach h' v' ## dom h.

Class DeepCopierLaws (Cell T V : Type) `{!DeepCopier Cell T V} := {
  reads_frame h1 h2 (v : T) (x : V) :
    reads h1 v = Some x -> (forall l, l ∈ reach h1 v -> h2 !! l = h1 !! l) ->
    reads h2 v = Some x /\ reach h2 v = reach h1 v;
  reach_dom h (v : T) (x : V) : reads h v = Some x -> reach h v ⊆ dom h;
  copies h (v : T) (x : V) : reads h v = Some x ->
    exists v' h', DeepCopyInto v h = (Ok v', h') /\ copied h x v' h';
}.

(** A type without pointers is copied by assignment. *)
Definition flat_DeepCopier Cell T : DeepCopier Cell T T :=
  {| reads _ v := Some v; reach _ _ := ∅; DeepCopyInto v := st_ret (Ok v) |}.
Lemma flat_laws `{!DeepCopier Cell T T} :
  (forall h (v : T), reads h v = Some v /\ reach h v = ∅ /\ DeepCopyInto v h = (Ok v, h)) -> DeepCopierLaws Cell T T.
Proof.
  intros Hf. constructor.
  - intros h1 h2 v x Hr _. destruct (Hf h1 v) as (E & -> & _), (Hf h2 v) as (-> & -> & _). by rewrite <-E.
  - intros h v x _. destruct (Hf h v) as (_ & -> & _). apply empty_subseteq.
  - intros h v x Hr. destruct (Hf h v) as (_ & E & Hc). exists v, h. split; [done|]. split; [done|].
    split; [done|]. rewrite E. apply disjoint_empty_l.
Qed.

(** [DeepCopy], and a block [if in.F != nil { out.F = new(T); *out.F = *in.F }]. *)
Definition copy_ptr `{!Storable Cell T, !Zero T, !DeepCopier Cell T V} (p : Ptr T) :
    ST (Heap Cell) (outcome (Ptr T)) :=
  match p with
  | None => st_ret (Ok None)
  | Some p =>
      (let!? q := new zero in
       let!? x := load p in
       let!? y := DeepCopyInto x in
       let!? _ := store q y in
       st_ret (Ok (Some q)))%st
  end.

(** A block [if in.F != nil { out.F = make(...); for i := range ... }]. *)
Definition copy_slice `{!Storable Cell (list T), !Zero T, !DeepCopier Cell T V} (s : Slice T) :
    ST (Heap Cell) (outcome (Slice T)) :=
  match s with
  | None => st_ret (Ok None)
  | Some s =>
      (let!? t := make (len s) in
       let!? _ := so_iter (fun i => let!? x := load_index s i in
                                    let!? y := DeepCopyInto x in
                                    store_index t i y) (seq 0 (len s)) in
       st_ret (Ok (Some t)))%st
  end.

#[global] Instance Ptr_DeepCopier `{!Storable Cell T, !Zero T, !DeepCopier Cell T V} :
    DeepCopier Cell (Ptr T) (option V) := {|
  reads h p := match p with
               | None => Some None
               | Some l => v ← h !! l ≫= project; x ← reads h v; Some (Some x)
               end;
  reach h p := match p with
               | None => ∅
               | Some l => {[l]} ∪ match h !! l ≫= project with Some v => reach h v | None => ∅ end
               end;
  DeepCopyInto := copy_ptr |}.

#[global] Instance Slice_DeepCopier `{!Storable Cell (list T), !Zero T, !DeepCopier Cell T V} :
    DeepCopier Cell (Slice T) (option (list V)) := {|
  reads h s := match s with
               | None => Some None
               | Some s => l ← elements h s; x ← mapM (reads h) l; Some (Some x)
               end;
  reach h s := match s with
               | None => ∅
               | Some s => {[arr s]} ∪ ⋃ (reach h <$> default [] (elements h s))
               end;
  DeepCopyInto := copy_slice |}.

(** ** Their laws *)

Section laws.
Context {Cell : Type}.
Implicit Types h : Heap Cell.

Lemma fresh_notin h : h !! fresh (dom h : gset loc) = None.
Proof. apply (not_elem_of_dom (D := gset loc)), is_fresh. Qed.

Lemma agrees_subseteq h h' : h ⊆ h' -> forall l, l ∈ dom h -> h' !! l = h !! l.
Proof. intros Hs l [x Hx]%elem_of_dom. rewrite Hx. by eapply lookup_weaken. Qed.

Section one.
Context `{!DeepCopier Cell T V, !DeepCopierLaws Cell T V}.

Lemma reads_ext h h' (v : T) (x : V) : reads h v = Some x -> h ⊆ h' ->
  reads h' v = Some x /\ reach h' v = reach h v.
Proof.
  intros Hr Hs. apply reads_frame; [done|]. intros l Hl. apply agrees_subseteq; [done|].
  by apply (reach_dom h v x Hr).
Qed.

(** A copy stays one while memory grows, and a copy made later is one of what was there before. *)
Lemma copied_grow h x (v' : T) h1 h2 : copied h x v' h1 -> h1 ⊆ h2 -> copied h x v' h2.
Proof.
  intros (Hs & Hr & Hd) H12. destruct (reads_ext _ _ _ _ Hr H12) as [? Hreach].
  split; [by etrans|]. split; [done|]. by rewrite Hreach.
Qed.

Lemma copied_early h h1 x (v' : T) h2 : h ⊆ h1 -> copied h1 x v' h2 -> copied h x v' h2.
Proof.
  intros Hs (Hs2 & Hr & Hd). split; [by etrans|]. split; [done|].
  apply subseteq_dom in Hs. set_solver.
Qed.

(** A store outside what is reached leaves a copy alone. *)
Lemma copied_store h x (v' : T) h1 q c : q ∉ dom h -> q ∉ reach h1 v' -> copied h x v' h1 ->
  copied h x v' (<[q := c]> h1).
Proof.
  intros Hq Hv (Hs & Hr & Hd).
  destruct (reads_frame h1 (<[q := c]> h1) v' x Hr) as [? Hreach].
  { intros l Hl. apply lookup_insert_ne. by intros ->. }
  split; [|by rewrite Hreach]. apply insert_subseteq_r; [|done]. by apply not_elem_of_dom.
Qed.

End one.

End laws.

Section pointers.
Context `{!Storable Cell T, !Zero T, !DeepCopier Cell T V, !DeepCopierLaws Cell T V}.
Implicit Types h : Heap Cell.

Lemma read_ptr h l x : reads h (Some l : Ptr T) = Some x ->
  exists v y, h !! l ≫= project = Some v /\ reads h v = Some y /\ x = Some y.
Proof.
  cbn. intros (v & Hv & (y & Hy & [= <-])%bind_Some)%bind_Some. eauto.
Qed.

Lemma ptr_frame h1 h2 (p : Ptr T) x : reads h1 p = Some x ->
  (forall l, l ∈ reach h1 p -> h2 !! l = h1 !! l) -> reads h2 p = Some x /\ reach h2 p = reach h1 p.
Proof.
  destruct p as [l|]; [|done]. intros (v & y & Hv & Hy & ->)%read_ptr Hag. cbn in *. rewrite Hv in Hag.
  rewrite (Hag l) by set_solver. rewrite Hv. cbn.
  destruct (reads_frame h1 h2 v y Hy) as [-> ->]; [|done]. intros l' ?. apply Hag. set_solver.
Qed.

Lemma ptr_dom h (p : Ptr T) x : reads h p = Some x -> reach h p ⊆ dom h.
Proof.
  destruct p as [l|]; [|cbn; intros _; apply empty_subseteq]. intros (v & y & Hv & Hy & _)%read_ptr. cbn. rewrite Hv.
  apply reach_dom in Hy. apply bind_Some in Hv as (c & Hc & _). apply elem_of_dom_2 in Hc. set_solver.
Qed.

Lemma ptr_copies h (p : Ptr T) x : reads h p = Some x ->
  exists p' h', copy_ptr p h = (Ok p', h') /\ copied h x p' h'.
Proof.
  destruct p as [l|].
  2:{ cbn. intros [= <-]. exists None, h. split; [done|]. split; [done|]. split; [done|]. cbn. apply disjoint_empty_l. }
  intros (v & y & Hv & Hy & ->)%read_ptr. unfold copy_ptr, so_bind, new, load.
  set (q := fresh (dom h : gset loc)). pose proof (fresh_notin h) as Hq. fold q in Hq.
  set (h1 := <[q := inject zero]> h). assert (Hs1 : h ⊆ h1) by by apply insert_subseteq.
  assert (Hl1 : h1 !! l = h !! l).
  { unfold h1. rewrite lookup_insert_ne; [done|]. intros <-. by rewrite Hq in Hv. }
  rewrite Hl1, Hv. destruct (reads_ext _ _ _ _ Hy Hs1) as [Hy1 _].
  destruct (copies h1 v y Hy1) as (v' & h2 & -> & Hc). unfold store.
  assert (Hq2 : is_Some (h2 !! q)).
  { exists (inject zero). apply (lookup_weaken h1); [|apply Hc]. apply lookup_insert_eq. }
  destruct Hq2 as [c ->]. cbn. eexists _, _. split; [reflexivity|].
  assert (Hqd : q ∉ dom h) by by apply not_elem_of_dom.
  assert (Hqv : q ∉ reach h2 v').
  { destruct Hc as (_ & _ & Hd). intros Hin. apply (Hd q Hin). apply elem_of_dom_2 with (inject zero). apply lookup_insert_eq. }
  pose proof (copied_store h y v' h2 q (inject v') Hqd Hqv (copied_early _ _ _ _ _ Hs1 Hc)) as (H1 & H2 & H3).
  split; [done|]. cbn. rewrite lookup_insert_eq. cbn. rewrite project_inject. cbn. rewrite H2. split; [done|]. set_solver.
Qed.

#[global] Instance Ptr_laws : DeepCopierLaws Cell (Ptr T) (option V).
Proof. constructor; [apply ptr_frame|apply ptr_dom|apply ptr_copies]. Qed.

End pointers.

Section windows.
Context `{!Storable Cell (list T), !Zero T, !DeepCopier Cell T V, !DeepCopierLaws Cell T V}.
Implicit Types h : Heap Cell.

Lemma elements_spec h s l : elements (T := T) h s = Some l <->
  exists l0, h !! arr s ≫= project = Some l0 /\ (off s + len s <= length l0)%nat
    /\ l = take (len s) (drop (off s) l0).
Proof.
  unfold elements. destruct (h !! arr s ≫= project) as [l0|]; [|naive_solver].
  destruct (Nat.leb_spec (off s + len s) (length l0)); [naive_solver|].
  split; [done|]. intros (? & [= <-] & ? & _). lia.
Qed.

Lemma elements_length h s l : elements (T := T) h s = Some l -> length l = len s.
Proof. intros (l0 & _ & Hl & ->)%elements_spec. rewrite length_take, length_drop. lia. Qed.

Lemma elements_frame h1 h2 s : h2 !! arr s = h1 !! arr s -> elements (T := T) h2 s = elements h1 s.
Proof. unfold elements. by intros ->. Qed.

Lemma read_slice h s x : reads h (Some s : Slice T) = Some x ->
  exists l xs, elements h s = Some l /\ mapM (reads h) l = Some xs /\ x = Some xs
    /\ reach h (Some s : Slice T) = {[arr s]} ∪ ⋃ (reach h <$> l).
Proof.
  cbn. intros (l & Hl & (xs & Hx & [= <-])%bind_Some)%bind_Some. rewrite Hl. eauto 10.
Qed.

Lemma slice_frame h1 h2 (s : Slice T) x : reads h1 s = Some x ->
  (forall l, l ∈ reach h1 s -> h2 !! l = h1 !! l) -> reads h2 s = Some x /\ reach h2 s = reach h1 s.
Proof.
  destruct s as [s|]; [|done]. intros (l & xs & Hl & Hx & -> & Hre)%read_slice Hag. rewrite Hre in Hag |- *.
  assert (He : elements h2 s = Some l) by (rewrite (elements_frame h1); [done|]; apply Hag; set_solver).
  assert (Hall : mapM (reads h2) l = Some xs /\ reach h2 <$> l = reach h1 <$> l).
  { clear He Hl Hre. revert xs Hx. induction l as [|v l IH]; intros xs Hx; [done|].
    cbn in Hx |- *. apply bind_Some in Hx as (y & Hy & (ys & Hys & [= <-])%bind_Some).
    destruct (reads_frame h1 h2 v y Hy) as [-> ->]; [set_solver|]. destruct (IH) with (xs := ys) as [IH1 IH2].
    - intros l' Hl'. apply Hag. cbn. set_solver.
    - done.
    - cbn. rewrite IH1. split; [done|]. f_equal. exact IH2. }
  destruct Hall as [H1 H2]. cbn. rewrite He. cbn. rewrite H1. split; [done|]. by rewrite H2.
Qed.

Lemma slice_dom h (s : Slice T) x : reads h s = Some x -> reach h s ⊆ dom h.
Proof.
  destruct s as [s|]; [|cbn; intros _; apply empty_subseteq].
  intros (l & xs & Hl & Hx & _ & ->)%read_slice. apply union_subseteq; split.
  - apply elements_spec in Hl as (l0 & (c & Hc & _)%bind_Some & _). apply elem_of_dom_2 in Hc. set_solver.
  - clear Hl. revert xs Hx. induction l as [|v l IH]; intros xs Hx; cbn; [set_solver|].
    cbn in Hx. apply bind_Some in Hx as (y & Hy & (ys & Hys & _)%bind_Some).
    apply union_subseteq. split; [by apply reach_dom in Hy|by eapply IH].
Qed.

(** The loop over the indices, from [i] on: the array at [q] holds the copies made so far. *)
Definition copies_of h q hi (ys : list T) (xs : list V) : Prop :=
  Forall2 (fun y x => copied h x y hi /\ q ∉ reach hi y) ys xs.

Lemma copies_of_grow h q hi h2 ys xs : copies_of h q hi ys xs -> hi ⊆ h2 -> copies_of h q h2 ys xs.
Proof.
  intros H Hs. eapply Forall2_impl; [exact H|]. intros y x [Hc Hq]. split; [by eapply copied_grow|].
  destruct Hc as (_ & Hr & _). by destruct (reads_ext _ _ _ _ Hr Hs) as [_ ->].
Qed.

Lemma copies_of_store h q hi c ys xs : q ∉ dom h -> copies_of h q hi ys xs ->
  copies_of h q (<[q := c]> hi) ys xs.
Proof.
  intros Hq H. eapply Forall2_impl; [exact H|]. intros y x [Hc Hr]. split; [by apply copied_store|].
  destruct Hc as (_ & Hx & _). destruct (reads_frame hi (<[q := c]> hi) y x Hx) as [_ ->]; [|done].
  intros l Hl. apply lookup_insert_ne. by intros ->.
Qed.

Lemma load_elem h hi s l i v : elements h s = Some l -> h ⊆ hi -> l !! i = Some v ->
  load_index (T := T) s i hi = (Ok v, hi).
Proof.
  intros Hl Hs Hi. pose proof (elements_length _ _ _ Hl) as Hlen. pose proof (lookup_lt_Some _ _ _ Hi) as Hlt.
  apply elements_spec in Hl as (l0 & (c & Hc & Hp)%bind_Some & _ & ->).
  unfold load_index, so_bind, load. rewrite (lookup_weaken _ _ _ _ Hc Hs). cbn [mbind option_bind]. rewrite Hp.
  destruct (Nat.ltb_spec i (len s)); [|lia]. rewrite lookup_take_lt, lookup_drop in Hi by lia. by rewrite Hi.
Qed.

Lemma store_elem h q n ys (z y : T) rest :
  h !! q = Some (inject (ys ++ z :: rest)) -> n = length (ys ++ z :: rest) ->
  store_index (mkWindow q 0 n) (length ys) y h = (Ok tt, <[q := inject (ys ++ y :: rest)]> h).
Proof.
  intros Hq ->. unfold store_index, so_bind, load. cbn [arr off len]. rewrite Hq. cbn [mbind option_bind].
  rewrite project_inject.
  assert (Hlt : (length ys <? length (ys ++ z :: rest))%nat = true)
    by (apply Nat.ltb_lt; rewrite length_app; cbn; lia).
  rewrite Nat.add_0_l, Hlt. cbn [andb]. unfold store. rewrite Hq. by rewrite (insert_app_r_alt ys (z :: rest) (length ys) y), Nat.sub_diag by done.
Qed.

Lemma copy_loop h s l xs q : elements h s = Some l -> mapM (reads h) l = Some xs -> q ∉ dom h ->
  forall n i ys hi, (i + n)%nat = len s -> length ys = i -> h ⊆ hi ->
    hi !! q = Some (inject (ys ++ replicate n zero)) -> copies_of h q hi ys (take i xs) ->
    exists ys' hf, so_iter (fun i => let!? x := load_index s i in
                                     let!? y := DeepCopyInto x in
                                     store_index (mkWindow q 0 (len s)) i y)%st (seq i n) hi = (Ok tt, hf)
      /\ h ⊆ hf /\ hf !! q = Some (inject ys') /\ copies_of h q hf ys' xs.
Proof.
  intros Hl Hxs Hq. pose proof (elements_length _ _ _ Hl) as Hlen. pose proof (Forall2_length _ _ _ (mapM_Some_1 _ _ _ Hxs)) as Hlx.
  induction n as [|n IH]; intros i ys hi Hi Hys Hs Hqi Hc.
  { exists ys, hi. rewrite app_nil_r in Hqi. rewrite take_ge in Hc by lia. done. }
  destruct (lookup_lt_is_Some_2 l i) as [v Hv]; [lia|].
  destruct (Forall2_lookup_l _ _ _ _ _ (mapM_Some_1 _ _ _ Hxs) Hv) as (x & Hxi & Hr).
  destruct (reads_ext _ _ _ _ Hr Hs) as [Hri _]. destruct (copies hi v x Hri) as (y & h2 & He & Hcy).
  assert (Hqi2 : h2 !! q = Some (inject (ys ++ zero :: replicate n zero)))
    by (eapply lookup_weaken; [exact Hqi|apply Hcy]).
  cbn [seq so_iter]. unfold so_bind at 1 2 3. rewrite (load_elem h hi s l i v Hl Hs Hv), He. subst i.
  rewrite (store_elem h2 q (len s) ys zero y (replicate n zero) Hqi2)
    by (rewrite length_app; cbn; rewrite length_replicate; lia).
  apply (IH _ (ys ++ [y])).
  - lia.
  - rewrite length_app. cbn. lia.
  - apply insert_subseteq_r; [by apply not_elem_of_dom|]. etrans; [exact Hs|apply Hcy].
  - rewrite lookup_insert_eq, <-app_assoc. done.
  - rewrite (take_S_r _ _ _ Hxi). apply copies_of_store; [done|]. apply Forall2_app.
    + eapply copies_of_grow; [exact Hc|apply Hcy].
    + constructor; [|constructor]. split; [by eapply copied_early|].
      destruct Hcy as (_ & _ & Hd). intros Hin. apply (Hd q Hin). by eapply elem_of_dom_2.
Qed.

Lemma copies_of_read h q hf ys xs : copies_of h q hf ys xs ->
  mapM (reads hf) ys = Some xs /\ ⋃ (reach hf <$> ys) ## dom h.
Proof.
  induction 1 as [|y x ys xs [(_ & Hr & Hd) _] _ [IH1 IH2]]; [split; [done|cbn; set_solver]|].
  cbn. rewrite Hr, IH1. split; [done|]. cbn in IH2. set_solver.
Qed.

Lemma slice_copies h (s : Slice T) x : reads h s = Some x ->
  exists s' h', copy_slice s h = (Ok s', h') /\ copied h x s' h'.
Proof.
  destruct s as [s|].
  2:{ cbn. intros [= <-]. exists None, h. split; [done|]. split; [done|]. split; [done|]. cbn. apply disjoint_empty_l. }
  intros (l & xs & Hl & Hx & -> & _)%read_slice.
  set (q := fresh (dom h : gset loc)). pose proof (fresh_notin h) as Hq. fold q in Hq.
  assert (Hqd : q ∉ dom h) by by apply not_elem_of_dom.
  destruct (copy_loop h s l xs q Hl Hx Hqd (len s) 0 [] (<[q := inject (replicate (len s) zero)]> h))
    as (ys & hf & Hloop & Hs & Hqf & Hc); try done.
  { by apply insert_subseteq. } { apply lookup_insert_eq. } { constructor. }
  assert (Hmake : make (T := T) (len s) h = (Ok (mkWindow q 0 (len s)), <[q := inject (replicate (len s) zero)]> h))
    by reflexivity.
  unfold copy_slice. unfold so_bind at 1. rewrite Hmake. unfold so_bind at 1. rewrite Hloop.
  eexists _, _. split; [reflexivity|]. split; [done|].
  destruct (copies_of_read _ _ _ _ _ Hc) as [Hm Hd].
  assert (Hel : elements hf (mkWindow q 0 (len s)) = Some ys).
  { apply elements_spec. exists ys. cbn. rewrite Hqf. cbn. rewrite project_inject.
    apply Forall2_length in Hc. apply mapM_Some_1, Forall2_length in Hx. apply elements_length in Hl.
    split; [done|]. split; [lia|]. rewrite drop_0, take_ge; [done|lia]. }
  cbn. rewrite Hel. cbn. rewrite Hm. split; [done|]. set_solver.
Qed.

#[global] Instance Slice_laws : DeepCopierLaws Cell (Slice T) (option (list V)).
Proof. constructor; [apply slice_frame|apply slice_dom|apply slice_copies]. Qed.

End windows.

(** ** Structs

    A struct that is read field by field, and whose [DeepCopyInto] assigns the
    whole struct and then copies those of its fields that hold pointers: at most three. *)
Section structs.
Context {Cell : Type} `{!DeepCopier Cell A VA, !DeepCopierLaws Cell A VA, !DeepCopier Cell B VB,
  !DeepCopierLaws Cell B VB, !DeepCopier Cell C VC, !DeepCopierLaws Cell C VC, !DeepCopier Cell T V}.
Context (fa : T -> A) (fb : T -> B) (fc : T -> C) (set : T -> A -> B -> C -> T) (value : T -> VA -> VB -> VC -> V).

Record struct_of : Prop := {
  struct_fields t a b c : fa (set t a b c) = a /\ fb (set t a b c) = b /\ fc (set t a b c) = c;
  struct_value t a b c : value (set t a b c) = value t;
  struct_reads h t : reads h t = a ← reads h (fa t); b ← reads h (fb t); c ← reads h (fc t); Some (value t a b c);
  struct_reach h t : reach h t = reach h (fa t) ∪ reach h (fb t) ∪ reach h (fc t);
  struct_copy t : DeepCopyInto t = (let!? a := DeepCopyInto (fa t) in let!? b := DeepCopyInto (fb t) in
                                    let!? c := DeepCopyInto (fc t) in st_ret (Ok (set t a b c)))%st;
}.

Lemma struct_read h t x : struct_of -> reads h t = Some x ->
  exists a b c, reads h (fa t) = Some a /\ reads h (fb t) = Some b /\ reads h (fc t) = Some c /\ x = value t a b c.
Proof.
  intros S. rewrite (struct_reads S).
  intros (a & ? & (b & ? & (c & ? & [= <-])%bind_Some)%bind_Some)%bind_Some. by exists a, b, c.
Qed.

Lemma struct_laws : struct_of -> DeepCopierLaws Cell T V.
Proof.
  intros S. constructor.
  - intros h1 h2 t x (a & b & c & Ha & Hb & Hc & ->)%struct_read Hag; [|done]. rewrite (struct_reach S) in Hag |- *.
    rewrite (struct_reads S), (struct_reach S).
    destruct (reads_frame h1 h2 _ _ Ha) as [-> ->]; [set_solver|].
    destruct (reads_frame h1 h2 _ _ Hb) as [-> ->]; [set_solver|].
    by destruct (reads_frame h1 h2 _ _ Hc) as [-> ->]; [set_solver|].
  - intros h t x (a & b & c & Ha & Hb & Hc & _)%struct_read; [|done]. rewrite (struct_reach S).
    apply reach_dom in Ha, Hb, Hc. set_solver.
  - intros h t x (a & b & c & Ha & Hb & Hc & ->)%struct_read; [|done]. rewrite (struct_copy S).
    destruct (copies h _ _ Ha) as (a' & h1 & Ea & Ca).
    destruct (reads_ext _ h1 _ _ Hb (proj1 Ca)) as [Hb1 _]. destruct (copies h1 _ _ Hb1) as (b' & h2 & Eb & Cb).
    assert (Hs2 : h ⊆ h2) by (etrans; [apply Ca|apply Cb]).
    destruct (reads_ext _ h2 _ _ Hc Hs2) as [Hc2 _]. destruct (copies h2 _ _ Hc2) as (c' & h3 & Ec & Cc).
    exists (set t a' b' c'), h3. unfold so_bind. rewrite Ea, Eb, Ec. split; [done|].
    assert (Ca3 : copied h a a' h3) by (eapply copied_grow; [exact Ca|]; etrans; [apply Cb|apply Cc]).
    assert (Cb3 : copied h b b' h3) by (eapply copied_grow; [eapply copied_early; [apply Ca|exact Cb]|apply Cc]).
    pose proof (copied_early _ _ _ _ _ Hs2 Cc) as Cc3.
    destruct (struct_fields S t a' b' c') as (Fa & Fb & Fc), Ca3 as (Hs & Ra & Da), Cb3 as (_ & Rb & Db), Cc3 as (_ & Rc & Dc).
    split; [done|]. rewrite (struct_reads S), (struct_reach S), Fa, Fb, Fc, (struct_value S), Ra, Rb, Rc.
    split; [done|]. set_solver.
Qed.

End structs.
End heap.
