(* ===== verification/DeepCopy.v ===== *)
(** * Deep copies ([api/v1alpha1/zz_generated.deepcopy.go])

    The types of the resource as they lie in memory, with their pointers and slices,
    and the generated [DeepCopyInto], [DeepCopy] and [DeepCopyObject].  A spec is read
    as the records of [ConfigTypes]; in a status the nil slices are kept apart from the
    empty ones.  [ObjectMeta], [ListMeta] and [Condition] belong to apimachinery:
    the class [MetaLib] is their layout and their deep copies, [MetaLaws] that these are
    deep copies. *)

From S2P Require Import Prelude Kube ConfigTypes Heap.
Import heap.

(** The layout of apimachinery's types, the values that their variables stand for (of a
    condition, the fields that [Kube] has) and what their own pointers lead to. *)
Class MetaTypes := {
  MObjectMeta : Type; VObjectMeta : Type;
  MListMeta : Type; VListMeta : Type;
  MCondition : Type;
  MCell : Type;
}.

Module deepcopy.

(** ** The types in memory *)

Record mAuthSpec := mkMAuthSpec {
  m_Enabled : Ptr bool;
  m_Issuer : string;
  m_Audience : string;
  m_JWKCertSecretRef : Ptr SecretRef }.

Record mAPISpec := mkMAPISpec {
  m_Database : DatabaseSpec;
  m_Auth : mAuthSpec;
  m_TLS : Ptr TLSSpec;
  m_Profile : SizingProfile }.

Record mHyperFleetConfigSpec := mkMSpec { m_Bundle : BundleType; m_API : mAPISpec }.

(** The types below are read as the same records over the values of their fields. *)
Record ComponentConditionsOf (Conds : Type) := mkComponentConditionsOf {
  m_Name : string; m_ccConditions : Conds }.

Record HyperFleetConfigStatusOf (Conds Comps : Type) := mkStatusOf {
  m_ObservedGeneration : Z; m_Conditions : Conds; m_Components : Comps }.

Record HyperFleetConfigOf (Meta Spec Status : Type) := mkConfigOf {
  m_TypeMeta : TypeMeta; m_ObjectMeta : Meta; m_Spec : Spec; m_Status : Status }.

Record HyperFleetConfigListOf (Meta Items : Type) := mkListOf {
  m_listTypeMeta : TypeMeta; m_ListMeta : Meta; m_Items : Items }.

Arguments mkComponentConditionsOf {Conds} _ _.
Arguments m_Name {Conds} _.
Arguments m_ccConditions {Conds} _.
Arguments mkStatusOf {Conds Comps} _ _ _.
Arguments m_ObservedGeneration {Conds Comps} _.
Arguments m_Conditions {Conds Comps} _.
Arguments m_Components {Conds Comps} _.
Arguments mkConfigOf {Meta Spec Status} _ _ _ _.
Arguments m_TypeMeta {Meta Spec Status} _.
Arguments m_ObjectMeta {Meta Spec Status} _.
Arguments m_Spec {Meta Spec Status} _.
Arguments m_Status {Meta Spec Status} _.
Arguments mkListOf {Meta Items} _ _ _.
Arguments m_listTypeMeta {Meta Items} _.
Arguments m_ListMeta {Meta Items} _.
Arguments m_Items {Meta Items} _.

Section types.
Context `{MT : MetaTypes}.

Definition mComponentConditions : Type := ComponentConditionsOf (Slice MCondition).
Definition mHyperFleetConfigStatus : Type :=
  HyperFleetConfigStatusOf (Slice MCondition) (Slice mComponentConditions).
Definition mHyperFleetConfig : Type :=
  HyperFleetConfigOf MObjectMeta mHyperFleetConfigSpec mHyperFleetConfigStatus.
Definition mHyperFleetConfigList : Type := HyperFleetConfigListOf MListMeta (Slice mHyperFleetConfig).

(** The values they stand for: nil is [None]. *)
Definition vComponentConditions : Type := ComponentConditionsOf (option (list Condition)).
Definition vHyperFleetConfigStatus : Type :=
  HyperFleetConfigStatusOf (option (list Condition)) (option (list vComponentConditions)).
Definition vHyperFleetConfig : Type :=
  HyperFleetConfigOf VObjectMeta HyperFleetConfigSpec vHyperFleetConfigStatus.
Definition vHyperFleetConfigList : Type :=
  HyperFleetConfigListOf VListMeta (option (list vHyperFleetConfig)).

(** What a location holds: a variable of one of the types, an array, or memory of
    apimachinery's types. *)
Inductive Cell :=
| CBool (b : bool)
| CSecretRef (r : SecretRef)
| CDatabaseSpec (d : DatabaseSpec)
| CTLSSpec (t : TLSSpec)
| CAuthSpec (a : mAuthSpec)
| CAPISpec (a : mAPISpec)
| CSpec (s : mHyperFleetConfigSpec)
| CComponentConditions (c : mComponentConditions)
| CStatus (s : mHyperFleetConfigStatus)
| CConfig (c : mHyperFleetConfig)
| CList (l : mHyperFleetConfigList)
| CConditions (a : list MCondition)
| CComponents (a : list mComponentConditions)
| CItems (a : list mHyperFleetConfig)
| CMeta (c : MCell).

End types.

Section storable.
Context `{MT : MetaTypes}.

#[global] Instance bool_Storable : Storable Cell bool :=
  {| inject := CBool; project c := match c with CBool x => Some x | _ => None end; project_inject _ := eq_refl |}.
#[global] Instance SecretRef_Storable : Storable Cell SecretRef :=
  {| inject := CSecretRef; project c := match c with CSecretRef x => Some x | _ => None end; project_inject _ := eq_refl |}.
#[global] Instance DatabaseSpec_Storable : Storable Cell DatabaseSpec :=
  {| inject := CDatabaseSpec; project c := match c with CDatabaseSpec x => Some x | _ => None end; project_inject _ := eq_refl |}.
#[global] Instance TLSSpec_Storable : Storable Cell TLSSpec :=
  {| inject := CTLSSpec; project c := match c with CTLSSpec x => Some x | _ => None end; project_inject _ := eq_refl |}.
#[global] Instance AuthSpec_Storable : Storable Cell mAuthSpec :=
  {| inject := CAuthSpec; project c := match c with CAuthSpec x => Some x | _ => None end; project_inject _ := eq_refl |}.
#[global] Instance APISpec_Storable : Storable Cell mAPISpec :=
  {| inject := CAPISpec; project c := match c with CAPISpec x => Some x | _ => None end; project_inject _ := eq_refl |}.
#[global] Instance Spec_Storable : Storable Cell mHyperFleetConfigSpec :=
  {| inject := CSpec; project c := match c with CSpec x => Some x | _ => None end; project_inject _ := eq_refl |}.
#[global] Instance ComponentConditions_Storable : Storable Cell mComponentConditions :=
  {| inject := CComponentConditions; project c := match c with CComponentConditions x => Some x | _ => None end;
     project_inject _ := eq_refl |}.
#[global] Instance Status_Storable : Storable Cell mHyperFleetConfigStatus :=
  {| inject := CStatus; project c := match c with CStatus x => Some x | _ => None end; project_inject _ := eq_refl |}.
#[global] Instance Config_Storable : Storable Cell mHyperFleetConfig :=
  {| inject := CConfig; project c := match c with CConfig x => Some x | _ => None end; project_inject _ := eq_refl |}.
#[global] Instance List_Storable : Storable Cell mHyperFleetConfigList :=
  {| inject := CList; project c := match c with CList x => Some x | _ => None end; project_inject _ := eq_refl |}.
#[global] Instance Conditions_Storable : Storable Cell (list MCondition) :=
  {| inject := CConditions; project c := match c with CConditions x => Some x | _ => None end; project_inject _ := eq_refl |}.
#[global] Instance Components_Storable : Storable Cell (list mComponentConditions) :=
  {| inject := CComponents; project c := match c with CComponents x => Some x | _ => None end; project_inject _ := eq_refl |}.
#[global] Instance Items_Storable : Storable Cell (list mHyperFleetConfig) :=
  {| inject := CItems; project c := match c with CItems x => Some x | _ => None end; project_inject _ := eq_refl |}.

End storable.
End deepcopy.

(** Zero values and deep copies of apimachinery's types. *)
Class MetaLib `{MT : MetaTypes} := {
  #[global] ObjectMeta_Zero :: Zero MObjectMeta;
  #[global] ListMeta_Zero :: Zero MListMeta;
  #[global] Condition_Zero :: Zero MCondition;
  #[global] ObjectMeta_DeepCopier :: DeepCopier deepcopy.Cell MObjectMeta VObjectMeta;
  #[global] ListMeta_DeepCopier :: DeepCopier deepcopy.Cell MListMeta VListMeta;
  #[global] Condition_DeepCopier :: DeepCopier deepcopy.Cell MCondition Condition;
}.

(** They are deep copies: what they return reads the same and shares nothing. *)
Class MetaLaws `{ML : MetaLib} := {
  #[global] ObjectMeta_laws :: DeepCopierLaws deepcopy.Cell MObjectMeta VObjectMeta;
  #[global] ListMeta_laws :: DeepCopierLaws deepcopy.Cell MListMeta VListMeta;
  #[global] Condition_laws :: DeepCopierLaws deepcopy.Cell MCondition Condition;
}.

Module generated.
Import deepcopy.

#[global] Instance unit_DeepCopier Cell : DeepCopier Cell unit unit := flat_DeepCopier Cell unit.
#[global] Instance unit_laws Cell : DeepCopierLaws Cell unit unit .
Proof. by apply flat_laws. Qed.

Section zero.
Context `{ML : MetaLib}.

#[global] Instance bool_Zero : Zero bool := false.
#[global] Instance SecretRef_Zero : Zero SecretRef := mkSecretRef "".
#[global] Instance DatabaseSpec_Zero : Zero DatabaseSpec := mkDatabaseSpec zero.
#[global] Instance TLSSpec_Zero : Zero TLSSpec := mkTLSSpec zero.
#[global] Instance AuthSpec_Zero : Zero mAuthSpec := mkMAuthSpec None "" "" None.
#[global] Instance APISpec_Zero : Zero mAPISpec := mkMAPISpec zero zero None "".
#[global] Instance Spec_Zero : Zero mHyperFleetConfigSpec := mkMSpec "" zero.
#[global] Instance ComponentConditions_Zero : Zero mComponentConditions := mkComponentConditionsOf "" None.
#[global] Instance Status_Zero : Zero mHyperFleetConfigStatus := mkStatusOf 0%Z None None.
#[global] Instance Config_Zero : Zero mHyperFleetConfig := mkConfigOf (mkTypeMeta "" "") zero zero zero.
#[global] Instance List_Zero : Zero mHyperFleetConfigList := mkListOf (mkTypeMeta "" "") zero None.
End zero.

(** ** The generated methods

    [X_DeepCopyInto in] is what [out] holds after [in.DeepCopyInto(&out)], for a variable
    [out] other than [in]. *)
Section methods.
Context `{ML : MetaLib}.
#[local] Abbreviation M A := (ST (Heap Cell) (outcome A)).

#[global] Instance bool_DeepCopier : DeepCopier Cell bool bool := flat_DeepCopier Cell bool.

Definition SecretReference_DeepCopyInto (i : SecretRef) : M SecretRef := st_ret (Ok i).
#[global] Instance SecretReference_DeepCopier : DeepCopier Cell SecretRef SecretRef :=
  {| reads _ v := Some v; reach _ _ := ∅; DeepCopyInto := SecretReference_DeepCopyInto |}.

Definition DatabaseSpec_DeepCopyInto (i : DatabaseSpec) : M DatabaseSpec :=
  st_ret (Ok (mkDatabaseSpec (db_SecretRef i))).
#[global] Instance DatabaseSpec_DeepCopier : DeepCopier Cell DatabaseSpec DatabaseSpec :=
  {| reads _ v := Some v; reach _ _ := ∅; DeepCopyInto := DatabaseSpec_DeepCopyInto |}.

Definition TLSSpec_DeepCopyInto (i : TLSSpec) : M TLSSpec := st_ret (Ok (mkTLSSpec (tls_SecretRef i))).
#[global] Instance TLSSpec_DeepCopier : DeepCopier Cell TLSSpec TLSSpec :=
  {| reads _ v := Some v; reach _ _ := ∅; DeepCopyInto := TLSSpec_DeepCopyInto |}.

Definition AuthSpec_DeepCopyInto (i : mAuthSpec) : M mAuthSpec :=
  (let!? enabled := DeepCopyInto (m_Enabled i) in
   let!? jwkCertSecretRef := DeepCopyInto (m_JWKCertSecretRef i) in
   st_ret (Ok (mkMAuthSpec enabled (m_Issuer i) (m_Audience i) jwkCertSecretRef)))%st.
#[global] Instance AuthSpec_DeepCopier : DeepCopier Cell mAuthSpec AuthSpec := {|
  reads h i := e ← reads h (m_Enabled i); r ← reads h (m_JWKCertSecretRef i);
               Some (mkAuthSpec e (m_Issuer i) (m_Audience i) r);
  reach h i := reach h (m_Enabled i) ∪ reach h (m_JWKCertSecretRef i);
  DeepCopyInto := AuthSpec_DeepCopyInto |}.

Definition APISpec_DeepCopyInto (i : mAPISpec) : M mAPISpec :=
  (let database := m_Database i in
   let!? auth := AuthSpec_DeepCopyInto (m_Auth i) in
   let!? tls := DeepCopyInto (m_TLS i) in
   st_ret (Ok (mkMAPISpec database auth tls (m_Profile i))))%st.
#[global] Instance APISpec_DeepCopier : DeepCopier Cell mAPISpec APISpec := {|
  reads h i := a ← reads h (m_Auth i); t ← reads h (m_TLS i);
               Some (mkAPISpec (m_Database i) a t (m_Profile i));
  reach h i := reach h (m_Auth i) ∪ reach h (m_TLS i);
  DeepCopyInto := APISpec_DeepCopyInto |}.

Definition HyperFleetConfigSpec_DeepCopyInto (i : mHyperFleetConfigSpec) : M mHyperFleetConfigSpec :=
  (let!? api := APISpec_DeepCopyInto (m_API i) in st_ret (Ok (mkMSpec (m_Bundle i) api)))%st.
#[global] Instance Spec_DeepCopier : DeepCopier Cell mHyperFleetConfigSpec HyperFleetConfigSpec := {|
  reads h i := a ← reads h (m_API i); Some (mkSpec (m_Bundle i) a);
  reach h i := reach h (m_API i);
  DeepCopyInto := HyperFleetConfigSpec_DeepCopyInto |}.

Definition ComponentConditions_DeepCopyInto (i : mComponentConditions) : M mComponentConditions :=
  (let!? conditions := DeepCopyInto (m_ccConditions i) in
   st_ret (Ok (mkComponentConditionsOf (m_Name i) conditions)))%st.
#[global] Instance ComponentConditions_DeepCopier : DeepCopier Cell mComponentConditions vComponentConditions := {|
  reads h i := l ← reads h (m_ccConditions i); Some (mkComponentConditionsOf (m_Name i) l);
  reach h i := reach h (m_ccConditions i);
  DeepCopyInto := ComponentConditions_DeepCopyInto |}.

Definition HyperFleetConfigStatus_DeepCopyInto (i : mHyperFleetConfigStatus) : M mHyperFleetConfigStatus :=
  (let!? conditions := DeepCopyInto (m_Conditions i) in
   let!? components := DeepCopyInto (m_Components i) in
   st_ret (Ok (mkStatusOf (m_ObservedGeneration i) conditions components)))%st.
#[global] Instance Status_DeepCopier : DeepCopier Cell mHyperFleetConfigStatus vHyperFleetConfigStatus := {|
  reads h i := a ← reads h (m_Conditions i); b ← reads h (m_Components i);
               Some (mkStatusOf (m_ObservedGeneration i) a b);
  reach h i := reach h (m_Conditions i) ∪ reach h (m_Components i);
  DeepCopyInto := HyperFleetConfigStatus_DeepCopyInto |}.

Definition HyperFleetConfig_DeepCopyInto (i : mHyperFleetConfig) : M mHyperFleetConfig :=
  (let typeMeta := m_TypeMeta i in
   let!? objectMeta := DeepCopyInto (m_ObjectMeta i) in
   let!? spec := HyperFleetConfigSpec_DeepCopyInto (m_Spec i) in
   let!? status := HyperFleetConfigStatus_DeepCopyInto (m_Status i) in
   st_ret (Ok (mkConfigOf typeMeta objectMeta spec status)))%st.
#[global] Instance Config_DeepCopier : DeepCopier Cell mHyperFleetConfig vHyperFleetConfig := {|
  reads h i := m ← reads h (m_ObjectMeta i); s ← reads h (m_Spec i); t ← reads h (m_Status i);
               Some (mkConfigOf (m_TypeMeta i) m s t);
  reach h i := reach h (m_ObjectMeta i) ∪ reach h (m_Spec i) ∪ reach h (m_Status i);
  DeepCopyInto := HyperFleetConfig_DeepCopyInto |}.

Definition HyperFleetConfigList_DeepCopyInto (i : mHyperFleetConfigList) : M mHyperFleetConfigList :=
  (let typeMeta := m_listTypeMeta i in
   let!? listMeta := DeepCopyInto (m_ListMeta i) in
   let!? items := DeepCopyInto (m_Items i) in
   st_ret (Ok (mkListOf typeMeta listMeta items)))%st.
#[global] Instance List_DeepCopier : DeepCopier Cell mHyperFleetConfigList vHyperFleetConfigList := {|
  reads h i := m ← reads h (m_ListMeta i); l ← reads h (m_Items i); Some (mkListOf (m_listTypeMeta i) m l);
  reach h i := reach h (m_ListMeta i) ∪ reach h (m_Items i);
  DeepCopyInto := HyperFleetConfigList_DeepCopyInto |}.

(** [DeepCopy] of each type: nil for nil, otherwise a pointer to a new variable. *)
Definition SecretReference_DeepCopy : Ptr SecretRef -> M (Ptr SecretRef) := copy_ptr.
Definition DatabaseSpec_DeepCopy : Ptr DatabaseSpec -> M (Ptr DatabaseSpec) := copy_ptr.
Definition TLSSpec_DeepCopy : Ptr TLSSpec -> M (Ptr TLSSpec) := copy_ptr.
Definition AuthSpec_DeepCopy : Ptr mAuthSpec -> M (Ptr mAuthSpec) := copy_ptr.
Definition APISpec_DeepCopy : Ptr mAPISpec -> M (Ptr mAPISpec) := copy_ptr.
Definition HyperFleetConfigSpec_DeepCopy : Ptr mHyperFleetConfigSpec -> M (Ptr mHyperFleetConfigSpec) := copy_ptr.
Definition ComponentConditions_DeepCopy : Ptr mComponentConditions -> M (Ptr mComponentConditions) := copy_ptr.
Definition HyperFleetConfigStatus_DeepCopy : Ptr mHyperFleetConfigStatus -> M (Ptr mHyperFleetConfigStatus) := copy_ptr.
Definition HyperFleetConfig_DeepCopy : Ptr mHyperFleetConfig -> M (Ptr mHyperFleetConfig) := copy_ptr.
Definition HyperFleetConfigList_DeepCopy : Ptr mHyperFleetConfigList -> M (Ptr mHyperFleetConfigList) := copy_ptr.

(** A [runtime.Object]: the nil interface, or a pointer with its type, which may be a nil pointer. *)
Inductive runtime_Object :=
| NilObject
| ConfigObject (p : Ptr mHyperFleetConfig)
| ListObject (p : Ptr mHyperFleetConfigList).

Definition HyperFleetConfig_DeepCopyObject (i : Ptr mHyperFleetConfig) : M runtime_Object :=
  (let!? c := HyperFleetConfig_DeepCopy i in
   st_ret (Ok match c with Some _ => ConfigObject c | None => NilObject end))%st.
Definition HyperFleetConfigList_DeepCopyObject (i : Ptr mHyperFleetConfigList) : M runtime_Object :=
  (let!? c := HyperFleetConfigList_DeepCopy i in
   st_ret (Ok match c with Some _ => ListObject c | None => NilObject end))%st.

End methods.

(** ** The generated methods are deep copies *)

(** A struct's fields, and what it reads and reaches, by its definitions. *)
Ltac struct_instance :=
  constructor;
  [intros; repeat match goal with u : unit |- _ => destruct u end; done
  |done|done
  |intros h t; cbv beta; try change (reach h tt) with (∅ : gset loc); rewrite ?union_empty_r_L; done
  |done].

Section laws.
Context `{ML : MetaLib} `{!MetaLaws}.

#[global] Instance bool_laws : DeepCopierLaws Cell bool bool .
Proof. by apply flat_laws. Qed.
#[global] Instance SecretReference_laws : DeepCopierLaws Cell SecretRef SecretRef .
Proof. by apply flat_laws. Qed.

#[global] Instance DatabaseSpec_laws : DeepCopierLaws Cell DatabaseSpec DatabaseSpec.
Proof. apply flat_laws. by intros h []. Qed.

#[global] Instance TLSSpec_laws : DeepCopierLaws Cell TLSSpec TLSSpec.
Proof. apply flat_laws. by intros h []. Qed.

#[global] Instance AuthSpec_laws : DeepCopierLaws Cell mAuthSpec AuthSpec.
Proof.
  apply (struct_laws m_Enabled m_JWKCertSecretRef (fun _ => tt)
    (fun t e r _ => mkMAuthSpec e (m_Issuer t) (m_Audience t) r)
    (fun t e r _ => mkAuthSpec e (m_Issuer t) (m_Audience t) r)).
  struct_instance.
Qed.

#[global] Instance APISpec_laws : DeepCopierLaws Cell mAPISpec APISpec.
Proof.
  apply (struct_laws m_Auth m_TLS (fun _ => tt) (fun t a s _ => mkMAPISpec (m_Database t) a s (m_Profile t))
    (fun t a s _ => mkAPISpec (m_Database t) a s (m_Profile t))).
  struct_instance.
Qed.

#[global] Instance Spec_laws : DeepCopierLaws Cell mHyperFleetConfigSpec HyperFleetConfigSpec.
Proof.
  apply (struct_laws m_API (fun _ => tt) (fun _ => tt) (fun t a _ _ => mkMSpec (m_Bundle t) a)
    (fun t a _ _ => mkSpec (m_Bundle t) a)).
  struct_instance.
Qed.

#[global] Instance ComponentConditions_laws : DeepCopierLaws Cell mComponentConditions vComponentConditions.
Proof.
  apply (struct_laws m_ccConditions (fun _ => tt) (fun _ => tt) (fun t l _ _ => mkComponentConditionsOf (m_Name t) l)
    (fun t l _ _ => mkComponentConditionsOf (m_Name t) l)).
  struct_instance.
Qed.

#[global] Instance Status_laws : DeepCopierLaws Cell mHyperFleetConfigStatus vHyperFleetConfigStatus.
Proof.
  apply (struct_laws m_Conditions m_Components (fun _ => tt)
    (fun t a b _ => mkStatusOf (m_ObservedGeneration t) a b) (fun t a b _ => mkStatusOf (m_ObservedGeneration t) a b)).
  struct_instance.
Qed.

#[global] Instance Config_laws : DeepCopierLaws Cell mHyperFleetConfig vHyperFleetConfig.
Proof.
  apply (struct_laws m_ObjectMeta m_Spec m_Status (fun t m s u => mkConfigOf (m_TypeMeta t) m s u)
    (fun t m s u => mkConfigOf (m_TypeMeta t) m s u)).
  struct_instance.
Qed.

#[global] Instance List_laws : DeepCopierLaws Cell mHyperFleetConfigList vHyperFleetConfigList.
Proof.
  apply (struct_laws m_ListMeta m_Items (fun _ => tt) (fun t m l _ => mkListOf (m_listTypeMeta t) m l)
    (fun t m l _ => mkListOf (m_listTypeMeta t) m l)).
  struct_instance.
Qed.

(** Two memories that differ at most at the locations of [L]. *)
Definition agree_outside (L : gset loc) (h1 h2 : Heap Cell) : Prop := forall l, l ∉ L -> h2 !! l = h1 !! l.

Lemma copied_independent `{!DeepCopier Cell T V, !DeepCopierLaws Cell T V} h (i : T) (x : V) o h' :
  reads h i = Some x -> copied h x o h' ->
  reads h' o = Some x /\ reach h' o ## dom h
  /\ (forall h2, agree_outside (reach h' o) h' h2 -> reads h2 i = Some x)
  /\ (forall h2, agree_outside (dom h) h' h2 -> reads h2 o = Some x).
Proof.
  intros Hi (Hs & Ho & Hd). split; [done|]. split; [done|]. split; intros h2 Ha.
  - destruct (reads_frame h h2 i x Hi) as [? _]; [|done]. intros l Hl. apply (reach_dom _ _ _ Hi) in Hl.
    rewrite Ha by set_solver. by apply agrees_subseteq.
  - destruct (reads_frame h' h2 o x Ho) as [? _]; [|done]. intros l Hl. apply Ha. set_solver.
Qed.

Lemma nil_or_copy `{!Storable Cell T, !Zero T, !DeepCopier Cell T V, !DeepCopierLaws Cell T V} h (p : Ptr T) x :
  reads h p = Some (Some x) ->
  exists q h', copy_ptr p h = (Ok (Some q), h') /\ copied h (Some x) (Some q : Ptr T) h'.
Proof.
  intros Hr. destruct (copies h p _ Hr) as (q & h' & He & Hc). destruct q as [q|]; [by exists q, h'|].
  by destruct Hc as (_ & ? & _).
Qed.

(** C14: [DeepCopyObject] of a list of resources is a deep copy.  If the list can be read, the
    call does not panic and returns a list, not a nil one, that reads the same: every
    field, every item, nil slices as nil and empty ones as empty.  The copy
    shares no location with anything that existed, so writes through it, to whatever it
    reaches, leave the original reading as it did, and writes to anything that existed
    leave the copy so; [DeepCopyObject] of a nil pointer is the nil interface. *)
Theorem DeepCopyObject_independent h (p : Ptr mHyperFleetConfigList) x (Hr : reads h p = Some x) :
  match x with
  | None => p = None /\ HyperFleetConfigList_DeepCopyObject p h = (Ok NilObject, h)
  | Some _ => exists q h', HyperFleetConfigList_DeepCopyObject p h = (Ok (ListObject q), h')
      /\ reads h' q = Some x /\ reach h' q ## dom h
      /\ (forall h2, agree_outside (reach h' q) h' h2 -> reads h2 p = Some x)
      /\ (forall h2, agree_outside (dom h) h' h2 -> reads h2 q = Some x)
  end.
Proof.
  destruct x as [x|].
  - destruct (nil_or_copy h p x Hr) as (q & h' & He & Hc). exists (Some q), h'.
    split; [|exact (copied_independent h p (Some x) (Some q : Ptr mHyperFleetConfigList) h' Hr Hc)].
    unfold HyperFleetConfigList_DeepCopyObject, HyperFleetConfigList_DeepCopy, so_bind. by rewrite He.
  - destruct p as [l|]; [|done]. exfalso. apply read_ptr in Hr as (? & ? & _ & _ & [=]).
Qed.

(** The same for one resource: what a client's cache hands out can be written to, as the status
    update does, without any effect on what the cache keeps. *)
Theorem DeepCopy_independent h (p : Ptr mHyperFleetConfig) x (Hr : reads h p = Some (Some x)) :
  exists q h', HyperFleetConfig_DeepCopyObject p h = (Ok (ConfigObject (Some q)), h')
  /\ reads h' (Some q : Ptr mHyperFleetConfig) = Some (Some x)
  /\ (forall h2, agree_outside (reach h' (Some q : Ptr mHyperFleetConfig)) h' h2 -> reads h2 p = Some (Some x)).
Proof.
  destruct (nil_or_copy h p x Hr) as (q & h' & He & Hc). exists q, h'.
  destruct (copied_independent h p (Some x) (Some q : Ptr mHyperFleetConfig) h' Hr Hc) as (? & _ & ? & _).
  split; [|done]. unfold HyperFleetConfig_DeepCopyObject, HyperFleetConfig_DeepCopy, so_bind. by rewrite He.
Qed.

End laws.

(** ** A concrete memory *)

(** Object metadata whose labels are behind a pointer; a list's metadata without pointers. *)
#[local] Instance toy_types : MetaTypes :=
  {| MObjectMeta := Ptr (gmap string string); VObjectMeta := option (gmap string string);
     MListMeta := string; VListMeta := string; MCondition := Condition; MCell := gmap string string |}.
#[local] Instance labels_Storable : Storable Cell (gmap string string) :=
  {| inject := CMeta; project c := match c with CMeta x => Some x | _ => None end; project_inject _ := eq_refl |}.
#[local] Instance labels_DeepCopier : DeepCopier Cell (gmap string string) (gmap string string) := flat_DeepCopier _ _.
#[local] Instance labels_Zero : Zero (gmap string string) := (∅ : gmap string string).
#[local] Instance toy_lib : MetaLib := {|
  ObjectMeta_Zero := None; ListMeta_Zero := ""; Condition_Zero := newCondition "" "" "" "";
  ObjectMeta_DeepCopier := Ptr_DeepCopier;
  ListMeta_DeepCopier := flat_DeepCopier _ _; Condition_DeepCopier := flat_DeepCopier _ _ |}.
#[local] Instance toy_laws : MetaLaws.
Proof.
  assert (DeepCopierLaws Cell (gmap string string) (gmap string string)) by by apply flat_laws.
  constructor; [apply Ptr_laws|by apply flat_laws..].
Qed.

(** One item, with pointers and slices of every kind: authentication switched off, a pinned Secret,
    no TLS, a published condition, an empty list of components. *)
Definition demo_heap : Heap Cell :=
  {[ 1%positive := CList (mkListOf (mkTypeMeta "v1alpha1" "HyperFleetConfigList") "41" (Some (mkWindow 2 0 1)));
     2%positive := CItems [mkConfigOf (mkTypeMeta "" "") (Some 3%positive)
       (mkMSpec BundleCloudCAPI (mkMAPISpec (mkDatabaseSpec (mkSecretRef "db"))
          (mkMAuthSpec (Some 4%positive) "" "" (Some 5%positive)) None SizingProfileSmall))
       (mkStatusOf 3%Z (Some (mkWindow 6 1 1)) (Some (mkWindow 7 0 0)))];
     3%positive := CMeta {["app" := "hyperfleet"]};
     4%positive := CBool false;
     5%positive := CSecretRef (mkSecretRef "jwks");
     6%positive := CConditions [newCondition "" "" "" ""; newCondition ConditionDegraded ConditionFalse ReasonAsExpected "ok"];
     7%positive := CComponents [] ]}.

Definition demo_value : vHyperFleetConfigList :=
  mkListOf (mkTypeMeta "v1alpha1" "HyperFleetConfigList") "41"
    (Some [mkConfigOf (mkTypeMeta "" "") (Some {["app" := "hyperfleet"]})
       (mkSpec BundleCloudCAPI (mkAPISpec (mkDatabaseSpec (mkSecretRef "db"))
          (mkAuthSpec (Some false) "" "" (Some (mkSecretRef "jwks"))) None SizingProfileSmall))
       (mkStatusOf 3%Z (Some [newCondition ConditionDegraded ConditionFalse ReasonAsExpected "ok"]) (Some []))]).

Lemma DeepCopyObject_independent_witness :
  exists q h', HyperFleetConfigList_DeepCopyObject (Some 1%positive) demo_heap = (Ok (ListObject q), h')
  /\ reads h' q = Some (Some demo_value).
Proof.
  assert (Hr : reads demo_heap (Some 1%positive : Ptr mHyperFleetConfigList) = Some (Some demo_value))
    by (vm_compute; reflexivity).
  destruct (DeepCopyObject_independent demo_heap (Some 1%positive) (Some demo_value) Hr) as (q & h' & He & Hq & _).
  exists q, h'. split; [exact He|exact Hq].
Defined.

End generated.
