(* ===== verification/Regexp.v ===== *)
(** * Regular expressions, as Go's [regexp] reads them

    The part of the standard library's [regexp] that the operator uses:
    character classes, concatenation, alternation and repetition, matched
    against a whole text (a pattern anchored with [^] and [$]).  [matches] is an
    executable matcher by derivatives; [matches_spec] shows that it decides the language. *)

From S2P Require Import Prelude.

Module regexp.

(** A class is a list of ranges of bytes.  The classes of the operator are of ASCII
    characters, which are one byte each in UTF-8 and never part of another rune. *)
Definition class : Type := list (ascii * ascii).

Definition in_class (cl : class) (c : ascii) : bool :=
  existsb (fun r => (N_of_ascii r.1 <=? N_of_ascii c)%N && (N_of_ascii c <=? N_of_ascii r.2)%N) cl.

Inductive Regexp :=
| NoMatch
| EmptyMatch
| CharClass (cl : class)
| Concat (r1 r2 : Regexp)
| Alternate (r1 r2 : Regexp)
| Star (r : Regexp).

(** The texts a pattern matches as a whole. *)
Inductive lang : Regexp -> list ascii -> Prop :=
| lang_empty : lang EmptyMatch []
| lang_class cl c : in_class cl c = true -> lang (CharClass cl) [c]
| lang_concat r1 r2 s1 s2 : lang r1 s1 -> lang r2 s2 -> lang (Concat r1 r2) (s1 ++ s2)
| lang_left r1 r2 s : lang r1 s -> lang (Alternate r1 r2) s
| lang_right r1 r2 s : lang r2 s -> lang (Alternate r1 r2) s
| lang_star_nil r : lang (Star r) []
| lang_star_cons r s1 s2 : lang r s1 -> lang (Star r) s2 -> lang (Star r) (s1 ++ s2).

(** [r?]. *)
Definition maybe (r : Regexp) : Regexp := Alternate EmptyMatch r.

(** [r{n,n+k}]. *)
Fixpoint optional (k : nat) (r : Regexp) : Regexp :=
  match k with O => EmptyMatch | S k' => Alternate EmptyMatch (Concat r (optional k' r)) end.
Fixpoint repeat (n k : nat) (r : Regexp) : Regexp :=
  match n with O => optional k r | S n' => Concat r (repeat n' k r) end.

Fixpoint nullable (r : Regexp) : bool :=
  match r with
  | NoMatch | CharClass _ => false
  | EmptyMatch | Star _ => true
  | Concat r1 r2 => nullable r1 && nullable r2
  | Alternate r1 r2 => nullable r1 || nullable r2
  end.

(** Concatenation and alternation that drop the parts which match nothing. *)
Definition concat (r1 r2 : Regexp) : Regexp :=
  match r1 with NoMatch => NoMatch | EmptyMatch => r2 | _ => Concat r1 r2 end.
Definition alternate (r1 r2 : Regexp) : Regexp :=
  match r1, r2 with NoMatch, _ => r2 | _, NoMatch => r1 | _, _ => Alternate r1 r2 end.

Fixpoint derivative (c : ascii) (r : Regexp) : Regexp :=
  match r with
  | NoMatch | EmptyMatch => NoMatch
  | CharClass cl => if in_class cl c then EmptyMatch else NoMatch
  | Concat r1 r2 =>
      let d := concat (derivative c r1) r2 in
      if nullable r1 then alternate d (derivative c r2) else d
  | Alternate r1 r2 => alternate (derivative c r1) (derivative c r2)
  | Star r1 => concat (derivative c r1) r
  end.

Fixpoint matches (r : Regexp) (s : list ascii) : bool :=
  match s with [] => nullable r | c :: s' => matches (derivative c r) s' end.

(** [MatchString] of the pattern [^r$]. *)
Definition MatchString (r : Regexp) (s : string) : bool := matches r (String.list_ascii_of_string s).

(** ** The matcher decides the language *)

#[local] Hint Constructors lang : core.

Lemma lang_concat_inv r1 r2 s :
  lang (Concat r1 r2) s <-> exists s1 s2, s = s1 ++ s2 /\ lang r1 s1 /\ lang r2 s2.
Proof. split; [inversion 1; subst; eauto|]. intros (s1 & s2 & -> & ? & ?). auto. Qed.

Lemma lang_alternate_inv r1 r2 s : lang (Alternate r1 r2) s <-> lang r1 s \/ lang r2 s.
Proof. split; [inversion 1; subst; auto|]. intros [?|?]; auto. Qed.

Lemma lang_NoMatch s : ~ lang NoMatch s.
Proof. inversion 1. Qed.

Lemma lang_EmptyMatch s : lang EmptyMatch s <-> s = [].
Proof. split; [by inversion 1|]. intros ->. auto. Qed.

Lemma lang_CharClass cl s : lang (CharClass cl) s <-> exists c, s = [c] /\ in_class cl c = true.
Proof. split; [inversion 1; eauto|]. intros (c & -> & ?). auto. Qed.

Lemma lang_star_inv r c s :
  lang (Star r) (c :: s) <-> exists s1 s2, s = s1 ++ s2 /\ lang r (c :: s1) /\ lang (Star r) s2.
Proof.
  split; [|intros (s1 & s2 & -> & H1 & H2); by apply (lang_star_cons _ (c :: s1))].
  intros H. remember (Star r) as q eqn:Eq. remember (c :: s) as t eqn:Et. revert Eq s Et.
  induction H as [|cl d|r1 r2 s1 s2|r1 r2 s1|r1 r2 s1|r1|r1 s1 s2 H1 _ H2 IH2]; intros [= ->] s' Et; try done.
  destruct s1 as [|d s1]; cbn in Et; [by apply IH2|]. injection Et as -> <-. eauto.
Qed.

Lemma concat_lang r1 r2 s : lang (concat r1 r2) s <-> lang (Concat r1 r2) s.
Proof.
  destruct r1; try done; rewrite lang_concat_inv; cbn.
  - split; [by intros ?%lang_NoMatch|]. by intros (? & ? & _ & ?%lang_NoMatch & _).
  - split; [exists [], s; auto|]. by intros (s1 & s2 & -> & ->%lang_EmptyMatch & ?).
Qed.

Lemma alternate_lang r1 r2 s : lang (alternate r1 r2) s <-> lang r1 s \/ lang r2 s.
Proof.
  pose proof (lang_NoMatch s). rewrite <-lang_alternate_inv.
  destruct r1, r2; cbn; rewrite ?lang_alternate_inv; naive_solver.
Qed.

Lemma nullable_lang r : nullable r = true <-> lang r [].
Proof.
  induction r as [| |cl|r1 IH1 r2 IH2|r1 IH1 r2 IH2|r1 IH1]; cbn.
  - split; [done|]. by intros ?%lang_NoMatch.
  - split; auto.
  - rewrite lang_CharClass. naive_solver.
  - rewrite andb_true_iff, IH1, IH2, lang_concat_inv. split; [by intros [? ?]; exists [], []|].
    by intros (s1 & s2 & [-> ->]%eq_sym%app_nil & ? & ?).
  - by rewrite orb_true_iff, IH1, IH2, lang_alternate_inv.
  - split; auto.
Qed.

Lemma derivative_lang c r s : lang (derivative c r) s <-> lang r (c :: s).
Proof.
  revert s. induction r as [| |cl|r1 IH1 r2 IH2|r1 IH1 r2 IH2|r1 IH1]; intros s; cbn.
  - split; by intros ?%lang_NoMatch.
  - rewrite lang_EmptyMatch. split; [by intros ?%lang_NoMatch|done].
  - rewrite lang_CharClass. destruct (in_class cl c) eqn:E.
    + rewrite lang_EmptyMatch. split; [intros ->; by exists c|]. by intros (? & [= _ ->] & _).
    + split; [by intros ?%lang_NoMatch|]. intros (? & [= -> _] & ?). congruence.
  - assert (Hd : lang (concat (derivative c r1) r2) s <->
               exists s1 s2, s = s1 ++ s2 /\ lang r1 (c :: s1) /\ lang r2 s2).
    { rewrite concat_lang, lang_concat_inv. split; intros (s1 & s2 & ? & ?%IH1 & ?); eauto. }
    assert (Hc : lang (Concat r1 r2) (c :: s) <->
               (exists s1 s2, s = s1 ++ s2 /\ lang r1 (c :: s1) /\ lang r2 s2)
               \/ (lang r1 [] /\ lang r2 (c :: s))).
    { rewrite lang_concat_inv. split.
      - intros ([|d s1] & s2 & E & H1 & H2); cbn in E; [subst; by right|].
        injection E as -> ->. left. by exists s1, s2.
      - intros [(s1 & s2 & -> & ? & ?)|[? ?]]; [by exists (c :: s1), s2|by exists [], (c :: s)]. }
    rewrite Hc. destruct (nullable r1) eqn:En.
    + apply nullable_lang in En. rewrite alternate_lang, Hd, IH2. naive_solver.
    + rewrite Hd. rewrite <-nullable_lang, En. naive_solver.
  - by rewrite alternate_lang, IH1, IH2, lang_alternate_inv.
  - rewrite concat_lang, lang_concat_inv, lang_star_inv. split; intros (s1 & s2 & ? & ?%IH1 & ?); eauto.
Qed.

Theorem matches_spec r s : matches r s = true <-> lang r s.
Proof.
  revert r. induction s as [|c s IH]; intros r; cbn; [apply nullable_lang|].
  by rewrite IH, derivative_lang.
Qed.

(** A repeated class: between [n] and [n + k] characters of the class. *)
Lemma lang_cons cl r s :
  lang (Concat (CharClass cl) r) s <-> exists c s', s = c :: s' /\ in_class cl c = true /\ lang r s'.
Proof.
  rewrite lang_concat_inv. split.
  - intros (? & s2 & -> & (c & -> & ?)%lang_CharClass & ?). by exists c, s2.
  - intros (c & s' & -> & ? & ?). exists [c], s'. auto.
Qed.

Lemma optional_lang k cl s :
  lang (optional k (CharClass cl)) s <-> (length s <= k)%nat /\ Forall (fun c => in_class cl c = true) s.
Proof.
  revert s. induction k as [|k IH]; intros s; cbn.
  - rewrite lang_EmptyMatch. split; [by intros ->|]. intros [? _]. by destruct s; cbn in *; [|lia].
  - rewrite lang_alternate_inv, lang_EmptyMatch, lang_cons. split.
    + intros [->|(c & s' & -> & ? & [? ?]%IH)]; cbn; [split; [lia|done]|]. split; [lia|by constructor].
    + intros [Hl Hf]. destruct s as [|c s]; [by left|]. right. apply Forall_cons in Hf as [? ?].
      exists c, s. rewrite IH. cbn in Hl. split_and!; try done; lia.
Qed.

Lemma repeat_lang n k cl s :
  lang (repeat n k (CharClass cl)) s <->
  (n <= length s <= n + k)%nat /\ Forall (fun c => in_class cl c = true) s.
Proof.
  revert s. induction n as [|n IH]; intros s; cbn [repeat].
  - rewrite optional_lang. split; intros [? ?]; split; (lia || done).
  - rewrite lang_cons. split.
    + intros (c & s' & -> & ? & [? ?]%IH). cbn. split; [lia|by constructor].
    + intros [Hl Hf]. destruct s as [|c s]; cbn in Hl; [lia|]. apply Forall_cons in Hf as [? ?].
      exists c, s. rewrite IH. split_and!; try done; lia.
Qed.

(** The characters a pattern mentions: no other is in a text it matches. *)
Fixpoint alphabet (r : Regexp) : class :=
  match r with
  | NoMatch | EmptyMatch => []
  | CharClass cl => cl
  | Concat r1 r2 | Alternate r1 r2 => alphabet r1 ++ alphabet r2
  | Star r1 => alphabet r1
  end.

Lemma in_class_app cl1 cl2 c : in_class (cl1 ++ cl2) c = in_class cl1 c || in_class cl2 c.
Proof. apply existsb_app. Qed.

Lemma lang_alphabet r s : lang r s -> Forall (fun c => in_class (alphabet r) c = true) s.
Proof.
  induction 1 as [|cl c Hc|r1 r2 s1 s2 _ IH1 _ IH2|r1 r2 s _ IH|r1 r2 s _ IH|r|r s1 s2 _ IH1 _ IH2]; cbn [alphabet].
  - constructor.
  - by repeat constructor.
  - apply Forall_app. split; (eapply Forall_impl; [eassumption|]); intros c Hc; rewrite in_class_app, Hc; by rewrite ?orb_true_r.
  - eapply Forall_impl; [exact IH|]. intros c Hc. by rewrite in_class_app, Hc.
  - eapply Forall_impl; [exact IH|]. intros c Hc. by rewrite in_class_app, Hc, orb_true_r.
  - constructor.
  - by apply Forall_app.
Qed.

End regexp.
