(* ===== verification/Json.v ===== *)
(** * Go's [encoding/json]: values, [omitempty], and compact encoding

    A Go struct is marshalled to an object with one member per field, in field
    order; a field tagged [omitempty] is left out when it has its zero value.
    The source's struct tags are translated to functions into [Json] next to
    the structs they tag.  [json_encode] is the text [json.Marshal] writes. *)

From S2P Require Import Prelude.

#[local] Set Warnings "-register-all".

Inductive Json :=
| JString (s : string)
| JInt (n : Z)
| JBool (b : bool)
| JArray (l : list Json)
| JObject (l : list (string * Json)).

(** Induction on JSON values through the lists. *)
Lemma Json_nested_ind (P : Json -> Prop) :
  (forall s, P (JString s)) -> (forall n, P (JInt n)) -> (forall b, P (JBool b)) ->
  (forall l, Forall P l -> P (JArray l)) -> (forall l, Forall (fun p => P p.2) l -> P (JObject l)) ->
  forall j, P j.
Proof.
  intros HS HI HB HA HO. fix IH 1. intros [s|n|b|l|l]; [apply HS|apply HI|apply HB|apply HA|apply HO].
  - induction l; constructor; [apply IH|assumption].
  - induction l as [|[k v] l IHl]; constructor; [apply IH|assumption].
Qed.

(** A struct's members: one per field, none for an empty [omitempty] field. *)
Definition Members : Type := list (string * Json).

Definition member (k : string) (v : Json) : Members := [(k, v)].
Definition omitempty (empty : bool) (k : string) (v : Json) : Members :=
  if empty then [] else [(k, v)].

Definition str_member (k s : string) : Members := member k (JString s).
Definition str_omitempty (k s : string) : Members := omitempty (String.eqb s "") k (JString s).
Definition int_omitempty (k : string) (n : Z) : Members := omitempty (n =? 0)%Z k (JInt n).
Definition bool_omitempty (k : string) (b : bool) : Members := omitempty (negb b) k (JBool b).
Definition list_omitempty {A} (k : string) (f : A -> Json) (l : list A) : Members :=
  omitempty (match l with [] => true | _ => false end) k (JArray (map f l)).
(** A pointer field: left out when nil. *)
Definition ptr_omitempty {A} (k : string) (f : A -> Json) (o : option A) : Members :=
  match o with None => [] | Some a => [(k, f a)] end.

(** Lookup of a member, for statements about rendered documents. *)
Fixpoint find_member (k : string) (l : Members) : option Json :=
  match l with
  | [] => None
  | (k', v) :: l' => if String.eqb k k' then Some v else find_member k l'
  end.

Definition jget (k : string) (j : Json) : option Json :=
  match j with JObject l => find_member k l | _ => None end.

(** ** The compact encoder *)

Definition hexdigit (n : N) : ascii :=
  ascii_of_N (if (n <? 10)%N then 48 + n else 87 + n)%N.

Definition is_cont (lo hi : N) (c : ascii) : bool :=
  ((lo <=? N_of_ascii c) && (N_of_ascii c <=? hi))%N.

Definition cont2 (s : string) (lo hi : N) : bool :=
  match s with String c1 _ => is_cont lo hi c1 | _ => false end.
Definition cont3 (s : string) (lo hi : N) : bool :=
  match s with
  | String c1 (String c2 _) => is_cont lo hi c1 && is_cont 128 191 c2
  | _ => false
  end.
Definition cont4 (s : string) (lo hi : N) : bool :=
  match s with
  | String c1 (String c2 (String c3 _)) =>
      is_cont lo hi c1 && is_cont 128 191 c2 && is_cont 128 191 c3
  | _ => false
  end.

(** [utf8.DecodeRuneInString]: the number of bytes that follow [c] in a valid
    encoding starting with [c]; [None] for [RuneError] of size 1. *)
Definition rune_tail (c : ascii) (s : string) : option nat :=
  let b := N_of_ascii c in
  if (b <? 194)%N then None
  else if (b <? 224)%N then if cont2 s 128 191 then Some 1 else None
  else if (b =? 224)%N then if cont3 s 160 191 then Some 2 else None
  else if (b =? 237)%N then if cont3 s 128 159 then Some 2 else None
  else if (b <? 240)%N then if cont3 s 128 191 then Some 2 else None
  else if (b =? 240)%N then if cont4 s 144 191 then Some 3 else None
  else if (b <? 244)%N then if cont4 s 128 191 then Some 3 else None
  else if (b =? 244)%N then if cont4 s 128 143 then Some 3 else None
  else None.

(** Escapes of one byte below 0x80 (with HTML escaping, as [json.Marshal]). *)
Definition escape_ascii (c : ascii) : string :=
  let b := N_of_ascii c in
  let bs := String "092" "" in
  if (b =? 34)%N || (b =? 92)%N then bs +:+ String c ""
  else if (b =? 8)%N then bs +:+ "b"
  else if (b =? 12)%N then bs +:+ "f"
  else if (b =? 10)%N then bs +:+ "n"
  else if (b =? 13)%N then bs +:+ "r"
  else if (b =? 9)%N then bs +:+ "t"
  else if ((b <? 32) || (b =? 60) || (b =? 62) || (b =? 38))%N
  then bs +:+ "u00" +:+ String (hexdigit (b / 16)) (String (hexdigit (b mod 16)) "")
  else String c "".

(** U+2028 and U+2029 (bytes E2 80 A8 and E2 80 A9) are escaped too. *)
Definition is_line_sep (c : ascii) (s : string) : option ascii :=
  match s with
  | String c1 (String c2 _) =>
      if (N_of_ascii c =? 226)%N && (N_of_ascii c1 =? 128)%N then
        if (N_of_ascii c2 =? 168)%N then Some "8"%char
        else if (N_of_ascii c2 =? 169)%N then Some "9"%char
        else None
      else None
  | _ => None
  end.

(** [skip] counts the bytes still to drop or copy of a multi-byte rune. *)
Fixpoint json_escape_go (copy skip : nat) (s : string) : string :=
  match s with
  | "" => ""
  | String c s' =>
      match copy, skip with
      | S copy', _ => String c (json_escape_go copy' skip s')
      | O, S skip' => json_escape_go 0 skip' s'
      | O, O =>
          if (N_of_ascii c <? 128)%N then escape_ascii c +:+ json_escape_go 0 0 s'
          else
            match rune_tail c s' with
            | None => String "092" "ufffd" +:+ json_escape_go 0 0 s'
            | Some n =>
                match is_line_sep c s' with
                | Some d => String "092" "u202" +:+ String d (json_escape_go 0 2 s')
                | None => String c (json_escape_go n 0 s')
                end
            end
      end
  end.

Definition json_string (s : string) : string := dq (json_escape_go 0 0 s).

Fixpoint json_encode (j : Json) : string :=
  match j with
  | JString s => json_string s
  | JInt n => dec_Z n
  | JBool b => if b then "true" else "false"
  | JArray l => "[" +:+ JoinStrings (map json_encode l) "," +:+ "]"
  | JObject l =>
      "{" +:+ JoinStrings
        (map (fun p => match p with (k, v) => json_string k +:+ ":" +:+ json_encode v end) l) ","
      +:+ "}"
  end.

Example json_encode_ex :
  json_encode (JObject [("a", JString "x<y"); ("b", JArray [JInt (-3); JBool true])])
  = "{" +:+ dq "a" +:+ ":" +:+ dq (String.append "x" (String "092" "u003cy")) +:+ ","
    +:+ dq "b" +:+ ":[-3,true]}".
Proof. vm_compute. reflexivity. Qed.
