(* ===== verification/Url.v ===== *)
(** * Parsing of URLs

    Go's [net/url.Parse], as far as the scheme, the host and whether it fails,
    and [http.NewRequest], which fails exactly when it does.  The validation and
    unescaping of an authority, which differs between Go releases, is the class [UrlLib]. *)

From S2P Require Import Prelude.

(** [parseAuthority]: the host part of an authority, or why it is malformed. *)
Class UrlLib := { parseAuthority (authority : string) : error + string }.

Module url.

Definition is_lower (c : ascii) : bool := ((97 <=? N_of_ascii c) && (N_of_ascii c <=? 122))%N.
Definition is_upper (c : ascii) : bool := ((65 <=? N_of_ascii c) && (N_of_ascii c <=? 90))%N.

Definition lower_char (c : ascii) : ascii := if is_upper c then ascii_of_N (N_of_ascii c + 32) else c.

(** [strings.ToLower] of ASCII text. *)
Fixpoint ToLower (s : string) : string :=
  match s with "" => "" | String c s' => String (lower_char c) (ToLower s') end.

(** [strings.Cut] at a character. *)
Fixpoint cut_at (sep : ascii) (s : string) : string * string :=
  match s with
  | "" => ("", "")
  | String c s' => if Ascii.eqb c sep then ("", s') else let '(a, b) := cut_at sep s' in (String c a, b)
  end.

(** What precedes the first [sep], and the rest from it on. *)
Fixpoint break_at (sep : ascii) (s : string) : string * string :=
  match s with
  | "" => ("", "")
  | String c s' => if Ascii.eqb c sep then ("", s) else let '(a, b) := break_at sep s' in (String c a, b)
  end.

Fixpoint has_char (sep : ascii) (s : string) : bool :=
  match s with "" => false | String c s' => Ascii.eqb c sep || has_char sep s' end.

Fixpoint stringContainsCTLByte (s : string) : bool :=
  match s with
  | "" => false
  | String c s' => (N_of_ascii c <? 32)%N || (N_of_ascii c =? 127)%N || stringContainsCTLByte s'
  end.

Definition is_scheme_char (c : ascii) : bool :=
  is_digit c || Ascii.eqb c "+" || Ascii.eqb c "-" || Ascii.eqb c ".".

(** [getScheme], with the characters read so far; [raw] is the whole text. *)
Fixpoint scheme_loop (raw read s : string) : error + string * string :=
  match s with
  | "" => inr ("", raw)
  | String c s' =>
      if is_lower c || is_upper c then scheme_loop raw (read +:+ String c "") s'
      else if is_scheme_char c then
        if String.eqb read "" then inr ("", raw) else scheme_loop raw (read +:+ String c "") s'
      else if Ascii.eqb c ":" then
        if String.eqb read "" then inl (Errorf "missing protocol scheme" []) else inr (read, s')
      else inr ("", raw)
  end.
Definition getScheme (raw : string) : error + string * string := scheme_loop raw "" raw.

Definition is_hex (c : ascii) : bool :=
  is_digit c || ((97 <=? N_of_ascii c) && (N_of_ascii c <=? 102))%N || ((65 <=? N_of_ascii c) && (N_of_ascii c <=? 70))%N.

(** [unescape] of a path or a fragment fails on a percent sign without two hexadecimal digits. *)
Fixpoint escapes_ok (s : string) : bool :=
  match s with
  | "" => true
  | String c s' =>
      if Ascii.eqb c "%" then
        match s' with String a (String b s'') => is_hex a && is_hex b && escapes_ok s'' | _ => false end
      else escapes_ok s'
  end.

Section parse.
Context `{UL : UrlLib}.

(** The scheme and the host of a URL without its fragment. *)
Definition parse (rawURL : string) : error + string * string :=
  if stringContainsCTLByte rawURL then inl (Errorf "net/url: invalid control character in URL" [])
  else if String.eqb rawURL "*" then inr ("", "")
  else match getScheme rawURL with
       | inl err => inl err
       | inr (scheme, rest) =>
           let scheme := ToLower scheme in
           let rest := fst (cut_at "?" rest) in
           if negb (HasPrefix rest "/") && negb (String.eqb scheme "") then inr (scheme, "")
           else if negb (HasPrefix rest "/") && has_char ":" (fst (cut_at "/" rest))
           then inl (Errorf "first path segment in URL cannot contain colon" [])
           else if (negb (String.eqb scheme "") || negb (HasPrefix rest "///")) && HasPrefix rest "//" then
             let '(authority, path) := break_at "/" (drop_string 2 rest) in
             match parseAuthority authority with
             | inl err => inl err
             | inr host => if escapes_ok path then inr (scheme, host) else inl (Errorf "invalid URL escape" [])
             end
           else if escapes_ok rest then inr (scheme, "") else inl (Errorf "invalid URL escape" [])
       end.

Definition Parse (rawURL : string) : error + string * string :=
  let '(u, frag) := cut_at "#" rawURL in
  match parse u with
  | inl err => inl (Wrapf "parse %q: %w" [u] err)
  | inr r => if escapes_ok frag then inr r else inl (Wrapf "parse %q: %w" [rawURL] (Errorf "invalid URL escape" []))
  end.

(** [http.NewRequestWithContext] with a valid method and no body: its error. *)
Definition NewRequest (rawURL : string) : option error :=
  match Parse rawURL with inl err => Some err | inr _ => None end.

(** ** What a parsed URL looks like *)

Lemma scheme_loop_spec raw read s scheme rest :
  scheme_loop raw read s = inr (scheme, rest) -> raw = read +:+ s ->
  (scheme = "" /\ rest = raw) \/ (scheme <> "" /\ raw = scheme +:+ ":" +:+ rest).
Proof.
  revert read. induction s as [|c s IH]; intros read; cbn; [intros [= <- <-]; by left|]. intros H Hraw.
  assert (Hnext : raw = (read +:+ String c "") +:+ s) by (by rewrite string_app_assoc).
  destruct (is_lower c || is_upper c); [by apply (IH _ H)|].
  destruct (is_scheme_char c); [destruct (String.eqb read ""); [injection H as <- <-; by left|by apply (IH _ H)]|].
  destruct (Ascii.eqb_spec c ":") as [->|]; [|injection H as <- <-; by left].
  destruct (String.eqb_spec read ""); [done|]. injection H as <- <-. by right.
Qed.

Lemma getScheme_spec raw scheme rest : getScheme raw = inr (scheme, rest) ->
  (scheme = "" /\ rest = raw) \/ (scheme <> "" /\ raw = scheme +:+ ":" +:+ rest).
Proof. intros H. by apply (scheme_loop_spec raw "" raw). Qed.

Lemma cut_at_prefix sep s : exists t, s = fst (cut_at sep s) +:+ t.
Proof.
  induction s as [|c s IH]; [by exists ""|]. cbn. destruct (Ascii.eqb c sep); [by exists (String c s)|].
  destruct IH as [t IH]. destruct (cut_at sep s) as [a b]. exists t. cbn in *. by rewrite string_app_cons, <-IH.
Qed.

Lemma ToLower_nonempty s : ToLower s <> "" -> s <> "".
Proof. by destruct s. Qed.

(** A URL with a scheme and a host is written [scheme://...], the scheme in
    any case, without control characters before its fragment. *)
Lemma Parse_host raw scheme host : Parse raw = inr (scheme, host) -> scheme <> "" -> host <> "" ->
  (exists s rest, raw = s +:+ "://" +:+ rest /\ ToLower s = scheme)
  /\ stringContainsCTLByte (fst (cut_at "#" raw)) = false.
Proof.
  unfold Parse. destruct (cut_at_prefix "#" raw) as [tail Htail]. destruct (cut_at "#" raw) as [u frag]. cbn [fst] in *.
  destruct (parse u) as [e|[sc h]] eqn:Ep; [done|]. destruct (escapes_ok frag); [|done]. intros [= -> ->] Hs Hh.
  unfold parse in Ep. destruct (stringContainsCTLByte u) eqn:Ec; [done|]. split; [|done].
  destruct (String.eqb u "*"); [by injection Ep as <- <-|].
  destruct (getScheme u) as [e|[s0 rest0]] eqn:Eg; [done|].
  destruct (cut_at_prefix "?" rest0) as [q Hq].
  destruct (cut_at "?" rest0) as [rest query]. cbn [fst] in *.
  destruct (_ && negb (String.eqb (ToLower s0) "")); [by injection Ep as <- <-|].
  destruct (_ && has_char ":" _); [done|].
  destruct (_ && HasPrefix rest "//") eqn:Ea.
  - apply andb_prop in Ea as [_ Ha]. destruct (break_at "/" _) as [authority path].
    destruct (parseAuthority authority) as [e|h]; [done|]. destruct (escapes_ok path); [|done].
    injection Ep as Hsc ->. destruct (HasPrefix_app rest "//" Ha) as [t Ht].
    apply getScheme_spec in Eg as [[-> _]|[_ Hu]]; [by subst|].
    exists s0, (t +:+ q +:+ tail). split; [|done]. rewrite Htail, Hu, Hq, Ht.
    change ("//" +:+ t) with (String "/" (String "/" t)). rewrite !string_app_assoc, !string_app_cons. done.
  - destruct (escapes_ok rest); [by injection Ep as <- <-|done].
Qed.

End parse.

(** Concrete parses, with authorities that are taken as they are. *)
Definition plain_UrlLib : UrlLib := {| parseAuthority := inr |}.
#[local] Existing Instance plain_UrlLib.

Example parse_https : Parse "HTTPS://idp.example/keys?v=1#top" = inr ("https", "idp.example").
Proof. vm_compute. reflexivity. Qed.
Example parse_relative : Parse "/keys" = inr ("", "") /\ Parse "mailto:a@b" = inr ("mailto", "").
Proof. vm_compute. auto. Qed.
Example parse_bad : NewRequest "https://idp/%zz" <> None /\ NewRequest ":x" <> None /\ NewRequest "a b:c" <> None.
Proof. vm_compute. split_and!; discriminate. Qed.

End url.
