(* ===== verification/JsonDecode.v ===== *)
(** * Go's [encoding/json]: decoding

    The decoder behind [json.Unmarshal]: the syntax its scanner accepts, with the nesting
    limit; the text of a string literal (escapes, surrogate pairs, and U+FFFD for
    what is not valid UTF-8); and the matching of object keys to struct fields.
    [decode_encode] is the round trip with [Json.json_encode]: hence two JSON
    values with the same text are the same value. *)

From S2P Require Import Prelude Json.

#[local] Set Warnings "-register-all".

Module json.

(** A decoded value; a number stays its literal. *)
Inductive Value :=
| VNull
| VBool (b : bool)
| VNumber (literal : string)
| VString (s : string)
| VArray (l : list Value)
| VObject (l : list (string * Value)).

Definition quote : ascii := "034".
Definition backslash : ascii := "092".

(** ** String literals *)

Definition hex_val (c : ascii) : option N :=
  let b := N_of_ascii c in
  if (48 <=? b)%N && (b <=? 57)%N then Some (b - 48)%N
  else if (97 <=? b)%N && (b <=? 102)%N then Some (b - 87)%N
  else if (65 <=? b)%N && (b <=? 70)%N then Some (b - 55)%N
  else None.

(** [getu4]: four hexadecimal digits. *)
Definition hex4 (a b c d : ascii) : option N :=
  match hex_val a, hex_val b, hex_val c, hex_val d with
  | Some x, Some y, Some z, Some w => Some (((x * 16 + y) * 16 + z) * 16 + w)%N
  | _, _, _, _ => None
  end.

(** [utf8.AppendRune]; a surrogate or an out-of-range rune becomes U+FFFD. *)
Definition byte_char (n : N) : ascii := ascii_of_N n.
Definition utf8_3 (r : N) : string :=
  String (byte_char (224 + r / 4096)) (String (byte_char (128 + r / 64 mod 64))
    (String (byte_char (128 + r mod 64)) "")).
Definition AppendRune (r : N) : string :=
  if (r <? 128)%N then String (byte_char r) ""
  else if (r <? 2048)%N then String (byte_char (192 + r / 64)) (String (byte_char (128 + r mod 64)) "")
  else if ((55296 <=? r) && (r <=? 57343)%N || (1114111 <? r))%N then utf8_3 65533
  else if (r <? 65536)%N then utf8_3 r
  else String (byte_char (240 + r / 262144)) (String (byte_char (128 + r / 4096 mod 64))
         (String (byte_char (128 + r / 64 mod 64)) (String (byte_char (128 + r mod 64)) ""))).

Definition is_surrogate (r : N) : bool := ((55296 <=? r) && (r <=? 57343))%N.

(** [utf16.DecodeRune] of a pair, when it is a valid one. *)
Definition decode_pair (r1 r2 : N) : option N :=
  if ((55296 <=? r1) && (r1 <? 56320) && (56320 <=? r2) && (r2 <=? 57343))%N
  then Some ((r1 - 55296) * 1024 + (r2 - 56320) + 65536)%N else None.

Definition simple_escape (c : ascii) : option ascii :=
  let b := N_of_ascii c in
  if (b =? 98)%N then Some (ascii_of_N 8)
  else if (b =? 102)%N then Some (ascii_of_N 12)
  else if (b =? 110)%N then Some (ascii_of_N 10)
  else if (b =? 114)%N then Some (ascii_of_N 13)
  else if (b =? 116)%N then Some (ascii_of_N 9)
  else if (b =? 34)%N || (b =? 92)%N || (b =? 47)%N then Some c
  else None.

(** The scanner: a literal up to its closing quote, still escaped, and what follows. *)
Fixpoint scan_string (s : string) : option (string * string) :=
  match s with
  | "" => None
  | String c r =>
      if Ascii.eqb c quote then Some ("", r)
      else if (N_of_ascii c <? 32)%N then None
      else if Ascii.eqb c backslash then
        match r with
        | "" => None
        | String e r1 =>
            if Ascii.eqb e "u" then
              match r1 with
              | String h1 (String h2 (String h3 (String h4 r2))) =>
                  match hex4 h1 h2 h3 h4, scan_string r2 with
                  | Some _, Some (raw, rest) =>
                      Some (String c (String e (String h1 (String h2 (String h3 (String h4 raw))))), rest)
                  | _, _ => None
                  end
              | _ => None
              end
            else
              match simple_escape e, scan_string r1 with
              | Some _, Some (raw, rest) => Some (String c (String e raw), rest)
              | _, _ => None
              end
        end
      else match scan_string r with Some (raw, rest) => Some (String c raw, rest) | None => None end
  end.

(** [unquoteBytes], on a literal the scanner accepted; [copy] counts the bytes
    of a multi-byte rune still to copy. *)
Fixpoint unquote (copy : nat) (s : string) : string :=
  match s with
  | "" => ""
  | String c r =>
      match copy with
      | S k => String c (unquote k r)
      | O =>
          if Ascii.eqb c backslash then
            match r with
            | "" => ""
            | String e r1 =>
                if Ascii.eqb e "u" then
                  match r1 with
                  | String h1 (String h2 (String h3 (String h4 r2))) =>
                      let rr := default 0%N (hex4 h1 h2 h3 h4) in
                      if is_surrogate rr then
                        match r2 with
                        | String b2 (String u2 (String g1 (String g2 (String g3 (String g4 r3))))) =>
                            match (if Ascii.eqb b2 backslash && Ascii.eqb u2 "u"
                                   then hex4 g1 g2 g3 g4 ≫= decode_pair rr else None) with
                            | Some dec => AppendRune dec +:+ unquote 0 r3
                            | None => AppendRune 65533 +:+ unquote 0 r2
                            end
                        | _ => AppendRune 65533 +:+ unquote 0 r2
                        end
                      else AppendRune rr +:+ unquote 0 r2
                  | _ => ""
                  end
                else String (default e (simple_escape e)) (unquote 0 r1)
            end
          else if (N_of_ascii c <? 128)%N then String c (unquote 0 r)
          else match rune_tail c r with
               | Some n => String c (unquote n r)
               | None => AppendRune 65533 +:+ unquote 0 r
               end
      end
  end.

Definition string_literal (s : string) : option (string * string) :=
  match scan_string s with Some (raw, rest) => Some (unquote 0 raw, rest) | None => None end.

(** ** Numbers, literals and white space *)

Fixpoint take_digits (s : string) : string * string :=
  match s with
  | String c r => if is_digit c then let '(d, rest) := take_digits r in (String c d, rest) else ("", s)
  | "" => ("", "")
  end.

Definition scan_int (s : string) : option (string * string) :=
  match s with
  | String c r =>
      if Ascii.eqb c "0" then Some ("0", r)
      else if is_digit c then Some (take_digits s) else None
  | "" => None
  end.

Definition scan_frac (s : string) : option (string * string) :=
  match s with
  | String c r =>
      if Ascii.eqb c "." then
        let '(d, rest) := take_digits r in if String.eqb d "" then None else Some (String c d, rest)
      else Some ("", s)
  | "" => Some ("", "")
  end.

Definition scan_exp (s : string) : option (string * string) :=
  match s with
  | String c r =>
      if Ascii.eqb c "e" || Ascii.eqb c "E" then
        let '(sign, r) := match r with
                          | String p r' => if Ascii.eqb p "+" || Ascii.eqb p "-" then (String p "", r') else ("", r)
                          | "" => ("", r)
                          end in
        let '(d, rest) := take_digits r in
        if String.eqb d "" then None else Some (String c (sign +:+ d), rest)
      else Some ("", s)
  | "" => Some ("", "")
  end.

Definition scan_number (s : string) : option (string * string) :=
  let '(sign, s) := match s with
                    | String c r => if Ascii.eqb c "-" then ("-", r) else ("", s)
                    | "" => ("", s)
                    end in
  match scan_int s with
  | None => None
  | Some (i, s) =>
      match scan_frac s with
      | None => None
      | Some (f, s) =>
          match scan_exp s with
          | None => None
          | Some (e, rest) => Some (sign +:+ i +:+ f +:+ e, rest)
          end
      end
  end.

Definition is_space (c : ascii) : bool :=
  let b := N_of_ascii c in (b =? 32)%N || (b =? 9)%N || (b =? 10)%N || (b =? 13)%N.

Fixpoint skip_space (s : string) : string :=
  match s with String c r => if is_space c then skip_space r else s | "" => "" end.

Definition literal (word : string) (v : Value) (s : string) : option (Value * string) :=
  if HasPrefix s word then Some (v, drop_string (String.length word) s) else None.

(** ** Values

    [fuel] bounds the recursion, and the length of the text is enough ([decode_complete]); [depth] is the nesting still allowed
    ([maxNestingDepth]). *)

Fixpoint value (fuel : nat) (depth : N) (s : string) : option (Value * string) :=
  match fuel with
  | O => None
  | S n =>
      match skip_space s with
      | "" => None
      | String c r =>
          if Ascii.eqb c quote then
            match string_literal r with Some (t, rest) => Some (VString t, rest) | None => None end
          else if Ascii.eqb c "{" then
            if (depth =? 0)%N then None else
            match skip_space r with
            | String c1 r1 =>
                if Ascii.eqb c1 "}" then Some (VObject [], r1)
                else match members n (depth - 1) r with Some (l, rest) => Some (VObject l, rest) | None => None end
            | "" => None
            end
          else if Ascii.eqb c "[" then
            if (depth =? 0)%N then None else
            match skip_space r with
            | String c1 r1 =>
                if Ascii.eqb c1 "]" then Some (VArray [], r1)
                else match elements n (depth - 1) r with Some (l, rest) => Some (VArray l, rest) | None => None end
            | "" => None
            end
          else if Ascii.eqb c "t" then literal "true" (VBool true) (String c r)
          else if Ascii.eqb c "f" then literal "false" (VBool false) (String c r)
          else if Ascii.eqb c "n" then literal "null" VNull (String c r)
          else match scan_number (String c r) with
               | Some (t, rest) => Some (VNumber t, rest) | None => None
               end
      end
  end
(** [key : value , ...], to the closing brace. *)
with members (fuel : nat) (depth : N) (s : string) : option (list (string * Value) * string) :=
  match fuel with
  | O => None
  | S n =>
      match skip_space s with
      | String q r =>
          if Ascii.eqb q quote then
            match string_literal r with
            | None => None
            | Some (k, r) =>
                match skip_space r with
                | String colon r =>
                    if Ascii.eqb colon ":" then
                      match value n depth r with
                      | None => None
                      | Some (v, r) =>
                          match skip_space r with
                          | String sep r =>
                              if Ascii.eqb sep "," then
                                match members n depth r with
                                | Some (l, rest) => Some ((k, v) :: l, rest) | None => None
                                end
                              else if Ascii.eqb sep "}" then Some ([(k, v)], r) else None
                          | "" => None
                          end
                      end
                    else None
                | "" => None
                end
            end
          else None
      | "" => None
      end
  end
with elements (fuel : nat) (depth : N) (s : string) : option (list Value * string) :=
  match fuel with
  | O => None
  | S n =>
      match value n depth s with
      | None => None
      | Some (v, r) =>
          match skip_space r with
          | String sep r =>
              if Ascii.eqb sep "," then
                match elements n depth r with Some (l, rest) => Some (v :: l, rest) | None => None end
              else if Ascii.eqb sep "]" then Some ([v], r) else None
          | "" => None
          end
      end
  end.

Definition maxNestingDepth : N := 10000.

(** A whole document: one value and white space. *)
Definition decode (s : string) : option Value :=
  match value (S (String.length s)) maxNestingDepth s with
  | Some (v, rest) => if String.eqb (skip_space rest) "" then Some v else None
  | None => None
  end.

(** ** The round trip *)

(** Valid UTF-8, as [utf8.ValidString]; [copy] bytes of the current rune are still to come. *)
Fixpoint valid_utf8 (copy : nat) (s : string) : bool :=
  match s with
  | "" => (copy =? 0)%nat
  | String c r =>
      match copy with
      | S k => (128 <=? N_of_ascii c)%N && valid_utf8 k r
      | O =>
          if (N_of_ascii c <? 128)%N then valid_utf8 0 r
          else match rune_tail c r with Some n => valid_utf8 n r | None => false end
      end
  end.

Definition ValidString (s : string) : bool := valid_utf8 0 s.

Fixpoint drop_bytes (n : nat) (s : string) : string :=
  match n, s with S k, String _ r => drop_bytes k r | _, _ => s end.

Lemma scan_plain c t :
  Ascii.eqb c quote = false -> (N_of_ascii c <? 32)%N = false -> Ascii.eqb c backslash = false ->
  scan_string (String c t) = match scan_string t with Some (raw, rest) => Some (String c raw, rest) | None => None end.
Proof. intros H1 H2 H3. cbn [scan_string]. by rewrite H1, H2, H3. Qed.

Lemma high_byte c : (128 <=? N_of_ascii c)%N = true ->
  Ascii.eqb c quote = false /\ (N_of_ascii c <? 32)%N = false /\ Ascii.eqb c backslash = false.
Proof.
  intros H. apply N.leb_le in H. split_and!.
  - apply Ascii.eqb_neq. by intros ->.
  - apply N.ltb_ge. lia.
  - apply Ascii.eqb_neq. by intros ->.
Qed.

Lemma not_low c : (N_of_ascii c <? 128)%N = false -> (128 <=? N_of_ascii c)%N = true.
Proof. rewrite N.ltb_ge, N.leb_le. done. Qed.

(** Evaluates the escape of a closed character and the appends to it. *)
Ltac escape_eval :=
  repeat match goal with
  | |- context [escape_ascii ?c +:+ ?t] =>
      let e := eval vm_compute in (escape_ascii c) in change (escape_ascii c +:+ t) with (e +:+ t);
      rewrite ?string_app_cons; change ("" +:+ t) with t
  end.

Lemma scan_escape_ascii c t raw rest : (N_of_ascii c <? 128)%N = true ->
  scan_string t = Some (raw, rest) -> scan_string (escape_ascii c +:+ t) = Some (escape_ascii c +:+ raw, rest).
Proof.
  intros Hc Ht. destruct c as [[] [] [] [] [] [] [] []]; try discriminate Hc;
    escape_eval; cbn; rewrite Ht; reflexivity.
Qed.

Lemma unquote_escape_ascii c t : (N_of_ascii c <? 128)%N = true ->
  unquote 0 (escape_ascii c +:+ t) = String c (unquote 0 t).
Proof.
  intros Hc. destruct c as [[] [] [] [] [] [] [] []]; try discriminate Hc; escape_eval; reflexivity.
Qed.

(** A separator is a rune of three bytes, and is written as its escape. *)
Lemma line_sep_inv c s d : is_line_sep c s = Some d ->
  rune_tail c s = Some 2%nat
  /\ (forall raw rest t, scan_string t = Some (raw, rest) ->
       scan_string (String backslash (String "u" (String "2" (String "0" (String "2" (String d t))))))
       = Some (String backslash (String "u" (String "2" (String "0" (String "2" (String d raw))))), rest))
  /\ (forall t, unquote 0 (String backslash (String "u" (String "2" (String "0" (String "2" (String d t))))))
       = String c (take_string 2 s) +:+ unquote 0 t)
  /\ s = take_string 2 s +:+ drop_bytes 2 s.
Proof.
  unfold is_line_sep. destruct s as [|c1 [|c2 s]]; try done. intros H.
  destruct (N.eqb_spec (N_of_ascii c) 226) as [E|]; [|done].
  destruct (N.eqb_spec (N_of_ascii c1) 128) as [E1|]; [|done]. cbn [andb] in H.
  assert (Hc : c = ascii_of_N 226) by (by rewrite <-E, ascii_N_embedding).
  assert (Hc1 : c1 = ascii_of_N 128) by (by rewrite <-E1, ascii_N_embedding).
  subst c c1.
  assert (Hd : (c2 = ascii_of_N 168 /\ d = "8"%char) \/ (c2 = ascii_of_N 169 /\ d = "9"%char)).
  { destruct (N.eqb_spec (N_of_ascii c2) 168) as [E2|].
    - injection H as <-. left. by rewrite <-E2, ascii_N_embedding.
    - destruct (N.eqb_spec (N_of_ascii c2) 169) as [E2|]; [|done]. injection H as <-. right.
      by rewrite <-E2, ascii_N_embedding. }
  destruct Hd as [[-> ->]|[-> ->]]; (split; [reflexivity|]); split.
  - intros raw rest t Ht. cbn. by rewrite Ht.
  - split; [|by destruct s]. intros t. by destruct s.
  - intros raw rest t Ht. cbn. by rewrite Ht.
  - split; [|by destruct s]. intros t. by destruct s.
Qed.

Lemma escape_cons c r :
  (N_of_ascii c <? 128)%N = false ->
  json_escape_go 0 0 (String c r) =
  match rune_tail c r with
  | None => String backslash "ufffd" +:+ json_escape_go 0 0 r
  | Some n => match is_line_sep c r with
              | Some d => String backslash "u202" +:+ String d (json_escape_go 0 2 r)
              | None => String c (json_escape_go n 0 r)
              end
  end.
Proof. intros H. cbn [json_escape_go]. by rewrite H. Qed.

(** The scanner reads an escaped text to its end. *)
Lemma scan_escape s copy skip rest :
  copy = 0%nat \/ skip = 0%nat -> valid_utf8 (copy + skip) s = true ->
  scan_string (json_escape_go copy skip s +:+ String quote rest) = Some (json_escape_go copy skip s, rest).
Proof.
  revert copy skip. induction s as [|c s IH]; intros copy skip Hz Hv.
  - by destruct copy, skip.
  - destruct copy as [|k]; [destruct skip as [|k]|].
    + cbn [valid_utf8 Nat.add] in Hv. destruct (N_of_ascii c <? 128)%N eqn:Hc.
      { cbn [json_escape_go]. rewrite Hc, string_app_assoc.
        apply scan_escape_ascii; [done|]. apply (IH 0%nat 0%nat); [by left|done]. }
      rewrite escape_cons by done. destruct (rune_tail c s) as [n|] eqn:Er; [|done].
      destruct (is_line_sep c s) as [d|] eqn:El.
      * destruct (line_sep_inv _ _ _ El) as (Hr & Hs & _). rewrite Er in Hr. injection Hr as ->.
        rewrite !string_app_cons. apply Hs. apply (IH 0%nat 2%nat); [by left|done].
      * rewrite string_app_cons. destruct (high_byte c (not_low c Hc)) as (H1 & H2 & H3).
        rewrite scan_plain by done. rewrite (IH n 0%nat); [done|by right|by rewrite Nat.add_0_r].
    + cbn [valid_utf8 Nat.add] in Hv. apply andb_prop in Hv as [_ Hv]. cbn [json_escape_go].
      apply (IH 0%nat k); [by left|done].
    + destruct Hz as [?| ->]; [done|]. cbn [valid_utf8 Nat.add] in Hv. apply andb_prop in Hv as [Hc Hv].
      cbn [json_escape_go]. rewrite string_app_cons. destruct (high_byte c Hc) as (H1 & H2 & H3).
      rewrite scan_plain by done. rewrite (IH k 0%nat); [done|by right|done].
Qed.

(** The bytes of a rune are copied, so they still make a rune. *)
Lemma cont2_escape s lo hi : cont2 (json_escape_go 1 0 s) lo hi = cont2 s lo hi.
Proof. by destruct s. Qed.
Lemma cont3_escape s lo hi : cont3 (json_escape_go 2 0 s) lo hi = cont3 s lo hi.
Proof. by destruct s as [|c1 [|c2 s]]. Qed.
Lemma cont4_escape s lo hi : cont4 (json_escape_go 3 0 s) lo hi = cont4 s lo hi.
Proof. by destruct s as [|c1 [|c2 [|c3 s]]]. Qed.

Lemma rune_tail_escape c s n : rune_tail c s = Some n -> rune_tail c (json_escape_go n 0 s) = Some n.
Proof.
  unfold rune_tail.
  repeat match goal with
  | |- (if ?b then _ else _) = _ -> _ => destruct b eqn:?
  end; intros [= <-]; rewrite ?cont2_escape, ?cont3_escape, ?cont4_escape;
    by match goal with H : ?b = true |- (if ?b then _ else _) = _ => rewrite H end.
Qed.

Lemma unquote_escape s copy skip :
  copy = 0%nat \/ skip = 0%nat -> valid_utf8 (copy + skip) s = true ->
  unquote copy (json_escape_go copy skip s) = drop_bytes skip s.
Proof.
  revert copy skip. induction s as [|c s IH]; intros copy skip Hz Hv.
  - by destruct copy, skip.
  - destruct copy as [|k]; [destruct skip as [|k]|].
    + cbn [valid_utf8 Nat.add] in Hv. destruct (N_of_ascii c <? 128)%N eqn:Hc.
      { cbn [json_escape_go]. rewrite Hc, unquote_escape_ascii by done.
        by rewrite (IH 0%nat 0%nat) by (auto || done). }
      rewrite escape_cons by done. destruct (rune_tail c s) as [n|] eqn:Er; [|done].
      destruct (is_line_sep c s) as [d|] eqn:El.
      * destruct (line_sep_inv _ _ _ El) as (Hr & _ & Hu & Hd). rewrite Er in Hr. injection Hr as ->.
        change (String backslash "u202" +:+ String d (json_escape_go 0 2 s))
          with (String backslash (String "u" (String "2" (String "0" (String "2" (String d (json_escape_go 0 2 s))))))).
        rewrite Hu, (IH 0%nat 2%nat) by (auto || done).
        rewrite string_app_cons, <-Hd. done.
      * destruct (high_byte c (not_low c Hc)) as (_ & _ & H3). cbn [unquote]. rewrite H3, Hc.
        rewrite (rune_tail_escape c s n Er), (IH n 0%nat) by (auto || by rewrite Nat.add_0_r). done.
    + cbn [valid_utf8 Nat.add] in Hv. apply andb_prop in Hv as [_ Hv]. cbn [json_escape_go drop_bytes].
      apply (IH 0%nat k); [by left|done].
    + destruct Hz as [?| ->]; [done|]. cbn [valid_utf8 Nat.add] in Hv. apply andb_prop in Hv as [Hc Hv].
      cbn [json_escape_go unquote drop_bytes]. by rewrite (IH k 0%nat) by (auto || done).
Qed.

Lemma string_literal_encode s rest :
  ValidString s = true -> string_literal (json_escape_go 0 0 s +:+ String quote rest) = Some (s, rest).
Proof.
  intros Hv. unfold string_literal. rewrite (scan_escape s 0 0) by (auto || done).
  by rewrite (unquote_escape s 0 0) by (auto || done).
Qed.

(** *** Numbers *)

(** What may follow a number without being read as part of it. *)
Definition ends_number (rest : string) : bool :=
  match rest with
  | "" => true
  | String c _ => negb (is_digit c || Ascii.eqb c "." || Ascii.eqb c "e" || Ascii.eqb c "E")
  end.

Lemma take_digits_app s rest :
  Forall (fun c => is_digit c = true) (String.list_ascii_of_string s) ->
  match rest with String c _ => is_digit c = false | "" => True end ->
  take_digits (s +:+ rest) = (s, rest).
Proof.
  induction s as [|c s IH]; intros Hs Hr.
  - destruct rest as [|c r]; [done|]. change ("" +:+ String c r) with (String c r). cbn [take_digits]. by rewrite Hr.
  - cbn in Hs. apply Forall_cons in Hs as [Hc Hs]. rewrite string_app_cons. cbn [take_digits].
    by rewrite Hc, IH.
Qed.

(** A positive number is written without a leading zero. *)
Lemma dec_N_head p : exists c r, dec_N (Npos p) = String c r /\ is_digit c = true /\ c <> "0"%char.
Proof.
  pose proof (dec_N_digits (Npos p)) as Hd. unfold dec_N in *.
  assert (Hn : N.to_uint (Npos p) <> Decimal.Nil /\ forall u, N.to_uint (Npos p) <> Decimal.D0 u).
  { rewrite <-(DecimalN.Unsigned.of_to (Npos p)), DecimalN.Unsigned.to_of. split; [apply DecimalFacts.unorm_nonnil|].
    intros u. unfold Decimal.unorm. destruct (Decimal.nzhead _) eqn:E; try done.
    - intros [= <-]. assert (H : N.of_uint (N.to_uint (Npos p)) = 0%N).
      { rewrite <-DecimalN.Unsigned.of_uint_norm. unfold Decimal.unorm. by rewrite E. }
      by rewrite DecimalN.Unsigned.of_to in H.
    - by apply DecimalFacts.nzhead_nonzero in E. }
  destruct Hn as [Hn H0].
  destruct (N.to_uint (Npos p)) as [|u|u|u|u|u|u|u|u|u|u]; try (eexists _, _; split; [reflexivity|]; split; [reflexivity|discriminate]); [done|].
  by destruct (H0 u).
Qed.

Lemma scan_frac_end rest : ends_number rest = true -> scan_frac rest = Some ("", rest).
Proof.
  destruct rest as [|c r]; [done|]. cbn. intros H. apply negb_true_iff in H. repeat (apply orb_false_iff in H as [H ?]).
  by destruct (Ascii.eqb c ".").
Qed.

Lemma scan_exp_end rest : ends_number rest = true -> scan_exp rest = Some ("", rest).
Proof.
  destruct rest as [|c r]; [done|]. cbn. intros H. apply negb_true_iff in H. repeat (apply orb_false_iff in H as [H ?]).
  by destruct (Ascii.eqb c "e"), (Ascii.eqb c "E").
Qed.

Lemma digit_end rest : ends_number rest = true -> match rest with String c _ => is_digit c = false | "" => True end.
Proof. destruct rest as [|c r]; [done|]. cbn. intros H. apply negb_true_iff in H. by repeat (apply orb_false_iff in H as [H ?]). Qed.

Lemma scan_int_dec p rest : ends_number rest = true ->
  scan_int (dec_N (Npos p) +:+ rest) = Some (dec_N (Npos p), rest).
Proof.
  intros Hr. pose proof (take_digits_app (dec_N (Npos p)) rest (dec_N_digits _) (digit_end _ Hr)) as Ht.
  destruct (dec_N_head p) as (c & r & E & Hc & H0). rewrite E in *. rewrite string_app_cons in *. cbn [scan_int].
  apply Ascii.eqb_neq in H0. by rewrite H0, Hc, Ht.
Qed.

Lemma scan_number_dec n rest : ends_number rest = true ->
  scan_number (dec_Z n +:+ rest) = Some (dec_Z n, rest).
Proof.
  intros Hr. assert (Hend : forall sign i, match scan_frac rest with
      | None => None
      | Some (f, s) => match scan_exp s with None => None | Some (e, rest) => Some (sign +:+ i +:+ f +:+ e, rest) end
      end = Some (sign +:+ i, rest)).
  { intros sign i. rewrite scan_frac_end, scan_exp_end by done. cbn. by rewrite !string_app_nil_r. }
  destruct n as [|p|p]; cbn [dec_Z].
  - change ("0" +:+ rest) with (String "0" rest). unfold scan_number. cbn. apply (Hend "" "0").
  - destruct (dec_N_head p) as (c & r & E & Hc & H0).
    assert (Hm : Ascii.eqb c "-" = false) by (apply Ascii.eqb_neq; intros ->; discriminate Hc).
    pose proof (scan_int_dec p rest Hr) as Hi. unfold scan_number. rewrite E in *. rewrite string_app_cons in *.
    rewrite Hm, Hi. exact (Hend "" (String c r)).
  - unfold scan_number. rewrite string_app_assoc. change ("-" +:+ dec_N (Npos p) +:+ rest) with (String "-" (dec_N (Npos p) +:+ rest)).
    cbv iota beta. change (Ascii.eqb "-" "-") with true. cbv iota beta. rewrite scan_int_dec by done. exact (Hend "-" (dec_N (Npos p))).
Qed.

(** *** Values *)

(** What an encoded value decodes to: numbers become their literal. *)
Fixpoint value_of (j : Json) : Value :=
  match j with
  | JString s => VString s
  | JInt n => VNumber (dec_Z n)
  | JBool b => VBool b
  | JArray l => VArray (map value_of l)
  | JObject l => VObject (map (fun p => match p with (k, v) => (k, value_of v) end) l)
  end.

(** All strings and keys are valid UTF-8. *)
Fixpoint valid_json (j : Json) : bool :=
  match j with
  | JString s => ValidString s
  | JInt _ | JBool _ => true
  | JArray l => forallb valid_json l
  | JObject l => forallb (fun p => match p with (k, v) => ValidString k && valid_json v end) l
  end.

Definition list_max_N (l : list N) : N := fold_right N.max 0%N l.

Fixpoint nesting (j : Json) : N :=
  match j with
  | JArray l => 1 + list_max_N (map nesting l)
  | JObject l => 1 + list_max_N (map (fun p => match p with (_, v) => nesting v end) l)
  | _ => 0
  end.

(** The first character tells the kind of a value apart. *)
Definition starts_value (s : string) : Prop :=
  exists c r, s = String c r /\ is_space c = false /\ Ascii.eqb c "]" = false.

Lemma digit_starts c r : is_digit c = true -> starts_value (String c r).
Proof.
  intros H. exists c, r. split; [done|]. by destruct c as [[] [] [] [] [] [] [] []].
Qed.

Lemma encode_starts j : starts_value (json_encode j).
Proof.
  destruct j as [s|n|b|l|l]; cbn [json_encode].
  - by eexists quote, _.
  - destruct n as [|p|p]; cbn [dec_Z]; [by apply digit_starts| |by eexists "-"%char, _].
    destruct (dec_N_head p) as (c & r & -> & Hc & _). by apply digit_starts.
  - by destruct b; eexists _, _.
  - by eexists "["%char, _.
  - by eexists "{"%char, _.
Qed.

Lemma skip_encode j rest : skip_space (json_encode j +:+ rest) = json_encode j +:+ rest.
Proof.
  destruct (encode_starts j) as (c & r & -> & Hs & _). rewrite string_app_cons. cbn. by rewrite Hs.
Qed.

Lemma value_string n d s rest : ValidString s = true ->
  value (S n) d (json_string s +:+ rest) = Some (VString s, rest).
Proof.
  intros Hv. unfold json_string, dq. rewrite string_app_cons, string_app_assoc.
  change (String "034" "" +:+ rest) with (String quote rest). cbn [value skip_space].
  change (is_space "034") with false. cbv iota. change (Ascii.eqb "034" quote) with true. cbv iota.
  by rewrite string_literal_encode.
Qed.

(** A digit or a sign starts no other kind of value. *)
Lemma value_number n d c r : is_digit c = true \/ c = "-"%char ->
  value (S n) d (String c r)
  = match scan_number (String c r) with Some (t, rest) => Some (VNumber t, rest) | None => None end.
Proof.
  intros Hc. assert (H : is_space c = false /\ Ascii.eqb c quote = false /\ Ascii.eqb c "{" = false
    /\ Ascii.eqb c "[" = false /\ Ascii.eqb c "t" = false /\ Ascii.eqb c "f" = false /\ Ascii.eqb c "n" = false).
  { destruct Hc as [Hc| ->]; [|done]. by destruct c as [[] [] [] [] [] [] [] []]. }
  destruct H as (H0 & H1 & H2 & H3 & H4 & H5 & H6). cbn [value skip_space].
  by rewrite H0, H1, H2, H3, H4, H5, H6.
Qed.

Lemma value_dec n d z rest : ends_number rest = true ->
  value (S n) d (dec_Z z +:+ rest) = Some (VNumber (dec_Z z), rest).
Proof.
  intros Hr. pose proof (scan_number_dec z rest Hr) as Hs.
  assert (H : exists c r, dec_Z z = String c r /\ (is_digit c = true \/ c = "-"%char)).
  { destruct z as [|p|p]; cbn [dec_Z]; [by eexists _, _; split; [|left]| |by eexists _, _; split; [|right]].
    destruct (dec_N_head p) as (c & r & E & Hc & _). exists c, r. auto. }
  destruct H as (c & r & E & Hc). rewrite E in *. rewrite string_app_cons in *.
  by rewrite value_number, Hs.
Qed.

(** The round trip for one value, from any fuel that covers its text. *)
Definition decodes (j : Json) : Prop :=
  forall n d rest, (String.length (json_encode j) <= n)%nat -> (nesting j <= d)%N -> valid_json j = true ->
  ends_number rest = true -> value n d (json_encode j +:+ rest) = Some (value_of j, rest).

Definition ends_value (c : ascii) : Prop := c = ","%char \/ c = "]"%char \/ c = "}"%char.

Lemma ends_value_number c r : ends_value c -> ends_number (String c r) = true.
Proof. by intros [-> |[-> | ->]]. Qed.

Lemma Join_cons2 (x y : string) l sep :
  JoinStrings (x :: y :: l) sep = x +:+ sep +:+ JoinStrings (y :: l) sep.
Proof. done. Qed.

Lemma encode_length j : (1 <= String.length (json_encode j))%nat.
Proof. destruct (encode_starts j) as (c & r & -> & _). cbn. lia. Qed.

Lemma elements_encode l : Forall decodes l -> forall n d rest, l <> [] ->
  (S (String.length (JoinStrings (map json_encode l) ",")) <= n)%nat ->
  (list_max_N (map nesting l) <= d)%N -> forallb valid_json l = true ->
  elements n d (JoinStrings (map json_encode l) "," +:+ String "]" rest) = Some (map value_of l, rest).
Proof.
  induction 1 as [|j l Hj Hl IH]; intros n d rest Hne Hn Hd Hv; [done|].
  cbn in Hv. apply andb_prop in Hv as [Hvj Hvl].
  change (N.max (nesting j) (list_max_N (map nesting l)) <= d)%N in Hd. destruct n as [|n]; [lia|].
  destruct l as [|j2 l].
  - cbn [map] in *. change (JoinStrings [json_encode j] ",") with (json_encode j) in *. cbn [elements].
    rewrite Hj by (done || lia). reflexivity.
  - cbn [map] in *. rewrite Join_cons2 in *. rewrite !string_app_assoc, !string_app_length in *.
    cbn [elements].
    rewrite Hj by (done || lia). change ("," +:+ ?x) with (String "," x). cbn [skip_space].
    change (is_space ",") with false. cbv iota. change (Ascii.eqb "," ",") with true. cbv iota.
    rewrite IH; [done|done| |lia|done]. change (String.length ",") with 1%nat in Hn.
    pose proof (encode_length j). lia.
Qed.

(** The text of a member, and the members' parts. *)
Definition encode_member (p : string * Json) : string :=
  match p with (k, v) => json_string k +:+ ":" +:+ json_encode v end.
Definition member_value (p : string * Json) : string * Value :=
  match p with (k, v) => (k, value_of v) end.
Definition member_nesting (p : string * Json) : N := match p with (_, v) => nesting v end.
Definition valid_member (p : string * Json) : bool :=
  match p with (k, v) => ValidString k && valid_json v end.

Lemma json_string_quote k t : exists r, json_string k +:+ t = String quote r
  /\ (ValidString k = true -> string_literal r = Some (k, t)).
Proof.
  exists (json_escape_go 0 0 k +:+ String quote t). split.
  - unfold json_string, dq. by rewrite string_app_cons, string_app_assoc.
  - apply string_literal_encode.
Qed.

Lemma members_encode l : Forall (fun p => decodes p.2) l -> forall n d rest, l <> [] ->
  (S (String.length (JoinStrings (map encode_member l) ",")) <= n)%nat ->
  (list_max_N (map member_nesting l) <= d)%N -> forallb valid_member l = true ->
  members n d (JoinStrings (map encode_member l) "," +:+ String "}" rest) = Some (map member_value l, rest).
Proof.
  induction 1 as [|[k v] l Hj Hl IH]; intros n d rest Hne Hn Hd Hv; [done|].
  cbn in Hv. apply andb_prop in Hv as [Hvj Hvl]. apply andb_prop in Hvj as [Hk Hvv].
  change (N.max (nesting v) (list_max_N (map member_nesting l)) <= d)%N in Hd. destruct n as [|n]; [lia|].
  cbn [snd] in Hj.
  assert (Hone : forall t c, ends_value c -> (String.length (json_encode v) <= n)%nat ->
    members (S n) d (encode_member (k, v) +:+ String c t)
    = if Ascii.eqb c "," then match members n d t with Some (l, rest) => Some ((k, value_of v) :: l, rest) | None => None end
      else if Ascii.eqb c "}" then Some ([(k, value_of v)], t) else None).
  { intros t c Hc Hlen. cbn [encode_member]. rewrite !string_app_assoc.
    destruct (json_string_quote k (":" +:+ json_encode v +:+ String c t)) as (r & -> & Hr).
    cbn [members skip_space]. change (is_space quote) with false. cbv iota.
    change (Ascii.eqb quote quote) with true. cbv iota. rewrite (Hr Hk).
    change (":" +:+ ?x) with (String ":" x). cbn [skip_space]. change (is_space ":") with false. cbv iota.
    change (Ascii.eqb ":" ":") with true. cbv iota.
    rewrite Hj by (done || lia || by apply ends_value_number). cbn [skip_space].
    replace (is_space c) with false by (by destruct Hc as [-> |[-> | ->]]). done. }
  destruct l as [|p l].
  - cbn [map] in *. change (JoinStrings [encode_member (k, v)] ",") with (encode_member (k, v)) in *.
    rewrite Hone; [done|by right; right|]. cbn [encode_member] in Hn. rewrite !string_app_length in Hn. lia.
  - cbn [map] in *. rewrite Join_cons2 in *. rewrite !string_app_length in Hn. rewrite !string_app_assoc.
    change ("," +:+ ?x) with (String "," x). change (String.length ",") with 1%nat in Hn.
    assert (Hlen : (String.length (json_encode v) + 2 <= String.length (encode_member (k, v)))%nat).
    { cbn [encode_member]. rewrite !string_app_length. unfold json_string, dq. cbn. lia. }
    rewrite Hone; [|by left|lia]. change (Ascii.eqb "," ",") with true. cbv iota.
    rewrite IH; [done|done|lia|lia|done].
Qed.

Lemma Join_starts (s : string) l sep : starts_value s -> starts_value (JoinStrings (s :: l) sep).
Proof.
  intros (c & r & -> & H). destruct l as [|y l]; [by exists c, r|].
  rewrite Join_cons2, string_app_cons. by eexists c, _.
Qed.

Lemma literal_app (w : string) v (r : string) : literal w v (w +:+ r) = Some (v, r).
Proof. unfold literal. by rewrite HasPrefix_self, drop_string_app. Qed.

Lemma value_bool n d (b : bool) (rest : string) :
  value (S n) d ((if b then "true" else "false") +:+ rest) = Some (VBool b, rest).
Proof.
  destruct b.
  - transitivity (literal "true" (VBool true) ("true" +:+ rest)); [reflexivity|apply literal_app].
  - transitivity (literal "false" (VBool false) ("false" +:+ rest)); [reflexivity|apply literal_app].
Qed.

Lemma starts_app (s t : string) : starts_value s -> starts_value (s +:+ t).
Proof. intros (c & r & -> & H). rewrite string_app_cons. by exists c, (r +:+ t). Qed.

(** An array or an object: the bracket, then nothing or the parts. *)
Lemma value_array n d r : (0 < d)%N -> starts_value r ->
  value (S n) d (String "[" r)
  = match elements n (d - 1) r with Some (l, rest) => Some (VArray l, rest) | None => None end.
Proof.
  intros Hd (c & t & -> & Hs & Hc). cbn [value skip_space]. change (is_space "[") with false. cbv iota.
  change (Ascii.eqb "[" quote) with false. change (Ascii.eqb "[" "{") with false.
  change (Ascii.eqb "[" "[") with true. cbv iota. apply N.lt_neq, not_eq_sym, N.eqb_neq in Hd. rewrite Hd.
  cbn [skip_space]. by rewrite Hs, Hc.
Qed.

Lemma value_object n d k t : (0 < d)%N ->
  value (S n) d (String "{" (json_string k +:+ t))
  = match members n (d - 1) (json_string k +:+ t) with Some (l, rest) => Some (VObject l, rest) | None => None end.
Proof.
  intros Hd. destruct (json_string_quote k t) as (r & -> & _). cbn [value skip_space].
  change (is_space "{") with false. cbv iota. change (Ascii.eqb "{" quote) with false.
  change (Ascii.eqb "{" "{") with true. cbv iota. apply N.lt_neq, not_eq_sym, N.eqb_neq in Hd. rewrite Hd.
  cbn [skip_space]. done.
Qed.

Lemma value_empty n d (rest : string) : (0 < d)%N ->
  value (S n) d ("[]" +:+ rest) = Some (VArray [], rest) /\ value (S n) d ("{}" +:+ rest) = Some (VObject [], rest).
Proof. intros Hd. apply N.lt_neq, not_eq_sym, N.eqb_neq in Hd. split; cbn; by rewrite Hd. Qed.

Lemma members_head k v l : exists t, JoinStrings (map encode_member ((k, v) :: l)) "," = json_string k +:+ t.
Proof.
  destruct l as [|p l]; [by eexists|]. cbn [map]. rewrite Join_cons2. cbn [encode_member].
  rewrite string_app_assoc. by eexists.
Qed.

Lemma all_decode j : decodes j.
Proof.
  induction j as [s|z|b|l Hl|l Hl] using Json_nested_ind; intros n d rest Hn Hd Hv Hr.
  all: destruct n as [|n]; [match type of Hn with (String.length (json_encode ?j) <= _)%nat =>
         pose proof (encode_length j); lia end|].
  - by apply value_string.
  - by apply value_dec.
  - apply value_bool.
  - cbn [json_encode value_of nesting valid_json] in *. destruct l as [|j l]; [by apply value_empty; lia|].
    rewrite !string_app_assoc, !string_app_length in *. change (String.length "[") with 1%nat in Hn.
    change (String.length "]") with 1%nat in Hn.
    change ("[" +:+ ?x) with (String "[" x). change ("]" +:+ rest) with (String "]" rest).
    rewrite value_array by (lia || (rewrite <-?string_app_cons; apply (starts_app _ _ (Join_starts _ _ _ (encode_starts j))))).
    rewrite elements_encode by (done || lia). done.
  - destruct l as [|[k v] l]; [cbn [nesting] in Hd; by apply value_empty; lia|].
    set (L := (k, v) :: l) in *.
    change (json_encode (JObject L)) with ("{" +:+ JoinStrings (map encode_member L) "," +:+ "}") in *.
    change (value_of (JObject L)) with (VObject (map member_value L)).
    change (nesting (JObject L)) with (1 + list_max_N (map member_nesting L))%N in Hd.
    change (valid_json (JObject L)) with (forallb valid_member L) in Hv.
    rewrite !string_app_assoc, !string_app_length in *. change (String.length "{") with 1%nat in Hn.
    change (String.length "}") with 1%nat in Hn.
    change ("{" +:+ ?x) with (String "{" x). change ("}" +:+ rest) with (String "}" rest).
    assert (Hh : exists t, JoinStrings (map encode_member L) "," +:+ String "}" rest = json_string k +:+ t).
    { destruct (members_head k v l) as [t Ht]. fold L in Ht. rewrite Ht, string_app_assoc. by eexists. }
    destruct Hh as [t Ht]. rewrite Ht, value_object by lia. rewrite <-Ht, members_encode by (done || lia). done.
Qed.

(** Decoding what was encoded gives back the value (with numbers as their
    literals), for valid UTF-8 strings and nesting within Go's limit. *)
Theorem decode_encode j :
  valid_json j = true -> (nesting j <= maxNestingDepth)%N -> decode (json_encode j) = Some (value_of j).
Proof.
  intros Hv Hd. unfold decode. pose proof (all_decode j (S (String.length (json_encode j))) maxNestingDepth "") as H.
  rewrite string_app_nil_r in H. by rewrite H by (done || lia).
Qed.

Lemma dec_Z_inj a b : dec_Z a = dec_Z b -> a = b.
Proof.
  destruct a as [|p|p], b as [|q|q]; cbn [dec_Z]; try done; intros H;
    try (destruct (dec_N_head p) as (c & r & E & Hc & H0); rewrite E in H);
    try (destruct (dec_N_head q) as (c' & r' & E' & Hc' & H0'); rewrite E' in H);
    try (injection H as ?; subst; done).
  - rewrite <-E, <-E' in H. apply dec_N_inj in H. congruence.
  - rewrite <-E, <-E' in H. apply string_app_inj_r, dec_N_inj in H. congruence.
Qed.

Lemma value_of_inj j1 j2 : value_of j1 = value_of j2 -> j1 = j2.
Proof.
  revert j2. induction j1 as [s|z|b|l Hl|l Hl] using Json_nested_ind; intros [s2|z2|b2|l2|l2]; try done;
    cbn [value_of]; intros H; injection H as H.
  - by subst.
  - apply dec_Z_inj in H. by subst.
  - by subst.
  - f_equal. revert l2 H. induction Hl as [|j l Hj Hl IH]; intros [|j2 l2]; try done. cbn.
    intros [= H1 H2]. f_equal; auto.
  - f_equal. revert l2 H. induction Hl as [|[k v] l Hj Hl IH]; intros [|[k2 v2] l2]; try done. cbn.
    intros [= -> H1 H2]. cbn in Hj. apply Hj in H1 as ->. f_equal; auto.
Qed.

(** The encoder is injective on valid values. *)
Theorem json_encode_inj j1 j2 :
  valid_json j1 = true -> valid_json j2 = true ->
  (nesting j1 <= maxNestingDepth)%N -> (nesting j2 <= maxNestingDepth)%N ->
  json_encode j1 = json_encode j2 -> j1 = j2.
Proof.
  intros V1 V2 D1 D2 E. apply value_of_inj. apply decode_encode in V1; [|done]. apply decode_encode in V2; [|done].
  congruence.
Qed.

(** ** The fuel is enough *)

Lemma skip_space_length s : String.length (skip_space s) <= String.length s.
Proof. induction s as [|c s IH]; cbn; [lia|]. destruct (is_space c); cbn; lia. Qed.

Lemma scan_string_length s raw rest :
  scan_string s = Some (raw, rest) -> String.length rest < String.length s.
Proof.
  remember (String.length s) as n eqn:Hn. assert (Hle : String.length s <= n) by lia. clear Hn.
  revert s raw rest Hle. induction n as [|n IH]; intros [|c r] raw rest Hle; cbn in Hle |- *; try done; try lia.
  destruct (Ascii.eqb c quote); [intros [= <- <-]; lia|]. destruct (_ <? 32)%N; [done|].
  assert (Hrec : forall t raw' rest', String.length t <= n -> scan_string t = Some (raw', rest') ->
    String.length rest' < S n) by (intros t raw' rest' Ht E; apply IH in E; lia).
  destruct (Ascii.eqb c backslash).
  - destruct r as [|e r1]; [done|]. cbn in Hle. destruct (Ascii.eqb e "u").
    + destruct r1 as [|h1 [|h2 [|h3 [|h4 r2]]]]; try done. cbn in Hle. destruct (hex4 _ _ _ _); [|done].
      destruct (scan_string r2) as [[raw' rest']|] eqn:E; [|done]. intros [= <- <-]. apply (Hrec r2 raw'); [lia|done].
    + destruct (simple_escape e); [|done].
      destruct (scan_string r1) as [[raw' rest']|] eqn:E; [|done]. intros [= <- <-]. apply (Hrec r1 raw'); [lia|done].
  - destruct (scan_string r) as [[raw' rest']|] eqn:E; [|done]. intros [= <- <-]. apply (Hrec r raw'); [lia|done].
Qed.

Lemma string_literal_length s t rest :
  string_literal s = Some (t, rest) -> String.length rest < String.length s.
Proof.
  unfold string_literal. destruct (scan_string s) as [[raw r]|] eqn:E; [|done].
  intros [= <- <-]. by apply (scan_string_length s raw).
Qed.

Lemma take_digits_length s d rest : take_digits s = (d, rest) -> String.length rest <= String.length s.
Proof.
  revert d rest. induction s as [|c s IH]; intros d rest; cbn; [intros [= <- <-]; done|].
  destruct (is_digit c); [|intros [= <- <-]; done].
  destruct (take_digits s) as [d' r']. intros [= <- <-]. specialize (IH _ _ eq_refl). cbn. lia.
Qed.

Lemma scan_number_length s t rest : scan_number s = Some (t, rest) -> String.length rest < String.length s.
Proof.
  unfold scan_number.
  assert (Hsign : exists sign s1, (match s with String c r => if Ascii.eqb c "-" then ("-", r) else ("", s)
                                   | "" => ("", s) end) = (sign, s1) /\ String.length s1 <= String.length s).
  { destruct s as [|c r]; [by exists "", ""|]. destruct (Ascii.eqb c "-"); eexists _, _; (split; [reflexivity|cbn; lia]). }
  destruct Hsign as (sign & s1 & -> & H1).
  destruct (scan_int s1) as [[i s2]|] eqn:Ei; [|done].
  assert (H2 : String.length s2 < String.length s1).
  { destruct s1 as [|c r]; [done|]. cbn in Ei. destruct (Ascii.eqb c "0"); [injection Ei as <- <-; cbn; lia|].
    destruct (is_digit c); [|done]. destruct (take_digits r) as [d r'] eqn:Ed. injection Ei as <- <-.
    apply take_digits_length in Ed. cbn. lia. }
  destruct (scan_frac s2) as [[f s3]|] eqn:Ef; [|done].
  assert (H3 : String.length s3 <= String.length s2).
  { destruct s2 as [|c r]; cbn in Ef; [by injection Ef as <- <-|].
    destruct (Ascii.eqb c "."); [|by injection Ef as <- <-].
    destruct (take_digits r) as [d r'] eqn:Ed. apply take_digits_length in Ed.
    destruct (String.eqb d ""); [done|]. injection Ef as <- <-. cbn. lia. }
  destruct (scan_exp s3) as [[e s4]|] eqn:Ee; [|done]. intros [= <- <-].
  enough (String.length s4 <= String.length s3) by lia.
  destruct s3 as [|c r]; cbn in Ee; [by injection Ee as <- <-|].
  destruct (_ || _); [|by injection Ee as <- <-].
  assert (Hr : exists sg r0, (match r with String p r' => if Ascii.eqb p "+" || Ascii.eqb p "-"
                     then (String p "", r') else ("", r) | "" => ("", r) end) = (sg, r0)
                   /\ String.length r0 <= String.length r).
  { destruct r as [|p r]; [by exists "", ""|]. destruct (_ || _); eexists _, _; (split; [reflexivity|cbn; lia]). }
  destruct Hr as (sg & r0 & Er & Hr). rewrite Er in Ee. destruct (take_digits r0) as [d r'] eqn:Ed. apply take_digits_length in Ed.
  destruct (String.eqb d ""); [done|]. injection Ee as <- <-. cbn. lia.
Qed.

Lemma literal_length word v s r rest : word <> "" ->
  literal word v s = Some (r, rest) -> String.length rest < String.length s.
Proof.
  unfold literal. intros Hw. destruct (HasPrefix s word) eqn:E; [|done]. intros [= <- <-].
  destruct (HasPrefix_app s word E) as [t ->]. rewrite drop_string_app, string_app_length.
  destruct word; [done|]. cbn. lia.
Qed.

(** What a parser found with some fuel it finds with as much as it consumed. *)
Definition stable {A} (parser : nat -> string -> option (A * string)) (n : nat) : Prop :=
  forall s v rest, parser n s = Some (v, rest) ->
  String.length rest < String.length s
  /\ forall m, String.length s - String.length rest <= m -> parser m s = Some (v, rest).

Lemma elements_stable n :
  (forall d, stable (fun f => value f d) n) -> (forall d, stable (fun f => elements f d) n) ->
  forall d, stable (fun f => elements f d) (S n).
Proof.
  intros IHv IHe d s v rest. cbn [elements].
  destruct (value n d s) as [[v0 r]|] eqn:Ev; [|done]. apply IHv in Ev as [Lv Ev].
  pose proof (skip_space_length r) as Ls. destruct (skip_space r) as [|sep r0] eqn:Es; [done|]. cbn in Ls.
  destruct (Ascii.eqb sep ",") eqn:Ec.
  - destruct (elements n d r0) as [[l rest0]|] eqn:Ee; [|done]. intros [= <- <-]. apply IHe in Ee as [Le Ee].
    split; [lia|]. intros [|m] Hm; [lia|]. cbn [elements]. by rewrite Ev, Es, Ec, Ee by lia.
  - destruct (Ascii.eqb sep "]") eqn:Eb; [|done]. intros [= <- <-].
    split; [lia|]. intros [|m] Hm; [lia|]. cbn [elements]. by rewrite Ev, Es, Ec, Eb by lia.
Qed.

Lemma members_stable n :
  (forall d, stable (fun f => value f d) n) -> (forall d, stable (fun f => members f d) n) ->
  forall d, stable (fun f => members f d) (S n).
Proof.
  intros IHv IHm d s v rest. cbn [members].
  pose proof (skip_space_length s) as L0. destruct (skip_space s) as [|q r] eqn:E0; [done|]. cbn in L0.
  destruct (Ascii.eqb q quote) eqn:Eq; [|done].
  destruct (string_literal r) as [[k r1]|] eqn:Ek; [|done]. pose proof (string_literal_length _ _ _ Ek) as Lk.
  pose proof (skip_space_length r1) as L1. destruct (skip_space r1) as [|colon r2] eqn:E1; [done|]. cbn in L1.
  destruct (Ascii.eqb colon ":") eqn:Ecol; [|done].
  destruct (value n d r2) as [[v0 r3]|] eqn:Ev; [|done]. apply IHv in Ev as [Lv Ev].
  pose proof (skip_space_length r3) as L3. destruct (skip_space r3) as [|sep r4] eqn:E3; [done|]. cbn in L3.
  destruct (Ascii.eqb sep ",") eqn:Ec.
  - destruct (members n d r4) as [[l rest0]|] eqn:Ee; [|done]. intros [= <- <-]. apply IHm in Ee as [Le Ee].
    split; [lia|]. intros [|m] Hm; [lia|]. cbn [members].
    by rewrite E0, Eq, Ek, E1, Ecol, Ev, E3, Ec, Ee by lia.
  - destruct (Ascii.eqb sep "}") eqn:Eb; [|done]. intros [= <- <-].
    split; [lia|]. intros [|m] Hm; [lia|]. cbn [members]. by rewrite E0, Eq, Ek, E1, Ecol, Ev, E3, Ec, Eb by lia.
Qed.

(** A result that does not depend on the fuel left. *)
Ltac leaf L := split; [cbn in L |- *; lia|]; intros [|m] Hm; [cbn in L, Hm; lia|]; cbn [value];
  repeat match goal with E : _ = _ |- _ => rewrite E end; done.

Ltac leaf_literal E :=
  let L := fresh "L" in pose proof E as L; apply literal_length in L; [leaf L|discriminate].

Lemma value_stable n :
  (forall d, stable (fun f => members f d) n) -> (forall d, stable (fun f => elements f d) n) ->
  forall d, stable (fun f => value f d) (S n).
Proof.
  intros IHm IHe d s v rest. cbn [value].
  pose proof (skip_space_length s) as L0. destruct (skip_space s) as [|c r] eqn:E0; [done|]. cbn in L0.
  destruct (Ascii.eqb c quote) eqn:Eq.
  { destruct (string_literal r) as [[t r1]|] eqn:Et; [|done]. pose proof (string_literal_length _ _ _ Et) as L.
    intros [= <- <-]. leaf L. }
  destruct (Ascii.eqb c "{") eqn:Eo; [|destruct (Ascii.eqb c "[") eqn:Ea].
  1, 2: destruct (d =? 0)%N eqn:Ed; [done|];
    pose proof (skip_space_length r) as L1; destruct (skip_space r) as [|c1 r1] eqn:E1; [done|]; cbn in L1.
  - destruct (Ascii.eqb c1 "}") eqn:E2; [intros [= <- <-]; leaf L1|].
    destruct (members n (d - 1) r) as [[l r2]|] eqn:Em; [|done]. apply IHm in Em as [L Em].
    intros [= <- <-]. split; [lia|]. intros [|m] Hm; [lia|]. cbn [value].
    by rewrite E0, Eq, Eo, Ed, E1, E2, Em by lia.
  - destruct (Ascii.eqb c1 "]") eqn:E2; [intros [= <- <-]; leaf L1|].
    destruct (elements n (d - 1) r) as [[l r2]|] eqn:Em; [|done]. apply IHe in Em as [L Em].
    intros [= <- <-]. split; [lia|]. intros [|m] Hm; [lia|]. cbn [value].
    by rewrite E0, Eq, Eo, Ea, Ed, E1, E2, Em by lia.
  - destruct (Ascii.eqb c "t") eqn:Et; [intros E; leaf_literal E|].
    destruct (Ascii.eqb c "f") eqn:Ef; [intros E; leaf_literal E|].
    destruct (Ascii.eqb c "n") eqn:En; [intros E; leaf_literal E|].
    destruct (scan_number (String c r)) as [[t r1]|] eqn:E; [|done].
    pose proof (scan_number_length _ _ _ E) as L. intros [= <- <-]. leaf L.
Qed.

Lemma all_stable n : (forall d, stable (fun f => value f d) n)
  /\ (forall d, stable (fun f => members f d) n) /\ (forall d, stable (fun f => elements f d) n).
Proof.
  induction n as [|n (IHv & IHm & IHe)]; [by split_and!|].
  split; [by apply value_stable|]. split; [by apply members_stable|by apply elements_stable].
Qed.

(** A text decodes exactly when some amount of fuel finds a value that ends it. *)
Theorem decode_complete s v :
  decode s = Some v <-> exists n rest, value n maxNestingDepth s = Some (v, rest) /\ skip_space rest = "".
Proof.
  unfold decode. split.
  - destruct (value _ _ s) as [[v0 rest]|] eqn:E; [|done].
    destruct (String.eqb_spec (skip_space rest) ""); [|done]. intros [= <-]. by eexists _, rest.
  - intros (n & rest & E & Hr). apply all_stable in E as [_ E]. rewrite (E (S (String.length s))) by lia. by rewrite Hr.
Qed.

(** ** Decoding into a struct of strings *)

(** [foldName]: ASCII letters in upper case, and the two letters outside ASCII that fold to one
    (U+017F, long s, and U+212A, the Kelvin sign); no other folds to ASCII. *)
Fixpoint foldName (s : string) : string :=
  match s with
  | "" => ""
  | String c r =>
      let b := N_of_ascii c in
      if ((97 <=? b) && (b <=? 122))%N then String (ascii_of_N (b - 32)) (foldName r)
      else match r with
           | String c1 r1 =>
               if (b =? 197)%N && (N_of_ascii c1 =? 191)%N then String "S" (foldName r1)
               else match r1 with
                    | String c2 r2 =>
                        if (b =? 226)%N && (N_of_ascii c1 =? 132)%N && (N_of_ascii c2 =? 170)%N
                        then String "K" (foldName r2) else String c (foldName r)
                    | "" => String c (foldName r)
                    end
           | "" => String c ""
           end
  end.

(** The field a key sets: of the same name, or else of the same folded name. *)
Definition field_of (names : list string) (key : string) : option string :=
  match list_find (fun n => n = key) names with
  | Some (_, n) => Some n
  | None => snd <$> list_find (fun n => foldName n = foldName key) names
  end.

(** Members in order: a string sets its field, [null] leaves it, anything else
    is the error reported at the end, if it is the first. *)
Fixpoint assign (names : list string) (l : list (string * Value)) (fields : gmap string string)
    (err : option error) : gmap string string * option error :=
  match l with
  | [] => (fields, err)
  | (k, v) :: l' =>
      match field_of names k with
      | None => assign names l' fields err
      | Some f =>
          match v with
          | VString s => assign names l' (<[f := s]> fields) err
          | VNull => assign names l' fields err
          | _ => assign names l' fields
                   (match err with
                    | None => Some (Errorf "json: cannot unmarshal into Go struct field %s of type string" [f])
                    | _ => err
                    end)
          end
      end
  end.

(** [json.Unmarshal] into a struct of string fields with these names. *)
Definition Unmarshal_strings (names : list string) (data : string) : error + gmap string string :=
  match decode data with
  | None => inl (External "invalid JSON")
  | Some VNull => inr ∅
  | Some (VObject l) =>
      match assign names l ∅ None with
      | (_, Some err) => inl err
      | (fields, None) => inr fields
      end
  | Some _ => inl (Errorf "json: cannot unmarshal into Go value of type struct" [])
  end.

(** *** Objects whose members are matched by their exact names only *)

(** The keys other than those of the fields do not fold to one. *)
Definition foreign (names : list string) (k : string) : Prop := field_of names k = None.

Lemma field_of_exact names k : k ∈ names -> field_of names k = Some k.
Proof.
  intros Hk. unfold field_of. destruct (list_find (fun n => n = k) names) as [[i n]|] eqn:E.
  - by apply list_find_Some in E as (_ & -> & _).
  - apply list_find_None in E. rewrite Forall_forall in E. by destruct (E k Hk).
Qed.

(** The decoded members: distinct names, each a field with a string or foreign. *)
Lemma assign_members names l fields :
  Forall (fun m => foreign names m.1 \/ (m.1 ∈ names /\ exists s, m.2 = VString s)) l ->
  NoDup l.*1 ->
  exists fields', assign names l fields None = (fields', None)
  /\ forall k, k ∈ names -> fields' !! k =
       match (list_to_map l : gmap string Value) !! k with Some (VString s) => Some s | _ => fields !! k end.
Proof.
  intros Hl. revert fields. induction Hl as [|[k v] l Hm Hl IH]; intros fields Hnd; [by exists fields|].
  cbn in Hnd, Hm. apply NoDup_cons in Hnd as [Hk Hnd]. cbn [assign].
  assert (Hnot : (list_to_map l : gmap string Value) !! k = None) by (by apply not_elem_of_list_to_map_1).
  destruct Hm as [Hf|[Hin [s ->]]].
  - rewrite Hf. destruct (IH fields Hnd) as (f' & -> & Hf'). exists f'. split; [done|]. intros k2 Hk2.
    rewrite Hf' by done. cbn. rewrite lookup_insert_ne; [done|]. intros ->.
    pose proof (field_of_exact _ _ Hk2). unfold foreign in Hf. congruence.
  - rewrite (field_of_exact _ _ Hin). destruct (IH (<[k := s]> fields) Hnd) as (f' & -> & Hf'). exists f'.
    split; [done|]. intros k2 Hk2. rewrite Hf' by done. cbn. destruct (decide (k = k2)) as [<-|Hne].
    + by rewrite Hnot, !lookup_insert_eq.
    + by rewrite !lookup_insert_ne.
Qed.

Lemma member_map (l : list (string * Json)) k :
  (list_to_map (map member_value l) : gmap string Value) !! k
  = value_of <$> (list_to_map l : gmap string Json) !! k.
Proof.
  induction l as [|[k2 v] l IH]; [done|]. cbn. destruct (decide (k2 = k)) as [<-|Hne].
  - by rewrite !lookup_insert_eq.
  - by rewrite !lookup_insert_ne.
Qed.

(** An encoded object, with distinct keys, each a field with a string or foreign to
    the fields, is read back field by field. *)
Lemma Unmarshal_encode names (l : list (string * Json)) :
  valid_json (JObject l) = true -> (nesting (JObject l) <= maxNestingDepth)%N -> NoDup l.*1 ->
  Forall (fun m => foreign names m.1 \/ (m.1 ∈ names /\ exists s, m.2 = JString s)) l ->
  exists fields, Unmarshal_strings names (json_encode (JObject l)) = inr fields
  /\ forall k, k ∈ names -> fields !! k =
       match (list_to_map l : gmap string Json) !! k with Some (JString s) => Some s | _ => None end.
Proof.
  intros Hv Hd Hnd Hl. unfold Unmarshal_strings. rewrite decode_encode by done. cbn [value_of].
  change (map _ l) with (map member_value l).
  destruct (assign_members names (map member_value l) ∅) as (f & -> & Hf).
  - apply Forall_map. eapply Forall_impl; [exact Hl|]. intros [k v] [H|[H [s E]]]; cbn in *; [by left|right].
    subst v. split; [done|by exists s].
  - replace ((map member_value l).*1) with (l.*1); [done|]. rewrite <-list_fmap_compose. apply list_fmap_ext. by intros ? [? ?].
  - exists f. split; [done|]. intros k Hk. rewrite Hf, member_map by done.
    by destruct ((list_to_map l : gmap string Json) !! k) as [[]|].
Qed.

End json.
