(* ===== verification/Contract.v ===== *)
(** * The component contract

    [internal/component/rollout.go] declares what a component tells the
    controller about its rollout; [internal/bundle/bundle.go] declares the
    [Component] interface.  The interface is the class [IsComponent], and what
    its doc comments and [docs/component-pattern.md] require of an implementation is
    the class [ComponentContract]: the reconciler is verified against
    the contract, the API and Sentinel files prove it of their components. *)

From S2P Require Import Prelude Kube ConfigTypes Json.

(** [sigs.k8s.io/yaml] is not part of the repository: marshalling of a JSON
    value to YAML text is a parameter of every renderer. *)
Class YamlLib := { yaml_Marshal : Json -> error + string }.

Definition of_sum {A} (r : error + A) : outcome A :=
  match r with inl e => Fail e | inr a => Ok a end.

Record ConfigEntry := mkConfigEntry { ConfigMapName : string; ConfigFileKey : string }.

Record RolloutTarget := mkRolloutTarget {
  ConfigEntries : list ConfigEntry; DeploymentName : string }.

(** [component.SecretReference]: a role and the name of a Secret. *)
Record SecretReference := mkSecretReference { sr_Role : string; SecretName : string }.

(** The [bundle.Component] interface.  A method that dereferences a pointer
    field can panic, so [ReferencedSecrets] returns an [outcome]. *)
Class IsComponent (C : Type) := {
  cName : C -> string;
  cRender : C -> HyperFleetConfig -> outcome (list Object);
  cConditions : C -> HyperFleetConfig -> list Object -> outcome (list Condition);
  cRollout : C -> RolloutTarget;
  cReferencedSecrets : C -> HyperFleetConfig -> outcome (list SecretReference);
}.

(** ** What the controller relies on *)

(** The data of the first ConfigMap called [name] among [objs]. *)
Fixpoint find_configmap (name : string) (objs : list Object) : option ConfigMap :=
  match objs with
  | [] => None
  | OConfigMap c :: rest =>
      if String.eqb (om_Name (cm_Meta c)) name then Some c else find_configmap name rest
  | _ :: rest => find_configmap name rest
  end.

Definition deployments (objs : list Object) : list Deployment := omap as_deployment objs.

(** A condition the status rollup can read: a boolean status and a published reason. *)
Definition wf_condition (c : Condition) : Prop :=
  (c_Status c = ConditionTrue \/ c_Status c = ConditionFalse) /\ c_Reason c ∈ published_reasons.

(** ** What a Deployment's counters mean

    [serves d]: the Deployment wants no replica, or has some and at least as
    many as it wants.  [settled d]: the controller has observed the last
    generation, every wanted replica runs it, no old replica is left, and all are available. *)
Definition wanted (d : Deployment) : Z := default 1%Z (Replicas (dep_Spec d)).

Definition serves (d : Deployment) : Prop :=
  wanted d = 0%Z \/
  (st_AvailableReplicas (dep_Status d) <> 0%Z /\ (wanted d <= st_AvailableReplicas (dep_Status d))%Z).

Definition settled (d : Deployment) : Prop :=
  let s := dep_Status d in
  (om_Generation (dep_Meta d) <= st_ObservedGeneration s)%Z /\
  (wanted d <= st_UpdatedReplicas s)%Z /\
  st_Replicas s = st_UpdatedReplicas s /\
  (st_UpdatedReplicas s <= st_AvailableReplicas s)%Z.

(** The ConfigMap entries of a rollout target are rendered, with their key. *)
Definition entry_rendered (objs : list Object) (e : ConfigEntry) : Prop :=
  exists cm, find_configmap (ConfigMapName e) objs = Some cm /\ is_Some (cm_Data cm !! ConfigFileKey e).

Class ComponentContract (C : Type) `{!IsComponent C} := {
  (* Conditions never fails and reports Available and Progressing, whatever was applied. *)
  conditions_law c cr objs :
    exists l, cConditions c cr objs = Ok l
      /\ c_Type <$> l = [ConditionAvailable; ConditionProgressing] /\ Forall wf_condition l;
  (* exactly one Deployment is rendered, and it is the one that carries the config hash *)
  deployment_law c cr objs :
    cRender c cr = Ok objs ->
    dep_Name <$> deployments objs = [DeploymentName (cRollout c)];
  (* every ConfigMap whose data is hashed is rendered with the hashed key *)
  entries_law c cr objs :
    cRender c cr = Ok objs -> Forall (entry_rendered objs) (ConfigEntries (cRollout c));
  (* every ConfigMap a pod mounts is hashed *)
  configmaps_law c cr objs d :
    cRender c cr = Ok objs -> d ∈ deployments objs ->
    pod_configmaps (tpl_Spec (Template (dep_Spec d)))
      = ConfigMapName <$> ConfigEntries (cRollout c);
  (* the Secrets a pod consumes are exactly the declared ones *)
  secrets_law c cr objs d refs :
    cRender c cr = Ok objs -> d ∈ deployments objs -> cReferencedSecrets c cr = Ok refs ->
    pod_secrets (tpl_Spec (Template (dep_Spec d))) ≡ₚ SecretName <$> refs;
  (* rendering and the secret declaration panic together, on a nil broker *)
  panic_law c cr : cReferencedSecrets c cr <> Panic -> cRender c cr <> Panic;
  (* nothing a component does depends on the resource's own status *)
  status_law c cr st :
    cRender c (with_status cr st) = cRender c cr
    /\ cReferencedSecrets c (with_status cr st) = cReferencedSecrets c cr
    /\ forall objs, cConditions c (with_status cr st) objs = cConditions c cr objs;
}.

(** Deciding membership in the published reasons, and [wf_condition] of a literal. *)
Ltac wf_cond :=
  split; [by (left + right) | unfold published_reasons; rewrite !elem_of_cons; tauto].
