(* ===== verification/Api.v ===== *)
(** * The API component ([internal/component/api])

    Module [api] models [api.go], [config.go] and [render.go]: the rendering
    inputs, the [config.yaml] document, one builder per operand, [Render], the
    health conditions, and the methods of the component interface.  The theorems at the end
    discharge the component contract and relate the rendered operands to each
    other. *)

From S2P Require Import Prelude Kube ConfigTypes Json Contract.

Module api.

(** ** Constants *)

Definition RelatedImageEnv : string := "RELATED_IMAGE_HYPERFLEET_API".
Definition DefaultImage : string :=
  "quay.io/redhat-services-prod/hyperfleet-tenant/hyperfleet/hyperfleet-api:0.4.0".

Definition ResourceName : string := "hyperfleet-api".
Definition ConfigMapName_ : string := "hyperfleet-api-config".
Definition ConfigFileKey_ : string := "config.yaml".
Definition ComponentName : string := "api".
Definition managedByOperator : string := "hyperfleet-operator".
Definition partOfHyperfleet : string := "hyperfleet".
Definition portNameHTTP : string := "http".
Definition portNameHTTPS : string := "https".
Definition portNameHealth : string := "health".
Definition portNameMetrics : string := "metrics".
Definition portHTTP : Z := 8000.
Definition portHealth : Z := 8080.
Definition portMetrics : Z := 9090.
Definition configMountPath : string := "/etc/hyperfleet".
Definition configFilePath : string := "/etc/hyperfleet/config.yaml".
Definition configVolume : string := "config".
Definition tmpVolume : string := "tmp".
Definition migrationContainerName : string := "db-migrate".

Definition labelName : string := "app.kubernetes.io/name".
Definition labelInstance : string := "app.kubernetes.io/instance".
Definition labelComponent : string := "app.kubernetes.io/component".
Definition labelPartOf : string := "app.kubernetes.io/part-of".
Definition labelManagedBy : string := "app.kubernetes.io/managed-by".

Definition SecretKeyDBHost : string := "db.host".
Definition SecretKeyDBPort : string := "db.port".
Definition SecretKeyDBName : string := "db.name".
Definition SecretKeyDBUser : string := "db.user".
Definition SecretKeyDBPassword : string := "db.password".
Definition SecretKeyTLSCert : string := "tls.crt".
Definition SecretKeyTLSKey : string := "tls.key".
Definition SecretKeyJWKS : string := "jwks.json".

Definition dbMountPath : string := configMountPath +:+ "/db".
Definition dbVolume : string := "db".
Definition dbHostFilePath : string := dbMountPath +:+ "/" +:+ SecretKeyDBHost.
Definition dbPortFilePath : string := dbMountPath +:+ "/" +:+ SecretKeyDBPort.
Definition dbNameFilePath : string := dbMountPath +:+ "/" +:+ SecretKeyDBName.
Definition dbUsernameFilePath : string := dbMountPath +:+ "/" +:+ SecretKeyDBUser.
Definition dbPasswordFilePath : string := dbMountPath +:+ "/" +:+ SecretKeyDBPassword.
Definition tlsMountPath : string := configMountPath +:+ "/tls".
Definition tlsCertFilePath : string := tlsMountPath +:+ "/tls.crt".
Definition tlsKeyFilePath : string := tlsMountPath +:+ "/tls.key".
Definition tlsVolume : string := "tls".
Definition jwksMountPath : string := configMountPath +:+ "/jwks".
Definition jwksFilePath : string := jwksMountPath +:+ "/" +:+ SecretKeyJWKS.
Definition jwksVolume : string := "jwks".
Definition bindAllHost : string := "0.0.0.0".

Definition envConfig : string := "HYPERFLEET_CONFIG".
Definition envDBHostFile : string := "HYPERFLEET_DATABASE_HOST_FILE".
Definition envDBPortFile : string := "HYPERFLEET_DATABASE_PORT_FILE".
Definition envDBNameFile : string := "HYPERFLEET_DATABASE_NAME_FILE".
Definition envDBUsernameFile : string := "HYPERFLEET_DATABASE_USERNAME_FILE".
Definition envDBPasswordFile : string := "HYPERFLEET_DATABASE_PASSWORD_FILE".

Definition newline : string := String "010" "".
Definition configHeader : string :=
  "# HyperFleet API configuration — rendered by hyperfleet-operator from the" +:+ newline +:+
  "# HyperFleetConfig spec (HYPERFLEET-1408). Managed resource: manual edits are" +:+ newline +:+
  "# overwritten on the next reconcile." +:+ newline.

(** ** The configuration document *)

Record EntityDescriptor := mkEntity {
  e_Kind : string;
  e_Plural : string;
  e_ParentKind : string;
  e_SpecSchemaName : string;
  e_OnParentDelete : string;
  e_RequiredAdapters : list string;
  e_NameMinLen : Z;
  e_NameMaxLen : Z;
  e_RequireSpecSchema : bool }.

Definition json_EntityDescriptor (e : EntityDescriptor) : Json :=
  JObject (str_member "kind" (e_Kind e)
    ++ str_member "plural" (e_Plural e)
    ++ str_omitempty "parent_kind" (e_ParentKind e)
    ++ str_omitempty "spec_schema_name" (e_SpecSchemaName e)
    ++ str_omitempty "on_parent_delete" (e_OnParentDelete e)
    ++ list_omitempty "required_adapters" JString (e_RequiredAdapters e)
    ++ int_omitempty "name_min_len" (e_NameMinLen e)
    ++ int_omitempty "name_max_len" (e_NameMaxLen e)
    ++ bool_omitempty "require_spec_schema" (e_RequireSpecSchema e)).

Record configInput := mkConfigInput {
  ci_AuthEnabled : bool;
  ci_Issuer : string;
  ci_Audience : string;
  ci_JWKCertURL : string;
  ci_JWKCertFile : string;
  ci_TLSEnabled : bool;
  ci_Entities : list EntityDescriptor }.

Record jwtIssuerConfig := mkJwtIssuerConfig {
  jic_IssuerURL : string; jic_Audience : string;
  jic_JWKCertURL : string; jic_JWKCertFile : string }.
Record jwtConfig := mkJwtConfig { jwt_Enabled : bool; jwt_Configs : list jwtIssuerConfig }.
Record tlsConfig := mkTlsConfig { tc_Enabled : bool; tc_CertFile : string; tc_KeyFile : string }.
Record endpointConfig := mkEndpointConfig { ep_Host : string; ep_Port : Z }.
Record serverConfig := mkServerConfig {
  srv_Host : string; srv_Port : Z; srv_TLS : option tlsConfig; srv_JWT : jwtConfig }.
Record apiConfig := mkApiConfig {
  cfg_Server : serverConfig; cfg_Health : endpointConfig; cfg_Metrics : endpointConfig;
  cfg_Entities : list EntityDescriptor }.

Definition json_jwtIssuerConfig (j : jwtIssuerConfig) : Json :=
  JObject (str_member "issuer_url" (jic_IssuerURL j)
    ++ str_omitempty "audience" (jic_Audience j)
    ++ str_omitempty "jwk_cert_url" (jic_JWKCertURL j)
    ++ str_omitempty "jwk_cert_file" (jic_JWKCertFile j)).

Definition json_jwtConfig (j : jwtConfig) : Json :=
  JObject (member "enabled" (JBool (jwt_Enabled j))
    ++ list_omitempty "configs" json_jwtIssuerConfig (jwt_Configs j)).

Definition json_tlsConfig (t : tlsConfig) : Json :=
  JObject (member "enabled" (JBool (tc_Enabled t))
    ++ str_member "cert_file" (tc_CertFile t)
    ++ str_member "key_file" (tc_KeyFile t)).

Definition json_endpointConfig (e : endpointConfig) : Json :=
  JObject (str_member "host" (ep_Host e) ++ member "port" (JInt (ep_Port e))).

Definition json_serverConfig (s : serverConfig) : Json :=
  JObject (str_member "host" (srv_Host s)
    ++ member "port" (JInt (srv_Port s))
    ++ ptr_omitempty "tls" json_tlsConfig (srv_TLS s)
    ++ member "jwt" (json_jwtConfig (srv_JWT s))).

Definition json_apiConfig (c : apiConfig) : Json :=
  JObject (member "server" (json_serverConfig (cfg_Server c))
    ++ member "health" (json_endpointConfig (cfg_Health c))
    ++ member "metrics" (json_endpointConfig (cfg_Metrics c))
    ++ list_omitempty "entities" json_EntityDescriptor (cfg_Entities c)).

(** The struct [renderConfig] fills, or its error when no JWKS source is known. *)
Definition build_apiConfig (i : configInput) : outcome apiConfig :=
  let tls := if ci_TLSEnabled i
             then Some (mkTlsConfig true tlsCertFilePath tlsKeyFilePath) else None in
  let cfg jwt := mkApiConfig (mkServerConfig bindAllHost portHTTP tls jwt)
                   (mkEndpointConfig bindAllHost portHealth)
                   (mkEndpointConfig bindAllHost portMetrics)
                   (ci_Entities i) in
  if ci_AuthEnabled i then
    if String.eqb (ci_JWKCertURL i) "" && String.eqb (ci_JWKCertFile i) ""
    then Fail (Errorf "auth enabled but no JWKS source resolved (neither URL nor file)" [])
    else Ok (cfg (mkJwtConfig true
           [mkJwtIssuerConfig (ci_Issuer i) (ci_Audience i) (ci_JWKCertURL i) (ci_JWKCertFile i)]))
  else Ok (cfg (mkJwtConfig false [])).

Section render_config.
Context `{YamlLib}.

Definition renderConfig (i : configInput) : outcome string :=
  (let? cfg := build_apiConfig i in
   let? out := wrapErr "marshal api config: %w" [] (of_sum (yaml_Marshal (json_apiConfig cfg))) in
   Ok (configHeader +:+ out))%go.

End render_config.

(** ** Reading the resource *)

Definition AuthEnabled (cr : HyperFleetConfig) : bool :=
  match Enabled (auth_of cr) with None => true | Some b => b end.

Definition TLSEnabled (cr : HyperFleetConfig) : bool :=
  match tls_of cr with None => false | Some _ => true end.

Definition apiScheme (cr : HyperFleetConfig) : string :=
  if TLSEnabled cr then portNameHTTPS else portNameHTTP.

Definition apiAppProtocol (cr : HyperFleetConfig) : option string :=
  if TLSEnabled cr then Some portNameHTTPS else None.

Definition APIBaseURL (cr : HyperFleetConfig) (namespace : string) : string :=
  apiScheme cr +:+ "://" +:+ ResourceName +:+ "." +:+ namespace +:+ ".svc:" +:+ dec_Z portHTTP.

(** ** Labels and shared container settings *)

Definition labels (name : string) : gmap string string :=
  list_to_map [(labelName, ResourceName); (labelInstance, name); (labelComponent, ComponentName);
               (labelPartOf, partOfHyperfleet); (labelManagedBy, managedByOperator)].

Definition selectorLabels (name : string) : gmap string string :=
  list_to_map [(labelName, ResourceName); (labelInstance, name); (labelComponent, ComponentName)].

Definition apiContainerResources : ResourceRequirements :=
  mkResources [("cpu", MustParse "500m"); ("memory", MustParse "512Mi")]
              [("cpu", MustParse "100m"); ("memory", MustParse "128Mi")].

Definition apiContainerSecurityContext : SecurityContext :=
  mkSecurityContext (Some false) (Some true) ["ALL"] "RuntimeDefault".

(** ** Operand builders ([render.go]) *)

Definition base_env : list EnvVar :=
  [envValue envConfig configFilePath;
   envValue envDBHostFile dbHostFilePath;
   envValue envDBPortFile dbPortFilePath;
   envValue envDBNameFile dbNameFilePath;
   envValue envDBUsernameFile dbUsernameFilePath;
   envValue envDBPasswordFile dbPasswordFilePath].

(** [volumeMounts] and [volumes] after the conditional appends. *)
Definition api_volumeMounts (cr : HyperFleetConfig) : list VolumeMount :=
  [mkVolumeMount configVolume configMountPath "" true;
   mkVolumeMount dbVolume dbMountPath "" true;
   mkVolumeMount tmpVolume "/tmp" "" false]
  ++ match tls_of cr with
     | Some _ => [mkVolumeMount tlsVolume tlsMountPath "" true]
     | None => []
     end
  ++ match AuthEnabled cr, JWKCertSecretRef (auth_of cr) with
     | true, Some _ => [mkVolumeMount jwksVolume jwksMountPath "" true]
     | _, _ => []
     end.

Definition api_volumes (cr : HyperFleetConfig) : list Volume :=
  [mkVolume configVolume (VolConfigMap ConfigMapName_);
   mkVolume dbVolume (VolSecret (database_secret cr));
   mkVolume tmpVolume VolEmptyDir]
  ++ match tls_of cr with
     | Some t => [mkVolume tlsVolume (VolSecret (ref_Name (tls_SecretRef t)))]
     | None => []
     end
  ++ match AuthEnabled cr, JWKCertSecretRef (auth_of cr) with
     | true, Some r => [mkVolume jwksVolume (VolSecret (ref_Name r))]
     | _, _ => []
     end.

Definition migrate_container (cr : HyperFleetConfig) (image : string) : Container :=
  mkContainer migrationContainerName image "Always" "/app"
    ["/app/hyperfleet-api"; "migrate"] [] [] base_env None None
    apiContainerResources (Some apiContainerSecurityContext) (api_volumeMounts cr).

Definition serve_container (cr : HyperFleetConfig) (image : string) : Container :=
  mkContainer ResourceName image "Always" "/app" [] ["serve"]
    [mkContainerPort (apiScheme cr) portHTTP "TCP";
     mkContainerPort portNameHealth portHealth "TCP";
     mkContainerPort portNameMetrics portMetrics "TCP"]
    base_env
    (Some (mkProbe "/healthz" (FromString portNameHealth) 15 20 5 3))
    (Some (mkProbe "/readyz" (FromString portNameHealth) 5 5 3 3))
    apiContainerResources (Some apiContainerSecurityContext) (api_volumeMounts cr).

Definition deployment (cr : HyperFleetConfig) (image namespace : string) : Deployment :=
  mkDeployment (mkTypeMeta "apps/v1" "Deployment")
    (newMeta ResourceName namespace (labels (cr_Name cr)))
    (mkDeploymentSpec (Some 1%Z) (selectorLabels (cr_Name cr)) "RollingUpdate"
       (Some (mkRollingUpdate (FromInt32 1) (FromInt32 0)))
       (mkPodTemplateSpec (labels (cr_Name cr)) None
          (mkPodSpec (Some false) ResourceName (Some 70%Z) (Some true)
             [migrate_container cr image] [serve_container cr image] (api_volumes cr))))
    zeroDeploymentStatus.

Definition service (cr : HyperFleetConfig) (namespace : string) : Service :=
  let apiPort := apiScheme cr in
  mkService (mkTypeMeta "v1" "Service") (newMeta ResourceName namespace (labels (cr_Name cr)))
    "ClusterIP" (selectorLabels (cr_Name cr))
    [mkServicePort apiPort portHTTP (FromString apiPort) "TCP" (apiAppProtocol cr);
     mkServicePort portNameHealth portHealth (FromString portNameHealth) "TCP" None;
     mkServicePort portNameMetrics portMetrics (FromString portNameMetrics) "TCP" None].

Definition serviceAccount (cr : HyperFleetConfig) (namespace : string) : ServiceAccount :=
  mkServiceAccount (mkTypeMeta "v1" "ServiceAccount")
    (newMeta ResourceName namespace (labels (cr_Name cr))).

Definition configMap (cr : HyperFleetConfig) (namespace configYAML : string) : ConfigMap :=
  mkConfigMap (mkTypeMeta "v1" "ConfigMap")
    (newMeta ConfigMapName_ namespace (labels (cr_Name cr)))
    {[ConfigFileKey_ := configYAML]}.

Definition role (cr : HyperFleetConfig) (namespace : string) : Role :=
  mkRole (mkTypeMeta "rbac.authorization.k8s.io/v1" "Role")
    (newMeta ResourceName namespace (labels (cr_Name cr))) [].

Definition roleBinding (cr : HyperFleetConfig) (namespace : string) : RoleBinding :=
  mkRoleBinding (mkTypeMeta "rbac.authorization.k8s.io/v1" "RoleBinding")
    (newMeta ResourceName namespace (labels (cr_Name cr)))
    (mkRoleRef "rbac.authorization.k8s.io" "Role" ResourceName)
    [mkSubject "ServiceAccount" ResourceName namespace].

(** ** The component ([api.go]) *)

Record Component := mkComponent {
  Image : string;
  Namespace : string;
  Entities : list EntityDescriptor;
  ResolvedJWKSURL : string }.

Definition New (image namespace : string) (entities : list EntityDescriptor) : Component :=
  mkComponent image namespace entities "".

Definition Name (c : Component) : string := ComponentName.

Definition Rollout (c : Component) : RolloutTarget :=
  mkRolloutTarget [mkConfigEntry ConfigMapName_ ConfigFileKey_] ResourceName.

Definition ReferencedSecrets (c : Component) (cr : HyperFleetConfig) : list SecretReference :=
  [mkSecretReference "database" (database_secret cr)]
  ++ match tls_of cr with
     | Some t => [mkSecretReference "tls" (ref_Name (tls_SecretRef t))]
     | None => []
     end
  ++ match AuthEnabled cr, JWKCertSecretRef (auth_of cr) with
     | true, Some r => [mkSecretReference "jwks" (ref_Name r)]
     | _, _ => []
     end.

(** [(url, file)]. *)
Definition resolveJWKSource (c : Component) (cr : HyperFleetConfig) : string * string :=
  if negb (AuthEnabled cr) then ("", "")
  else match JWKCertSecretRef (auth_of cr) with
       | Some _ => ("", jwksFilePath)
       | None => (ResolvedJWKSURL c, "")
       end.

Definition config_input (c : Component) (cr : HyperFleetConfig) : configInput :=
  let '(jwkURL, jwkFile) := resolveJWKSource c cr in
  mkConfigInput (AuthEnabled cr) (Issuer (auth_of cr)) (Audience (auth_of cr))
    jwkURL jwkFile (TLSEnabled cr) (Entities c).

Section render.
Context `{YamlLib}.

Definition Render (c : Component) (cr : HyperFleetConfig) : outcome (list Object) :=
  (let image := if String.eqb (Image c) "" then DefaultImage else Image c in
   let? configYAML := wrapErr "render api config: %w" [] (renderConfig (config_input c cr)) in
   Ok [OServiceAccount (serviceAccount cr (Namespace c));
       ORole (role cr (Namespace c));
       ORoleBinding (roleBinding cr (Namespace c));
       OConfigMap (configMap cr (Namespace c) configYAML);
       OService (service cr (Namespace c));
       ODeployment (deployment cr image (Namespace c))])%go.

End render.

(** ** Health *)

Fixpoint findDeployment (applied : list Object) : option Deployment :=
  match applied with
  | [] => None
  | ODeployment d :: rest =>
      if String.eqb (dep_Name d) ResourceName then Some d else findDeployment rest
  | _ :: rest => findDeployment rest
  end.

Definition desiredReplicas (d : Deployment) : Z := default 1%Z (Replicas (dep_Spec d)).

Definition availableCondition (dep : option Deployment) : Condition :=
  match dep with
  | None => newCondition ConditionAvailable ConditionFalse ReasonDeploymentUnavailable
              "the API Deployment does not exist"
  | Some d =>
      let desired := desiredReplicas d in
      let avail := st_AvailableReplicas (dep_Status d) in
      if (desired =? 0)%Z then
        newCondition ConditionAvailable ConditionTrue ReasonDeploymentAvailable
          "the API Deployment is scaled to zero"
      else if (avail =? 0)%Z then
        newCondition ConditionAvailable ConditionFalse ReasonDeploymentUnavailable
          "the API Deployment has no available replicas"
      else if (avail <? desired)%Z then
        newCondition ConditionAvailable ConditionFalse ReasonDeploymentNotReady
          ("the API Deployment has " +:+ dec_Z avail +:+ "/" +:+ dec_Z desired
           +:+ " replicas available")
      else
        newCondition ConditionAvailable ConditionTrue ReasonDeploymentAvailable
          "the API Deployment is available"
  end.

Definition progressingCondition (dep : option Deployment) : Condition :=
  match dep with
  | None => newCondition ConditionProgressing ConditionTrue ReasonRolloutInProgress
              "the API Deployment does not exist yet"
  | Some d =>
      let desired := desiredReplicas d in
      let s := dep_Status d in
      if ((st_ObservedGeneration s <? om_Generation (dep_Meta d)) ||
          (st_UpdatedReplicas s <? desired) ||
          negb (st_Replicas s =? st_UpdatedReplicas s) ||
          (st_AvailableReplicas s <? st_UpdatedReplicas s))%Z
      then newCondition ConditionProgressing ConditionTrue ReasonRolloutInProgress
             "the API Deployment rollout has not completed"
      else newCondition ConditionProgressing ConditionFalse ReasonRolloutComplete
             "the API Deployment rollout is complete"
  end.

Definition Conditions (c : Component) (cr : HyperFleetConfig) (applied : list Object) :
    outcome (list Condition) :=
  let dep := findDeployment applied in
  Ok [availableCondition dep; progressingCondition dep].

#[global] Instance api_IsComponent `{YamlLib} : IsComponent Component := {
  cName := Name;
  cRender := Render;
  cConditions := Conditions;
  cRollout := Rollout;
  cReferencedSecrets c cr := Ok (ReferencedSecrets c cr) }.

(** ** Theorems *)

Lemma availableCondition_type dep : c_Type (availableCondition dep) = ConditionAvailable.
Proof. unfold availableCondition. by repeat case_match. Qed.

Lemma progressingCondition_type dep : c_Type (progressingCondition dep) = ConditionProgressing.
Proof. unfold progressingCondition. by repeat case_match. Qed.

Lemma availableCondition_wf dep : wf_condition (availableCondition dep).
Proof. unfold availableCondition. repeat case_match; wf_cond. Qed.

Lemma progressingCondition_wf dep : wf_condition (progressingCondition dep).
Proof. unfold progressingCondition. repeat case_match; wf_cond. Qed.

Lemma availableCondition_true d :
  c_Status (availableCondition (Some d)) = ConditionTrue <-> serves d.
Proof.
  unfold availableCondition, serves, desiredReplicas, wanted.
  repeat case_match; bool_prop; split; intros Hs; try done; try lia;
    first [by left | right; lia].
Qed.

Lemma progressingCondition_false d :
  c_Status (progressingCondition (Some d)) = ConditionFalse <-> settled d.
Proof.
  unfold progressingCondition, settled, desiredReplicas, wanted. cbv zeta.
  case_match eqn:E; split; intros Hs; try done.
  - rewrite !orb_true_iff, negb_true_iff in E. lia.
  - bool_prop. by repeat split.
Qed.

Lemma serves_of_settled d : (0 <= wanted d)%Z -> settled d -> serves d.
Proof. unfold serves, settled. intros ? (?&?&?&?). lia. Qed.

Section render_facts.
Context `{YamlLib}.

Lemma api_Render_ok c cr objs :
  Render c cr = Ok objs ->
  exists image y,
    renderConfig (config_input c cr) = Ok y
    /\ objs = [OServiceAccount (serviceAccount cr (Namespace c)); ORole (role cr (Namespace c));
            ORoleBinding (roleBinding cr (Namespace c)); OConfigMap (configMap cr (Namespace c) y);
            OService (service cr (Namespace c)); ODeployment (deployment cr image (Namespace c))].
Proof. unfold Render. intros Hr. inv_ok. naive_solver. Qed.

Lemma Render_no_panic c cr : Render c cr <> Panic.
Proof.
  unfold Render, renderConfig, build_apiConfig.
  repeat (case_match; simplify_eq/=); try done;
    destruct (yaml_Marshal _); done.
Qed.

Lemma env_secrets_base cs :
  Forall (fun ct => ct_Env ct = base_env) cs -> env_secrets cs = [].
Proof. unfold env_secrets. induction 1 as [|ct l Hc _ IH]; [done|]. cbn. by rewrite Hc, IH. Qed.

Lemma api_deployment_secrets c cr image ns :
  pod_secrets (tpl_Spec (Template (dep_Spec (deployment cr image ns))))
  = SecretName <$> ReferencedSecrets c cr.
Proof.
  unfold pod_secrets. cbn [deployment dep_Spec Template tpl_Spec InitContainers Containers Volumes].
  rewrite env_secrets_base by (repeat constructor). rewrite app_nil_r.
  unfold volume_secrets, api_volumes, ReferencedSecrets.
  by destruct (tls_of cr), (AuthEnabled cr), (JWKCertSecretRef (auth_of cr)).
Qed.

Lemma api_deployment_configmaps cr image ns :
  pod_configmaps (tpl_Spec (Template (dep_Spec (deployment cr image ns)))) = [ConfigMapName_].
Proof.
  unfold pod_configmaps, deployment, api_volumes. cbn.
  by destruct (tls_of cr), (AuthEnabled cr), (JWKCertSecretRef (auth_of cr)).
Qed.

#[global] Instance api_contract : ComponentContract Component.
Proof.
  constructor.
  - intros c cr objs. eexists. split; [done|]. split.
    + cbn [fmap list_fmap]. by rewrite availableCondition_type, progressingCondition_type.
    + repeat apply Forall_cons_2; auto using availableCondition_wf, progressingCondition_wf.
  - intros c cr objs Hr. apply api_Render_ok in Hr as (i & y & _ & ->). done.
  - intros c cr objs Hr. apply api_Render_ok in Hr as (i & y & _ & ->).
    apply Forall_singleton. eexists. split; [done|]. by apply lookup_singleton_is_Some.
  - intros c cr objs d Hr Hd. apply api_Render_ok in Hr as (i & y & _ & ->).
    apply list_elem_of_singleton in Hd as ->. apply api_deployment_configmaps.
  - intros c cr objs d refs Hr Hd Href. apply api_Render_ok in Hr as (i & y & _ & ->).
    apply list_elem_of_singleton in Hd as ->. injection Href as <-.
    by rewrite (api_deployment_secrets c).
  - intros c cr _. apply Render_no_panic.
  - done.
Qed.
End render_facts.

Lemma findDeployment_found applied d :
  findDeployment applied = Some d -> ODeployment d ∈ applied /\ dep_Name d = ResourceName.
Proof.
  induction applied as [|o l IH]; [done|]. intros Hf. simpl in Hf.
  destruct o; try (destruct (IH Hf); split; [by right|done]).
  case_match eqn:E; [|destruct (IH Hf); split; [by right|done]].
  injection Hf as ->. apply String.eqb_eq in E. split; [by left|done].
Qed.

Lemma findDeployment_none applied :
  findDeployment applied = None <-> forall d, ODeployment d ∈ applied -> dep_Name d <> ResourceName.
Proof.
  induction applied as [|o l IH]; [split; [intros _ d Hd; by apply not_elem_of_nil in Hd|done]|].
  simpl. assert (Hskip : (forall d, o <> ODeployment d) ->
    (findDeployment l = None <->
     forall d, ODeployment d ∈ o :: l -> dep_Name d <> ResourceName)).
  { intros Ho. rewrite IH. split; intros Ha d Hd.
    - apply elem_of_cons in Hd as [Hd|Hd]; [by destruct (Ho d)|by apply Ha].
    - apply Ha. by right. }
  destruct o as [d0|?|?|?|?|?|?]; try by apply Hskip.
  destruct (String.eqb_spec (dep_Name d0) ResourceName) as [E|E].
  - split; [done|]. intros Ha. exfalso. apply (Ha d0); [by left|done].
  - rewrite IH. split; intros Ha d Hd.
    + apply elem_of_cons in Hd as [[= ->]|Hd]; [done|by apply Ha].
    + apply Ha. by right.
Qed.

(** C22: [Conditions] never fails; Available is True exactly when the
    applied objects hold the API Deployment and it serves, Progressing is False
    exactly when that Deployment has settled, and with a non-negative replica
    count a settled Deployment is reported available. *)
Theorem Conditions_truth c cr applied :
  exists a p, Conditions c cr applied = Ok [a; p]
    /\ (c_Status a = ConditionTrue <->
          exists d, findDeployment applied = Some d /\ serves d)
    /\ (c_Status p = ConditionFalse <->
          exists d, findDeployment applied = Some d /\ settled d)
    /\ (c_Status p = ConditionFalse ->
        (forall d, findDeployment applied = Some d -> (0 <= wanted d)%Z) ->
        c_Status a = ConditionTrue).
Proof.
  eexists _, _. split; [reflexivity|]. destruct (findDeployment applied) as [d|] eqn:E.
  - rewrite availableCondition_true, progressingCondition_false.
    split_and!; try naive_solver. intros Hs Hw. apply serves_of_settled; auto.
  - split_and!; simpl; naive_solver.
Qed.

Section config_facts.
Context `{YamlLib}.

(** With a total YAML encoder, [Render] fails exactly when
    authentication is on, no JWKS Secret is referenced and no JWKS URL has been
    resolved, with the error that says so; in every other case it returns six operands. *)
Theorem api_Render_outcome c cr
    (Hyaml : forall j, exists y, yaml_Marshal j = inr y) :
  if AuthEnabled cr && bool_decide (JWKCertSecretRef (auth_of cr) = None)
     && String.eqb (ResolvedJWKSURL c) ""
  then Render c cr = Fail (Wrapf "render api config: %w" []
         (Errorf "auth enabled but no JWKS source resolved (neither URL nor file)" []))
  else exists objs, Render c cr = Ok objs
         /\ obj_type <$> objs = [TServiceAccount; TRole; TRoleBinding; TConfigMap; TService; TDeployment].
Proof.
  assert (Hm : forall j, exists y, wrapErr "marshal api config: %w" [] (of_sum (yaml_Marshal j)) = Ok y).
  { intros j. destruct (Hyaml j) as [y ->]. by exists y. }
  unfold Render, renderConfig, build_apiConfig, config_input, resolveJWKSource.
  destruct (AuthEnabled cr) eqn:Ea; simpl;
    destruct (JWKCertSecretRef (auth_of cr)) as [r|] eqn:Er; simpl;
    try destruct (String.eqb (ResolvedJWKSURL c) "") eqn:Eu; simpl; try done;
    match goal with |- context [outcome_bind (wrapErr _ _ (of_sum (yaml_Marshal ?j))) _] =>
      destruct (Hm j) as [y ->]; simpl; eauto end.
Qed.

End config_facts.

#[local] Instance toy_yaml : YamlLib := { yaml_Marshal j := inr (json_encode j) }.

Definition demo_cr (auth : AuthSpec) (tls : option TLSSpec) : HyperFleetConfig :=
  mkConfig SingletonName 1 "uid-1"
    (mkSpec BundleCloudCAPI (mkAPISpec (mkDatabaseSpec (mkSecretRef "db-creds")) auth tls
       SizingProfileSmall)) (mkStatus 0 [] []).

Lemma api_Render_outcome_witness :
  Render (New "" "hf" []) (demo_cr (mkAuthSpec None "https://issuer" "aud" None) None)
  = Fail (Wrapf "render api config: %w" []
      (Errorf "auth enabled but no JWKS source resolved (neither URL nor file)" [])).
Proof.
  apply (api_Render_outcome (New "" "hf" [])
    (demo_cr (mkAuthSpec None "https://issuer" "aud" None) None)).
  intros j. by eexists.
Defined.

(** [secret_file cr path key secret]: mounting the pod's volumes, [path] is
    the key [key] of the Secret [secret]. *)
Definition secret_file (cr : HyperFleetConfig) (path key secret : string) : Prop :=
  exists m v, m ∈ api_volumeMounts cr /\ v ∈ api_volumes cr /\ v_Name v = vm_Name m
    /\ v_Source v = VolSecret secret /\ path = vm_MountPath m +:+ "/" +:+ key.

Lemma db_files cr key :
  secret_file cr (dbMountPath +:+ "/" +:+ key) key (database_secret cr).
Proof.
  exists (mkVolumeMount dbVolume dbMountPath "" true), (mkVolume dbVolume (VolSecret (database_secret cr))).
  split_and!; [right; left|right; left|done..].
Qed.

Lemma tls_files cr t key :
  tls_of cr = Some t ->
  secret_file cr (tlsMountPath +:+ "/" +:+ key) key (ref_Name (tls_SecretRef t)).
Proof.
  intros Ht. unfold secret_file, api_volumeMounts, api_volumes. rewrite Ht.
  eexists (mkVolumeMount tlsVolume tlsMountPath "" true), _. cbn.
  split_and!; [do 3 right; left|do 3 right; left|done..].
Qed.

Lemma jwks_files cr r key :
  AuthEnabled cr = true -> JWKCertSecretRef (auth_of cr) = Some r ->
  secret_file cr (jwksMountPath +:+ "/" +:+ key) key (ref_Name r).
Proof.
  intros Ha Hr. unfold secret_file, api_volumeMounts, api_volumes. rewrite Ha, Hr.
  eexists (mkVolumeMount jwksVolume jwksMountPath "" true), (mkVolume jwksVolume (VolSecret (ref_Name r))).
  split_and!; [apply elem_of_app; right; apply elem_of_app; right; by left..|done|done|done].
Qed.

(** C38: every file path the rendered configuration or the containers'
    environment names is a key of a mounted Secret: the five database files, the
    TLS pair exactly when TLS is set, the JWKS file when (and only when) a JWKS Secret is
    referenced and authentication is on; and an enabled issuer has exactly one
    JWKS source. *)
Theorem api_files_mounted c cr cfg
    (Hcfg : build_apiConfig (config_input c cr) = Ok cfg) :
  (forall e, e ∈ base_env -> ev_Name e <> envConfig ->
     exists key, secret_file cr (ev_Value e) key (database_secret cr))
  /\ match srv_TLS (cfg_Server cfg), tls_of cr with
     | Some f, Some t => secret_file cr (tc_CertFile f) "tls.crt" (ref_Name (tls_SecretRef t))
                      /\ secret_file cr (tc_KeyFile f) "tls.key" (ref_Name (tls_SecretRef t))
     | None, None => True
     | _, _ => False
     end
  /\ match jwt_Configs (srv_JWT (cfg_Server cfg)) with
     | [] => AuthEnabled cr = false
     | [j] => AuthEnabled cr = true /\ match JWKCertSecretRef (auth_of cr) with
         | Some r => secret_file cr (jic_JWKCertFile j) SecretKeyJWKS (ref_Name r)
                     /\ jic_JWKCertURL j = ""
         | None => jic_JWKCertFile j = "" /\ jic_JWKCertURL j = ResolvedJWKSURL c
                   /\ ResolvedJWKSURL c <> ""
         end
     | _ => False
     end.
Proof.
  split; [|split].
  - intros e He Hne. unfold base_env in He. rewrite !elem_of_cons in He.
    destruct He as [->|[->|[->|[->|[->|[->|He]]]]]]; [done|eexists; apply db_files..|].
    by apply not_elem_of_nil in He.
  - unfold build_apiConfig, config_input in Hcfg. destruct (resolveJWKSource c cr) as [u f].
    destruct (tls_of cr) as [t|] eqn:Ht; unfold TLSEnabled in Hcfg; rewrite Ht in Hcfg;
      go_cases; split; by apply tls_files.
  - unfold build_apiConfig, config_input, resolveJWKSource in Hcfg.
    destruct (AuthEnabled cr) eqn:Ha; [|by go_cases].
    destruct (JWKCertSecretRef (auth_of cr)) as [r|] eqn:Hr; simpl in Hcfg; go_cases.
    + split_and!; [done|by apply jwks_files|done].
    + rewrite andb_true_r in H. bool_prop. done.
Qed.

Lemma api_files_mounted_witness :
  secret_file (demo_cr (mkAuthSpec None "https://issuer" "aud" (Some (mkSecretRef "keys"))) None)
    "/etc/hyperfleet/jwks/jwks.json" "jwks.json" "keys".
Proof.
  destruct (api_files_mounted (New "" "hf" [])
    (demo_cr (mkAuthSpec None "https://issuer" "aud" (Some (mkSecretRef "keys"))) None) _ eq_refl)
    as (_ & _ & _ & Hf & _).
  exact Hf.
Defined.

(** [port_served d p]: the Service port [p] targets a named port of a container
    of [d]'s pods, under the same number. *)
Definition port_served (d : Deployment) (p : ServicePort) : Prop :=
  exists ct cp, ct ∈ Containers (tpl_Spec (Template (dep_Spec d))) /\ cp ∈ ct_Ports ct
    /\ sp_TargetPort p = FromString (cp_Name cp) /\ sp_Port p = cp_ContainerPort cp
    /\ sp_Protocol p = cp_Protocol cp.

Lemma service_ports cr image ns : Forall (port_served (deployment cr image ns)) (svc_Ports (service cr ns)).
Proof.
  repeat apply Forall_cons_2; [..|by apply Forall_nil]; exists (serve_container cr image).
  - exists (mkContainerPort (apiScheme cr) portHTTP "TCP"). split_and!; [left|left|done..].
  - exists (mkContainerPort portNameHealth portHealth "TCP"). split_and!; [left|right; left|done..].
  - exists (mkContainerPort portNameMetrics portMetrics "TCP").
    split_and!; [left|do 2 right; left|done..].
Qed.

Lemma selector_in_labels n : selectorLabels n ⊆ labels n.
Proof. apply map_subseteq_spec. intros k v. unfold selectorLabels, labels. simpl.
  rewrite !lookup_insert_Some, !lookup_empty. naive_solver.
Qed.

Lemma deployment_mounts cr image ns :
  mounts_resolve (tpl_Spec (Template (dep_Spec (deployment cr image ns)))) = true.
Proof.
  unfold mounts_resolve, deployment, migrate_container, serve_container, api_volumeMounts, api_volumes.
  by destruct (tls_of cr), (AuthEnabled cr), (JWKCertSecretRef (auth_of cr)).
Qed.

(** C37: the six rendered operands fit together: all are in the
    component's namespace, the Service and the Deployment select the pod
    template's labels, every Service port reaches a container port, every mount
    names a volume, the pod's ServiceAccount and the RoleBinding's Role and subject are rendered, and
    the base URL handed to the Sentinels addresses the Service's first port. *)
Theorem operands_wired `{YamlLib} c cr objs (Hr : Render c cr = Ok objs) :
  exists d s sa r rb, deployments objs = [d]
    /\ OService s ∈ objs /\ OServiceAccount sa ∈ objs /\ ORole r ∈ objs /\ ORoleBinding rb ∈ objs
    /\ Forall (fun o => obj_Namespace o = Namespace c) objs
    /\ svc_Selector s = ds_Selector (dep_Spec d)
    /\ ds_Selector (dep_Spec d) ⊆ tpl_Labels (Template (dep_Spec d))
    /\ Forall (port_served d) (svc_Ports s)
    /\ mounts_resolve (tpl_Spec (Template (dep_Spec d))) = true
    /\ ServiceAccountName (tpl_Spec (Template (dep_Spec d))) = om_Name (sa_Meta sa)
    /\ rr_Name (rb_RoleRef rb) = om_Name (role_Meta r)
    /\ rb_Subjects rb = [mkSubject "ServiceAccount" (om_Name (sa_Meta sa)) (om_Namespace (sa_Meta sa))]
    /\ exists p ps, svc_Ports s = p :: ps /\ APIBaseURL cr (Namespace c)
         = sp_Name p +:+ "://" +:+ om_Name (svc_Meta s) +:+ "." +:+ om_Namespace (svc_Meta s)
           +:+ ".svc:" +:+ dec_Z (sp_Port p).
Proof.
  apply api_Render_ok in Hr as (image & y & _ & ->).
  do 5 eexists. split; [reflexivity|]. split; [do 4 right; left|]. split; [left|].
  split; [right; left|]. split; [do 2 right; left|]. split; [by repeat constructor|].
  split_and!; try reflexivity.
  - apply selector_in_labels.
  - apply service_ports.
  - apply deployment_mounts.
  - do 2 eexists. split; reflexivity.
Qed.

Lemma operands_wired_witness :
  exists objs, Render (New "img" "hf" []) (demo_cr (mkAuthSpec (Some false) "" "" None) None) = Ok objs
    /\ exists d s sa r rb, deployments objs = [d] /\ OService s ∈ objs
       /\ OServiceAccount sa ∈ objs /\ ORole r ∈ objs /\ ORoleBinding rb ∈ objs.
Proof.
  destruct (Render (New "img" "hf" []) (demo_cr (mkAuthSpec (Some false) "" "" None) None))
    as [objs| |] eqn:E; [|discriminate E..].
  exists objs. split; [done|].
  destruct (operands_wired (New "img" "hf" []) (demo_cr (mkAuthSpec (Some false) "" "" None) None)
    _ E) as (d & s & sa & r & rb & H1 & H2 & H3 & H4 & H5 & _).
  exists d, s, sa, r, rb. auto.
Defined.

End api.
