(* ===== verification/Admission.v ===== *)
(** * Admission of the resource ([api/v1alpha1/hyperfleetconfig_types.go], the kubebuilder markers)

    The markers on the types are the source of the custom resource definition
    ([config/crd/bases]): defaults, enumerations, lengths, patterns and CEL rules that the API
    server checks before it stores a resource, and the schema of the status the operator
    writes.  Module [admission] is those checks on the records of [ConfigTypes], in which an
    empty optional string is an absent one, as [omitempty] has it; and the transitions of the
    stored resource: creation, updates of the spec, updates of the status subresource,
    deletion.  The URL functions of CEL are the class [CelLib]. *)

From S2P Require Import Prelude Kube ConfigTypes Json Url JsonDecode Contract Api Regexp.

(** CEL's [isURL], [url(s).getScheme()] and [url(s).getHostname()]. *)
Class CelLib := { isURL : string -> bool; getScheme : string -> string; getHostname : string -> string }.

Module admission.
Import regexp.

(** ** Lengths and patterns *)

(** A length is counted in characters: the bytes of a UTF-8 text that do not continue one. *)
Definition continues (c : ascii) : bool := ((128 <=? N_of_ascii c) && (N_of_ascii c <? 192))%N.
Fixpoint RuneCount (s : string) : N :=
  match s with "" => 0 | String c s' => (if continues c then 0 else 1) + RuneCount s' end%N.

(** [MinLength] and [MaxLength]. *)
Definition within (lo hi : N) (s : string) : bool := ((lo <=? RuneCount s) && (RuneCount s <=? hi))%N.

Definition lower_alnum : Regexp := CharClass [("a", "z"); ("0", "9")]%char.
Definition one (c : ascii) : Regexp := CharClass [(c, c)].

(** A DNS label (lower-case letters and digits, with dashes inside) and a subdomain (labels separated by dots):
    the pattern of [SecretReference.Name]. *)
Definition dns_label : Regexp :=
  Concat lower_alnum
    (maybe (Concat (Star (CharClass [("-", "-"); ("a", "z"); ("0", "9")]%char)) lower_alnum)).
Definition dns_subdomain : Regexp := Concat dns_label (Star (Concat (one ".") dns_label)).

Definition letters : class := [("A", "Z"); ("a", "z")]%char.
Definition alnum : class := [("A", "Z"); ("a", "z"); ("0", "9")]%char.

(** A condition's reason: a letter first, a letter, a digit or an underscore last. *)
Definition reason_pattern : Regexp :=
  Concat (CharClass letters)
    (maybe (Concat (Star (CharClass (alnum ++ [("_", "_"); (",", ","); (":", ":")]%char)))
              (CharClass (alnum ++ [("_", "_")]%char)))).

(** A condition's type: a name, perhaps after a subdomain and a slash. *)
Definition type_pattern : Regexp :=
  Concat (maybe (Concat dns_subdomain (one "/")))
    (Concat (maybe (Concat (CharClass alnum)
                      (Star (CharClass (("-", "-")%char :: alnum ++ [("_", "_"); (".", ".")]%char)))))
       (CharClass alnum)).

(** ** The spec *)

Definition bundle_enum : list string := ["cloud-capi"; "onprem-agent"].
Definition profile_enum : list string := ["small"; "medium"; "large"].

Definition one_of (l : list string) (s : string) : bool := bool_decide (s ∈ l).

Section checks.
Context `{CEL : CelLib}.

(** An optional field that is set. *)
Definition has (s : string) : bool := negb (String.eqb s "").

Definition SecretReference_valid (r : SecretRef) : bool :=
  within 1 253 (ref_Name r) && MatchString dns_subdomain (ref_Name r).

Definition issuer_valid (s : string) : bool :=
  negb (has s)
  || (within 1 2048 s && (isURL s && String.eqb (getScheme s) "https" && negb (String.eqb (getHostname s) ""))).

Definition audience_valid (s : string) : bool := negb (has s) || within 1 253 s.

Definition enabled (a : AuthSpec) : bool := default true (Enabled a).

Definition AuthSpec_valid (a : AuthSpec) : bool :=
  (negb (enabled a) || (has (Issuer a) && has (Audience a)))
  && issuer_valid (Issuer a) && audience_valid (Audience a)
  && match JWKCertSecretRef a with Some r => SecretReference_valid r | None => true end.

Definition APISpec_valid (a : APISpec) : bool :=
  SecretReference_valid (db_SecretRef (Database a)) && AuthSpec_valid (Auth a)
  && match TLS a with Some t => SecretReference_valid (tls_SecretRef t) | None => true end
  && one_of profile_enum (Profile a).

Definition Spec_valid (s : HyperFleetConfigSpec) : bool :=
  one_of bundle_enum (spec_Bundle s) && APISpec_valid (spec_API s).

(** The defaults, filled in before the checks. *)
Definition default_AuthSpec (a : AuthSpec) : AuthSpec :=
  mkAuthSpec (Some (enabled a)) (Issuer a) (Audience a) (JWKCertSecretRef a).
Definition default_APISpec (a : APISpec) : APISpec :=
  mkAPISpec (Database a) (default_AuthSpec (Auth a)) (TLS a) (if has (Profile a) then Profile a else "small").
Definition default_Spec (s : HyperFleetConfigSpec) : HyperFleetConfigSpec :=
  mkSpec (spec_Bundle s) (default_APISpec (spec_API s)).

(** ** The status *)

(** [metav1.Condition].  A [metav1.Time] that is set prints as a date-time; the zero
    time prints as null, which the schema refuses: [lastTransitionTime] is required and not nullable. *)
Definition lastTransitionTime_valid (c : Condition) : bool := negb (c_LastTransitionTime c =? 0)%Z.

(** The other fields. *)
Definition fields_valid (c : Condition) : bool :=
  (RuneCount (c_Message c) <=? 32768)%N && (0 <=? c_ObservedGeneration c)%Z
  && (within 1 1024 (c_Reason c) && MatchString reason_pattern (c_Reason c))
  && one_of ["True"; "False"; "Unknown"] (c_Status c)
  && (within 0 316 (c_Type c) && MatchString type_pattern (c_Type c)).

Definition Condition_valid (c : Condition) : bool := lastTransitionTime_valid c && fields_valid c.

(** A list that is a map by [key]. *)
Definition listType_map {A} (key : A -> string) (l : list A) : bool := bool_decide (NoDup (key <$> l)).

Definition Conditions_valid (l : list Condition) : bool :=
  listType_map c_Type l && forallb Condition_valid l.

Definition ComponentConditions_valid (e : ComponentConditions) : bool :=
  within 1 253 (cc_Name e) && Conditions_valid (cc_Conditions e).

Definition Status_valid (s : HyperFleetConfigStatus) : bool :=
  (0 <=? status_ObservedGeneration s)%Z && Conditions_valid (status_Conditions s)
  && (listType_map cc_Name (status_Components s) && forallb ComponentConditions_valid (status_Components s)).

(** ** The stored resource *)

Definition name_rule (cr : HyperFleetConfig) : bool := String.eqb (cr_Name cr) "cluster".
Definition bundle_rule (old new : HyperFleetConfig) : bool :=
  String.eqb (spec_Bundle (cr_Spec new)) (spec_Bundle (cr_Spec old)).

Definition Config_valid (cr : HyperFleetConfig) : bool :=
  name_rule cr && Spec_valid (cr_Spec cr) && Status_valid (cr_Status cr).

(** What is stored for a created and for an updated resource: defaults filled in; a status sent along
    is dropped, since the status is a subresource. *)
Definition created (uid : string) (cr : HyperFleetConfig) : HyperFleetConfig :=
  mkConfig (cr_Name cr) 1 uid (default_Spec (cr_Spec cr)) (mkStatus 0 [] []).
Definition updated (generation : Z) (old cr : HyperFleetConfig) : HyperFleetConfig :=
  mkConfig (cr_Name old) generation (cr_UID old) (default_Spec (cr_Spec cr)) (cr_Status old).

(** The generation moves with the spec. *)
Definition next_generation (old cr : HyperFleetConfig) (g : Z) : Prop :=
  (default_Spec (cr_Spec cr) = cr_Spec old /\ g = cr_Generation old)
  \/ (default_Spec (cr_Spec cr) <> cr_Spec old /\ g = cr_Generation old + 1)%Z.

Inductive stored_step : option HyperFleetConfig -> option HyperFleetConfig -> Prop :=
| step_create uid cr :
    Config_valid (created uid cr) = true -> stored_step None (Some (created uid cr))
| step_update old cr g :
    next_generation old cr g -> Config_valid (updated g old cr) = true ->
    bundle_rule old (updated g old cr) = true -> stored_step (Some old) (Some (updated g old cr))
| step_status old st :
    Status_valid st = true -> stored_step (Some old) (Some (with_status old st))
| step_delete old : stored_step (Some old) None.

(** ** What a stored resource satisfies *)

(** A Secret name the API server can resolve. *)
Definition dns_char (c : ascii) : bool := in_class [("-", "-"); (".", "."); ("0", "9"); ("a", "z")]%char c.
Definition dns_name (s : string) : Prop :=
  s <> "" /\ (String.length s <= 253)%nat /\ Forall (fun c => dns_char c = true) (String.list_ascii_of_string s).

Lemma dns_alphabet c : in_class (alphabet dns_subdomain) c = true -> dns_char c = true.
Proof. destruct c as [[] [] [] [] [] [] [] []]; vm_compute; auto. Qed.

Lemma dns_char_starts c : dns_char c = true -> continues c = false.
Proof. destruct c as [[] [] [] [] [] [] [] []]; vm_compute; auto. Qed.

Lemma RuneCount_length s : (RuneCount s <= N.of_nat (String.length s))%N.
Proof. induction s as [|c s IH]; [done|]. cbn [RuneCount String.length]. destruct (continues c); lia. Qed.

Lemma RuneCount_ascii s : Forall (fun c => continues c = false) (String.list_ascii_of_string s) ->
  RuneCount s = N.of_nat (String.length s).
Proof.
  induction s as [|c s IH]; [done|]. cbn [String.list_ascii_of_string]. intros [Hc Hs]%Forall_cons.
  cbn [RuneCount String.length]. rewrite Hc, IH by done. lia.
Qed.

Lemma SecretReference_dns r : SecretReference_valid r = true -> dns_name (ref_Name r).
Proof.
  unfold SecretReference_valid, within. intros [[Hlo%N.leb_le Hhi%N.leb_le]%andb_prop Hm]%andb_prop.
  apply matches_spec, lang_alphabet in Hm.
  assert (Hall : Forall (fun c => dns_char c = true) (String.list_ascii_of_string (ref_Name r)))
    by (eapply Forall_impl; [exact Hm|]; apply dns_alphabet).
  rewrite RuneCount_ascii in Hlo, Hhi by (eapply Forall_impl; [exact Hall|]; apply dns_char_starts).
  split; [by intros E; rewrite E in Hlo|]. split; [lia|done].
Qed.

Lemma default_Spec_idemp s : default_Spec (default_Spec s) = default_Spec s.
Proof.
  destruct s as [b [d [e i a j] t p]]. cbn. unfold default_Spec, default_APISpec, default_AuthSpec, enabled. cbn.
  unfold has. destruct e; cbn; (destruct (String.eqb p "") eqn:E; cbn; [done|by rewrite E]).
Qed.

(** Defaults in place, and every check passed. *)
Definition stored_ok (cr : HyperFleetConfig) : Prop :=
  Config_valid cr = true /\ default_Spec (cr_Spec cr) = cr_Spec cr /\ (1 <= cr_Generation cr)%Z.

Lemma stored_step_ok o cr : stored_step o (Some cr) -> (forall old, o = Some old -> stored_ok old) -> stored_ok cr.
Proof.
  intros Hst Ho. inversion Hst as [uid cr0 Hv|old cr0 g Hg Hv Hb|old st Hv|]; subst.
  - split; [done|]. split; [apply default_Spec_idemp|done].
  - destruct (Ho old eq_refl) as (_ & _ & H1). split; [done|]. split; [apply default_Spec_idemp|].
    destruct Hg as [[_ ->]|[_ ->]]; cbn; lia.
  - destruct (Ho old eq_refl) as (H1 & H2 & H3). split; [|by split].
    unfold Config_valid, name_rule in *. cbn [cr_Name cr_Spec cr_Status with_status].
    apply andb_prop in H1 as [-> _]. done.
Qed.

Lemma reachable_ok cr : rtc stored_step None (Some cr) -> stored_ok cr.
Proof.
  assert (Hr : forall o o', rtc stored_step o o' -> (forall c, o = Some c -> stored_ok c) ->
    forall c, o' = Some c -> stored_ok c).
  { induction 1 as [|o1 o2 o3 H12 _ IH]; [done|]. intros Ho. apply IH. intros c ->. by eapply stored_step_ok. }
  intros H. by apply (Hr _ _ H).
Qed.

(** One life of the resource: no deletion in between. *)
Definition lives : HyperFleetConfig -> HyperFleetConfig -> Prop :=
  rtc (fun a b => stored_step (Some a) (Some b)).

Lemma lives_steps cr cr' : lives cr cr' -> rtc stored_step (Some cr) (Some cr').
Proof. induction 1 as [|a b c Hab _ IH]; [done|]. by eapply rtc_l. Qed.

Definition same_resource (cr cr' : HyperFleetConfig) : Prop :=
  cr_Name cr' = cr_Name cr /\ cr_UID cr' = cr_UID cr
  /\ spec_Bundle (cr_Spec cr') = spec_Bundle (cr_Spec cr) /\ (cr_Generation cr <= cr_Generation cr')%Z.

Lemma lives_same cr cr' : lives cr cr' -> same_resource cr cr'.
Proof.
  induction 1 as [a|a b c Hab _ (H1 & H2 & H3 & H4)]; [by split_and!|].
  assert (same_resource a b) as (G1 & G2 & G3 & G4).
  { inversion Hab as [|old cr0 g Hg Hv Hb|old st Hv|]; subst; [|by split_and!].
    split; [done|]. split; [done|]. split; [by apply String.eqb_eq|]. destruct Hg as [[_ ->]|[_ ->]]; cbn; lia. }
  split_and!; (congruence || lia).
Qed.

Lemma enums_agree : bundle_enum = AllBundleTypes /\ profile_enum = AllSizingProfiles.
Proof. done. Qed.

(** What the checks of the spec mean for the operator. *)
Record admitted (cr : HyperFleetConfig) : Prop := {
  admitted_name : cr_Name cr = SingletonName;
  admitted_bundle : spec_Bundle (cr_Spec cr) ∈ AllBundleTypes;
  admitted_profile : Profile (spec_API (cr_Spec cr)) ∈ AllSizingProfiles;
  admitted_enabled : Enabled (auth_of cr) = Some (api.AuthEnabled cr);
  admitted_auth : api.AuthEnabled cr = true -> Issuer (auth_of cr) <> "" /\ Audience (auth_of cr) <> "";
  admitted_issuer : Issuer (auth_of cr) <> "" ->
    isURL (Issuer (auth_of cr)) = true /\ getScheme (Issuer (auth_of cr)) = "https"
    /\ getHostname (Issuer (auth_of cr)) <> "";
  admitted_secrets c : Forall (fun ref => dns_name (SecretName ref)) (api.ReferencedSecrets c cr);
  admitted_status : Status_valid (cr_Status cr) = true;
}.

Lemma has_spec s : has s = true <-> s <> "".
Proof. unfold has. rewrite negb_true_iff. apply String.eqb_neq. Qed.

Lemma stored_admitted cr : stored_ok cr -> admitted cr.
Proof.
  intros (Hv & Hd & _). unfold Config_valid, Spec_valid, APISpec_valid, AuthSpec_valid in Hv.
  bool_prop. unfold name_rule in *. bool_prop.
  repeat match goal with H : one_of _ _ = true |- _ => apply bool_decide_eq_true_1 in H end.
  assert (He : Enabled (auth_of cr) = Some (api.AuthEnabled cr)).
  { unfold auth_of, api.AuthEnabled, auth_of. rewrite <-Hd at 1. cbn. unfold enabled, default.
    by destruct (Enabled (Auth (spec_API (cr_Spec cr)))). }
  constructor; try done.
  - intros Ha. unfold auth_of in *.
    match goal with H : negb (enabled _) || _ = true |- _ => unfold enabled in H; rewrite He, Ha in H; cbn in H end.
    bool_prop. by rewrite <-!has_spec.
  - intros Hi%has_spec. unfold auth_of in *.
    match goal with H : issuer_valid _ = true |- _ => unfold issuer_valid in H; rewrite Hi in H; cbn in H end.
    bool_prop. done.
  - intros c. unfold api.ReferencedSecrets, database_secret, tls_of, auth_of in *.
    cbn [app]. rewrite Forall_cons, Forall_app. split; [by apply SecretReference_dns|].
    split; repeat case_match; rewrite ?Forall_singleton; try done; by apply SecretReference_dns.
Qed.

(** C15: whatever is created, updated and deleted, and however the status is written, a stored
    resource is called [SingletonName], selects a bundle and a profile of the operator's
    lists, says whether authentication is on (as [AuthEnabled] reads it) and names an issuer and an
    audience when it is; an issuer is an https URL with a host; every Secret the API component
    reads has a valid name; its status fits the schema.  And as long as it is not deleted, its
    name, UID and bundle stay what they were, and its generation never falls. *)
Theorem stored_invariant cr cr' (Hr : rtc stored_step None (Some cr)) (Hl : lives cr cr') :
  admitted cr' /\ same_resource cr cr'.
Proof.
  split; [|by apply lives_same]. apply stored_admitted, reachable_ok. etrans; [exact Hr|by apply lives_steps].
Qed.

End checks.

(** ** A concrete history *)

(** CEL's functions by [net/url], with authorities taken as they are. *)
#[local] Existing Instance url.plain_UrlLib.
Definition toy_cel : CelLib := {|
  isURL s := match url.Parse s with inr (scheme, _) => has scheme | inl _ => false end;
  getScheme s := match url.Parse s with inr (scheme, _) => scheme | inl _ => "" end;
  getHostname s := match url.Parse s with inr (_, host) => host | inl _ => "" end |}.
#[local] Existing Instance toy_cel.

(** A resource that leaves out what has a default, and the same with authentication switched off. *)
Definition demo_sent : HyperFleetConfig :=
  mkConfig "cluster" 0 ""
    (mkSpec "cloud-capi" (mkAPISpec (mkDatabaseSpec (mkSecretRef "db-creds"))
       (mkAuthSpec None "https://idp" "aud" None) None ""))
    (mkStatus 0 [] []).
Definition demo_switched_off : HyperFleetConfig :=
  mkConfig "cluster" 0 ""
    (mkSpec "cloud-capi" (mkAPISpec (mkDatabaseSpec (mkSecretRef "db-creds"))
       (mkAuthSpec (Some false) "" "" None) None "medium"))
    (mkStatus 0 [] []).

Example refused_resources :
  Config_valid (created "u" (mkConfig "other" 0 "" (cr_Spec demo_sent) (cr_Status demo_sent))) = false
  /\ SecretReference_valid (mkSecretRef "Db_creds") = false
  /\ AuthSpec_valid (mkAuthSpec (Some true) "https://idp" "" None) = false
  /\ AuthSpec_valid (mkAuthSpec (Some false) "http://idp" "" None) = false
  /\ AuthSpec_valid (mkAuthSpec (Some false) "" "" None) = true.
Proof. vm_compute. split_and!; reflexivity. Qed.

Lemma demo_stored : rtc stored_step None (Some (created "uid-1" demo_sent)).
Proof. apply rtc_once, step_create. vm_compute. reflexivity. Qed.

Lemma stored_invariant_witness :
  let cr := updated 2 (created "uid-1" demo_sent) demo_switched_off in
  admitted cr /\ same_resource (created "uid-1" demo_sent) cr.
Proof.
  cbv zeta. apply (stored_invariant (created "uid-1" demo_sent)); [exact demo_stored|].
  apply rtc_once, step_update; [right; split; [discriminate|reflexivity]|vm_compute; reflexivity|reflexivity].
Defined.

End admission.
