(* ===== verification/Bundle.v ===== *)
(** * Bundle resolution ([internal/bundle/bundle.go])

    Module [bundle] models the resolver from a bundle to its ordered component
    set.  The interface value [bundle.Component] holds an API or a Sentinel
    pointer: the sum [Component].  [SetResolvedJWKSURL] and [SetAPIBaseURL] write
    through the pointers of a freshly built list whose elements do not alias, so
    they are functions on the list. *)

From S2P Require Import Prelude Kube ConfigTypes Json Contract Api Sentinel.

Module bundle.

Inductive Component :=
| API (c : api.Component)
| Sentinel (c : sentinel.Component).

Record Config := mkBundleConfig {
  APIImage : string;
  SentinelImage : string;
  Namespace : string;
  BrokerInfo_ : option sentinel.BrokerInfo;
  ResolvedJWKSURL : string }.

Definition CloudCAPIEntities : list api.EntityDescriptor :=
  [api.mkEntity "Cluster" "clusters" "" "ClusterSpec" ""
     ["validation"; "dns"; "pullsecret"; "hypershift"] 3 53 true;
   api.mkEntity "NodePool" "nodepools" "Cluster" "NodePoolSpec" "cascade"
     ["validation"; "hypershift"] 3 15 true;
   api.mkEntity "Channel" "channels" "" "ChannelSpec" "" [] 0 0 false;
   api.mkEntity "Version" "versions" "Channel" "VersionSpec" "restrict" [] 0 0 false;
   api.mkEntity "WifConfig" "wifconfigs" "" "WifConfigSpec" "" [] 0 0 false].

Definition entitiesForBundle (b : BundleType) : outcome (list api.EntityDescriptor) :=
  if String.eqb b BundleCloudCAPI then Ok CloudCAPIEntities
  else if String.eqb b BundleOnPremAgent
  then Fail (Errorf "bundle %q has no entity set defined yet; it cannot be resolved" [b])
  else Fail (Errorf "unknown bundle %q" [b]).

(** One Sentinel per entity: the loop body of [sharedTier]. *)
Definition sentinelFor (cfg : Config) (rt : api.EntityDescriptor) : Component :=
  Sentinel (sentinel.New
    (sentinel.mkOptions (SentinelImage cfg) (Namespace cfg) (api.e_Plural rt) ""
       (BrokerInfo_ cfg) (api.e_ParentKind rt))).

Definition sharedTier (b : BundleType) (cfg : Config) : outcome (list Component) :=
  (let? entities := entitiesForBundle b in
   match BrokerInfo_ cfg with
   | None => Fail (Errorf "sentinel broker info is required" [])
   | Some _ =>
       Ok (API (api.New (APIImage cfg) (Namespace cfg) entities) :: map (sentinelFor cfg) entities)
   end)%go.

Definition bundleSpecific (b : BundleType) : list Component := [].

Definition Resolve (b : BundleType) (cfg : Config) : outcome (list Component) :=
  (let? shared := wrapErr "resolve bundle %q: %w" [b] (sharedTier b cfg) in
   Ok (shared ++ bundleSpecific b))%go.

Definition set_jwks (url : string) (c : api.Component) : api.Component :=
  api.mkComponent (api.Image c) (api.Namespace c) (api.Entities c) url.

(** Only the first API component is written: the loop returns there. *)
Fixpoint SetResolvedJWKSURL (components : list Component) (url : string) : list Component :=
  match components with
  | [] => []
  | API ac :: rest => API (set_jwks url ac) :: rest
  | c :: rest => c :: SetResolvedJWKSURL rest url
  end.

Definition set_base (url : string) (c : sentinel.Component) : sentinel.Component :=
  sentinel.mkOptions (sentinel.Image c) (sentinel.Namespace c) (sentinel.ResourceType c) url
    (sentinel.BrokerInfo_ c) (sentinel.ParentKind c).

Definition SetAPIBaseURL (components : list Component) (url : string) : list Component :=
  map (fun c => match c with Sentinel sc => Sentinel (set_base url sc) | _ => c end) components.

(** Interface dispatch. *)
#[global] Instance bundle_IsComponent `{YamlLib} : IsComponent Component := {
  cName c := match c with API a => cName a | Sentinel s => cName s end;
  cRender c := match c with API a => cRender a | Sentinel s => cRender s end;
  cConditions c := match c with API a => cConditions a | Sentinel s => cConditions s end;
  cRollout c := match c with API a => cRollout a | Sentinel s => cRollout s end;
  cReferencedSecrets c :=
    match c with API a => cReferencedSecrets a | Sentinel s => cReferencedSecrets s end }.

#[global] Instance bundle_contract `{YamlLib} : ComponentContract Component.
Proof.
  constructor.
  - intros [a|s]; [apply (conditions_law a)|apply (conditions_law s)].
  - intros [a|s]; [apply (deployment_law a)|apply (deployment_law s)].
  - intros [a|s]; [apply (entries_law a)|apply (entries_law s)].
  - intros [a|s]; [apply (configmaps_law a)|apply (configmaps_law s)].
  - intros [a|s]; [apply (secrets_law a)|apply (secrets_law s)].
  - intros [a|s]; [apply (panic_law a)|apply (panic_law s)].
  - intros [a|s]; [apply (status_law a)|apply (status_law s)].
Qed.

(** ** Resolution *)

(** The cloud bundle's component list, as [Resolve] builds it. *)
Definition cloud_components (cfg : Config) : list Component :=
  API (api.New (APIImage cfg) (Namespace cfg) CloudCAPIEntities)
  :: map (sentinelFor cfg) CloudCAPIEntities.

Lemma Resolve_ok b cfg l :
  Resolve b cfg = Ok l <->
  b = BundleCloudCAPI /\ is_Some (BrokerInfo_ cfg) /\ l = cloud_components cfg.
Proof.
  unfold Resolve, sharedTier, entitiesForBundle, bundleSpecific, cloud_components.
  destruct (String.eqb_spec b BundleCloudCAPI) as [->|Hne]; simpl.
  - destruct (BrokerInfo_ cfg); simpl.
    + split; [intros [= <-]; eauto | intros (_ & _ & ->); done].
    + split; [done|]. by intros (_ & [? ?] & _).
  - split; [|by intros [? _]]. by destruct (String.eqb b BundleOnPremAgent).
Qed.

Lemma Resolve_no_panic b cfg : Resolve b cfg <> Panic.
Proof.
  unfold Resolve, sharedTier, entitiesForBundle. repeat case_match; simpl in *; try done;
    simplify_eq/=; by repeat case_match.
Qed.

(** The field values [Render] reads that the setters leave alone. *)
Definition comp_names `{YamlLib} (l : list Component) : list string := cName <$> l.

Lemma SetResolvedJWKSURL_names `{YamlLib} l u : comp_names (SetResolvedJWKSURL l u) = comp_names l.
Proof. unfold comp_names. induction l as [|[a|s] l IH]; [done|done|]. cbn. f_equal. exact IH. Qed.

Lemma SetAPIBaseURL_names `{YamlLib} l u : comp_names (SetAPIBaseURL l u) = comp_names l.
Proof. unfold comp_names. induction l as [|[a|s] l IH]; [done|..]; cbn; f_equal; exact IH. Qed.

Definition targets `{YamlLib} (l : list Component) : list RolloutTarget := cRollout <$> l.

(** A component whose broker pointer is set: neither it nor [Render] can panic. *)
Definition broker_set (c : Component) : Prop :=
  match c with API _ => True | Sentinel s => is_Some (sentinel.BrokerInfo_ s) end.

Lemma broker_set_secrets `{YamlLib} c cr : broker_set c -> cReferencedSecrets c cr <> Panic.
Proof.
  destruct c as [a|s]; [done|]. cbn. unfold sentinel.ReferencedSecrets.
  by intros [b ->].
Qed.

Lemma SetResolvedJWKSURL_broker l u : Forall broker_set l -> Forall broker_set (SetResolvedJWKSURL l u).
Proof. induction 1 as [|[a|s] l Hc Hl IH]; simpl; constructor; done. Qed.

Lemma SetAPIBaseURL_broker l u : Forall broker_set l -> Forall broker_set (SetAPIBaseURL l u).
Proof. unfold SetAPIBaseURL. induction 1 as [|[a|s] l Hc Hl IH]; simpl; constructor; done. Qed.

Lemma Resolve_broker b cfg l : Resolve b cfg = Ok l -> Forall broker_set l.
Proof.
  intros Hr. apply Resolve_ok in Hr as (_ & Hb & ->). unfold cloud_components, sentinelFor.
  repeat constructor; exact Hb.
Qed.

(** Resolution succeeds exactly for the cloud bundle with broker
    settings; the result is the API first, then one Sentinel per registered
    entity, in entity order, watching the entity's plural name under the broker given; and
    the field [ResolvedJWKSURL] of the configuration has no effect. *)
Theorem Resolve_spec b cfg :
  match Resolve b cfg with
  | Ok l => b = BundleCloudCAPI
      /\ exists a ss, l = API a :: map Sentinel ss
         /\ api.Entities a = CloudCAPIEntities /\ api.Image a = APIImage cfg
         /\ api.ResolvedJWKSURL a = ""
         /\ sentinel.ResourceType <$> ss = api.e_Plural <$> CloudCAPIEntities
         /\ Forall (fun s => sentinel.BrokerInfo_ s = BrokerInfo_ cfg
                     /\ sentinel.Image s = SentinelImage cfg
                     /\ sentinel.Namespace s = api.Namespace a) ss
  | Fail e => b <> BundleCloudCAPI \/ BrokerInfo_ cfg = None
  | Panic => False
  end
  /\ forall u, Resolve b (mkBundleConfig (APIImage cfg) (SentinelImage cfg) (Namespace cfg)
                       (BrokerInfo_ cfg) u) = Resolve b cfg.
Proof.
  split; [|done]. destruct (Resolve b cfg) as [l|e|] eqn:E.
  - apply Resolve_ok in E as (-> & Hb & ->). split; [done|].
    exists (api.New (APIImage cfg) (Namespace cfg) CloudCAPIEntities).
    exists (map (fun rt => sentinel.mkOptions (SentinelImage cfg) (Namespace cfg) (api.e_Plural rt) ""
       (BrokerInfo_ cfg) (api.e_ParentKind rt)) CloudCAPIEntities).
    split_and!; try done. by repeat constructor.
  - destruct (decide (b = BundleCloudCAPI)) as [->|]; [|by left]. right.
    destruct (BrokerInfo_ cfg) eqn:Eb; [|done].
    assert (Resolve BundleCloudCAPI cfg = Ok (cloud_components cfg)) as E'
      by (apply Resolve_ok; rewrite Eb; eauto).
    by rewrite E' in E.
  - by apply (Resolve_no_panic b cfg).
Qed.

(** Distinct names and, after the two setters, distinct targets. *)
Lemma resolve_names `{YamlLib} b cfg l :
  Resolve b cfg = Ok l ->
  NoDup (comp_names l)
  /\ NoDup (DeploymentName <$> targets l)
  /\ NoDup (targets l ≫= fun t => ConfigMapName <$> ConfigEntries t).
Proof.
  intros Hr. apply Resolve_ok in Hr as (_ & _ & ->).
  split_and!; vm_compute; repeat (apply NoDup_cons; split; [set_solver|]); apply NoDup_nil; exact I.
Qed.

(** The components a bundle resolves to have distinct
    names, distinct Deployments and distinct hashed ConfigMaps, also after the two setters. *)
Theorem Resolve_distinct `{YamlLib} b cfg l u v (Hr : Resolve b cfg = Ok l) :
  let l' := SetAPIBaseURL (SetResolvedJWKSURL l u) v in
  NoDup (cName <$> l')
  /\ NoDup (DeploymentName <$> (cRollout <$> l'))
  /\ NoDup ((cRollout <$> l') ≫= fun t => ConfigMapName <$> ConfigEntries t).
Proof.
  apply Resolve_ok in Hr as (_ & _ & ->). cbv zeta.
  split_and!; vm_compute; repeat (apply NoDup_cons; split; [set_solver|]); apply NoDup_nil; exact I.
Qed.

Definition demo_config : Config :=
  mkBundleConfig "" "sentinel:1" "hf" (Some (sentinel.mkBrokerInfo sentinel.BrokerTypeRabbitMQ "")) "".

Lemma Resolve_distinct_witness :
  NoDup (@cName _ (@bundle_IsComponent api.toy_yaml) <$>
    SetAPIBaseURL (SetResolvedJWKSURL (cloud_components demo_config) "u") "v").
Proof.
  apply (@Resolve_distinct api.toy_yaml BundleCloudCAPI demo_config (cloud_components demo_config) "u" "v").
  reflexivity.
Defined.

(** The resolved components render, once they have what they need. *)
Lemma resolved_render `{YamlLib} cfg b cr l u v
    (Hyaml : forall j, exists y, yaml_Marshal j = inr y)
    (Hb : BrokerInfo_ cfg = Some b) (Hvalid : sentinel.valid_broker b = true)
    (Himg : SentinelImage cfg <> "")
    (Hu : api.AuthEnabled cr = true -> JWKCertSecretRef (auth_of cr) = None -> u <> "")
    (Hr : Resolve BundleCloudCAPI cfg = Ok l) :
  Forall (fun c => is_ok (cRender c cr) = true) (SetAPIBaseURL (SetResolvedJWKSURL l u) v).
Proof.
  assert (Hs : forall rt base pk, rt ∈ sentinel.known_types ->
    is_ok (sentinel.Render (sentinel.mkOptions (SentinelImage cfg) (Namespace cfg) rt base
             (Some b) pk) cr) = true).
  { intros rt base pk Hrt. unfold sentinel.Render, sentinel.renderConfig, sentinel.build_sentinelConfig.
    simpl sentinel.Image. rewrite (proj2 (String.eqb_neq _ _) Himg). simpl sentinel.ci_ResourceType.
    pose proof (sentinel.constructMessageDecision_ok rt) as Hd.
    rewrite bool_decide_eq_true_2 in Hd by done.
    destruct (sentinel.constructMessageDecision rt); [|done|done]. simpl.
    match goal with |- context [yaml_Marshal ?j] => destruct (Hyaml j) as [y ->] end. simpl.
    unfold sentinel.renderBrokerConfig. pose proof (sentinel.build_brokerFileConfig_ok b) as Hf.
    rewrite Hvalid in Hf. destruct (sentinel.build_brokerFileConfig (Some b)); [|done|done]. simpl.
    match goal with |- context [yaml_Marshal ?j] => destruct (Hyaml j) as [y' ->] end. done. }
  apply Resolve_ok in Hr as (_ & _ & ->).
  unfold cloud_components, sentinelFor. rewrite Hb. cbn.
  apply Forall_cons_2.
  - cbn. unfold api.Render, api.renderConfig, api.build_apiConfig, api.config_input, api.resolveJWKSource.
    destruct (api.AuthEnabled cr); [destruct (JWKCertSecretRef (auth_of cr))|]; cbn.
    2: rewrite (proj2 (String.eqb_neq _ _) (Hu eq_refl eq_refl)); cbn.
    all: simpl; match goal with |- context [yaml_Marshal ?j] => destruct (Hyaml j) as [y ->] end; done.
  - repeat apply Forall_cons_2; try (apply Hs; unfold sentinel.known_types; set_solver).
    apply Forall_nil. exact I.
Qed.

Lemma setters_commute b cfg l u v :
  Resolve b cfg = Ok l ->
  SetResolvedJWKSURL (SetAPIBaseURL l v) u = SetAPIBaseURL (SetResolvedJWKSURL l u) v.
Proof. intros Hr. by apply Resolve_ok in Hr as (_ & _ & ->). Qed.

(** C25: resolving the cloud bundle yields components that all
    render, whenever the images and broker are valid
    and, if authentication needs a JWKS URL, one is injected: every registered
    entity's plural has a message decision. *)
Theorem Resolve_renders `{YamlLib} cfg b cr l u v
    (Hyaml : forall j, exists y, yaml_Marshal j = inr y)
    (Hb : BrokerInfo_ cfg = Some b) (Hvalid : sentinel.valid_broker b = true)
    (Himg : SentinelImage cfg <> "")
    (Hu : api.AuthEnabled cr = true -> JWKCertSecretRef (auth_of cr) = None -> u <> "")
    (Hr : Resolve BundleCloudCAPI cfg = Ok l) :
  Forall (fun c => is_ok (cRender c cr) = true) (SetAPIBaseURL (SetResolvedJWKSURL l u) v).
Proof. by eapply resolved_render. Qed.

Lemma Resolve_renders_witness :
  Forall (fun c => is_ok (@cRender _ (@bundle_IsComponent api.toy_yaml) c
            (api.demo_cr (mkAuthSpec None "https://i" "a" None) None)) = true)
    (SetAPIBaseURL (SetResolvedJWKSURL (cloud_components demo_config) "https://i/keys") "http://api").
Proof.
  apply (@Resolve_renders api.toy_yaml demo_config (sentinel.mkBrokerInfo sentinel.BrokerTypeRabbitMQ "")
    (api.demo_cr (mkAuthSpec None "https://i" "a" None) None) (cloud_components demo_config)); try reflexivity; try discriminate.
  intros j. by eexists.
Defined.

(** Injecting the JWKS URL changes that field of the API component
    only, injecting the base URL changes every Sentinel only; the two commute. *)
Theorem setters_spec cfg l u v (Hr : Resolve BundleCloudCAPI cfg = Ok l) :
  SetResolvedJWKSURL (SetAPIBaseURL l v) u = SetAPIBaseURL (SetResolvedJWKSURL l u) v
  /\ SetAPIBaseURL (SetResolvedJWKSURL l u) v
     = map (fun c => match c with
          | API a => API (api.mkComponent (api.Image a) (api.Namespace a) (api.Entities a) u)
          | Sentinel s => Sentinel (sentinel.mkOptions (sentinel.Image s) (sentinel.Namespace s)
                  (sentinel.ResourceType s) v (sentinel.BrokerInfo_ s) (sentinel.ParentKind s))
          end) l.
Proof. apply Resolve_ok in Hr as (_ & _ & ->). done. Qed.

Lemma setters_spec_witness :
  SetResolvedJWKSURL (SetAPIBaseURL (cloud_components demo_config) "v") "u"
  = SetAPIBaseURL (SetResolvedJWKSURL (cloud_components demo_config) "u") "v".
Proof. apply (setters_spec demo_config (cloud_components demo_config) "u" "v"). reflexivity. Defined.

End bundle.
