(* ===== verification/NetAddr.v ===== *)
(** * Network addresses: the parts of [net] and [net/netip] the operator uses

    A [net.IP] or [net.IPMask] is a byte slice, here a list of byte values.
    Module [net] holds the address parsers, the IP predicates and prefix
    matching, branch by branch; its lemmas give them a numeric reading: an
    address lies in a CIDR block exactly when the leading bits agree. *)

From S2P Require Import Prelude.
From Stdlib Require Import ZifyBool.

Module net.

#[local] Open Scope Z_scope.

Definition IP : Type := list Z.

Definition byte_of (c : ascii) : Z := Z.of_N (N_of_ascii c).

(** ** Index and slice helpers *)

Fixpoint IndexByte (s : string) (c : ascii) : option nat :=
  match s with
  | "" => None
  | String d s' => if Ascii.eqb d c then Some O else S <$> IndexByte s' c
  end.

Fixpoint LastIndexByte (s : string) (c : ascii) : option nat :=
  match s with
  | "" => None
  | String d s' =>
      match LastIndexByte s' c with
      | Some i => Some (S i)
      | None => if Ascii.eqb d c then Some O else None
      end
  end.

Fixpoint str_drop (n : nat) (s : string) : string :=
  match n, s with
  | O, _ => s
  | S n', String _ s' => str_drop n' s'
  | S _, "" => ""
  end.

Fixpoint str_take (n : nat) (s : string) : string :=
  match n, s with
  | S n', String c s' => String c (str_take n' s')
  | _, _ => ""
  end.

(** The first byte of a string. *)
Definition first_is (s : string) (c : ascii) : bool :=
  match s with String d _ => Ascii.eqb d c | "" => false end.

(** ** [net.SplitHostPort] *)

Definition SplitHostPort (hostport : string) : error + string * string :=
  let addrErr why := inl (Errorf why [hostport]) in
  match LastIndexByte hostport ":" with
  | None => addrErr "missing port in address"
  | Some i =>
      let finish (host : string) (j k : nat) : error + string * string :=
        if bool_decide (is_Some (IndexByte (str_drop j hostport) "["))
        then addrErr "unexpected '[' in address"
        else if bool_decide (is_Some (IndexByte (str_drop k hostport) "]"))
        then addrErr "unexpected ']' in address"
        else inr (host, str_drop (S i) hostport) in
      if first_is hostport "[" then
        match IndexByte hostport "]" with
        | None => addrErr "missing ']' in address"
        | Some end_ =>
            if (S end_ =? String.length hostport)%nat then addrErr "missing port in address"
            else if (S end_ =? i)%nat
            then finish (str_drop 1 (str_take end_ hostport)) 1%nat (S end_)
            else if first_is (str_drop (S end_) hostport) ":"
            then addrErr "too many colons in address"
            else addrErr "missing port in address"
        end
      else
        let host := str_take i hostport in
        if bool_decide (is_Some (IndexByte host ":")) then addrErr "too many colons in address"
        else finish host O O
  end.

(** ** [netip.ParseAddr] *)

Inductive Addr :=
| Addr4 (b : list Z)
| Addr6 (b : list Z) (zone : string).

Definition is_dec (c : ascii) : bool := (48 <=? byte_of c) && (byte_of c <=? 57).

(** The loop of [parseIPv4Fields].  [edge] is [i == 0 || s[i-1] == '.'], [pos]
    counts the fields stored in [acc] (last first). *)
Fixpoint v4_fields (s : string) (edge : bool) (val : Z) (digLen : nat) (pos : nat) (acc : list Z) :
    error + list Z :=
  match s with
  | "" =>
      if (pos <? 3)%nat then inl (Errorf "IPv4 address too short" [])
      else inr (rev (val mod 256 :: acc))
  | String c s' =>
      if is_dec c then
        if (digLen =? 1)%nat && (val =? 0)
        then inl (Errorf "IPv4 field has octet with leading zero" [])
        else
          let val' := val * 10 + byte_of c - 48 in
          if 255 <? val' then inl (Errorf "IPv4 field has value >255" [])
          else v4_fields s' false val' (S digLen) pos acc
      else if Ascii.eqb c "." then
        if edge || String.eqb s' "" then inl (Errorf "IPv4 field must have at least one digit" [])
        else if (pos =? 3)%nat then inl (Errorf "IPv4 address too long" [])
        else v4_fields s' true 0 O (S pos) (val mod 256 :: acc)
      else inl (Errorf "unexpected character" [])
  end.

Definition parseIPv4Fields (s : string) : error + list Z := v4_fields s true 0 O O [].

Definition hex_digit (c : ascii) : option Z :=
  let b := byte_of c in
  if (48 <=? b) && (b <=? 57) then Some (b - 48)
  else if (97 <=? b) && (b <=? 102) then Some (b - 97 + 10)
  else if (65 <=? b) && (b <=? 70) then Some (b - 65 + 10)
  else None.

(** The inner loop over hex digits: the value, the number of digits and the rest. *)
Fixpoint scan_hex (s : string) (off : nat) (acc : Z) : error + Z * nat * string :=
  match s with
  | "" => inr (acc, off, s)
  | String c s' =>
      match hex_digit c with
      | None => inr (acc, off, s)
      | Some d =>
          let acc' := (Z.shiftl acc 4 + d) mod 2 ^ 32 in
          if (3 <? off)%nat then inl (Errorf "each group must have 4 or less digits" [])
          else if 65535 <? acc' then inl (Errorf "IPv6 field has value >=2^16" [])
          else scan_hex s' (S off) acc'
      end
  end.

(** The outer loop of [parseIPv6], with [n] groups of room left: [i = 16 - 2n],
    [ip] holds the [i] bytes written so far. *)
Fixpoint v6_loop (n : nat) (s : string) (ip : list Z) (ellipsis : option nat) :
    error + string * list Z * option nat :=
  match n with
  | O => inr (s, ip, ellipsis)
  | S n' =>
      match scan_hex s O 0 with
      | inl e => inl e
      | inr (acc, off, rest) =>
          if (off =? 0)%nat
          then inl (Errorf "each colon-separated field must have at least one digit" [])
          else if first_is rest "." then
            if bool_decide (ellipsis = None) && negb (length ip =? 12)%nat
            then inl (Errorf "embedded IPv4 address must replace the final 2 fields of the address" [])
            else if (16 <? length ip + 4)%nat
            then inl (Errorf "too many hex fields to fit an embedded IPv4 at the end of the address" [])
            else match parseIPv4Fields s with
                 | inl e => inl e
                 | inr v4 => inr ("", ip ++ v4, ellipsis)
                 end
          else
            let ip' := ip ++ [(Z.shiftr acc 8) mod 256; acc mod 256] in
            match rest with
            | "" => inr ("", ip', ellipsis)
            | String c1 s1 =>
                if negb (Ascii.eqb c1 ":") then inl (Errorf "unexpected character, want colon" [])
                else match s1 with
                     | "" => inl (Errorf "colon must be followed by more characters" [])
                     | String c2 s2 =>
                         if Ascii.eqb c2 ":" then
                           match ellipsis with
                           | Some _ => inl (Errorf "multiple :: in address" [])
                           | None =>
                               match s2 with
                               | "" => inr ("", ip', Some (length ip'))
                               | _ => v6_loop n' s2 ip' (Some (length ip'))
                               end
                           end
                         else v6_loop n' s1 ip' ellipsis
                     end
            end
      end
  end.

(** After the loop: the whole string is used, and the ellipsis expands to the missing bytes. *)
Definition v6_finish (r : string * list Z * option nat) (zone : string) : error + Addr :=
  let '(s, ip, ellipsis) := r in
  if negb (String.eqb s "") then inl (Errorf "trailing garbage after address" [])
  else
    let i := length ip in
    if (i <? 16)%nat then
      match ellipsis with
      | None => inl (Errorf "address string too short" [])
      | Some e => inr (Addr6 (take e ip ++ replicate (16 - i) 0 ++ drop e ip) zone)
      end
    else match ellipsis with
         | Some _ => inl (Errorf "the :: must expand to at least one field of zeros" [])
         | None => inr (Addr6 ip zone)
         end.

(** The body of [parseIPv6] once the zone is split off. *)
Definition parse_zoned (s zone : string) : error + Addr :=
  let '(s', ellipsis) :=
    if first_is s ":" && first_is (str_drop 1 s) ":"
    then (str_drop 2 s, Some O) else (s, None) in
  if bool_decide (ellipsis = Some O) && String.eqb s' ""
  then inr (Addr6 (replicate 16 0) zone)
  else match v6_loop 8 s' [] ellipsis with
       | inl e => inl e
       | inr r => v6_finish r zone
       end.

Definition parseIPv6 (in_ : string) : error + Addr :=
  match IndexByte in_ "%" with
  | Some i =>
      let zone := str_drop (S i) in_ in
      if String.eqb zone "" then inl (Errorf "zone must be a non-empty string" [in_])
      else parse_zoned (str_take i in_) zone
  | None => parse_zoned in_ ""
  end.

(** The scan of [ParseAddr] for the first of '.', ':' and '%'. *)
Fixpoint addr_kind (s : string) : option ascii :=
  match s with
  | "" => None
  | String c s' =>
      if Ascii.eqb c "." || Ascii.eqb c ":" || Ascii.eqb c "%" then Some c else addr_kind s'
  end.

Definition ParseAddr (s : string) : error + Addr :=
  match addr_kind s with
  | None => inl (Errorf "unable to parse IP" [s])
  | Some c =>
      if Ascii.eqb c "." then
        match parseIPv4Fields s with inl e => inl e | inr b => inr (Addr4 b) end
      else if Ascii.eqb c ":" then parseIPv6 s
      else inl (Errorf "missing IPv6 address" [s])
  end.

Definition AsSlice (a : Addr) : IP := match a with Addr4 b => b | Addr6 b _ => b end.

Definition v4InV6Prefix : list Z := [0;0;0;0;0;0;0;0;0;0;255;255].

Definition As16 (a : Addr) : IP :=
  match a with Addr4 b => v4InV6Prefix ++ b | Addr6 b _ => b end.

Definition Zone (a : Addr) : string := match a with Addr4 _ => "" | Addr6 _ z => z end.
Definition BitLen (a : Addr) : Z := match a with Addr4 _ => 32 | Addr6 _ _ => 128 end.

Definition Is4In6 (a : Addr) : bool :=
  match a with Addr4 _ => false | Addr6 b _ => bool_decide (take 12 b = v4InV6Prefix) end.

(** ** [net.IP] *)

Definition To4 (ip : IP) : option IP :=
  if (length ip =? 4)%nat then Some ip
  else if (length ip =? 16)%nat && bool_decide (take 12 ip = v4InV6Prefix) then Some (drop 12 ip)
  else None.

Definition To16 (ip : IP) : option IP :=
  if (length ip =? 4)%nat then Some (v4InV6Prefix ++ ip)
  else if (length ip =? 16)%nat then Some ip
  else None.

Definition Equal (ip x : IP) : bool :=
  if (length ip =? length x)%nat then bool_decide (ip = x)
  else if (length ip =? 4)%nat && (length x =? 16)%nat
  then bool_decide (take 12 x = v4InV6Prefix) && bool_decide (ip = drop 12 x)
  else if (length ip =? 16)%nat && (length x =? 4)%nat
  then bool_decide (take 12 ip = v4InV6Prefix) && bool_decide (drop 12 ip = x)
  else false.

Definition IPv4zero : IP := v4InV6Prefix ++ [0;0;0;0].
Definition IPv6unspecified : IP := replicate 16 0.
Definition IPv6loopback : IP := replicate 15 0 ++ [1].

(** [ip[i]]; the callers check the length first. *)
Definition at_ (ip : IP) (i : nat) : Z := nth i ip 0.

Definition IsUnspecified (ip : IP) : bool := Equal ip IPv4zero || Equal ip IPv6unspecified.
Definition IsLoopback (ip : IP) : bool :=
  match To4 ip with Some ip4 => at_ ip4 0 =? 127 | None => Equal ip IPv6loopback end.
Definition IsPrivate (ip : IP) : bool :=
  match To4 ip with
  | Some ip4 => (at_ ip4 0 =? 10)
      || ((at_ ip4 0 =? 172) && (Z.land (at_ ip4 1) 240 =? 16))
      || ((at_ ip4 0 =? 192) && (at_ ip4 1 =? 168))
  | None => (length ip =? 16)%nat && (Z.land (at_ ip 0) 254 =? 252)
  end.
Definition IsMulticast (ip : IP) : bool :=
  match To4 ip with
  | Some ip4 => Z.land (at_ ip4 0) 240 =? 224
  | None => (length ip =? 16)%nat && (at_ ip 0 =? 255)
  end.
Definition IsLinkLocalMulticast (ip : IP) : bool :=
  match To4 ip with
  | Some ip4 => (at_ ip4 0 =? 224) && (at_ ip4 1 =? 0) && (at_ ip4 2 =? 0)
  | None => (length ip =? 16)%nat && (at_ ip 0 =? 255) && (Z.land (at_ ip 1) 15 =? 2)
  end.
Definition IsLinkLocalUnicast (ip : IP) : bool :=
  match To4 ip with
  | Some ip4 => (at_ ip4 0 =? 169) && (at_ ip4 1 =? 254)
  | None => (length ip =? 16)%nat && (at_ ip 0 =? 254) && (Z.land (at_ ip 1) 192 =? 128)
  end.

(** ** Masks and networks *)

(** The loop of [CIDRMask]: [l] bytes, [n] leading ones. *)
Fixpoint mask_bytes (l : nat) (n : Z) : list Z :=
  match l with
  | O => []
  | S l' =>
      if 8 <=? n then 255 :: mask_bytes l' (n - 8)
      else Z.land (Z.lnot (Z.shiftr 255 n)) 255 :: mask_bytes l' 0
  end.

Definition CIDRMask (ones bits : Z) : option (list Z) :=
  if negb (bits =? 32) && negb (bits =? 128) then None
  else if (ones <? 0) || (bits <? ones) then None
  else Some (mask_bytes (Z.to_nat (bits / 8)) ones).

(** [n++; v <<= 1] while the top bit of a byte is set. *)
Fixpoint leading_ones (fuel : nat) (v : Z) (n : Z) : Z * Z :=
  match fuel with
  | O => (v, n)
  | S f => if Z.testbit v 7 then leading_ones f (Z.land (Z.shiftl v 1) 255) (n + 1) else (v, n)
  end.

Fixpoint simpleMaskLength_go (mask : list Z) (n : Z) : Z :=
  match mask with
  | [] => n
  | v :: rest =>
      if v =? 255 then simpleMaskLength_go rest (n + 8)
      else
        let '(v', n') := leading_ones 8 v n in
        if negb (v' =? 0) then -1
        else if forallb (fun m => m =? 0) rest then n' else -1
  end.

(** [IPMask.Size]: [(ones, bits)]. *)
Definition mask_Size (m : list Z) : Z * Z :=
  let ones := simpleMaskLength_go m 0 in
  if ones =? -1 then (0, 0) else (ones, Z.of_nat (length m) * 8).

Definition and_bytes (a m : list Z) : list Z := zip_with Z.land a m.

Definition Mask (ip : IP) (mask : list Z) : option IP :=
  let mask := if (length mask =? 16)%nat && (length ip =? 4)%nat
                 && forallb (fun b => b =? 255) (take 12 mask)
              then drop 12 mask else mask in
  let ip := if (length mask =? 4)%nat && (length ip =? 16)%nat
               && bool_decide (take 12 ip = v4InV6Prefix)
            then drop 12 ip else ip in
  if (length ip =? length mask)%nat then Some (and_bytes ip mask) else None.

Record IPNet := mkIPNet { net_IP : IP; net_Mask : list Z }.

Definition networkNumberAndMask (n : IPNet) : option (IP * list Z) :=
  let ip := default (net_IP n) (To4 (net_IP n)) in
  if bool_decide (To4 (net_IP n) = None) && negb (length (net_IP n) =? 16)%nat then None
  else if (length (net_Mask n) =? 4)%nat then
    if (length ip =? 4)%nat then Some (ip, net_Mask n) else None
  else if (length (net_Mask n) =? 16)%nat then
    if (length ip =? 4)%nat then Some (ip, drop 12 (net_Mask n)) else Some (ip, net_Mask n)
  else None.

Definition Contains (n : IPNet) (ip : IP) : bool :=
  let '(nn, m) := default ([], []) (networkNumberAndMask n) in
  let ip := default ip (To4 ip) in
  if (length ip =? length nn)%nat then bool_decide (and_bytes nn m = and_bytes ip m) else false.

(** [dtoi], with [big = 0xFFFFFF]: the value and the number of digits read. *)
Fixpoint dtoi_go (s : string) (n : Z) (i : nat) : option (Z * nat) :=
  match s with
  | String c s' =>
      if is_dec c then
        let n' := n * 10 + (byte_of c - 48) in
        if 16777215 <=? n' then None else dtoi_go s' n' (S i)
      else if (i =? 0)%nat then None else Some (n, i)
  | "" => if (i =? 0)%nat then None else Some (n, i)
  end.

Definition ParseCIDR (s : string) : error + IP * IPNet :=
  let bad := inl (Errorf "invalid CIDR address" [s]) in
  match IndexByte s "/" with
  | None => bad
  | Some k =>
      let mask := str_drop (S k) s in
      match ParseAddr (str_take k s) with
      | inl _ => bad
      | inr a =>
          if negb (String.eqb (Zone a) "") then bad
          else match dtoi_go mask 0 O with
               | None => bad
               | Some (n, i) =>
                   if negb (i =? String.length mask)%nat || (BitLen a <? n) then bad
                   else match CIDRMask n (BitLen a) with
                        | None => bad
                        | Some m =>
                            match Mask (As16 a) m with
                            | None => bad
                            | Some masked => inr (As16 a, mkIPNet masked m)
                            end
                        end
               end
      end
  end.

Example parse_v6 : ParseAddr "2001:db8::1.2.3.4"
  = inr (Addr6 [32;1;13;184;0;0;0;0;0;0;0;0;1;2;3;4] "").
Proof. vm_compute. reflexivity. Qed.
Example parse_v6_zone : ParseAddr "fe80::1%eth0"
  = inr (Addr6 [254;128;0;0;0;0;0;0;0;0;0;0;0;0;0;1] "eth0").
Proof. vm_compute. reflexivity. Qed.
Example parse_v4 : ParseAddr "10.0.0.255" = inr (Addr4 [10;0;0;255]).
Proof. vm_compute. reflexivity. Qed.
Example parse_v4_zero : ParseAddr "10.00.0.255" = inl (Errorf "IPv4 field has octet with leading zero" []).
Proof. vm_compute. reflexivity. Qed.
Example split_v6 : SplitHostPort "[::1]:443" = inr ("::1", "443").
Proof. vm_compute. reflexivity. Qed.

(** ** The numeric reading of addresses *)

Definition bytes_ok (l : list Z) : Prop := Forall (fun b => 0 <= b < 256) l.

(** The big-endian value of a byte slice. *)
Fixpoint value (l : list Z) : Z :=
  match l with [] => 0 | b :: l' => b * 256 ^ Z.of_nat (length l') + value l' end.

Lemma value_bound l : bytes_ok l -> 0 <= value l < 256 ^ Z.of_nat (length l).
Proof.
  induction 1 as [|b l Hb Hl IH]; [simpl; lia|]. cbn [value length].
  rewrite Nat2Z.inj_succ, Z.pow_succ_r by lia. nia.
Qed.

Lemma value_inj l1 l2 :
  length l1 = length l2 -> bytes_ok l1 -> bytes_ok l2 -> value l1 = value l2 -> l1 = l2.
Proof.
  revert l2. induction l1 as [|b l1 IH]; intros [|c l2] Hlen H1 H2 E; simpl in Hlen; try lia; [done|].
  injection Hlen as Hlen. apply Forall_cons in H1 as [Hb H1]. apply Forall_cons in H2 as [Hc H2].
  cbn [value] in E. rewrite <-Hlen in E.
  pose proof (value_bound l1 H1). pose proof (value_bound l2 H2) as Hv2. rewrite <-Hlen in Hv2.
  assert (b = c) as -> by nia. f_equal. apply IH; auto. lia.
Qed.

Lemma pow256 k : 256 ^ Z.of_nat k = 2 ^ (8 * Z.of_nat k).
Proof. rewrite Z.pow_mul_r by lia. done. Qed.

Lemma mask_bytes_length l n : length (mask_bytes l n) = l.
Proof. revert n. induction l as [|l IH]; intros n; simpl; [done|]. case_match; simpl; by rewrite IH. Qed.

Lemma and_bytes_length a m : length a = length m -> length (and_bytes a m) = length a.
Proof. intros H. unfold and_bytes. rewrite length_zip_with. lia. Qed.

Lemma and_bytes_zero l a : length a = l -> and_bytes a (mask_bytes l 0) = replicate l 0.
Proof.
  revert a. induction l as [|l IH]; intros [|b a] H; simpl in H; try lia; [done|].
  unfold and_bytes in *. simpl. rewrite IH by lia. by rewrite Z.land_0_r.
Qed.

Fixpoint all_below (n : nat) (p : Z -> bool) : bool :=
  match n with O => true | S n' => p (Z.of_nat n') && all_below n' p end.

Lemma all_below_spec n p z : all_below n p = true -> 0 <= z < Z.of_nat n -> p z = true.
Proof.
  induction n as [|n IH]; intros H Hz; [lia|]. simpl in H. apply andb_true_iff in H as [Hp H].
  destruct (decide (z = Z.of_nat n)) as [->|]; [done|]. apply IH; [done|lia].
Qed.

(** The byte where a prefix mask ends keeps the top [n] bits. *)
Lemma land_partial b n : 0 <= b < 256 -> 0 <= n < 8 ->
  Z.land b (Z.land (Z.lnot (Z.shiftr 255 n)) 255) = b / 2 ^ (8 - n) * 2 ^ (8 - n).
Proof.
  intros Hb Hn. apply Z.eqb_eq.
  refine (all_below_spec 256 (fun b => Z.land b (Z.land (Z.lnot (Z.shiftr 255 n)) 255)
            =? b / 2 ^ (8 - n) * 2 ^ (8 - n)) b _ Hb).
  refine (all_below_spec 8 (fun n => all_below 256 (fun b =>
            Z.land b (Z.land (Z.lnot (Z.shiftr 255 n)) 255) =? b / 2 ^ (8 - n) * 2 ^ (8 - n))) n _ Hn).
  vm_compute. reflexivity.
Qed.

Lemma land_full b : 0 <= b < 256 -> Z.land b 255 = b.
Proof.
  intros Hb. change 255 with (Z.ones 8). rewrite Z.land_ones by lia. apply Z.mod_small. lia.
Qed.

Lemma mixed_radix b c q r M : 0 <= q < M -> 0 <= r < M -> b * M + q = c * M + r <-> b = c /\ q = r.
Proof. intros Hq Hr. split; [intros E; assert (b = c) by nia; subst; lia | by intros [-> ->]]. Qed.

(** Quotients of a value by a power of two, split at its first byte. *)
Lemma value_div_high b l n :
  bytes_ok l -> 8 <= n <= 8 * Z.of_nat (S (length l)) ->
  let D := 2 ^ (8 * Z.of_nat (S (length l)) - n) in
  value (b :: l) / D = b * 2 ^ (n - 8) + value l / D /\ 0 <= value l / D < 2 ^ (n - 8).
Proof.
  intros Hl Hn D. pose proof (value_bound l Hl) as Hv. cbn [value]. rewrite pow256 in *.
  assert (HD : 0 < D) by (apply Z.pow_pos_nonneg; lia).
  replace (8 * Z.of_nat (length l)) with ((n - 8) + (8 * Z.of_nat (S (length l)) - n)) in * by lia.
  rewrite Z.pow_add_r in * by lia. fold D in Hv |- *. split.
  - rewrite Z.mul_assoc. rewrite Z.div_add_l by lia. done.
  - split; [apply Z.div_pos; lia|]. apply Z.div_lt_upper_bound; lia.
Qed.

Lemma value_div_low b l n :
  bytes_ok l -> 0 <= n < 8 ->
  value (b :: l) / 2 ^ (8 * Z.of_nat (S (length l)) - n) = b / 2 ^ (8 - n).
Proof.
  intros Hl Hn. pose proof (value_bound l Hl) as Hv. cbn [value]. rewrite pow256 in *.
  replace (8 * Z.of_nat (S (length l)) - n) with (8 * Z.of_nat (length l) + (8 - n)) by lia.
  rewrite Z.pow_add_r by lia. rewrite <-Z.div_div by lia.
  rewrite Z.div_add_l by lia. rewrite (Z.div_small (value l)) by lia. by rewrite Z.add_0_r.
Qed.

(** Masked bytes agree exactly when the leading bits of the values do. *)
Lemma mask_agree k n a b :
  length a = k -> length b = k -> bytes_ok a -> bytes_ok b -> 0 <= n <= 8 * Z.of_nat k ->
  and_bytes a (mask_bytes k n) = and_bytes b (mask_bytes k n)
  <-> value a / 2 ^ (8 * Z.of_nat k - n) = value b / 2 ^ (8 * Z.of_nat k - n).
Proof.
  revert n a b. induction k as [|k IH]; intros n [|x a] [|y b] Ha Hb Oa Ob Hn; simpl in Ha, Hb; try lia.
  { done. }
  injection Ha as Ha. injection Hb as Hb.
  apply Forall_cons in Oa as [Hx Oa]. apply Forall_cons in Ob as [Hy Ob].
  destruct (Z.leb_spec 8 n) as [H8|H8]; cbn [mask_bytes].
  - rewrite (proj2 (Z.leb_le 8 n) H8). unfold and_bytes. cbn [zip_with]. rewrite !land_full by done.
    fold (and_bytes a (mask_bytes k (n - 8))). fold (and_bytes b (mask_bytes k (n - 8))).
    destruct (value_div_high x a n Oa ltac:(lia)) as [Ea Ra].
    destruct (value_div_high y b n Ob ltac:(lia)) as [Eb Rb].
    rewrite Ha in Ea, Ra. rewrite Hb in Eb, Rb. rewrite Ea, Eb, mixed_radix by done.
    replace (8 * Z.of_nat (S k) - n) with (8 * Z.of_nat k - (n - 8)) by lia.
    rewrite <-(IH (n - 8) a b) by (done || lia). split; [by intros [= -> ->] | by intros [-> ->]].
  - rewrite (proj2 (Z.leb_gt 8 n) H8). unfold and_bytes. cbn [zip_with].
    fold (and_bytes a (mask_bytes k 0)). fold (and_bytes b (mask_bytes k 0)).
    rewrite !and_bytes_zero, !land_partial by (done || lia).
    rewrite <-Ha at 3. rewrite (value_div_low x a n Oa) by lia.
    replace (S k) with (S (length b)) by lia. rewrite (value_div_low y b n Ob) by lia.
    split; [|by intros ->]. intros [= E]. apply Z.mul_cancel_r in E; [done|].
    apply Z.pow_nonzero; lia.
Qed.

(** ** Membership of an address in a CIDR block *)

(** [member p ones ip]: the address [ip] has the [ones] leading bits of the
    prefix [p], and the two are of one address family. *)
Definition member (p : list Z) (ones : Z) (ip : IP) : Prop :=
  length ip = length p /\
  value ip / 2 ^ (8 * Z.of_nat (length p) - ones) = value p / 2 ^ (8 * Z.of_nat (length p) - ones).

(** A parsed network in canonical form: a 4-byte network, or a 16-byte one
    that is not IPv4-mapped, with the prefix mask of [ones] bits. *)
Definition canonical (n : IPNet) (ones : Z) : bool :=
  let k := length (net_IP n) in
  ((k =? 4)%nat || ((k =? 16)%nat && bool_decide (To4 (net_IP n) = None)))
  && forallb (fun b => (0 <=? b) && (b <? 256)) (net_IP n)
  && (0 <=? ones) && (ones <=? 8 * Z.of_nat k)
  && bool_decide (net_Mask n = mask_bytes k ones).

Lemma forallb_bytes_ok l : forallb (fun b => (0 <=? b) && (b <? 256)) l = true -> bytes_ok l.
Proof.
  intros H. apply Forall_forall. intros b Hb. rewrite forallb_forall in H.
  specialize (H b (proj1 (list_elem_of_In _ _) Hb)). lia.
Qed.

(** The addresses the guard handles: 4 bytes, or 16 bytes not IPv4-mapped. *)
Definition plain_ip (ip : IP) : Prop :=
  bytes_ok ip /\ (length ip = 4%nat \/ (length ip = 16%nat /\ To4 ip = None)).

Lemma To4_length ip : length ip = 4%nat -> To4 ip = Some ip.
Proof. unfold To4. by intros ->. Qed.

Lemma To4_some_length ip b : To4 ip = Some b -> length b = 4%nat.
Proof.
  unfold To4. destruct (Nat.eqb_spec (length ip) 4); [congruence|].
  destruct (Nat.eqb_spec (length ip) 16) as [E|]; [|done]. cbn [andb].
  case_bool_decide; [|done]. intros [= <-]. rewrite length_drop. lia.
Qed.

Lemma plain_default ip : plain_ip ip -> default ip (To4 ip) = ip.
Proof. intros [_ [H|[_ ->]]]; [by rewrite To4_length|done]. Qed.

Lemma Contains_member n ones ip :
  canonical n ones = true -> plain_ip ip ->
  Contains n ip = true <-> member (net_IP n) ones ip.
Proof.
  unfold canonical, member. intros Hc Hp. rewrite !andb_true_iff in Hc.
  destruct Hc as [[[[Hlen Hok] H0] H1] Hm]. apply forallb_bytes_ok in Hok.
  apply bool_decide_eq_true in Hm.
  assert (Hnm : networkNumberAndMask n = Some (net_IP n, net_Mask n)).
  { unfold networkNumberAndMask. rewrite Hm, mask_bytes_length.
    apply orb_true_iff in Hlen as [Hl|Hl].
    - apply Nat.eqb_eq in Hl. rewrite (To4_length _ Hl), bool_decide_eq_false_2 by done. unfold default, id. by rewrite Hl.
    - apply andb_true_iff in Hl as [Hl HN]. apply Nat.eqb_eq in Hl. apply bool_decide_eq_true in HN.
      rewrite HN, Hl, bool_decide_eq_true_2 by done. unfold default, id. by rewrite Hl. }
  unfold Contains. rewrite Hnm. simpl default. rewrite plain_default by done. rewrite Hm.
  destruct (Nat.eqb_spec (length ip) (length (net_IP n))) as [E|E].
  - rewrite bool_decide_eq_true.
    rewrite (mask_agree (length (net_IP n)) ones (net_IP n) ip eq_refl E Hok (proj1 Hp) ltac:(lia)).
    split; [intros Hv; by split | by intros [_ Hv]].
  - split; [done|]. by intros [? _].
Qed.

(** Two blocks with a common address agree on the shorter prefix. *)
Lemma member_nested p q m n ip :
  length p = length q -> 0 <= m <= n -> n <= 8 * Z.of_nat (length p) ->
  member p m ip -> member q n ip ->
  value q / 2 ^ (8 * Z.of_nat (length p) - m) = value p / 2 ^ (8 * Z.of_nat (length p) - m).
Proof.
  intros Hl Hmn Hn [_ Hp] [_ Hq]. rewrite <-Hl in Hq. rewrite <-Hp.
  replace (8 * Z.of_nat (length p) - m) with ((8 * Z.of_nat (length p) - n) + (n - m)) by lia.
  rewrite Z.pow_add_r by lia. rewrite <-!Z.div_div by (apply Z.pow_nonzero || apply Z.pow_pos_nonneg; lia).
  by rewrite Hq.
Qed.

(** ** What the parsers return *)

Lemma v4_fields_wf s edge val digLen pos acc l :
  bytes_ok acc -> length acc = pos -> (pos <= 3)%nat ->
  v4_fields s edge val digLen pos acc = inr l -> bytes_ok l /\ length l = 4%nat.
Proof.
  revert edge val digLen pos acc.
  induction s as [|c s IH]; intros edge val digLen pos acc Hok Hlen Hpos H; simpl in H.
  - destruct (Nat.ltb_spec pos 3); [done|]. injection H as <-.
    assert (0 <= val mod 256 < 256) by (apply Z.mod_pos_bound; lia).
    split; [apply Forall_app; split; [by apply Forall_rev|by constructor]|].
    rewrite length_app, length_rev. simpl. lia.
  - destruct (is_dec c); [repeat (case_match; try done); by eapply IH|].
    destruct (Ascii.eqb c "."); [|done].
    destruct (edge || String.eqb s ""); [done|].
    destruct (Nat.eqb_spec pos 3); [done|].
    eapply IH; [..|exact H]; [|simpl; lia|lia].
    constructor; [apply Z.mod_pos_bound; lia|done].
Qed.

Lemma parseIPv4Fields_wf s l : parseIPv4Fields s = inr l -> bytes_ok l /\ length l = 4%nat.
Proof. unfold parseIPv4Fields. apply v4_fields_wf; [constructor|done|lia]. Qed.

Definition ellipsis_ok (e : option nat) (ip : list Z) : Prop :=
  match e with Some k => (k <= length ip)%nat | None => True end.

Lemma v6_loop_wf n s ip e s' ip' e' :
  bytes_ok ip -> (length ip + 2 * n = 16)%nat -> ellipsis_ok e ip ->
  v6_loop n s ip e = inr (s', ip', e') ->
  bytes_ok ip' /\ (length ip' <= 16)%nat /\ ellipsis_ok e' ip'.
Proof.
  revert s ip e. induction n as [|n IH]; intros s ip e Hok Hlen He H; cbn [v6_loop] in H.
  { injection H as <- <- <-. split_and!; [done|lia|done]. }
  destruct (scan_hex s 0 0) as [|[[acc off] rest]]; [done|].
  destruct (off =? 0)%nat; [done|].
  destruct (first_is rest ".").
  { destruct (bool_decide (e = None) && _); [done|].
    destruct (Nat.ltb_spec 16 (length ip + 4)); [done|].
    destruct (parseIPv4Fields s) as [|v4] eqn:E; [done|]. injection H as <- <- <-.
    apply parseIPv4Fields_wf in E as [Hv Hl]. split_and!; [by apply Forall_app|rewrite length_app; lia|].
    destruct e; simpl in *; [rewrite length_app; lia|done]. }
  set (ip2 := ip ++ [Z.shiftr acc 8 mod 256; acc mod 256]) in *.
  assert (Hok2 : bytes_ok ip2).
  { apply Forall_app; split; [done|]. repeat constructor; apply Z.mod_pos_bound; lia. }
  assert (Hlen2 : length ip2 = (length ip + 2)%nat) by (unfold ip2; rewrite length_app; simpl; lia).
  assert (He2 : ellipsis_ok e ip2) by (destruct e; simpl in *; lia || done).
  repeat (case_match; try done); simplify_eq;
    first [ split_and!; [done|lia|first [done|simpl; lia]]
          | (eapply IH; [exact Hok2|lia| |exact H]; first [done|simpl; lia]) ].
Qed.

Lemma v6_finish_wf r zone a :
  bytes_ok r.1.2 -> (length r.1.2 <= 16)%nat -> ellipsis_ok r.2 r.1.2 ->
  v6_finish r zone = inr a -> exists b, a = Addr6 b zone /\ bytes_ok b /\ length b = 16%nat.
Proof.
  destruct r as [[s ip] e]. simpl. intros Hok Hlen He H.
  destruct (negb _); [done|]. destruct (Nat.ltb_spec (length ip) 16) as [Hlt|Hge].
  - destruct e as [k|]; [|done]. injection H as <-. eexists. split; [done|]. simpl in He. split.
    + apply Forall_app; split; [by apply Forall_take|]. apply Forall_app; split; [|by apply Forall_drop].
      apply Forall_replicate. lia.
    + rewrite !length_app, length_take, length_drop, length_replicate. lia.
  - destruct e; [done|]. injection H as <-. eexists. split_and!; [done|done|lia].
Qed.

Lemma parse_zoned_wf s zone a :
  parse_zoned s zone = inr a -> exists b z, a = Addr6 b z /\ bytes_ok b /\ length b = 16%nat.
Proof.
  unfold parse_zoned.
  assert (Hgo : forall s' e, ellipsis_ok e [] ->
    match v6_loop 8 s' [] e with inl er => inl er | inr r => v6_finish r zone end = inr a ->
    exists b z, a = Addr6 b z /\ bytes_ok b /\ length b = 16%nat).
  { intros s' e He H. destruct (v6_loop 8 s' [] e) as [|[[s2 ip2] e2]] eqn:E; [done|].
    apply v6_loop_wf in E as (H1 & H2 & H3); [|constructor|done|done].
    apply v6_finish_wf in H as (b & -> & Hb & Hl); eauto. }
  destruct (first_is s ":" && first_is (str_drop 1 s) ":").
  - destruct (bool_decide _ && _); [intros [= <-]|apply Hgo; simpl; lia].
    do 2 eexists. split; [done|]. split; [by apply forallb_bytes_ok|done].
  - destruct (bool_decide _ && _) eqn:E; [|by apply Hgo].
    apply andb_true_iff in E as [E _]. by apply bool_decide_eq_true in E.
Qed.

Lemma parseIPv6_wf s a :
  parseIPv6 s = inr a -> exists b z, a = Addr6 b z /\ bytes_ok b /\ length b = 16%nat.
Proof.
  unfold parseIPv6. destruct (IndexByte s "%"); [|apply parse_zoned_wf].
  destruct (String.eqb _ ""); [done|apply parse_zoned_wf].
Qed.

(** Every parsed address is 4 bytes, or 16 bytes. *)
Lemma ParseAddr_wf s a :
  ParseAddr s = inr a ->
  bytes_ok (AsSlice a) /\ (length (AsSlice a) = 4%nat \/
    (length (AsSlice a) = 16%nat /\ (Is4In6 a = false -> To4 (AsSlice a) = None))).
Proof.
  unfold ParseAddr. intros H. destruct (addr_kind s) as [c|]; [|done].
  destruct (Ascii.eqb c "."); [|destruct (Ascii.eqb c ":"); [|done]].
  - destruct (parseIPv4Fields s) as [|b] eqn:E; [done|]. injection H as <-.
    apply parseIPv4Fields_wf in E as [? ?]. simpl. auto.
  - apply parseIPv6_wf in H as (b & z & -> & Hb & Hl). simpl. split; [done|]. right. split; [done|].
    intros H4. unfold To4. rewrite Hl. simpl. by rewrite H4.
Qed.

Lemma ParseAddr_plain s a :
  ParseAddr s = inr a -> Is4In6 a = false -> plain_ip (AsSlice a).
Proof. intros H Hn. apply ParseAddr_wf in H as [? [?|[? ?]]]; split; auto. Qed.

(** ** Dotted-quad addresses *)

Definition dotted (a b c d : Z) : string :=
  dec_Z a +:+ "." +:+ dec_Z b +:+ "." +:+ dec_Z c +:+ "." +:+ dec_Z d.

Definition dig (c : ascii) : Z := byte_of c - 48.

(** One to three digits with no leading zero, whose value is [b]. *)
Definition octet_text (b : Z) (s : string) : bool :=
  match s with
  | String c1 "" => is_dec c1 && (dig c1 =? b)
  | String c1 (String c2 "") =>
      is_dec c1 && is_dec c2 && negb (dig c1 =? 0) && (dig c1 * 10 + dig c2 =? b)
  | String c1 (String c2 (String c3 "")) =>
      is_dec c1 && is_dec c2 && is_dec c3 && negb (dig c1 =? 0)
      && ((dig c1 * 10 + dig c2) * 10 + dig c3 =? b)
  | _ => false
  end.

Lemma octet_text_dec b : 0 <= b < 256 -> octet_text b (dec_Z b) = true.
Proof.
  intros Hb. refine (all_below_spec 256 (fun b => octet_text b (dec_Z b)) b _ Hb).
  vm_compute. reflexivity.
Qed.

Lemma is_dec_bounds c : is_dec c = true -> 0 <= dig c <= 9.
Proof. unfold is_dec, dig. lia. Qed.

Lemma v4_step c s edge val digLen pos acc :
  is_dec c = true -> (digLen = O \/ val <> 0) -> val * 10 + dig c <= 255 ->
  v4_fields (String c s) edge val digLen pos acc
  = v4_fields s false (val * 10 + dig c) (S digLen) pos acc.
Proof.
  intros Hc Hz Hv. cbn [v4_fields]. rewrite Hc.
  replace ((digLen =? 1)%nat && (val =? 0)) with false by lia.
  replace (val * 10 + byte_of c - 48) with (val * 10 + dig c) by (unfold dig; lia).
  by replace (255 <? val * 10 + dig c) with false by lia.
Qed.

(** Reading one octet moves its value into the accumulator state. *)
Lemma v4_octet b t s edge pos acc :
  0 <= b < 256 -> octet_text b t = true ->
  exists n, v4_fields (t +:+ s) edge 0 O pos acc = v4_fields s false b n pos acc.
Proof.
  intros Hb. unfold octet_text.
  destruct t as [|c1 [|c2 [|c3 [|? ?]]]]; try done; rewrite ?andb_true_iff; intros H;
    rewrite !string_app_cons; change ("" +:+ s) with s; eexists.
  - destruct H as [H1 H2]. pose proof (is_dec_bounds _ H1).
    rewrite v4_step by (done || lia || auto). f_equal. lia.
  - destruct H as [[[H1 H2] H3] H4]. pose proof (is_dec_bounds _ H1). pose proof (is_dec_bounds _ H2).
    rewrite v4_step by (done || lia || auto). rewrite v4_step by (done || lia). f_equal. lia.
  - destruct H as [[[[H1 H2] H3] H4] H5]. pose proof (is_dec_bounds _ H1).
    pose proof (is_dec_bounds _ H2). pose proof (is_dec_bounds _ H3).
    rewrite v4_step by (done || lia || auto). rewrite !v4_step by (done || lia). f_equal. lia.
Qed.

Lemma v4_dot s val digLen pos acc :
  s <> "" -> (pos < 3)%nat -> 0 <= val < 256 ->
  v4_fields (String "." s) false val digLen pos acc = v4_fields s true 0 O (S pos) (val :: acc).
Proof.
  intros Hs Hp Hv. cbn [v4_fields]. change (is_dec ".") with false. cbn [orb Ascii.eqb].
  rewrite (proj2 (String.eqb_neq s "") Hs).
  replace (pos =? 3)%nat with false by lia. by rewrite Z.mod_small.
Qed.

Lemma dec_Z_nonempty b s : 0 <= b < 256 -> dec_Z b +:+ s <> "".
Proof. intros Hb. pose proof (octet_text_dec b Hb) as H. by destruct (dec_Z b). Qed.

Lemma parseIPv4Fields_dotted a b c d :
  bytes_ok [a; b; c; d] -> parseIPv4Fields (dotted a b c d) = inr [a; b; c; d].
Proof.
  intros H. apply Forall_cons in H as [Ha H]. apply Forall_cons in H as [Hb H].
  apply Forall_cons in H as [Hc H]. apply Forall_cons in H as [Hd _].
  assert (Hdot : forall x, "." +:+ x = String "." x) by done.
  unfold parseIPv4Fields, dotted. rewrite !Hdot.
  destruct (v4_octet a (dec_Z a) (String "." (dec_Z b +:+ String "." (dec_Z c +:+ String "." (dec_Z d))))
    true 0 [] Ha (octet_text_dec a Ha)) as [n1 ->].
  rewrite v4_dot by (lia || by apply dec_Z_nonempty).
  destruct (v4_octet b (dec_Z b) (String "." (dec_Z c +:+ String "." (dec_Z d))) true 1 [a]
    Hb (octet_text_dec b Hb)) as [n2 ->].
  rewrite v4_dot by (lia || by apply dec_Z_nonempty).
  destruct (v4_octet c (dec_Z c) (String "." (dec_Z d)) true 2 [b; a]
    Hc (octet_text_dec c Hc)) as [n3 ->].
  rewrite v4_dot by (lia || (rewrite <-(string_app_nil_r (dec_Z d)); by apply dec_Z_nonempty)).
  rewrite <-(string_app_nil_r (dec_Z d)).
  destruct (v4_octet d (dec_Z d) "" true 3 [c; b; a] Hd (octet_text_dec d Hd)) as [n4 ->].
  cbn [v4_fields]. by rewrite Z.mod_small.
Qed.

(** Strings whose bytes all satisfy a test. *)
Fixpoint str_all (p : ascii -> bool) (s : string) : bool :=
  match s with "" => true | String c s' => p c && str_all p s' end.

Lemma str_all_app p s t : str_all p (s +:+ t) = str_all p s && str_all p t.
Proof.
  induction s as [|c s IH]; [done|]. rewrite string_app_cons. cbn [str_all].
  by rewrite IH, andb_assoc.
Qed.

Lemma str_all_impl (p q : ascii -> bool) s :
  (forall c, p c = true -> q c = true) -> str_all p s = true -> str_all q s = true.
Proof.
  intros Hpq. induction s as [|c s IH]; [done|]. cbn [str_all]. rewrite !andb_true_iff.
  naive_solver.
Qed.

Definition not_byte (c d : ascii) : bool := negb (Ascii.eqb d c).

Lemma IndexByte_none c s : str_all (not_byte c) s = true -> IndexByte s c = None.
Proof.
  induction s as [|d s IH]; [done|]. cbn [str_all IndexByte]. unfold not_byte.
  rewrite andb_true_iff, negb_true_iff. intros [-> H]. by rewrite IH.
Qed.

Lemma LastIndexByte_none c s : str_all (not_byte c) s = true -> LastIndexByte s c = None.
Proof.
  induction s as [|d s IH]; [done|]. cbn [str_all LastIndexByte]. unfold not_byte.
  rewrite andb_true_iff, negb_true_iff. intros [-> H]. by rewrite IH.
Qed.

Lemma LastIndexByte_app c s t :
  str_all (not_byte c) t = true -> LastIndexByte (s +:+ String c t) c = Some (String.length s).
Proof.
  intros Ht. induction s as [|d s IH].
  - change ("" +:+ String c t) with (String c t). cbn [LastIndexByte String.length].
    by rewrite LastIndexByte_none, Ascii.eqb_refl.
  - rewrite string_app_cons. cbn [LastIndexByte String.length]. by rewrite IH.
Qed.

Lemma str_take_app s t : str_take (String.length s) (s +:+ t) = s.
Proof. induction s as [|c s IH]; [by destruct t|]. rewrite string_app_cons. cbn. by rewrite IH. Qed.

Lemma str_drop_app s c t : str_drop (S (String.length s)) (s +:+ String c t) = t.
Proof. induction s as [|d s IH]; [done|]. rewrite string_app_cons. exact IH. Qed.

(** Text made of digits and dots. *)
Definition quad_char (c : ascii) : bool := is_dec c || Ascii.eqb c ".".

Lemma octet_quad_char b t : octet_text b t = true -> str_all quad_char t = true.
Proof.
  unfold octet_text, quad_char. destruct t as [|c1 [|c2 [|c3 [|? ?]]]]; try done;
    rewrite ?andb_true_iff; cbn [str_all]; intros H; destruct_and?;
    repeat match goal with H : is_dec _ = true |- _ => rewrite H; clear H end; done.
Qed.

Lemma dotted_quad_char a b c d : bytes_ok [a; b; c; d] -> str_all quad_char (dotted a b c d) = true.
Proof.
  intros H. apply Forall_cons in H as [Ha H]. apply Forall_cons in H as [Hb H].
  apply Forall_cons in H as [Hc H]. apply Forall_cons in H as [Hd _].
  unfold dotted. rewrite !str_all_app.
  assert (Hq : forall x, 0 <= x < 256 -> str_all quad_char (dec_Z x) = true).
  { intros x Hx. by apply (octet_quad_char x), octet_text_dec. }
  by rewrite !Hq.
Qed.

Lemma quad_char_not c x : quad_char c = true -> quad_char x = false -> not_byte x c = true.
Proof.
  intros Hc Hx. unfold not_byte. apply negb_true_iff. apply Ascii.eqb_neq. intros ->. congruence.
Qed.

(** [SplitHostPort] undoes joining a dotted quad and a port. *)
Lemma SplitHostPort_quad h port :
  str_all quad_char h = true -> h <> "" ->
  str_all (fun c => not_byte ":" c && not_byte "[" c && not_byte "]" c) port = true ->
  SplitHostPort (h +:+ ":" +:+ port) = inr (h, port).
Proof.
  intros Hh Hne Hp.
  assert (Hpx : forall x, x = ":"%char \/ x = "["%char \/ x = "]"%char -> str_all (not_byte x) port = true).
  { intros x Hx. revert Hp. apply str_all_impl. intros c. rewrite !andb_true_iff. intros [[? ?] ?].
    by destruct Hx as [->|[->| ->]]. }
  assert (Hhx : forall x, quad_char x = false -> str_all (not_byte x) h = true).
  { intros x Hx. revert Hh. apply str_all_impl. intros c Hc. by apply quad_char_not. }
  assert (Hall : forall x, x = "["%char \/ x = "]"%char ->
    IndexByte (h +:+ String ":" port) x = None).
  { intros x Hx. apply IndexByte_none. rewrite str_all_app. cbn [str_all].
    rewrite Hhx, Hpx by (destruct Hx as [->| ->]; auto). by destruct Hx as [->| ->]. }
  unfold SplitHostPort. change (":" +:+ port) with (String ":" port).
  rewrite LastIndexByte_app by auto.
  assert (Hf : first_is (h +:+ String ":" port) "[" = false).
  { destruct h as [|c h]; [done|]. rewrite string_app_cons. cbn in *.
    apply andb_true_iff in Hh as [Hc _]. by destruct (Ascii.eqb_spec c "["%char) as [->|]. }
  rewrite Hf, str_take_app.
  rewrite (IndexByte_none ":" h) by (by apply Hhx).
  rewrite bool_decide_eq_false_2 by (intros [? ?]; done).
  assert (Hd0 : forall x, str_drop 0 x = x) by done. rewrite !Hd0.
  rewrite !Hall by auto. rewrite bool_decide_eq_false_2 by (intros [? ?]; done).
  by rewrite str_drop_app.
Qed.

Lemma addr_kind_quad h : str_all quad_char h = true -> IndexByte h "." <> None -> addr_kind h = Some "."%char.
Proof.
  induction h as [|c h IH]; [done|]. cbn [str_all IndexByte addr_kind]. rewrite andb_true_iff.
  intros [Hc Hh]. destruct (Ascii.eqb_spec c "."%char) as [->|Hn]; [done|]. intros Hi.
  assert (Hd : is_dec c = true) by (unfold quad_char in Hc; by destruct (is_dec c), (Ascii.eqb_spec c "."%char)).
  destruct (Ascii.eqb_spec c ":"%char) as [->|]; [done|].
  destruct (Ascii.eqb_spec c "%"%char) as [->|]; [done|]. simpl. apply IH; [done|].
  by destruct (IndexByte h ".").
Qed.

Lemma IndexByte_app_some c s t : IndexByte (s +:+ String c t) c <> None.
Proof.
  induction s as [|d s IH].
  { change ("" +:+ String c t) with (String c t). cbn [IndexByte]. by rewrite Ascii.eqb_refl. }
  rewrite string_app_cons. cbn [IndexByte]. destruct (Ascii.eqb d c); [done|].
  by destruct (IndexByte (s +:+ String c t) c).
Qed.

(** Parsing inverts printing on every IPv4 address. *)
Lemma ParseAddr_dotted a b c d :
  bytes_ok [a; b; c; d] -> ParseAddr (dotted a b c d) = inr (Addr4 [a; b; c; d]).
Proof.
  intros H. unfold ParseAddr. rewrite addr_kind_quad.
  - cbn [Ascii.eqb]. by rewrite parseIPv4Fields_dotted.
  - by apply dotted_quad_char.
  - apply IndexByte_app_some.
Qed.

End net.
