(* ===== verification/AddrText.v ===== *)
(** * The text of an address ([net/netip], [net])

    How [netip.Addr] and [net.IP] print: dotted decimal, or RFC 5952 with the
    longest run of zero groups left out. *)

From S2P Require Import Prelude NetAddr.

Module addrtext.

#[local] Open Scope Z_scope.

(** [string4]. *)
Definition string4 (b : list Z) : string := JoinStrings (map dec_Z b) ".".

(** [appendHex] of a group below 2^16: lower case, without leading zeros. *)
Definition hex_char (d : Z) : string :=
  String (ascii_of_N (Z.to_N (if d <? 10 then 48 + d else 87 + d))) "".

Definition append_hex (x : Z) : string :=
  (if 4096 <=? x then hex_char (Z.shiftr x 12) else "")
  +:+ (if 256 <=? x then hex_char (Z.land (Z.shiftr x 8) 15) else "")
  +:+ (if 16 <=? x then hex_char (Z.land (Z.shiftr x 4) 15) else "")
  +:+ hex_char (Z.land x 15).

(** [v6u16] of every index. *)
Fixpoint groups (b : list Z) : list Z :=
  match b with
  | hi :: lo :: b' => (Z.lor (Z.shiftl hi 8) lo) :: groups b'
  | _ => []
  end.

Fixpoint zeros (l : list Z) : nat :=
  match l with 0 :: l' => S (zeros l') | _ => O end.

(** The first longest run of two or more zero groups: its start and length. *)
Fixpoint longest_zeros (i : nat) (l : list Z) (best : nat * nat) : nat * nat :=
  match l with
  | [] => best
  | _ :: l' =>
      let n := zeros l in
      longest_zeros (S i) l' (if (2 <=? n)%nat && (snd best <? n)%nat then (i, n) else best)
  end.

Definition colons (l : list Z) : string := JoinStrings (map append_hex l) ":".

(** [string6], with the zone. *)
Definition string6 (b : list Z) (zone : string) : string :=
  let g := groups b in
  let '(start, len) := longest_zeros 0 g (O, O) in
  (if (len =? 0)%nat then colons g else colons (take start g) +:+ "::" +:+ colons (drop (start + len) g))
  +:+ (if String.eqb zone "" then "" else "%" +:+ zone).

(** [netip.Addr.String]. *)
Definition Addr_String (a : net.Addr) : string :=
  match a with
  | net.Addr4 b => string4 b
  | net.Addr6 b zone =>
      if net.Is4In6 a
      then "::ffff:" +:+ string4 (drop 12 b) +:+ (if String.eqb zone "" then "" else "%" +:+ zone)
      else string6 b zone
  end.

(** [net.IP.String]. *)
Definition IP_String (ip : net.IP) : string :=
  if (length ip =? 0)%nat then "<nil>"
  else if negb (length ip =? 4)%nat && negb (length ip =? 16)%nat
  then "?" +:+ String.concat "" (map (fun b => hex_char (Z.shiftr b 4) +:+ hex_char (Z.land b 15)) ip)
  else match net.To4 ip with
       | Some p4 => string4 p4
       | None => Addr_String (net.Addr6 ip "")
       end.

(** What is parsed is printed back in canonical form. *)
Example canonical_texts :
  Forall (fun p => match net.ParseAddr p.1 with inr a => Addr_String a = p.2 | inl _ => False end)
    [("169.254.169.254", "169.254.169.254"); ("::1", "::1"); ("0:0:0:0:0:0:0:0", "::");
     ("2001:DB8:0:0:1:0:0:1", "2001:db8::1:0:0:1"); ("fe80:0::10%eth0", "fe80::10%eth0");
     ("::ffff:10.0.0.1", "::ffff:10.0.0.1"); ("64:ff9b::a00:1", "64:ff9b::a00:1");
     ("1:0:2:0:0:0:3:0", "1:0:2::3:0")].
Proof. repeat constructor. Qed.

End addrtext.
