(* ===== verification/DiscoveryGuard.v ===== *)
(** * The dial guard of OIDC discovery ([internal/controller/hyperfleetconfig_rollout.go])

    Module [guard] models [blockDiscoveryDial], the hook that inspects every
    address the discovery client is about to connect to, with the table of IANA
    special-purpose blocks it consults. *)

From S2P Require Import Prelude NetAddr AddrText.
From Stdlib Require Import ZifyBool.

Module guard.

#[local] Open Scope Z_scope.

Record specialPurposeDiscoveryRange := mkRange {
  network : net.IPNet; globallyReachable : bool }.

(** A parse error is a panic at package initialisation. *)
Definition mustCIDR (s : string) : outcome net.IPNet :=
  match net.ParseCIDR s with inl _ => Panic | inr (_, n) => Ok n end.

Definition specialPurposeRange (cidr : string) (reachable : bool) :
    outcome specialPurposeDiscoveryRange :=
  (let? n := mustCIDR cidr in Ok (mkRange n reachable))%go.

(** The literal of [specialPurposeDiscoveryRanges]. *)
Definition range_table : list (string * bool) :=
  [("0.0.0.0/8", false);
   ("0.0.0.0/32", false);
   ("10.0.0.0/8", false);
   ("100.64.0.0/10", false);
   ("127.0.0.0/8", false);
   ("169.254.0.0/16", false);
   ("172.16.0.0/12", false);
   ("192.0.0.0/24", false);
   ("192.0.0.0/29", false);
   ("192.0.0.8/32", false);
   ("192.0.0.9/32", true);
   ("192.0.0.10/32", true);
   ("192.0.0.170/32", false);
   ("192.0.0.171/32", false);
   ("192.0.2.0/24", false);
   ("192.31.196.0/24", true);
   ("192.52.193.0/24", true);
   ("192.88.99.0/24", false);
   ("192.88.99.2/32", false);
   ("192.168.0.0/16", false);
   ("192.175.48.0/24", true);
   ("198.18.0.0/15", false);
   ("198.51.100.0/24", false);
   ("203.0.113.0/24", false);
   ("240.0.0.0/4", false);
   ("255.255.255.255/32", false);
   ("::1/128", false);
   ("::/128", false);
   ("::ffff:0:0/96", false);
   ("64:ff9b::/96", true);
   ("64:ff9b:1::/48", false);
   ("100::/64", false);
   ("100:0:0:1::/64", false);
   ("2001::/23", false);
   ("2001::/32", false);
   ("2001:1::1/128", true);
   ("2001:1::2/128", true);
   ("2001:1::3/128", true);
   ("2001:2::/48", false);
   ("2001:3::/32", true);
   ("2001:4:112::/48", true);
   ("2001:10::/28", false);
   ("2001:20::/28", true);
   ("2001:30::/28", true);
   ("2001:db8::/32", false);
   ("2002::/16", false);
   ("2620:4f:8000::/48", true);
   ("3fff::/20", false);
   ("5f00::/16", false);
   ("fc00::/7", false);
   ("fe80::/10", false)].

(** Package initialisation: the parsed table, or a panic. *)
Fixpoint init_ranges (t : list (string * bool)) : outcome (list specialPurposeDiscoveryRange) :=
  match t with
  | [] => Ok []
  | (s, b) :: t' => (let? r := specialPurposeRange s b in let? l := init_ranges t' in Ok (r :: l))%go
  end.

(** The value after a successful initialisation; [init_no_panic] shows it is. *)
Definition specialPurposeDiscoveryRanges : list specialPurposeDiscoveryRange :=
  match init_ranges range_table with Ok l => l | _ => [] end.

Definition wellKnownNAT64Prefix : net.IPNet :=
  match mustCIDR "64:ff9b::/96" with Ok n => n | _ => net.mkIPNet [] [] end.

(** One turn of the loop of [specialPurposeGloballyReachable], on its three variables
    [mostSpecificBits], [globallyReachable] and [found]. *)
Definition consider (ip : net.IP) (st : Z * bool * bool) (r : specialPurposeDiscoveryRange) :
    Z * bool * bool :=
  let '(mostSpecificBits, _, _) := st in
  let ipv4 := bool_decide (is_Some (net.To4 ip)) in
  let '(ones, bits) := net.mask_Size (net.net_Mask (network r)) in
  if negb (Bool.eqb ipv4 (bits =? 32)) then st
  else if negb (net.Contains (network r) ip) then st
  else if ones <=? mostSpecificBits then st
  else (ones, globallyReachable r, true).

(** [(globallyReachable, found)], over a given table. *)
Definition lookup_ranges (ranges : list specialPurposeDiscoveryRange) (ip : net.IP) : bool * bool :=
  let '(_, reachable, found) := fold_left (consider ip) ranges (-1, false, false) in (reachable, found).

Definition specialPurposeGloballyReachable (ip : net.IP) : bool * bool :=
  lookup_ranges specialPurposeDiscoveryRanges ip.

Definition category (ip : net.IP) : bool :=
  net.IsLoopback ip || net.IsPrivate ip || net.IsLinkLocalUnicast ip
  || net.IsLinkLocalMulticast ip || net.IsUnspecified ip || net.IsMulticast ip.

(** The recursion is on the embedded IPv4 address of a NAT64 address; [fuel]
    bounds it and [None] means it ran out. *)
Fixpoint isDisallowed_fuel (fuel : nat) (ip : net.IP) : option bool :=
  match fuel with
  | O => None
  | S f =>
      let ipv6 := default [] (net.To16 ip) in
      if bool_decide (net.To4 ip = None) && net.Contains wellKnownNAT64Prefix ipv6
      then isDisallowed_fuel f (drop 12 ipv6)
      else
        let '(reachable, found) := specialPurposeGloballyReachable ip in
        if found then Some (negb reachable)
        else Some (category ip)
  end.

Definition isDisallowedDiscoveryTarget (ip : net.IP) : bool :=
  default true (isDisallowed_fuel 2 ip).

(** The messages print a [netip.Addr] and a [net.IP]. *)
Definition blockDiscoveryDial (address : string) : outcome unit :=
  match net.SplitHostPort address with
  | inl err => Fail (Wrapf "parse dial address %q: %w" [address] err)
  | inr (host, _) =>
      match net.ParseAddr host with
      | inl _ => Fail (Errorf "refusing to dial non-IP discovery address %q" [host])
      | inr addr =>
          if net.Is4In6 addr
          then Fail (Errorf "refusing OIDC discovery dial to IPv4-mapped address %s"
                 [addrtext.Addr_String addr])
          else if isDisallowedDiscoveryTarget (net.AsSlice addr)
          then Fail (Errorf "refusing OIDC discovery dial to disallowed address %s"
                 [addrtext.IP_String (net.AsSlice addr)])
          else Ok tt
      end
  end.

(** ** The table *)

(** Prefix length of a range, as the loop computes it. *)
Definition ones_of (r : specialPurposeDiscoveryRange) : Z := (net.mask_Size (net.net_Mask (network r))).1.
Definition bits_of (r : specialPurposeDiscoveryRange) : Z := (net.mask_Size (net.net_Mask (network r))).2.

(** A range whose parsed network is canonical and has the mask size of its
    family.  Only [::ffff:0:0/96] is not: its network number is IPv4-mapped. *)
Definition regular (r : specialPurposeDiscoveryRange) : bool :=
  net.canonical (network r) (ones_of r)
  && (bits_of r =? 8 * Z.of_nat (length (net.net_IP (network r)))).

Definition v4_mapped_range (r : specialPurposeDiscoveryRange) : bool :=
  (bits_of r =? 128) && bool_decide (is_Some (net.To4 (net.net_IP (network r)))).

Lemma ranges_regular :
  forallb (fun r => (regular r || v4_mapped_range r) && (0 <=? ones_of r))
    specialPurposeDiscoveryRanges = true.
Proof. vm_compute. reflexivity. Qed.

#[local] Opaque specialPurposeDiscoveryRanges.

(** A range applies to an address: same family, and the network contains it. *)
Definition applies (ip : net.IP) (r : specialPurposeDiscoveryRange) : bool :=
  Bool.eqb (bool_decide (is_Some (net.To4 ip))) (bits_of r =? 32) && net.Contains (network r) ip.

Lemma consider_unfold ip st r :
  consider ip st r = if applies ip r && (st.1.1 <? ones_of r) then (ones_of r, globallyReachable r, true) else st.
Proof.
  unfold consider, applies, ones_of, bits_of. destruct st as [[b g] f]. simpl.
  destruct (net.mask_Size _) as [o bits]. simpl.
  destruct (Bool.eqb _ _); [|done]. destruct (net.Contains _ _); [|done]. simpl.
  rewrite Z.ltb_antisym. by destruct (o <=? b).
Qed.

(** The loop selects the first of the most specific ranges that apply. *)
Lemma lookup_best ip l : Forall (fun r => 0 <= ones_of r) l ->
  (lookup_ranges l ip = (false, false) /\ Forall (fun r => applies ip r = false) l)
  \/ exists r, r ∈ l /\ applies ip r = true /\ lookup_ranges l ip = (globallyReachable r, true)
       /\ Forall (fun r' => applies ip r' = true -> ones_of r' <= ones_of r) l.
Proof.
  unfold lookup_ranges. intros Hl.
  cut (forall st done_, st = (-1, false, false) /\ Forall (fun r => applies ip r = false) done_
     \/ (exists r, r ∈ done_ /\ applies ip r = true /\ st = (ones_of r, globallyReachable r, true)
          /\ Forall (fun r' => applies ip r' = true -> ones_of r' <= ones_of r) done_) ->
     let fin := fold_left (consider ip) l st in
     fin = (-1, false, false) /\ Forall (fun r => applies ip r = false) (done_ ++ l)
     \/ (exists r, r ∈ done_ ++ l /\ applies ip r = true /\ fin = (ones_of r, globallyReachable r, true)
          /\ Forall (fun r' => applies ip r' = true -> ones_of r' <= ones_of r) (done_ ++ l))).
  { intros H. destruct (H (-1, false, false) []) as [[-> ?]|(r & Hr & Ha & -> & Hm)]; [by left; constructor| |].
    - by left. - right. by exists r. }
  clear -Hl. induction Hl as [|x l Hx Hl IH]; intros st done_ Hst; cbv zeta; cbn [fold_left].
  { by rewrite app_nil_r. }
  rewrite (cons_middle x done_ l), app_assoc. apply IH. clear IH.
  rewrite consider_unfold. destruct Hst as [[-> Hn]|(r & Hr & Ha & -> & Hm)]; cbn [fst].
  - destruct (applies ip x) eqn:E; cbn [andb].
    + right. exists x. replace (-1 <? ones_of x) with true by lia.
      split_and!; [apply elem_of_app; right; left|done|done|].
      apply Forall_app; split; [|constructor; [lia|constructor]].
      eapply Forall_impl; [exact Hn|]. by intros r' -> .
    + left. split; [done|]. apply Forall_app; split; [done|by constructor].
  - right. destruct (applies ip x && (ones_of r <? ones_of x)) eqn:E.
    + apply andb_true_iff in E as [E Hlt]. apply Z.ltb_lt in Hlt. exists x.
      split_and!; [apply elem_of_app; right; left|done|done|].
      apply Forall_app; split; [|constructor; [lia|constructor]].
      eapply Forall_impl; [exact Hm|]. intros r' Hr' Ha'. specialize (Hr' Ha'). lia.
    + exists r. split_and!; [apply elem_of_app; by left|done|done|].
      apply Forall_app; split; [done|]. constructor; [|constructor]. intros Ex. rewrite Ex in E.
      cbn [andb] in E. lia.
Qed.

Lemma ranges_ones : Forall (fun r => 0 <= ones_of r) specialPurposeDiscoveryRanges.
Proof.
  pose proof ranges_regular as H. rewrite forallb_forall in H. apply Forall_forall.
  intros r Hr. apply list_elem_of_In in Hr. specialize (H r Hr). lia.
Qed.

(** The numeric reading of [applies] on the plain addresses the guard sees. *)
Lemma applies_member ip r :
  net.plain_ip ip -> r ∈ specialPurposeDiscoveryRanges ->
  applies ip r = true <-> regular r = true /\ net.member (net.net_IP (network r)) (ones_of r) ip.
Proof.
  intros Hp Hr. pose proof ranges_regular as H. rewrite forallb_forall in H.
  apply list_elem_of_In in Hr. specialize (H r Hr). apply andb_true_iff in H as [H _].
  unfold applies. destruct (regular r) eqn:E.
  - unfold regular in E. apply andb_true_iff in E as [Ec Eb].
    rewrite andb_true_iff, (net.Contains_member _ (ones_of r)) by done.
    split; [intros [_ Hc]; split; [reflexivity|exact Hc]|].
    intros [_ Hm]. split; [|exact Hm]. destruct Hm as [Hl _]. destruct Hp as [_ [Hi|[Hi HN]]].
    + rewrite (net.To4_length _ Hi), bool_decide_eq_true_2 by (by eexists). lia.
    + rewrite HN, bool_decide_eq_false_2 by (by intros [? ?]). lia.
  - split; [|by intros [? _]]. rewrite orb_false_l in H. intros Ha. exfalso.
    unfold v4_mapped_range in H. apply andb_true_iff in H as [Hb Hm]. apply bool_decide_eq_true in Hm as [p4 Hp4].
    apply andb_true_iff in Ha as [Hf Hc].
    destruct Hp as [_ [Hi|[Hi HN]]].
    + rewrite (net.To4_length _ Hi), bool_decide_eq_true_2 in Hf by (by eexists). lia.
    + unfold net.Contains, net.networkNumberAndMask in Hc. rewrite HN, Hp4 in Hc.
      unfold default, id in Hc. pose proof (net.To4_some_length _ _ Hp4) as Hl4.
      rewrite bool_decide_eq_false_2 in Hc by done. rewrite Hl4 in Hc. cbn [andb Nat.eqb] in Hc.
      destruct (length (net.net_Mask (network r)) =? 4)%nat;
        [|destruct (length (net.net_Mask (network r)) =? 16)%nat]; rewrite Hi, ?Hl4 in Hc; done.
Qed.

(** ** Theorems *)

(** Package initialisation does not panic: every CIDR literal of
    the table parses, and so does the NAT64 prefix; the record
    [::ffff:0:0/96] is the only one that can match no address, so the refusal
    of IPv4-mapped addresses before the table is consulted is what covers it. *)
Theorem init_no_panic :
  init_ranges range_table = Ok specialPurposeDiscoveryRanges
  /\ length specialPurposeDiscoveryRanges = 51%nat
  /\ mustCIDR "64:ff9b::/96" = Ok wellKnownNAT64Prefix
  /\ (fun r => net.net_IP (network r)) <$> filter (fun r => regular r = false) specialPurposeDiscoveryRanges
     = [net.v4InV6Prefix ++ [0;0;0;0]].
Proof. split_and!; vm_compute; reflexivity. Qed.

(** C36: on every address the guard passes on, the lookup is a longest
    prefix match: it returns the flag of the most specific record whose block
    holds the address, and reports no record exactly when none holds it. *)
Theorem longest_prefix_match ip (Hp : net.plain_ip ip) :
  (specialPurposeGloballyReachable ip = (false, false)
   /\ forall r, r ∈ specialPurposeDiscoveryRanges -> regular r = true ->
        ~ net.member (net.net_IP (network r)) (ones_of r) ip)
  \/ exists r, r ∈ specialPurposeDiscoveryRanges /\ regular r = true
       /\ net.member (net.net_IP (network r)) (ones_of r) ip
       /\ specialPurposeGloballyReachable ip = (globallyReachable r, true)
       /\ forall r', r' ∈ specialPurposeDiscoveryRanges -> regular r' = true ->
            net.member (net.net_IP (network r')) (ones_of r') ip -> ones_of r' <= ones_of r.
Proof.
  destruct (lookup_best ip _ ranges_ones) as [[Hl Hn]|(r & Hr & Ha & Hl & Hm)].
  - left. split; [done|]. intros r Hr Hreg Hmem. rewrite Forall_forall in Hn.
    pose proof (proj2 (applies_member ip r Hp Hr) (conj Hreg Hmem)) as Ha.
    rewrite (Hn r Hr) in Ha. discriminate Ha.
  - right. exists r. pose proof (proj1 (applies_member ip r Hp Hr) Ha) as [Hreg Hmem].
    split_and!; [done|done|done|done|]. intros r' Hr' Hreg' Hmem'. rewrite Forall_forall in Hm.
    apply (Hm r' Hr'). exact (proj2 (applies_member ip r' Hp Hr') (conj Hreg' Hmem')).
Qed.

Lemma longest_prefix_match_witness :
  exists r, r ∈ specialPurposeDiscoveryRanges
    /\ specialPurposeGloballyReachable [192;0;0;9] = (globallyReachable r, true).
Proof.
  destruct (longest_prefix_match [192;0;0;9]) as [[E _]|(r & Hr & _ & _ & E & _)].
  - split; [by apply net.forallb_bytes_ok|by left].
  - vm_compute in E. discriminate E.
  - exists r. split; [exact Hr|exact E].
Defined.

Lemma drop12_plain ip : net.plain_ip ip -> length ip = 16%nat -> net.plain_ip (drop 12 ip).
Proof.
  intros [Hb _] Hl. split; [by apply Forall_drop|]. left. rewrite length_drop. lia.
Qed.

Lemma nat64_canonical : net.canonical wellKnownNAT64Prefix 96 = true.
Proof. vm_compute. reflexivity. Qed.

(** An address in the well-known NAT64 prefix. *)
Definition nat64 (ip : net.IP) : Prop := net.member (net.net_IP wellKnownNAT64Prefix) 96 ip.

Lemma nat64_test ip : net.plain_ip ip ->
  bool_decide (net.To4 ip = None) && net.Contains wellKnownNAT64Prefix (default [] (net.To16 ip)) = true
  <-> nat64 ip.
Proof.
  intros Hp. assert (Hl16 : length (net.net_IP wellKnownNAT64Prefix) = 16%nat) by reflexivity.
  destruct Hp as [Hb [Hi|[Hi HN]]].
  - rewrite (net.To4_length _ Hi), bool_decide_eq_false_2 by done. cbn [andb].
    split; [done|]. intros [Hl _]. rewrite Hi, Hl16 in Hl. done.
  - rewrite HN, bool_decide_eq_true_2 by done. cbn [andb]. unfold net.To16. rewrite Hi. cbn [Nat.eqb].
    unfold default, id. rewrite (net.Contains_member _ 96 _ nat64_canonical); [done|].
    split; auto.
Qed.

Lemma isDisallowed_step f ip : net.plain_ip ip ->
  (nat64 ip /\ isDisallowed_fuel (S f) ip = isDisallowed_fuel f (drop 12 ip) /\ net.plain_ip (drop 12 ip)
     /\ ~ nat64 (drop 12 ip))
  \/ (~ nat64 ip /\ isDisallowed_fuel (S f) ip
       = Some (let '(reachable, found) := specialPurposeGloballyReachable ip in
               if found then negb reachable else category ip)).
Proof.
  intros Hp. pose proof (nat64_test ip Hp) as Ht. cbn [isDisallowed_fuel].
  destruct (bool_decide (net.To4 ip = None) && _) eqn:E.
  - left. pose proof (proj1 Ht eq_refl) as Hn. split; [done|].
    assert (Hl : length ip = 16%nat) by (destruct Hn as [Hl _]; exact Hl).
    unfold net.To16. rewrite Hl. cbn [Nat.eqb]. unfold default, id. split; [done|].
    split; [by apply drop12_plain|]. intros [Hd _]. rewrite length_drop, Hl in Hd. done.
  - right. split; [intros Hn; by apply Ht in Hn|].
    destruct (specialPurposeGloballyReachable ip) as [g f']. by destruct f'.
Qed.

(** The recursion through NAT64 goes at most one level
    deep: two calls are always enough, and more fuel changes nothing. *)
Theorem isDisallowed_terminates ip fuel (Hp : net.plain_ip ip) :
  isDisallowed_fuel (2 + fuel) ip = Some (isDisallowedDiscoveryTarget ip).
Proof.
  unfold isDisallowedDiscoveryTarget. change (2 + fuel)%nat with (S (S fuel)).
  destruct (isDisallowed_step (S fuel) ip Hp) as [(Hn & -> & Hd & Hnd)|(Hn & ->)];
    destruct (isDisallowed_step 1 ip Hp) as [(Hn' & -> & _)|(Hn' & ->)]; try done.
  destruct (isDisallowed_step fuel _ Hd) as [(H & _)|(_ & ->)]; [done|].
  by destruct (isDisallowed_step 0 _ Hd) as [(H & _)|(_ & ->)].
Qed.

Lemma isDisallowed_terminates_witness :
  isDisallowed_fuel 7 [0;100;255;155;0;0;0;0;0;0;0;0;169;254;169;254]
  = Some (isDisallowedDiscoveryTarget [0;100;255;155;0;0;0;0;0;0;0;0;169;254;169;254]).
Proof.
  apply (isDisallowed_terminates [0;100;255;155;0;0;0;0;0;0;0;0;169;254;169;254] 5).
  split; [by apply net.forallb_bytes_ok|right; split; reflexivity].
Defined.

(** The policy, without fuel. *)
Lemma isDisallowed_nat64 ip : net.plain_ip ip -> nat64 ip ->
  isDisallowedDiscoveryTarget ip = isDisallowedDiscoveryTarget (drop 12 ip).
Proof.
  intros Hp Hn. unfold isDisallowedDiscoveryTarget.
  destruct (isDisallowed_step 1 ip Hp) as [(_ & -> & Hd & Hnd)|(? & _)]; [|done].
  destruct (isDisallowed_step 0 _ Hd) as [(? & _)|(_ & ->)]; [done|].
  by destruct (isDisallowed_step 1 _ Hd) as [(? & _)|(_ & ->)].
Qed.

Lemma isDisallowed_direct ip : net.plain_ip ip -> ~ nat64 ip ->
  isDisallowedDiscoveryTarget ip
  = let '(reachable, found) := specialPurposeGloballyReachable ip in
    if found then negb reachable else category ip.
Proof.
  intros Hp Hn. unfold isDisallowedDiscoveryTarget.
  by destruct (isDisallowed_step 1 ip Hp) as [(? & _)|(_ & ->)].
Qed.

(** ** Blocks that are denied as a whole *)

(** Two blocks with no common address: other family, or other leading bits. *)
Definition disjointb (p : list Z) (m : Z) (q : list Z) (n : Z) : bool :=
  negb (length p =? length q)%nat ||
  negb (net.value p / 2 ^ (8 * Z.of_nat (length p) - Z.min m n)
        =? net.value q / 2 ^ (8 * Z.of_nat (length p) - Z.min m n)).

Lemma disjointb_spec p m q n ip :
  0 <= m <= 8 * Z.of_nat (length p) -> 0 <= n <= 8 * Z.of_nat (length q) ->
  disjointb p m q n = true -> net.member p m ip -> net.member q n ip -> False.
Proof.
  unfold disjointb. intros Hm Hn Hd Mp Mq.
  assert (Hl : length p = length q) by (destruct Mp as [<- _], Mq as [<- _]; done).
  rewrite Hl, Nat.eqb_refl in Hd. cbn [negb orb] in Hd. apply negb_true_iff, Z.eqb_neq in Hd. apply Hd.
  destruct (Z.le_ge_cases m n).
  - rewrite Z.min_l by lia. symmetry. rewrite <-Hl. apply (net.member_nested p q m n ip); auto; lia.
  - rewrite Z.min_r by lia. apply (net.member_nested q p n m ip); auto; lia.
Qed.

(** A block that meets neither a globally reachable record nor NAT64. *)
Definition avoids_reachable (p : list Z) (m : Z) : bool :=
  (0 <=? m) && (m <=? 8 * Z.of_nat (length p))
  && disjointb p m (net.net_IP wellKnownNAT64Prefix) 96
  && forallb (fun r => negb (globallyReachable r) || negb (regular r)
                || disjointb p m (net.net_IP (network r)) (ones_of r)) specialPurposeDiscoveryRanges.

Lemma regular_ones r : regular r = true ->
  0 <= ones_of r <= 8 * Z.of_nat (length (net.net_IP (network r))).
Proof. unfold regular, net.canonical. intros H. rewrite !andb_true_iff in H. lia. Qed.

Lemma avoids_not_nat64 p m ip :
  avoids_reachable p m = true -> net.member p m ip -> ~ nat64 ip.
Proof.
  unfold avoids_reachable. intros H Hm Hn. rewrite !andb_true_iff in H. destruct H as [[[H0 H1] Hd] _].
  refine (disjointb_spec _ _ _ _ ip _ _ Hd Hm Hn); [lia|].
  change (length (net.net_IP wellKnownNAT64Prefix)) with 16%nat. lia.
Qed.

(** The lookup on such a block finds a non-reachable record or none. *)
Lemma avoids_lookup p m ip :
  avoids_reachable p m = true -> net.plain_ip ip -> net.member p m ip ->
  fst (specialPurposeGloballyReachable ip) = false.
Proof.
  intros H Hp Hm. destruct (lookup_best ip _ ranges_ones) as [[E _]|(r & Hr & Ha & E & _)];
    unfold specialPurposeGloballyReachable; rewrite E; [done|]. cbn [fst].
  apply applies_member in Ha as [Hreg Hmem]; [|done|done].
  destruct (globallyReachable r) eqn:Eg; [|done]. exfalso.
  unfold avoids_reachable in H. rewrite !andb_true_iff in H. destruct H as [[[H0 H1] _] Hall].
  rewrite forallb_forall in Hall. apply list_elem_of_In in Hr. specialize (Hall r Hr).
  rewrite Eg, Hreg in Hall. cbn [negb orb] in Hall.
  refine (disjointb_spec _ _ _ _ ip _ (regular_ones _ Hreg) Hall Hm Hmem). lia.
Qed.

Lemma avoids_denied p m ip :
  avoids_reachable p m = true -> net.plain_ip ip -> net.member p m ip ->
  snd (specialPurposeGloballyReachable ip) = true \/ category ip = true ->
  isDisallowedDiscoveryTarget ip = true.
Proof.
  intros H Hp Hm Hc. rewrite isDisallowed_direct by eauto using avoids_not_nat64.
  pose proof (avoids_lookup p m ip H Hp Hm) as Hf.
  destruct (specialPurposeGloballyReachable ip) as [g f]. cbn [fst snd] in *. subst g.
  destruct f; [done|]. by destruct Hc.
Qed.

(** The records that are not globally reachable and hold no reachable exception. *)
Definition denied_cidrs : list string :=
  ["0.0.0.0/8"; "10.0.0.0/8"; "100.64.0.0/10"; "127.0.0.0/8"; "169.254.0.0/16"; "172.16.0.0/12";
   "192.0.0.0/29"; "192.0.2.0/24"; "192.88.99.0/24"; "192.168.0.0/16"; "198.18.0.0/15";
   "198.51.100.0/24"; "203.0.113.0/24"; "240.0.0.0/4"; "::1/128"; "::/128"; "64:ff9b:1::/48";
   "100::/64"; "2001::/32"; "2001:2::/48"; "2001:10::/28"; "2001:db8::/32"; "2002::/16";
   "3fff::/20"; "5f00::/16"; "fc00::/7"; "fe80::/10"; "100:0:0:1::/64"; "0.0.0.0/32"; "192.0.0.8/32";
   "192.0.0.170/32"; "192.0.0.171/32"; "192.88.99.2/32"; "255.255.255.255/32"].

(** [in_cidr s ip]: the CIDR literal [s] parses, and [ip] has its leading bits. *)
Definition in_cidr (s : string) (ip : net.IP) : Prop :=
  match mustCIDR s with
  | Ok n => net.member (net.net_IP n) (net.mask_Size (net.net_Mask n)).1 ip
  | _ => False
  end.

(** A literal of the table, not globally reachable, that avoids the exceptions. *)
Definition denied_record (s : string) : bool :=
  match mustCIDR s with
  | Ok n =>
      avoids_reachable (net.net_IP n) (net.mask_Size (net.net_Mask n)).1
      && existsb (fun r => regular r && bool_decide (net.net_IP (network r) = net.net_IP n)
                  && (ones_of r =? (net.mask_Size (net.net_Mask n)).1)) specialPurposeDiscoveryRanges
  | _ => false
  end.

Lemma denied_cidrs_ok : forallb denied_record denied_cidrs = true.
Proof. vm_compute. reflexivity. Qed.

(** No record of that kind is left out. *)
Definition denied_listed (r : specialPurposeDiscoveryRange) : bool :=
  existsb (fun s => match mustCIDR s with
                    | Ok n => bool_decide (net.net_IP n = net.net_IP (network r))
                              && ((net.mask_Size (net.net_Mask n)).1 =? ones_of r)
                    | _ => false
                    end) denied_cidrs.

Lemma denied_cidrs_complete : forallb (fun r =>
  globallyReachable r || negb (regular r) || negb (avoids_reachable (net.net_IP (network r)) (ones_of r)) || denied_listed r)
  specialPurposeDiscoveryRanges = true.
Proof. vm_compute. reflexivity. Qed.

Lemma in_denied s ip :
  s ∈ denied_cidrs -> net.plain_ip ip -> in_cidr s ip -> isDisallowedDiscoveryTarget ip = true.
Proof.
  intros Hs Hp Hin. pose proof denied_cidrs_ok as H. rewrite forallb_forall in H.
  apply list_elem_of_In in Hs. specialize (H s Hs). unfold denied_record, in_cidr in *.
  destruct (mustCIDR s) as [n| |]; [|done|done].
  apply andb_true_iff in H as [Ha He]. apply existsb_exists in He as (r & Hr & He).
  rewrite !andb_true_iff in He. destruct He as [[Hreg Eip] Eo].
  apply bool_decide_eq_true in Eip. apply Z.eqb_eq in Eo. apply list_elem_of_In in Hr.
  eapply avoids_denied; [exact Ha|done|done|]. left.
  destruct (lookup_best ip _ ranges_ones) as [[_ Hn]|(r' & _ & _ & E & _)].
  - rewrite Forall_forall in Hn. specialize (Hn r Hr).
    assert (applies ip r = true) as Hap by (apply applies_member; [done|done|by rewrite Eip, Eo]).
    rewrite Hap in Hn. discriminate Hn.
  - unfold specialPurposeGloballyReachable. by rewrite E.
Qed.

(** Multicast blocks are not in the table; the category test denies them. *)
Definition multicast4 : list Z := [224;0;0;0].
Definition multicast6 : list Z := 255 :: replicate 15 0.

Lemma multicast_denied ip : net.plain_ip ip -> net.IsMulticast ip = true ->
  isDisallowedDiscoveryTarget ip = true.
Proof.
  intros Hp Hm. assert (Hc : category ip = true) by (unfold category; rewrite Hm; by rewrite !orb_true_r).
  unfold net.IsMulticast in Hm. destruct Hp as [Hb [Hi|[Hi HN]]].
  - rewrite (net.To4_length _ Hi) in Hm. destruct ip as [|a l]; [done|].
    pose proof (Forall_inv Hb) as Ha; cbv beta in Ha. pose proof (Forall_inv_tail Hb) as Hl. cbn [net.at_ nth] in Hm.
    refine (avoids_denied multicast4 4 _ _ _ _ (or_intror Hc)); [by vm_compute|split; [done|by left]|].
    split; [done|]. injection Hi as Hi.
    change (8 * Z.of_nat (length multicast4) - 4) with (8 * Z.of_nat 4 - 4).
    replace 4%nat with (S (length l)) by lia. rewrite (net.value_div_low a l 4) by (done || lia).
    rewrite Hi. change (net.value multicast4 / _) with 14.
    change 240 with (Z.land (Z.lnot (Z.shiftr 255 4)) 255) in Hm.
    rewrite (net.land_partial a 4) in Hm by lia. change (2 ^ (8 - 4)) with 16 in *. lia.
  - rewrite HN, Hi in Hm. cbn [Nat.eqb andb] in Hm. destruct ip as [|a l]; [done|].
    pose proof (Forall_inv Hb) as Ha; cbv beta in Ha. pose proof (Forall_inv_tail Hb) as Hl. cbn [net.at_ nth] in Hm.
    refine (avoids_denied multicast6 8 _ _ _ _ (or_intror Hc)); [by vm_compute|split; [done|by right]|].
    split; [done|]. injection Hi as Hi.
    change (8 * Z.of_nat (length multicast6) - 8) with (8 * Z.of_nat 16 - 8).
    destruct (net.value_div_high a l 8 Hl ltac:(lia)) as [E R]. rewrite Hi in E, R.
    rewrite E. change (net.value multicast6 / _) with 255.
    change (8 - 8) with 0 in *. change (2 ^ 0) with 1 in *. lia.
Qed.

(** C17: a dial the guard lets through goes to a parsed, unmapped IP
    address outside every denied block (loopback, RFC 1918, CGNAT, link-local
    with the metadata address, documentation, benchmarking, reserved, unique-local, ...) and
    not multicast; and when it is a NAT64 address the same holds of the IPv4
    address it translates to. *)
Theorem dial_safe address (H : blockDiscoveryDial address = Ok tt) :
  exists host port a, net.SplitHostPort address = inr (host, port)
    /\ net.ParseAddr host = inr a /\ net.Is4In6 a = false
    /\ (forall s, s ∈ denied_cidrs -> ~ in_cidr s (net.AsSlice a))
    /\ net.IsMulticast (net.AsSlice a) = false
    /\ (nat64 (net.AsSlice a) ->
         (forall s, s ∈ denied_cidrs -> ~ in_cidr s (drop 12 (net.AsSlice a)))
         /\ net.IsMulticast (drop 12 (net.AsSlice a)) = false).
Proof.
  unfold blockDiscoveryDial in H. destruct (net.SplitHostPort address) as [|[host port]]; [done|].
  destruct (net.ParseAddr host) as [|a] eqn:Ea; [done|].
  destruct (net.Is4In6 a) eqn:E4; [done|].
  destruct (isDisallowedDiscoveryTarget (net.AsSlice a)) eqn:Ed; [done|].
  pose proof (net.ParseAddr_plain _ _ Ea E4) as Hp.
  assert (Hsafe : forall ip, net.plain_ip ip -> isDisallowedDiscoveryTarget ip = false ->
    (forall s, s ∈ denied_cidrs -> ~ in_cidr s ip) /\ net.IsMulticast ip = false).
  { intros ip Hip Hno. split.
    - intros s Hs Hin. by rewrite (in_denied s ip Hs Hip Hin) in Hno.
    - destruct (net.IsMulticast ip) eqn:Em; [|done]. by rewrite (multicast_denied ip Hip Em) in Hno. }
  destruct (Hsafe _ Hp Ed) as [H1 H2]. exists host, port, a. split_and!; try done.
  intros Hn. apply Hsafe; [|by rewrite <-isDisallowed_nat64].
  apply drop12_plain; [done|]. by destruct Hn as [Hl _].
Qed.

Lemma dial_safe_witness :
  blockDiscoveryDial "[2606:4700::6810:84e5]:443" = Ok tt
  /\ exists host port a, net.SplitHostPort "[2606:4700::6810:84e5]:443" = inr (host, port)
       /\ net.ParseAddr host = inr a.
Proof.
  assert (H : blockDiscoveryDial "[2606:4700::6810:84e5]:443" = Ok tt) by (vm_compute; reflexivity).
  split; [exact H|]. destruct (dial_safe "[2606:4700::6810:84e5]:443" H) as (h & p & a & H1 & H2 & _).
  exists h, p, a. auto.
Defined.

(** Evaluates the powers of two with closed exponents in the goal. *)
Ltac pow_eval :=
  repeat match goal with
  | |- context [2 ^ ?e] => let v := eval vm_compute in (2 ^ e) in change (2 ^ e) with v
  end.

(** The first [m] bits of an IPv4 address, [m] at most 16, from its first two octets. *)
Lemma value_prefix x y z w m :
  0 <= z < 256 -> 0 <= w < 256 -> 0 <= m <= 16 ->
  net.value [x; y; z; w] / 2 ^ (32 - m) = (x * 256 + y) / 2 ^ (16 - m).
Proof.
  intros Hz Hw Hm. cbn [net.value length]. change (256 ^ Z.of_nat 3) with 16777216.
  change (256 ^ Z.of_nat 2) with 65536. change (256 ^ Z.of_nat 1) with 256. change (256 ^ Z.of_nat 0) with 1.
  replace (32 - m) with (16 + (16 - m)) by lia. rewrite Z.pow_add_r by lia.
  rewrite <-Z.div_div by lia. change (2 ^ 16) with 65536. f_equal.
  symmetry. apply Z.div_unique with (z * 256 + w); lia.
Qed.

Lemma dotted_member a b c d p0 p1 m :
  net.bytes_ok [a; b; c; d] -> 0 <= m <= 16 ->
  (a * 256 + b) / 2 ^ (16 - m) = (p0 * 256 + p1) / 2 ^ (16 - m) -> net.member [p0; p1; 0; 0] m [a; b; c; d].
Proof.
  intros Hb Hm Hq. split; [done|]. unfold net.bytes_ok in Hb. rewrite !Forall_cons in Hb.
  change (8 * Z.of_nat (length [p0; p1; 0; 0]) - m) with (32 - m).
  rewrite !value_prefix by lia. exact Hq.
Qed.

(** An address in a denied block whose prefix lies in the first two octets. *)
Lemma dotted_denied s k a b c d p0 p1 m :
  net.bytes_ok [a; b; c; d] -> denied_cidrs !! k = Some s -> 0 <= m <= 16 ->
  (forall ip, net.member [p0; p1; 0; 0] m ip -> in_cidr s ip) ->
  (a * 256 + b) / 2 ^ (16 - m) = (p0 * 256 + p1) / 2 ^ (16 - m) ->
  isDisallowedDiscoveryTarget [a; b; c; d] = true.
Proof.
  intros Hb Hs Hm Hin Hq. apply (in_denied s); [|by split; [|left]|].
  - by apply (list_elem_of_lookup_2 _ k).
  - by apply Hin, dotted_member.
Qed.

Ltac denied s k x y w :=
  apply (dotted_denied s k _ _ _ _ x y w);
  [assumption|reflexivity|lia|intros ip Hip; exact Hip|pow_eval; Z.div_mod_to_equations; lia].

Lemma classic_denied a b c d :
  net.bytes_ok [a; b; c; d] ->
  a = 0 \/ a = 10 \/ a = 127 \/ (a = 169 /\ b = 254) \/ (a = 172 /\ 16 <= b <= 31)
  \/ (a = 192 /\ b = 168) \/ (a = 100 /\ 64 <= b <= 127) \/ (a = 198 /\ 18 <= b <= 19) \/ 224 <= a ->
  isDisallowedDiscoveryTarget [a; b; c; d] = true.
Proof.
  intros Hok Hblk. assert (Hb := Hok). unfold net.bytes_ok in Hb. rewrite !Forall_cons in Hb.
  destruct Hb as (Ha & Hb & Hc & Hd & _).
  destruct Hblk as [->|[->|[->|[[-> ->]|[[-> ?]|[[-> ->]|[[-> ?]|[[-> ?]|?]]]]]]]].
  - denied "0.0.0.0/8" 0%nat 0 0 8.
  - denied "10.0.0.0/8" 1%nat 10 0 8.
  - denied "127.0.0.0/8" 3%nat 127 0 8.
  - denied "169.254.0.0/16" 4%nat 169 254 16.
  - denied "172.16.0.0/12" 5%nat 172 16 12.
  - denied "192.168.0.0/16" 9%nat 192 168 16.
  - denied "100.64.0.0/10" 2%nat 100 64 10.
  - denied "198.18.0.0/15" 10%nat 198 18 15.
  - destruct (Z.leb_spec 240 a); [denied "240.0.0.0/4" 13%nat 240 0 4|].
    apply multicast_denied; [by split; [|left]|]. unfold net.IsMulticast.
    rewrite (net.To4_length [a; b; c; d] eq_refl).
    cbn [net.at_ nth]. change 240 with (Z.land (Z.lnot (Z.shiftr 255 4)) 255).
    rewrite (net.land_partial a 4) by lia. change (2 ^ (8 - 4)) with 16.
    Z.div_mod_to_equations. lia.
Qed.

(** End to end on IPv4: for every address and every port text,
    dialling the dotted quad is refused exactly when the address is disallowed, and every
    address of the ten classic private, loopback, link-local and reserved blocks is. *)
Theorem dial_dotted a b c d port
    (Hb : net.bytes_ok [a; b; c; d])
    (Hport : net.str_all (fun c => net.not_byte ":" c && net.not_byte "[" c && net.not_byte "]" c) port = true) :
  is_ok (blockDiscoveryDial (net.dotted a b c d +:+ ":" +:+ port))
  = negb (isDisallowedDiscoveryTarget [a; b; c; d])
  /\ (a = 0 \/ a = 10 \/ a = 127 \/ (a = 169 /\ b = 254) \/ (a = 172 /\ 16 <= b <= 31)
      \/ (a = 192 /\ b = 168) \/ (a = 100 /\ 64 <= b <= 127) \/ (a = 198 /\ 18 <= b <= 19) \/ 224 <= a ->
      is_ok (blockDiscoveryDial (net.dotted a b c d +:+ ":" +:+ port)) = false).
Proof.
  assert (E : is_ok (blockDiscoveryDial (net.dotted a b c d +:+ ":" +:+ port))
              = negb (isDisallowedDiscoveryTarget [a; b; c; d])).
  { unfold blockDiscoveryDial. rewrite net.SplitHostPort_quad; [|by apply net.dotted_quad_char| |done].
    - rewrite net.ParseAddr_dotted by done. cbn [net.Is4In6 net.AsSlice].
      by destruct (isDisallowedDiscoveryTarget [a; b; c; d]).
    - unfold net.dotted. apply net.dec_Z_nonempty. by apply Forall_inv in Hb. }
  split; [exact E|]. rewrite E. intros Hblk. by rewrite classic_denied.
Qed.

Lemma dial_dotted_witness : is_ok (blockDiscoveryDial "169.254.169.254:80") = false.
Proof. apply (dial_dotted 169 254 169 254 "80"); [by apply net.forallb_bytes_ok|reflexivity|lia]. Defined.

End guard.
