(* ===== verification/Sha256.v ===== *)
(** * [crypto/sha256] and [encoding/hex]

    The digest the operator stamps on pod templates and publishes as a metric:
    SHA-256 of a byte string (FIPS 180-4), on 32-bit words, and its lower-case
    hexadecimal text. *)

From S2P Require Import Prelude.

Module sha256.

#[local] Open Scope N_scope.

(** ** Words of 32 bits *)

Definition w32 (x : N) : N := N.land x 0xffffffff.
Definition add (x y : N) : N := w32 (x + y).
Definition rotr (n x : N) : N := w32 (N.lor (N.shiftr x n) (N.shiftl x (32 - n))).
Definition xor3 (x y z : N) : N := N.lxor x (N.lxor y z).
Definition not32 (x : N) : N := N.lxor x 0xffffffff.

Definition ch (x y z : N) : N := N.lxor (N.land x y) (N.land (not32 x) z).
Definition maj (x y z : N) : N := xor3 (N.land x y) (N.land x z) (N.land y z).
Definition bsig0 (x : N) : N := xor3 (rotr 2 x) (rotr 13 x) (rotr 22 x).
Definition bsig1 (x : N) : N := xor3 (rotr 6 x) (rotr 11 x) (rotr 25 x).
Definition ssig0 (x : N) : N := xor3 (rotr 7 x) (rotr 18 x) (N.shiftr x 3).
Definition ssig1 (x : N) : N := xor3 (rotr 17 x) (rotr 19 x) (N.shiftr x 10).

(** The constants are the leading fractional bits of roots of the first primes:
    of cube roots for the rounds, of square roots for the initial value. *)
Definition is_prime (n : N) : bool :=
  forallb (fun d => negb (n mod d =? 0)) (map N.of_nat (seq 2 (N.to_nat n - 2))).

Definition primes : list N := filter (fun n => is_prime n = true) (map N.of_nat (seq 2 310)).

(** The integer cube root below 2^36, bit by bit. *)
Definition cbrt (n : N) : N :=
  fold_left (fun root k => let c := root + N.shiftl 1 (N.of_nat k) in if c * c * c <=? n then c else root)
    (rev (seq 0 36)) 0.

Definition K : list N :=
  Eval vm_compute in map (fun p => w32 (cbrt (N.shiftl p 96))) primes.

Definition H0 : list N :=
  Eval vm_compute in map (fun p => w32 (N.sqrt (N.shiftl p 64))) (take 8 primes).

(** ** Padding and blocks *)

Definition bytes_of (s : string) : list N := map N_of_ascii (String.list_ascii_of_string s).

(** Big-endian bytes of [v], [n] of them. *)
Fixpoint be_bytes (n : nat) (v : N) : list N :=
  match n with
  | O => []
  | S n' => w32 (N.land (N.shiftr v (8 * N.of_nat n')) 255) :: be_bytes n' v
  end.

Definition zeros_for (len : nat) : nat :=
  N.to_nat ((119 - N.of_nat len mod 64) mod 64).

(** The message, the bit 1, zeros up to 56 bytes modulo 64, the bit length on 8 bytes. *)
Definition pad (m : list N) : list N :=
  m ++ 128 :: replicate (zeros_for (length m)) 0 ++ be_bytes 8 (8 * N.of_nat (length m)).

Fixpoint words_of (n : nat) (m : list N) : list N :=
  match n, m with
  | S n', a :: b :: c :: d :: m' =>
      N.lor (N.shiftl a 24) (N.lor (N.shiftl b 16) (N.lor (N.shiftl c 8) d)) :: words_of n' m'
  | _, _ => []
  end.

(** ** Compression *)

(** The message schedule, latest word first, extended by [n] words. *)
Fixpoint schedule (n : nat) (rw : list N) : list N :=
  match n with
  | O => rw
  | S n' =>
      schedule n'
        (add (add (ssig1 (nth 1 rw 0)) (nth 6 rw 0)) (add (ssig0 (nth 14 rw 0)) (nth 15 rw 0)) :: rw)
  end.

Definition round (st : list N) (kw : N * N) : list N :=
  match st with
  | [a; b; c; d; e; f; g; h] =>
      let t1 := add (add h (bsig1 e)) (add (ch e f g) (add kw.1 kw.2)) in
      let t2 := add (bsig0 a) (maj a b c) in
      [add t1 t2; a; b; c; add d t1; e; f; g]
  | _ => st
  end.

Definition compress (h : list N) (block : list N) : list N :=
  let w := rev (schedule 48 (rev (words_of 16 block))) in
  zip_with add h (fold_left round (zip K w) h).

Fixpoint blocks (fuel : nat) (h m : list N) : list N :=
  match fuel, m with
  | S f, _ :: _ => blocks f (compress h (take 64 m)) (drop 64 m)
  | _, _ => h
  end.

(** [sha256.Sum256]: eight words, as 32 bytes.  A message has fewer blocks than
    padded bytes, so that is fuel enough. *)
Definition Sum256 (s : string) : list N :=
  let p := pad (bytes_of s) in
  blocks (length p) H0 p ≫= be_bytes 4.

(** ** [hex.EncodeToString] *)

Definition hexdigit (n : N) : ascii := ascii_of_N (if n <? 10 then 48 + n else 87 + n).

Fixpoint hex_encode (l : list N) : string :=
  match l with
  | [] => ""
  | b :: l' => String (hexdigit (b / 16)) (String (hexdigit (b mod 16)) (hex_encode l'))
  end.

Definition hex_digest (s : string) : string := hex_encode (Sum256 s).

Example digest_abc :
  hex_digest "abc" = "ba7816bf8f01cfea414140de5dae2223b00361a396177a9cb410ff61f20015ad".
Proof. vm_compute. reflexivity. Qed.

Example digest_two_blocks :
  hex_digest "abcdbcdecdefdefgefghfghighijhijkijkljklmklmnlmnomnopnopq"
  = "248d6a61d20638b8e5c026930c3e6039a33ce45964ff2167f6ecedd419db06c1".
Proof. vm_compute. reflexivity. Qed.

(** ** Shape of the digest *)

Lemma hex_encode_length l : String.length (hex_encode l) = (2 * length l)%nat.
Proof. induction l as [|b l IH]; [done|]. cbn [hex_encode String.length length]. rewrite IH. lia. Qed.

Lemma be_bytes_length n v : length (be_bytes n v) = n.
Proof. induction n as [|n IH]; [done|]. cbn [be_bytes length]. by rewrite IH. Qed.

Lemma schedule_length n rw : length (schedule n rw) = (n + length rw)%nat.
Proof. revert rw. induction n as [|n IH]; intros rw; [done|]. cbn [schedule]. rewrite IH. cbn [length]. lia. Qed.

Lemma round_length st kw : length st = 8%nat -> length (round st kw) = 8%nat.
Proof. by destruct st as [|? [|? [|? [|? [|? [|? [|? [|? [|? ?]]]]]]]]]. Qed.

Lemma rounds_length l st : length st = 8%nat -> length (fold_left round l st) = 8%nat.
Proof. revert st. induction l as [|x l IH]; intros st Hs; [done|]. by apply IH, round_length. Qed.

Lemma blocks_length fuel h m : length h = 8%nat -> length (blocks fuel h m) = 8%nat.
Proof.
  revert h m. induction fuel as [|f IH]; intros h [|x m] Hh; try done. apply IH.
  unfold compress. rewrite length_zip_with, rounds_length by done. lia.
Qed.

(** A digest has 64 hexadecimal characters. *)
Lemma hex_digest_length s : String.length (hex_digest s) = 64%nat.
Proof.
  unfold hex_digest, Sum256. rewrite hex_encode_length.
  pose proof (blocks_length (length (pad (bytes_of s))) H0 (pad (bytes_of s)) eq_refl) as Hb.
  revert Hb. generalize (blocks (length (pad (bytes_of s))) H0 (pad (bytes_of s))). intros l Hl.
  assert (Hlen : forall l : list N, length (l ≫= be_bytes 4) = (4 * length l)%nat).
  { induction l0 as [|w l0 IH]; [done|]. rewrite bind_cons, length_app, be_bytes_length, IH. cbn [length]. lia. }
  rewrite Hlen, Hl. done.
Qed.

(** Its characters are the digits and the letters from a to f. *)
Definition lower_hex (c : ascii) : bool :=
  is_digit c || ((97 <=? N_of_ascii c) && (N_of_ascii c <=? 102)).

Lemma hexdigit_lower n : n < 16 -> lower_hex (hexdigit n) = true.
Proof.
  intros Hn. unfold hexdigit, lower_hex, is_digit. destruct (N.ltb_spec n 10);
    rewrite N_ascii_embedding by lia; apply orb_true_iff; [left|right];
    apply andb_true_iff; split; apply N.leb_le; lia.
Qed.

Lemma be_bytes_bound n v : Forall (fun b => b < 256) (be_bytes n v).
Proof.
  induction n as [|n IH]; cbn [be_bytes]; constructor; [|done]. unfold w32.
  change 255 with (N.ones 8). change 0xffffffff with (N.ones 32). rewrite !N.land_ones.
  eapply N.le_lt_trans; [apply N.Div0.mod_le|]. by apply N.mod_lt.
Qed.

Lemma hex_encode_lower l : Forall (fun b => b < 256) l ->
  Forall (fun c => lower_hex c = true) (String.list_ascii_of_string (hex_encode l)).
Proof.
  induction 1 as [|b l Hb Hl IH]; cbn; [constructor|].
  repeat constructor; [..|exact IH]; apply hexdigit_lower.
  - by apply N.Div0.div_lt_upper_bound.
  - by apply N.mod_lt.
Qed.

Lemma hex_digest_lower s : Forall (fun c => lower_hex c = true) (String.list_ascii_of_string (hex_digest s)).
Proof.
  apply hex_encode_lower. unfold Sum256. generalize (blocks (length (pad (bytes_of s))) H0 (pad (bytes_of s))).
  intros l. induction l as [|w l IH]; [constructor|]. rewrite bind_cons. apply Forall_app. split; [|exact IH].
  apply be_bytes_bound.
Qed.

End sha256.
