(* ===== verification/Env.v ===== *)
(** * The world the controller acts on

    Everything outside the process is behind the class [Env]: the API server
    (through the cached client and the uncached reader), the network, the
    clock, and the two controller-runtime conversions used by apply.  A world
    of type [W] is threaded through every call, so two reads may
    differ.  [EnvLaws] states what the operator relies on. *)

From S2P Require Import Prelude Kube ConfigTypes.

(** The result of [client.Get]: [apierrors.IsNotFound] tells the two errors apart. *)
Inductive GetResult (A : Type) :=
| Found (a : A)
| NotFound
| GetError (e : error).
Arguments Found {A} _.
Arguments NotFound {A}.
Arguments GetError {A} _.

(** The error value of a failed read. *)
Definition get_err {A} (r : GetResult A) : option error :=
  match r with
  | Found _ => None
  | NotFound => Some (External "not found")
  | GetError e => Some e
  end.

(** [r.Client] reads through the manager cache; [r.APIReader] does not. *)
Inductive Reader := CachedClient | APIReader.

(** ** HTTP *)

(** An [http.Client]: the dialer's control hook, the error of its redirect
    policy, and its timeout in seconds.  [None] is Go's default. *)
Record Client := mkClient {
  Control : option (string -> outcome unit);
  CheckRedirect : option error;
  Timeout : option Z }.

(** An [http.Request] without a body: the method, the URL's text and the headers set. *)
Record Request := mkRequest {
  Method : string; req_URL : string; Header : list (string * string) }.

(** A response: the status code, the bytes the body yields, and the error that
    ends the stream, if it does not end in EOF. *)
Record Response := mkResponse {
  StatusCode : Z; BodyText : string; BodyErr : option error }.

(** [io.ReadAll(io.LimitReader(resp.Body, limit))]. *)
Definition read_limited (limit : nat) (r : Response) : error + string :=
  match BodyErr r with
  | Some e =>
      if (String.length (BodyText r) <? limit)%nat then inl e
      else inr (take_string limit (BodyText r))
  | None => inr (take_string limit (BodyText r))
  end.

(** ** The environment *)

Class Env (W : Type) := {
  Unstructured : Type;
  env_Now : ST W Z;
  get_HyperFleetConfig (name : string) : ST W (GetResult HyperFleetConfig);
  get_Secret (namespace name : string) : ST W (GetResult Secret);
  get_Deployment (namespace name : string) : ST W (GetResult Deployment);
  get_Object (r : Reader) (o : Object) : ST W (GetResult Object);
  SetControllerReference (owner : HyperFleetConfig) (o : Object) : error + Object;
  ToUnstructured (o : Object) : error + Unstructured;
  client_Apply (u : Unstructured) (fieldOwner : string) (force : bool) : ST W (option error);
  status_Update (cr : HyperFleetConfig) : ST W (option error);
  http_Do (c : Client) (req : Request) : ST W (error + Response);
}.

(** Reading an object back fills the same Go object: its type, name and namespace
    stay; setting the owner reference touches nothing else. *)
Class EnvLaws (W : Type) `{!Env W} := {
  get_Object_same r o w o' w' :
    get_Object r o w = (Found o', w') ->
    obj_type o' = obj_type o /\ obj_Name o' = obj_Name o /\ obj_Namespace o' = obj_Namespace o;
  SetControllerReference_same cr o o' :
    SetControllerReference cr o = inr o' ->
    obj_type o' = obj_type o /\ obj_Name o' = obj_Name o /\ obj_Namespace o' = obj_Namespace o;
}.

(** ** Logging the calls

    Any environment can be run with a log of the calls that go through it; the
    statements about which calls are made, and in which order, are about this
    log.  [CGetObject] records the object asked for, [CApply] what was sent. *)
Inductive Call (U : Type) :=
| CGetConfig (name : string)
| CGetSecret (namespace name : string)
| CGetDeployment (namespace name : string)
| CGetObject (r : Reader) (o : Object)
| CApply (u : U) (fieldOwner : string) (force : bool)
| CStatusUpdate (cr : HyperFleetConfig)
| CHTTP (c : Client) (req : Request).
Arguments CGetConfig {U} _.
Arguments CGetSecret {U} _ _.
Arguments CGetDeployment {U} _ _.
Arguments CGetObject {U} _ _.
Arguments CApply {U} _ _ _.
Arguments CStatusUpdate {U} _.
Arguments CHTTP {U} _ _.

(** Runs a call of the inner world and appends [c] to the log. *)
Definition log_call {W U A} (c : Call U) (m : ST W A) : ST (W * list (Call U)) A :=
  fun s => let '(a, w) := m s.1 in (a, (w, s.2 ++ [c])).

Definition logged_Env {W} (E : Env W) : Env (W * list (Call Unstructured)) := {|
  Unstructured := Unstructured;
  env_Now := fun s => let '(t, w) := env_Now s.1 in (t, (w, s.2));
  get_HyperFleetConfig name := log_call (CGetConfig name) (get_HyperFleetConfig name);
  get_Secret ns name := log_call (CGetSecret ns name) (get_Secret ns name);
  get_Deployment ns name := log_call (CGetDeployment ns name) (get_Deployment ns name);
  get_Object r o := log_call (CGetObject r o) (get_Object r o);
  SetControllerReference := SetControllerReference;
  ToUnstructured := ToUnstructured;
  client_Apply u owner force := log_call (CApply u owner force) (client_Apply u owner force);
  status_Update cr := log_call (CStatusUpdate cr) (status_Update cr);
  http_Do c req := log_call (CHTTP c req) (http_Do c req) |}.
