(* ===== verification/ConfigHash.v ===== *)
(** * The rollout hash ([internal/controller/hyperfleetconfig_rollout.go])

    Module [rollout] models [hashEntry], [resolveSecretEntries],
    [computeConfigHash] and [stampConfigHash].  The hash is SHA-256 of a
    preimage, so what a theorem can say about collisions is said of the
    preimage: it determines the configuration text and every entry. *)

From S2P Require Import Prelude Kube ConfigTypes Json Contract Api Env Sha256.

Module rollout.

Definition configHashAnnotation : string := "hyperfleet.redhat.com/config-hash".

Record hashEntry := mkHashEntry { he_id : string; present : bool; he_value : string }.

#[global] Instance hashEntry_eq_dec : EqDecision hashEntry.
Proof. solve_decision. Defined.

(** ** Reading the referenced Secrets *)

Section secrets.
Context {W : Type} `{!Env W} (OperatorNamespace : string).

Fixpoint resolveSecretEntries (refs : list SecretReference) : ST W (outcome (list hashEntry)) :=
  match refs with
  | [] => st_ret (Ok [])
  | ref :: rest =>
      (let! s := get_Secret OperatorNamespace (SecretName ref) in
       match s with
       | GetError err => st_ret (Fail (Wrapf "get secret %q: %w" [SecretName ref] err))
       | NotFound =>
           let!? l := resolveSecretEntries rest in
           st_ret (Ok (mkHashEntry (sr_Role ref) false "" :: l))
       | Found s =>
           let!? l := resolveSecretEntries rest in
           st_ret (Ok (mkHashEntry (sr_Role ref) true (secret_ResourceVersion s) :: l))
       end)%st
  end.

End secrets.

(** ** The digest *)

(** [writeField]: length, colon, bytes, NUL. *)
Definition writeField (b : string) : string :=
  dec_N (N.of_nat (String.length b)) +:+ ":" +:+ b +:+ nul.

(** What the loop writes for one entry. *)
Definition writeEntry (e : hashEntry) : string :=
  writeField (he_id e) +:+
  (if present e then String "001" (writeField (he_value e)) else nul).

Fixpoint writeEntries (l : list hashEntry) : string :=
  match l with [] => "" | e :: l' => writeEntry e +:+ writeEntries l' end.

(** Everything written to the hash. *)
Definition preimage (configYAML : string) (entries : list hashEntry) : string :=
  writeField configYAML +:+ writeEntries (SortBy he_id entries).

Definition computeConfigHash (configYAML : string) (entries : list hashEntry) : string :=
  sha256.hex_digest (preimage configYAML entries).

(** ** Stamping *)

(** The texts the first loop of [stampConfigHash] collects. *)
Definition config_texts (target : RolloutTarget) (objs : list Object) : list string :=
  ConfigEntries target ≫= fun entry =>
    match find_configmap (ConfigMapName entry) objs with
    | Some cm => [default "" (cm_Data cm !! ConfigFileKey entry)]
    | None => []
    end.

Definition with_template_annotation (k v : string) (d : Deployment) : Deployment :=
  let t := Template (dep_Spec d) in
  with_template d (with_template_annotations t (Some (<[k := v]> (default ∅ (tpl_Annotations t))))).

Definition stamp_one (target : RolloutTarget) (hash : string) (o : Object) : Object :=
  match o with
  | ODeployment d =>
      if String.eqb (dep_Name d) (DeploymentName target)
      then ODeployment (with_template_annotation configHashAnnotation hash d)
      else o
  | _ => o
  end.

(** The hash, and the objects as the second loop leaves them. *)
Definition stampConfigHash (objs : list Object) (target : RolloutTarget) (entries : list hashEntry) :
    string * list Object :=
  let hash := computeConfigHash (JoinStrings (config_texts target objs) nul) entries in
  (hash, map (stamp_one target hash) objs).

(** ** The preimage determines its fields *)

Definition all_digits (s : string) : Prop :=
  Forall (fun c => is_digit c = true) (String.list_ascii_of_string s).

(** A run of digits before a colon is determined by the text. *)
Lemma digits_colon d1 d2 r1 r2 :
  all_digits d1 -> all_digits d2 -> d1 +:+ ":" +:+ r1 = d2 +:+ ":" +:+ r2 -> d1 = d2 /\ r1 = r2.
Proof.
  unfold all_digits. revert d2. induction d1 as [|c d1 IH]; intros [|c' d2] H1 H2 E.
  - injection E as E. split; [done|exact E].
  - injection E as <- E. by apply Forall_cons in H2 as [? _].
  - injection E as -> E. by apply Forall_cons in H1 as [? _].
  - rewrite !string_app_cons in E. injection E as <- E.
    apply Forall_cons in H1 as [_ H1]. apply Forall_cons in H2 as [_ H2].
    by destruct (IH d2 H1 H2 E) as [-> ->].
Qed.

(** A field can be read back off the front of a text. *)
Lemma writeField_inj b1 b2 r1 r2 :
  writeField b1 +:+ r1 = writeField b2 +:+ r2 -> b1 = b2 /\ r1 = r2.
Proof.
  unfold writeField. rewrite !string_app_assoc. intros E.
  apply digits_colon in E as [En E]; [|apply dec_N_digits..].
  apply dec_N_inj in En. apply string_app_inj_l in E as [-> E]; [|lia].
  split; [done|]. injection E as E. exact E.
Qed.

(** What an entry contributes: an absent one has no value. *)
Definition canon (e : hashEntry) : hashEntry :=
  if present e then e else mkHashEntry (he_id e) false "".

Lemma writeEntry_inj e1 e2 r1 r2 :
  writeEntry e1 +:+ r1 = writeEntry e2 +:+ r2 -> canon e1 = canon e2 /\ r1 = r2.
Proof.
  unfold writeEntry, canon. rewrite !string_app_assoc. intros E.
  apply writeField_inj in E as [Ei E].
  destruct e1 as [i1 p1 v1], e2 as [i2 p2 v2]; simpl in *; subst i2.
  destruct p1, p2; try discriminate E.
  - rewrite !string_app_cons in E. injection E as E. by apply writeField_inj in E as [-> ->].
  - injection E as E. split; [done|exact E].
Qed.

Lemma writeEntries_inj l1 l2 : writeEntries l1 = writeEntries l2 -> map canon l1 = map canon l2.
Proof.
  assert (Hne : forall e r, writeEntry e +:+ r <> "").
  { intros e r. unfold writeEntry, writeField. rewrite !string_app_assoc.
    destruct (dec_N _); discriminate. }
  revert l2. induction l1 as [|e1 l1 IH]; intros [|e2 l2] E; simpl in E; [done|..].
  - by destruct (Hne e2 (writeEntries l2)).
  - by destruct (Hne e1 (writeEntries l1)).
  - apply writeEntry_inj in E as [Ee E]. simpl. by rewrite Ee, (IH l2 E).
Qed.

Lemma canon_id e : he_id (canon e) = he_id e.
Proof. unfold canon. by destruct (present e). Qed.

(** C18: the bytes fed to SHA-256 determine the configuration text and
    the referenced Secrets: which entries there are, whether each is present,
    and its resource version; so a change of any of them changes the preimage,
    and an absent Secret never looks like a present one. *)
Theorem preimage_injective y1 y2 e1 e2 :
  preimage y1 e1 = preimage y2 e2 -> y1 = y2 /\ map canon e1 ≡ₚ map canon e2.
Proof.
  unfold preimage. intros E. apply writeField_inj in E as [-> E]. split; [done|].
  apply writeEntries_inj in E. rewrite <-(SortBy_perm he_id e1), <-(SortBy_perm he_id e2), E. done.
Qed.

Lemma preimage_injective_witness :
  preimage "a" [mkHashEntry "tls" true "7"; mkHashEntry "database" false ""]
  = preimage "a" [mkHashEntry "database" false ""; mkHashEntry "tls" true "7"]
  /\ map canon [mkHashEntry "tls" true "7"; mkHashEntry "database" false ""]
     ≡ₚ map canon [mkHashEntry "database" false ""; mkHashEntry "tls" true "7"].
Proof.
  split; [reflexivity|].
  apply (preimage_injective "a" "a" [mkHashEntry "tls" true "7"; mkHashEntry "database" false ""]
           [mkHashEntry "database" false ""; mkHashEntry "tls" true "7"]). reflexivity.
Defined.

Lemma JoinStrings_cons x y l sep :
  JoinStrings (x :: y :: l) sep = x +:+ sep +:+ JoinStrings (y :: l) sep.
Proof. done. Qed.

(** Texts without NUL are recovered from their NUL-separated concatenation. *)
Definition no_nul (s : string) : Prop :=
  Forall (fun c => c <> "000"%char) (String.list_ascii_of_string s).

Lemma no_nul_split a b r1 r2 :
  no_nul a -> no_nul b -> a +:+ nul +:+ r1 = b +:+ nul +:+ r2 -> a = b /\ r1 = r2.
Proof.
  unfold no_nul. revert b. induction a as [|c a IH]; intros [|c' b] Ha Hb E.
  - injection E as E. split; [done|exact E].
  - injection E as <- E. by apply Forall_cons in Hb as [? _].
  - injection E as -> E. by apply Forall_cons in Ha as [? _].
  - rewrite !string_app_cons in E. injection E as <- E. apply Forall_cons in Ha as [_ Ha].
    apply Forall_cons in Hb as [_ Hb]. by destruct (IH b Ha Hb E) as [-> ->].
Qed.

Lemma JoinStrings_inj l1 l2 :
  length l1 = length l2 -> Forall no_nul l1 -> Forall no_nul l2 ->
  JoinStrings l1 nul = JoinStrings l2 nul -> l1 = l2.
Proof.
  revert l2. induction l1 as [|a l1 IH]; intros [|b l2] Hl H1 H2 E; simpl in Hl; try lia; [done|].
  apply Forall_cons in H1 as [Ha H1]. apply Forall_cons in H2 as [Hb H2].
  destruct l1 as [|a' l1], l2 as [|b' l2]; simpl in Hl; try lia; [by simpl in E; subst|].
  rewrite !JoinStrings_cons in E. apply no_nul_split in E as [-> E]; [|done..].
  f_equal. apply IH; [simpl; lia|done|done|exact E].
Qed.

(** The hash does not depend on the order in which the Secrets
    were listed, as long as their roles are distinct. *)
Theorem hash_order_independent y e1 e2 (Hnd : NoDup (he_id <$> e1)) (Hp : e1 ≡ₚ e2) :
  computeConfigHash y e1 = computeConfigHash y e2.
Proof. unfold computeConfigHash, preimage. by rewrite (SortBy_perm_eq he_id e1 e2). Qed.

Lemma hash_order_independent_witness :
  computeConfigHash "a" [mkHashEntry "tls" true "7"; mkHashEntry "database" true "9"]
  = computeConfigHash "a" [mkHashEntry "database" true "9"; mkHashEntry "tls" true "7"].
Proof.
  apply (hash_order_independent "a" [mkHashEntry "tls" true "7"; mkHashEntry "database" true "9"]
    [mkHashEntry "database" true "9"; mkHashEntry "tls" true "7"]).
  - repeat (apply NoDup_cons; split; [set_solver|]). by apply NoDup_nil.
  - apply perm_swap.
Defined.

(** ** What stamping does to the objects *)

Lemma stamp_one_same target hash o :
  obj_type (stamp_one target hash o) = obj_type o /\ obj_Name (stamp_one target hash o) = obj_Name o
  /\ obj_Namespace (stamp_one target hash o) = obj_Namespace o.
Proof. destruct o; simpl; try done. by case_match. Qed.

Lemma stamp_names target hash objs :
  dep_Name <$> deployments (map (stamp_one target hash) objs) = dep_Name <$> deployments objs.
Proof.
  unfold deployments. induction objs as [|o objs IH]; [done|]. cbn [map].
  destruct o; cbn; try exact IH. destruct (String.eqb _ _); cbn; by rewrite IH.
Qed.

Lemma find_configmap_stamp target hash n objs :
  find_configmap n (map (stamp_one target hash) objs) = find_configmap n objs.
Proof.
  induction objs as [|o objs IH]; [done|]. cbn [map].
  destruct o; cbn; try exact IH; [by destruct (String.eqb _ _)|]. by rewrite IH.
Qed.

Lemma config_texts_stamp target hash objs :
  config_texts target (map (stamp_one target hash) objs) = config_texts target objs.
Proof.
  unfold config_texts. induction (ConfigEntries target) as [|e l IH]; [done|].
  by rewrite !bind_cons, find_configmap_stamp, IH.
Qed.

(** The texts of a rendered component: one per entry, each rendered. *)
Lemma config_texts_rendered objs target :
  Forall (entry_rendered objs) (ConfigEntries target) ->
  length (config_texts target objs) = length (ConfigEntries target).
Proof.
  unfold config_texts. induction 1 as [|e l (cm & Hcm & _) _ IH]; [done|].
  rewrite bind_cons, length_app, IH, Hcm. done.
Qed.

(** Stamping writes the hash on the target Deployment's pod template,
    keeps its other annotations and fields, leaves every other object alone,
    and is idempotent: the stamped objects have the same hash. *)
Theorem stampConfigHash_spec objs target entries :
  let '(hash, objs') := stampConfigHash objs target entries in
  Forall2 (fun o o' =>
      match o with
      | ODeployment d =>
          if String.eqb (dep_Name d) (DeploymentName target)
          then exists d', o' = ODeployment d' /\ dep_Meta d' = dep_Meta d
               /\ tpl_Spec (Template (dep_Spec d')) = tpl_Spec (Template (dep_Spec d))
               /\ forall k, map_get (tpl_Annotations (Template (dep_Spec d'))) k
                    = if String.eqb k configHashAnnotation then hash
                      else map_get (tpl_Annotations (Template (dep_Spec d))) k
          else o' = o
      | _ => o' = o
      end) objs objs'
  /\ stampConfigHash objs' target entries = (hash, objs').
Proof.
  unfold stampConfigHash. set (hash := computeConfigHash _ _). split.
  - clearbody hash.
    induction objs as [|o l IH]; cbn [map]; [constructor|constructor; [|exact IH]].
    destruct o; cbn; try done. destruct (String.eqb (dep_Name d) (DeploymentName target)); [|done].
    eexists. split_and!; [done..|]. intros k. cbn. unfold map_get. cbn.
    destruct (String.eqb_spec k configHashAnnotation) as [->|Hne].
    + by rewrite lookup_insert_eq.
    + rewrite lookup_insert_ne by done. by destruct (tpl_Annotations _).
  - rewrite config_texts_stamp. fold hash. f_equal. rewrite map_map. apply map_ext.
    intros o. destruct o; cbn; try done.
    destruct (String.eqb (dep_Name d) (DeploymentName target)) eqn:E; cbn; [|by rewrite E].
    replace (dep_Name (with_template_annotation configHashAnnotation hash d)) with (dep_Name d) by done.
    rewrite E. unfold with_template_annotation, with_template, with_template_annotations. cbn.
    by rewrite insert_insert_eq.
Qed.

(** For two renderings of components with one rollout target, if
    the hashed bytes agree then every hashed ConfigMap text and every Secret
    entry agrees (YAML text contains no NUL): no change goes unnoticed. *)
Theorem stamp_detects_changes `{!IsComponent C} `{!ComponentContract C}
    (c1 c2 : C) cr1 cr2 objs1 objs2 e1 e2
    (H1 : cRender c1 cr1 = Ok objs1) (H2 : cRender c2 cr2 = Ok objs2)
    (Ht : cRollout c1 = cRollout c2)
    (Hy1 : Forall no_nul (config_texts (cRollout c1) objs1))
    (Hy2 : Forall no_nul (config_texts (cRollout c2) objs2))
    (E : preimage (JoinStrings (config_texts (cRollout c1) objs1) nul) e1
         = preimage (JoinStrings (config_texts (cRollout c2) objs2) nul) e2) :
  config_texts (cRollout c1) objs1 = config_texts (cRollout c2) objs2
  /\ map canon e1 ≡ₚ map canon e2.
Proof.
  unfold preimage in E. apply writeField_inj in E as [Ey Ee].
  apply writeEntries_inj in Ee. split.
  - apply JoinStrings_inj; [|done|done|done].
    rewrite !config_texts_rendered by (eapply entries_law; eassumption). by rewrite Ht.
  - rewrite <-(SortBy_perm he_id e1), <-(SortBy_perm he_id e2), Ee. done.
Qed.

Lemma stamp_detects_changes_witness :
  let c := api.New "" "hf" [] in
  let cr := api.demo_cr (mkAuthSpec (Some false) "" "" None) None in
  exists objs, api.Render (H := api.toy_yaml) c cr = Ok objs
    /\ config_texts (api.Rollout c) objs = config_texts (api.Rollout c) objs
    /\ map canon [mkHashEntry "tls" true "7"; mkHashEntry "database" true "9"]
       ≡ₚ map canon [mkHashEntry "database" true "9"; mkHashEntry "tls" true "7"].
Proof.
  intros c cr. destruct (api.Render (H := api.toy_yaml) c cr) as [objs| |] eqn:E; [|discriminate E..].
  exists objs. split; [done|].
  assert (Hn : Forall no_nul (config_texts (api.Rollout c) objs)).
  { injection E as <-. repeat constructor; discriminate. }
  apply (@stamp_detects_changes _ (@api.api_IsComponent api.toy_yaml) (@api.api_contract api.toy_yaml) c c cr cr objs objs
    [mkHashEntry "tls" true "7"; mkHashEntry "database" true "9"]
    [mkHashEntry "database" true "9"; mkHashEntry "tls" true "7"] E E eq_refl Hn Hn).
  unfold preimage. f_equal.
Defined.

End rollout.
