(* ===== verification/Version.v ===== *)
(** * Build identity ([internal/version/version.go])

    The two linker-injected variables and the build information the Go runtime
    reports are arguments. *)

From S2P Require Import Prelude.

Module version.

(** The fields of [debug.BuildInfo] that are read; settings are key-value pairs. *)
Record BuildInfo := mkBuildInfo { Main_Version : string; Settings : list (string * string) }.

Section accessors.
Context (version commit : string) (ReadBuildInfo : option BuildInfo) (runtime_Version : string).

Definition Version : string :=
  if negb (String.eqb version "") then version
  else match ReadBuildInfo with
       | Some info =>
           if negb (String.eqb (Main_Version info) "") && negb (String.eqb (Main_Version info) "(devel)")
           then Main_Version info else "dev"
       | None => "dev"
       end.

Definition shortSHA (sha : string) : string :=
  if (7 <? String.length sha)%nat then take_string 7 sha else sha.

Fixpoint vcs_revision (settings : list (string * string)) : option string :=
  match settings with
  | [] => None
  | (k, v) :: rest => if String.eqb k "vcs.revision" then Some v else vcs_revision rest
  end.

Definition Commit : string :=
  if negb (String.eqb commit "") then shortSHA commit
  else match ReadBuildInfo with
       | Some info =>
           match vcs_revision (Settings info) with
           | Some rev => shortSHA rev
           | None => "unknown"
           end
       | None => "unknown"
       end.

Definition GoVersion : string := runtime_Version.

Lemma take_string_length n s : (String.length (take_string n s) <= n)%nat.
Proof.
  unfold take_string. revert s. induction n as [|n IH]; intros [|c s]; simpl; try lia.
  specialize (IH s). lia.
Qed.

Lemma shortSHA_length sha : (String.length (shortSHA sha) <= 7)%nat.
Proof.
  unfold shortSHA. destruct (Nat.ltb_spec 7 (String.length sha)); [apply take_string_length|lia].
Qed.

(** Whatever the build injected or recorded, the version is never
    empty and the commit has at most seven characters. *)
Theorem identity_shape : Version <> "" /\ (String.length Commit <= 7)%nat.
Proof.
  split.
  - unfold Version. destruct (String.eqb_spec version ""); [|done].
    destruct ReadBuildInfo as [i|]; [|done]. destruct (String.eqb_spec (Main_Version i) ""); [done|].
    by destruct (String.eqb (Main_Version i) "(devel)").
  - unfold Commit. repeat case_match; try apply shortSHA_length; simpl; lia.
Qed.

End accessors.
End version.
