(* ===== verification/Metrics.v ===== *)
(** * Metrics ([internal/metrics/metrics.go])

    The collectors are process-wide state: a histogram is the list of its
    observations (newest first), a counter or gauge vector a finite map from
    label values.  What the collectors are registered with (names, label names, const
    labels, buckets) is a table; help texts are left out. *)

From S2P Require Import Prelude.

Module metrics.

Definition namespace : string := "hyperfleet".
Definition subsystem : string := "operator".
Definition Component : string := "operator".

Definition TriggerCreate : string := "create".
Definition TriggerImage : string := "image".
Definition TriggerConfig : string := "config".

Record Metrics := mkMetrics {
  ReconcileDuration : list Z;
  ReconcileErrors : gmap string N;
  OperandReady : gmap string Z;
  OperandRollouts : gmap (string * string) N;
  AppliedConfig : gmap string Z;
  buildInfo : gmap (string * string) Z;
  up : Z }.

Definition zeroMetrics : Metrics := mkMetrics [] ∅ ∅ ∅ ∅ ∅ 0.

(** ** Registration *)

(** The const labels of every collector, with the version of the build. *)
Definition commonLabels (version : string) : list (string * string) :=
  [("component", Component); ("version", version)].

(** The upper bounds of the histogram's buckets, in milliseconds (the code writes
    seconds). *)
Definition reconcileBuckets : list Z := [5; 10; 25; 50; 100; 250; 500; 1000; 2500; 5000; 10000]%Z.

(** The options of a collector: its name, its variable labels and, for the
    histogram, its buckets. *)
Record CollectorOpts := mkOpts { o_Name : string; o_labels : list string; o_Buckets : option (list Z) }.

Definition collectors : list CollectorOpts :=
  [mkOpts "reconcile_duration_seconds" [] (Some reconcileBuckets);
   mkOpts "reconcile_errors_total" ["reason"] None;
   mkOpts "operand_ready" ["operand"] None;
   mkOpts "operand_rollouts_total" ["operand"; "trigger"] None;
   mkOpts "applied_config_info" ["hash"] None;
   mkOpts "build_info" ["commit"; "go_version"] None;
   mkOpts "up" [] None].

(** [c.WithLabelValues(k).Inc()]. *)
Definition inc `{Countable K} (k : K) (m : gmap K N) : gmap K N := <[k := (default 0 (m !! k) + 1)%N]> m.

(** [hyperfleet_operator_<name>]: the name a collector is exported under. *)
Definition full_name (name : string) : string := namespace +:+ "_" +:+ subsystem +:+ "_" +:+ name.

Definition Init (commit go_version : string) (m : Metrics) : Metrics :=
  mkMetrics (ReconcileDuration m) (ReconcileErrors m) (OperandReady m) (OperandRollouts m)
    (AppliedConfig m) (<[(commit, go_version) := 1%Z]> (buildInfo m)) 1.

Definition ObserveReconcile (d : Z) (m : Metrics) : Metrics :=
  mkMetrics (d :: ReconcileDuration m) (ReconcileErrors m) (OperandReady m) (OperandRollouts m)
    (AppliedConfig m) (buildInfo m) (up m).

Definition IncReconcileError (reason : string) (m : Metrics) : Metrics :=
  mkMetrics (ReconcileDuration m) (inc reason (ReconcileErrors m)) (OperandReady m)
    (OperandRollouts m) (AppliedConfig m) (buildInfo m) (up m).

Definition SetOperandReady (operand : string) (ready : bool) (m : Metrics) : Metrics :=
  mkMetrics (ReconcileDuration m) (ReconcileErrors m)
    (<[operand := if ready then 1%Z else 0%Z]> (OperandReady m))
    (OperandRollouts m) (AppliedConfig m) (buildInfo m) (up m).

Definition IncOperandRollout (operand trigger : string) (m : Metrics) : Metrics :=
  mkMetrics (ReconcileDuration m) (ReconcileErrors m) (OperandReady m)
    (inc (operand, trigger) (OperandRollouts m)) (AppliedConfig m) (buildInfo m) (up m).

(** [AppliedConfig.Reset()] and then the one series. *)
Definition SetAppliedConfigHash (hash : string) (m : Metrics) : Metrics :=
  mkMetrics (ReconcileDuration m) (ReconcileErrors m) (OperandReady m) (OperandRollouts m)
    (<[hash := 1%Z]> ∅) (buildInfo m) (up m).

(** What Prometheus checks of one collector, panicking when it fails: label names,
    const and variable, are distinct identifiers, a histogram has no label [le],
    and its buckets increase. *)
Definition name_char (c : ascii) : bool :=
  let n := N_of_ascii c in ((97 <=? n) && (n <=? 122))%N || (n =? 95)%N.
Definition identifier (s : string) : bool :=
  negb (String.eqb s "") && forallb name_char (String.list_ascii_of_string s).

Definition registrable (version : string) (o : CollectorOpts) : Prop :=
  let names := (commonLabels version).*1 ++ o_labels o in
  identifier (full_name (o_Name o)) = true /\ Forall (fun l => identifier l = true) names /\ NoDup names
  /\ match o_Buckets o with
     | Some buckets => ("le" ∉ names) /\ StronglySorted Z.lt buckets
     | None => True
     end.

(** Registering the collectors does not panic: each passes Prometheus's checks,
    and no two have one name. *)
Theorem collectors_registrable version :
  Forall (registrable version) collectors /\ NoDup ((fun o => full_name (o_Name o)) <$> collectors).
Proof.
  split; [|by apply (bool_decide_unpack _)].
  assert (Hs : StronglySorted Z.lt reconcileBuckets) by (repeat constructor).
  repeat constructor; cbn; by apply (bool_decide_unpack _).
Qed.

(** The total of a counter vector. *)
Definition total `{Countable K} (m : gmap K N) : N := map_fold (fun _ n acc => (n + acc)%N) 0%N m.

Lemma total_inc `{Countable K} (k : K) (m : gmap K N) : total (inc k m) = (total m + 1)%N.
Proof.
  unfold total, inc.
  assert (Hins : forall (m : gmap K N) x, m !! k = None ->
    map_fold (fun _ n acc => (n + acc)%N) 0%N (<[k := x]> m)
    = (x + map_fold (fun _ n acc => (n + acc)%N) 0%N m)%N).
  { intros m' x Hm. rewrite map_fold_insert_L; [done| |done]. intros. lia. }
  destruct (m !! k) as [n|] eqn:E; simpl; [|rewrite Hins by done; lia].
  rewrite <-insert_delete_eq, Hins by apply lookup_delete_eq.
  rewrite <-(insert_delete_id m k n E) at 2. rewrite Hins by apply lookup_delete_eq. lia.
Qed.

(** Recording is local: each helper changes its own collector only;
    an error or rollout raises its counter, and the total, by one; and after
    any update the applied-config gauge has exactly one series. *)
Theorem helpers_spec m reason operand trigger hash ready :
  total (ReconcileErrors (IncReconcileError reason m)) = (total (ReconcileErrors m) + 1)%N
  /\ total (OperandRollouts (IncOperandRollout operand trigger m)) = (total (OperandRollouts m) + 1)%N
  /\ OperandRollouts (IncReconcileError reason m) = OperandRollouts m
  /\ ReconcileErrors (IncOperandRollout operand trigger m) = ReconcileErrors m
  /\ OperandReady (SetOperandReady operand ready m) !! operand = Some (if ready then 1 else 0)%Z
  /\ AppliedConfig (SetAppliedConfigHash hash m) = {[hash := 1%Z]}
  /\ ReconcileErrors (SetAppliedConfigHash hash m) = ReconcileErrors m.
Proof.
  split_and!; try done; [apply total_inc|apply total_inc|]. cbn. by rewrite lookup_insert_eq.
Qed.

End metrics.
