(* ===== verification/State.v ===== *)
(** * The state a reconcile runs in

    The world (the cluster, the network, the clock), the two mutable fields of
    [HyperFleetConfigReconciler] (the lazily built discovery client and the
    discovery cache) and the process's metrics. *)

From S2P Require Import Prelude Kube ConfigTypes Env Metrics.
Import metrics.

Record RState (W : Type) := mkRState {
  rs_world : W;
  rs_discoveryClient : option Client;
  rs_discoveryCache : option (gmap string string);
  rs_metrics : Metrics }.
Arguments mkRState {W} _ _ _ _.
Arguments rs_world {W} _.
Arguments rs_discoveryClient {W} _.
Arguments rs_discoveryCache {W} _.
Arguments rs_metrics {W} _.

Section state.
Context {W : Type}.

Definition set_world (w : W) (s : RState W) : RState W :=
  mkRState w (rs_discoveryClient s) (rs_discoveryCache s) (rs_metrics s).
Definition set_client (c : option Client) (s : RState W) : RState W :=
  mkRState (rs_world s) c (rs_discoveryCache s) (rs_metrics s).
Definition set_cache (c : option (gmap string string)) (s : RState W) : RState W :=
  mkRState (rs_world s) (rs_discoveryClient s) c (rs_metrics s).
Definition set_metrics (m : Metrics) (s : RState W) : RState W :=
  mkRState (rs_world s) (rs_discoveryClient s) (rs_discoveryCache s) m.

(** A call on the world alone. *)
Definition lift_world {A} (m : ST W A) : ST (RState W) A :=
  fun s => let '(a, w) := m (rs_world s) in (a, set_world w s).

(** A call of a metrics helper. *)
Definition record_metric (f : Metrics -> Metrics) : ST (RState W) unit :=
  fun s => (tt, set_metrics (f (rs_metrics s)) s).

End state.
