(* ===== verification/Sim.v ===== *)
(** * A simulated cluster

    One concrete environment, for the concrete runs of the development: an API
    server that stores what is applied and reports a rolled-out Deployment, a
    network that answers from a table, a clock that advances by one. *)

From S2P Require Import Prelude Kube ConfigTypes Json Url JsonDecode Contract Api Env.

Record Sim := mkSim {
  sim_clock : Z;
  sim_config : option HyperFleetConfig;
  sim_secrets : gmap string Secret;
  sim_deployments : gmap string Deployment;
  sim_applied : list Object;
  sim_http : gmap string Response }.

Definition with_owner (owner : HyperFleetConfig) (m : ObjectMeta) : ObjectMeta :=
  mkObjectMeta (om_Name m) (om_Namespace m) (om_Labels m) (om_Annotations m) (om_Generation m)
    (om_ResourceVersion m) (om_UID m)
    [mkOwnerReference "hyperfleet.redhat.com/v1alpha1" "HyperFleetConfig" (cr_Name owner)
       (cr_UID owner) true].

Definition sim_own (cr : HyperFleetConfig) (o : Object) : Object :=
  match o with
  | ODeployment d => ODeployment (mkDeployment (dep_TypeMeta d) (with_owner cr (dep_Meta d)) (dep_Spec d) (dep_Status d))
  | OService s => OService (mkService (svc_TypeMeta s) (with_owner cr (svc_Meta s)) (svc_Type s) (svc_Selector s) (svc_Ports s))
  | OServiceAccount s => OServiceAccount (mkServiceAccount (sa_TypeMeta s) (with_owner cr (sa_Meta s)))
  | OConfigMap c => OConfigMap (mkConfigMap (cm_TypeMeta c) (with_owner cr (cm_Meta c)) (cm_Data c))
  | ORole r => ORole (mkRole (role_TypeMeta r) (with_owner cr (role_Meta r)) (Rules r))
  | ORoleBinding r => ORoleBinding (mkRoleBinding (rb_TypeMeta r) (with_owner cr (rb_Meta r)) (rb_RoleRef r) (rb_Subjects r))
  | ONetworkPolicy n => ONetworkPolicy (mkNetworkPolicy (np_TypeMeta n) (with_owner cr (np_Meta n)) (np_PodSelector n) (np_PolicyTypes n) (np_Ingress n))
  end.

(** The status of a Deployment whose rollout is complete. *)
Definition rolled_out (d : Deployment) : Deployment :=
  let n := wanted d in
  mkDeployment (dep_TypeMeta d) (dep_Meta d) (dep_Spec d)
    (mkDeploymentStatus (om_Generation (dep_Meta d)) n n n [mkDeploymentCondition "Available" "True"]).

Definition sim_apply (o : Object) (s : Sim) : Sim :=
  mkSim (sim_clock s) (sim_config s) (sim_secrets s)
    (match o with
     | ODeployment d => <[dep_Name d := rolled_out d]> (sim_deployments s)
     | _ => sim_deployments s
     end)
    (o :: sim_applied s) (sim_http s).

Definition found {A} (o : option A) : GetResult A :=
  match o with Some a => Found a | None => NotFound end.

(** The live version of an object: for a Deployment the stored one. *)
Definition sim_get (o : Object) (s : Sim) : GetResult Object :=
  match o with
  | ODeployment d =>
      match sim_deployments s !! dep_Name d with
      | Some d' =>
          if String.eqb (dep_Name d') (dep_Name d)
             && String.eqb (om_Namespace (dep_Meta d')) (om_Namespace (dep_Meta d))
          then Found (ODeployment d') else NotFound
      | None => NotFound
      end
  | _ => Found o
  end.

#[global] Instance sim_Env : Env Sim := {
  Unstructured := Object;
  env_Now s := (sim_clock s, mkSim (sim_clock s + 1) (sim_config s) (sim_secrets s)
                  (sim_deployments s) (sim_applied s) (sim_http s));
  get_HyperFleetConfig name s := (found (sim_config s), s);
  get_Secret namespace name s := (found (sim_secrets s !! name), s);
  get_Deployment namespace name s := (found (sim_deployments s !! name), s);
  get_Object r o s := (sim_get o s, s);
  SetControllerReference cr o := inr (sim_own cr o);
  ToUnstructured o := inr o;
  client_Apply u owner force s := (None, sim_apply u s);
  status_Update cr s := (None, mkSim (sim_clock s) (Some cr) (sim_secrets s) (sim_deployments s)
                           (sim_applied s) (sim_http s));
  http_Do c req s := (match sim_http s !! req_URL req with
                      | Some r => inr r | None => inl (External "no such host") end, s) }.

#[global] Instance sim_EnvLaws : EnvLaws Sim.
Proof.
  constructor.
  - intros r o w o' w' H. cbn in H. unfold sim_get in H.
    destruct o as [d|?|?|?|?|?|?]; try (by injection H as <- <-).
    destruct (sim_deployments w !! dep_Name d) as [d'|]; [|done].
    destruct (String.eqb_spec (dep_Name d') (dep_Name d)) as [E|]; [|done].
    destruct (String.eqb_spec (om_Namespace (dep_Meta d')) (om_Namespace (dep_Meta d))) as [E2|]; [|done].
    injection H as <- <-. done.
  - intros cr o o' [= <-]. by destruct o.
Qed.

(** Authorities are taken as they are. *)
#[global] Instance sim_UrlLib : UrlLib := { parseAuthority := inr }.

(** The issuer's discovery document. *)
Definition demo_members : list (string * Json) :=
  [("issuer", JString "https://idp/"); ("scopes_supported", JArray [JString "openid"]);
   ("jwks_uri", JString "https://idp/keys")].
Definition demo_document : string := json_encode (JObject demo_members).

Definition demo_world : Sim :=
  mkSim 100 (Some (api.demo_cr (mkAuthSpec None "https://idp" "aud" None) None))
    {["db-creds" := mkSecret "db-creds" "41"]} ∅ []
    {["https://idp/.well-known/openid-configuration" := mkResponse 200 demo_document None]}.
