(* ===== verification/Jwks.v ===== *)
(** * OIDC discovery of the JWKS URL ([internal/controller/hyperfleetconfig_rollout.go])

    Module [jwks] models [newDiscoveryHTTPClient], [discoverJWKSURL],
    [resolveJWKSURL] and the discovery cache.  The network is the environment's
    [http_Do]; the document is decoded by [json.Unmarshal_strings]
    and URLs by [url.Parse], of which the class [UrlLib] leaves the authority's
    syntax open.  Calls that run at once, and the mutex and the once they share, are [Locking]. *)

From S2P Require Import Prelude Kube ConfigTypes Json Url JsonDecode Contract Api Env NetAddr DiscoveryGuard.
From S2P Require Import Metrics State Sim.

Module jwks.

Definition oidcDiscoveryPath : string := "/.well-known/openid-configuration".
Definition discoveryTimeout : Z := 10.
Definition errNoDiscoveryRedirects : error := Errorf "OIDC discovery does not follow redirects" [].

Definition newDiscoveryHTTPClient : Client :=
  mkClient (Some guard.blockDiscoveryDial) (Some errNoDiscoveryRedirects) (Some discoveryTimeout).

(** The request that is made, as [http.NewRequestWithContext] and [req.Header.Set] leave it. *)
Definition discovery_request (discoveryURL : string) : Request :=
  mkRequest "GET" discoveryURL [("Accept", "application/json")].

(** [1 << 20], as a count of bytes. *)
Definition body_limit : nat := N.to_nat 1048576.

(** [json.Unmarshal] into the anonymous struct of the two fields. *)
Definition doc_fields : list string := ["issuer"; "jwks_uri"].
Definition Unmarshal_doc (body : string) : error + string * string :=
  match json.Unmarshal_strings doc_fields body with
  | inl err => inl err
  | inr doc => inr (default "" (doc !! "issuer"), default "" (doc !! "jwks_uri"))
  end.

(** A short body without an error is read whole. *)
Lemma read_limited_short limit resp body :
  BodyText resp = body /\ BodyErr resp = None -> (String.length (BodyText resp) <= limit)%nat ->
  read_limited limit resp = inr body.
Proof. intros [<- He] Hl. unfold read_limited. rewrite He. f_equal. by apply take_string_short. Qed.

(** The two fields of an encoded object. *)
Lemma Unmarshal_doc_encode (l : list (string * Json)) docIssuer uri :
  json.valid_json (JObject l) = true -> (json.nesting (JObject l) <= json.maxNestingDepth)%N ->
  NoDup l.*1 -> Forall (fun m => m.1 ∈ doc_fields \/ json.foreign doc_fields m.1) l ->
  ("issuer", JString docIssuer) ∈ l -> ("jwks_uri", JString uri) ∈ l ->
  Unmarshal_doc (json_encode (JObject l)) = inr (docIssuer, uri).
Proof.
  intros Hv Hd Hnd Hl Hi Hu.
  assert (Hmap : forall k v, (k, v) ∈ l -> (list_to_map l : gmap string Json) !! k = Some v)
    by (intros k v; by apply elem_of_list_to_map_1).
  destruct (json.Unmarshal_encode doc_fields l) as (f & Hf & Hk); [done..| |].
  - rewrite Forall_forall in Hl |- *. intros [k v] Hm. destruct (Hl _ Hm) as [Hin|]; [|by left].
    right. split; [done|]. cbn in *. pose proof (Hmap _ _ Hm) as Hm'.
    apply elem_of_cons in Hin as [->|Hin]; [|apply list_elem_of_singleton in Hin as ->];
      [rewrite (Hmap _ _ Hi) in Hm'|rewrite (Hmap _ _ Hu) in Hm']; injection Hm' as <-; eauto.
  - unfold Unmarshal_doc. rewrite Hf, !Hk by (cbn; set_solver).
    by rewrite (Hmap _ _ Hi), (Hmap _ _ Hu).
Qed.

Section jwks.
Context {W : Type} `{!Env W, !UrlLib}.
Context (HTTPClient : option Client).

(** [discoveryClientOnce.Do]: the client is built by the first call that needs it. *)
Definition discovery_client : ST (RState W) Client := fun s =>
  match HTTPClient with
  | Some c => (c, s)
  | None =>
      match rs_discoveryClient s with
      | Some c => (c, s)
      | None => (newDiscoveryHTTPClient, set_client (Some newDiscoveryHTTPClient) s)
      end
  end.

(** The checks on a response, from the status code to the URL. *)
Definition check_response (discoveryURL normalizedIssuer : string) (resp : Response) : outcome string :=
  if negb (StatusCode resp =? 200)%Z
  then Fail (Errorf "discovery %q returned status %d" [discoveryURL; dec_Z (StatusCode resp)])
  else (
    let? body := wrapErr "read discovery body from %q: %w" [discoveryURL]
                   (of_sum (read_limited body_limit resp)) in
    let? (docIssuer, docJWKSURI) := wrapErr "parse discovery document from %q: %w" [discoveryURL]
                   (of_sum (Unmarshal_doc body)) in
    if negb (String.eqb (TrimSuffix docIssuer "/") normalizedIssuer)
    then Fail (Errorf "discovery document from %q has issuer %q, want %q"
           [discoveryURL; docIssuer; normalizedIssuer])
    else if String.eqb docJWKSURI ""
    then Fail (Errorf "discovery document from %q has no jwks_uri" [discoveryURL])
    else
      let? (scheme, host) := wrapErr "discovery document from %q has malformed jwks_uri %q: %w"
                   [discoveryURL; docJWKSURI] (of_sum (url.Parse docJWKSURI)) in
      if negb (String.eqb scheme "https") || String.eqb host ""
      then Fail (Errorf "discovery document from %q has non-https jwks_uri %q"
             [discoveryURL; docJWKSURI])
      else Ok docJWKSURI)%go.

Definition discoverJWKSURL (issuer : string) : ST (RState W) (outcome string) :=
  let normalizedIssuer := TrimSuffix issuer "/" in
  let discoveryURL := normalizedIssuer +:+ oidcDiscoveryPath in
  match url.NewRequest discoveryURL with
  | Some err => st_ret (Fail (Wrapf "build discovery request for %q: %w" [discoveryURL] err))
  | None =>
      (let! httpClient := discovery_client in
       let! resp := lift_world (http_Do httpClient (discovery_request discoveryURL)) in
       st_ret
         match resp with
         | inl err => Fail (Wrapf "fetch %q: %w" [discoveryURL] err)
         | inr resp => check_response discoveryURL normalizedIssuer resp
         end)%st
  end.

Definition cachedDiscovery (issuer : string) : ST (RState W) (option string) :=
  get_state (fun s => rs_discoveryCache s ≫= lookup issuer).

Definition cacheDiscovery (issuer jwksURI : string) : ST (RState W) unit :=
  modify (fun s => set_cache (Some (<[issuer := jwksURI]> (default ∅ (rs_discoveryCache s)))) s).

Definition resolveJWKSURL (cr : HyperFleetConfig) : ST (RState W) (outcome string) :=
  if negb (api.AuthEnabled cr) then st_ret (Ok "")
  else
    let a := auth_of cr in
    match JWKCertSecretRef a with
    | Some _ => st_ret (Ok "")
    | None =>
        (let! r := discoverJWKSURL (Issuer a) in
         match r with
         | Ok jwksURI => let! _ := cacheDiscovery (Issuer a) jwksURI in st_ret (Ok jwksURI)
         | Fail err =>
             let! cached := cachedDiscovery (Issuer a) in
             match cached with
             | Some uri => st_ret (Ok uri)
             | None => st_ret (Fail err)
             end
         | Panic => st_ret Panic
         end)%st
    end.

(** ** Theorems *)

Ltac refuted := split; [done|]; intros (? & ? & ? & ?); destruct_and?; congruence.

Lemma check_response_ok url iss resp uri :
  check_response url iss resp = Ok uri <->
  exists body docIssuer host,
    StatusCode resp = 200%Z /\ read_limited body_limit resp = inr body
    /\ Unmarshal_doc body = inr (docIssuer, uri) /\ TrimSuffix docIssuer "/" = iss
    /\ uri <> "" /\ url.Parse uri = inr ("https", host) /\ host <> "".
Proof.
  unfold check_response.
  destruct (Z.eqb_spec (StatusCode resp) 200); simpl; [|refuted].
  destruct (read_limited body_limit resp) as [|body]; simpl; [refuted|].
  destruct (Unmarshal_doc body) as [|[di du]] eqn:Eu; simpl; [refuted|].
  destruct (String.eqb_spec (TrimSuffix di "/") iss); simpl; [|refuted].
  destruct (String.eqb_spec du ""); simpl; [refuted|].
  destruct (url.Parse du) as [|[sch host]] eqn:Ep; simpl; [refuted|].
  destruct (String.eqb_spec sch "https"); simpl; [|refuted].
  destruct (String.eqb_spec host ""); simpl; [refuted|].
  split; [|intros (b & di' & h & ?); destruct_and?; congruence].
  intros [= <-]. exists body, di, host. split_and!; congruence.
Qed.

Lemma check_response_no_panic url iss resp : check_response url iss resp <> Panic.
Proof.
  unfold check_response. case_match; [done|].
  destruct (read_limited _ _); simpl; [done|]. destruct (Unmarshal_doc _) as [|[di du]]; simpl; [done|].
  do 2 (case_match; [done|]). destruct (url.Parse _) as [|[sch h]]; simpl; [done|]. by case_match.
Qed.

(** What a URL returned to the renderer satisfies: it parses as an https URL with
    a host, it is written so, and no control character precedes its fragment. *)
Definition good_uri (uri : string) : Prop :=
  uri <> "" /\ (exists host, url.Parse uri = inr ("https", host) /\ host <> "")
  /\ (exists s rest, uri = s +:+ "://" +:+ rest /\ url.ToLower s = "https")
  /\ url.stringContainsCTLByte (fst (url.cut_at "#" uri)) = false.

Lemma good_uri_parsed uri host :
  uri <> "" -> url.Parse uri = inr ("https", host) -> host <> "" -> good_uri uri.
Proof.
  intros Hu Hp Hh. split; [done|]. split; [by exists host|]. by apply (url.Parse_host uri "https" host).
Qed.

Definition cache_of (s : RState W) : gmap string string := default ∅ (rs_discoveryCache s).

Lemma discoverJWKSURL_frame issuer s r s' :
  discoverJWKSURL issuer s = (r, s') ->
  rs_discoveryCache s' = rs_discoveryCache s /\ rs_metrics s' = rs_metrics s /\ r <> Panic.
Proof.
  unfold discoverJWKSURL, discovery_client, st_bind, st_ret, lift_world.
  destruct (url.NewRequest _); [naive_solver|].
  destruct HTTPClient; [|destruct (rs_discoveryClient s)]; simpl;
    destruct (http_Do _ _ _) as [[err|resp] w]; intros [= <- <-]; split_and!; try done;
    apply check_response_no_panic.
Qed.

(** Where a discovered URL comes from. *)
Lemma discovered_url issuer s uri s' (Hd : discoverJWKSURL issuer s = (Ok uri, s')) :
  exists c w resp body docIssuer,
    http_Do c (discovery_request (TrimSuffix issuer "/" +:+ oidcDiscoveryPath)) w = (inr resp, rs_world s')
    /\ w = rs_world s
    /\ c = default (default newDiscoveryHTTPClient (rs_discoveryClient s)) HTTPClient
    /\ StatusCode resp = 200%Z
    /\ read_limited body_limit resp = inr body
    /\ Unmarshal_doc body = inr (docIssuer, uri)
    /\ TrimSuffix docIssuer "/" = TrimSuffix issuer "/"
    /\ good_uri uri.
Proof.
  revert Hd. unfold discoverJWKSURL, discovery_client, st_bind, st_ret, lift_world.
  destruct (url.NewRequest _); [done|].
  assert (Hgo : forall c s0, rs_world s0 = rs_world s ->
    (let '(r, s1) := let '(r, w) := http_Do c (discovery_request (TrimSuffix issuer "/" +:+ oidcDiscoveryPath)) (rs_world s0) in
                     (r, set_world w s0) in
     (match r with
      | inl err => Fail (Wrapf "fetch %q: %w" [TrimSuffix issuer "/" +:+ oidcDiscoveryPath] err)
      | inr resp => check_response (TrimSuffix issuer "/" +:+ oidcDiscoveryPath) (TrimSuffix issuer "/") resp
      end, s1)) = (Ok uri, s') ->
    exists resp body docIssuer,
      http_Do c (discovery_request (TrimSuffix issuer "/" +:+ oidcDiscoveryPath)) (rs_world s) = (inr resp, rs_world s')
      /\ StatusCode resp = 200%Z /\ read_limited body_limit resp = inr body
      /\ Unmarshal_doc body = inr (docIssuer, uri)
      /\ TrimSuffix docIssuer "/" = TrimSuffix issuer "/" /\ good_uri uri).
  { intros c s0 Hs. rewrite Hs. destruct (http_Do _ _ _) as [[err|resp] w]; [done|].
    intros [= Hc <-]. apply check_response_ok in Hc as (b & di & h & H1 & H2 & H3 & H4 & H5 & H6 & H7).
    exists resp, b, di. split; [done|]. split; [done|]. split; [done|]. split; [done|].
    split; [done|]. split; [done|by apply (good_uri_parsed _ h)]. }
  intros Hd. destruct HTTPClient as [c|]; [|destruct (rs_discoveryClient s) as [c|]];
    (apply Hgo in Hd as (resp & b & di & ?); [|done];
     destruct_and?; eexists _, _, resp, b, di; split_and!; try eassumption; reflexivity).
Qed.

(** C23: a discovered URL comes from a 200 response, of at most one
    mebibyte read, to the issuer's well-known path; its document names the same
    issuer up to one trailing slash; and it is an https URL with a host.
    Without an injected client the request goes through the hardened one
    (or the one built before). *)
Theorem discoverJWKSURL_ok issuer s uri s' (Hd : discoverJWKSURL issuer s = (Ok uri, s')) :
  exists c w resp body docIssuer,
    http_Do c (discovery_request (TrimSuffix issuer "/" +:+ oidcDiscoveryPath)) w = (inr resp, rs_world s')
    /\ w = rs_world s
    /\ c = default (default newDiscoveryHTTPClient (rs_discoveryClient s)) HTTPClient
    /\ StatusCode resp = 200%Z
    /\ read_limited body_limit resp = inr body
    /\ Unmarshal_doc body = inr (docIssuer, uri)
    /\ TrimSuffix docIssuer "/" = TrimSuffix issuer "/"
    /\ good_uri uri.
Proof. by apply discovered_url. Qed.

(** C24: an endpoint that behaves is believed.  If the issuer's well-known
    path answers 200 with the encoding of an object (distinct keys, valid
    UTF-8, at most a mebibyte, any other members whose names do not fold to the
    two fields') which names the issuer, up to a trailing slash, and an https URL with a host
    in [jwks_uri], then discovery returns exactly that URL and changes nothing but the
    world and the client it built. *)
Theorem discovery_accepts issuer s resp w' (l : list (string * Json)) docIssuer uri host
    (Hreq : url.NewRequest (TrimSuffix issuer "/" +:+ oidcDiscoveryPath) = None)
    (Hdo : http_Do (default (default newDiscoveryHTTPClient (rs_discoveryClient s)) HTTPClient)
             (discovery_request (TrimSuffix issuer "/" +:+ oidcDiscoveryPath)) (rs_world s) = (inr resp, w'))
    (H200 : StatusCode resp = 200%Z)
    (Hbody : BodyText resp = json_encode (JObject l) /\ BodyErr resp = None)
    (Hlen : (String.length (BodyText resp) <= body_limit)%nat)
    (Hv : json.valid_json (JObject l) = true) (Hd : (json.nesting (JObject l) <= json.maxNestingDepth)%N)
    (Hnd : NoDup l.*1)
    (Hl : Forall (fun m => m.1 ∈ doc_fields \/ json.foreign doc_fields m.1) l)
    (Hiss : ("issuer", JString docIssuer) ∈ l) (Huri : ("jwks_uri", JString uri) ∈ l)
    (Hsame : TrimSuffix docIssuer "/" = TrimSuffix issuer "/")
    (Hparse : url.Parse uri = inr ("https", host)) (Hhost : host <> "") :
  exists s', discoverJWKSURL issuer s = (Ok uri, s') /\ rs_world s' = w'
  /\ rs_discoveryCache s' = rs_discoveryCache s /\ rs_metrics s' = rs_metrics s.
Proof.
  destruct (discoverJWKSURL issuer s) as [r s'] eqn:E.
  pose proof (discoverJWKSURL_frame _ _ _ _ E) as (Hc & Hm & _). exists s'.
  enough (r = Ok uri /\ rs_world s' = w') as [-> ?] by done.
  assert (Hcheck : check_response (TrimSuffix issuer "/" +:+ oidcDiscoveryPath) (TrimSuffix issuer "/") resp
                   = Ok uri).
  { apply check_response_ok. exists (json_encode (JObject l)), docIssuer, host. split_and!; try done.
    - by apply read_limited_short.
    - by apply Unmarshal_doc_encode.
    - by intros ->. }
  revert E. unfold discoverJWKSURL, discovery_client, st_bind, st_ret, lift_world. rewrite Hreq.
  destruct HTTPClient; [|destruct (rs_discoveryClient s)]; cbn in Hdo |- *; rewrite Hdo, Hcheck;
    by intros [= <- <-].
Qed.

(** What [resolveJWKSURL] does on every branch.  With
    authentication off or a Secret pinned it returns the empty URL and touches
    nothing; otherwise a successful discovery is cached and returned, and a
    failed one falls back to the URL cached for that issuer, failing only when there is
    none; the cache never loses an entry. *)
Theorem resolveJWKSURL_spec cr s :
  let issuer := Issuer (auth_of cr) in
  let '(r, s') := resolveJWKSURL cr s in
  if negb (api.AuthEnabled cr) || bool_decide (is_Some (JWKCertSecretRef (auth_of cr)))
  then r = Ok "" /\ s' = s
  else match fst (discoverJWKSURL issuer s), cache_of s !! issuer with
       | Ok uri, _ => r = Ok uri /\ cache_of s' = <[issuer := uri]> (cache_of s)
       | Fail _, Some uri => r = Ok uri /\ cache_of s' = cache_of s
       | Fail e, None => r = Fail e /\ cache_of s' = cache_of s
       | Panic, _ => False
       end.
Proof.
  cbv zeta. unfold resolveJWKSURL. destruct (api.AuthEnabled cr); simpl; [|done].
  destruct (JWKCertSecretRef (auth_of cr)) as [r|] eqn:Er; simpl.
  { done. }
  unfold st_bind. destruct (discoverJWKSURL (Issuer (auth_of cr)) s) as [r s1] eqn:E. simpl.
  apply discoverJWKSURL_frame in E as (Hc & _ & Hp).
  destruct r as [uri|e|]; [| |done]; simpl.
  - unfold cache_of. simpl. by rewrite Hc.
  - unfold cachedDiscovery, get_state, cache_of. rewrite Hc.
    destruct (rs_discoveryCache s) as [c|]; simpl; [|by rewrite lookup_empty; simpl; rewrite Hc].
    destruct (c !! Issuer (auth_of cr)); simpl; by rewrite Hc.
Qed.

(** The invariant of the two mutable fields: every cached URL is good, and a
    client, once built, is the hardened one. *)
Definition discovery_inv (s : RState W) : Prop :=
  map_Forall (fun _ uri => good_uri uri) (cache_of s)
  /\ (rs_discoveryClient s = None \/ rs_discoveryClient s = Some newDiscoveryHTTPClient).

Lemma discoverJWKSURL_client issuer s r s' :
  discoverJWKSURL issuer s = (r, s') ->
  rs_discoveryClient s = None \/ rs_discoveryClient s = Some newDiscoveryHTTPClient ->
  rs_discoveryClient s' = None \/ rs_discoveryClient s' = Some newDiscoveryHTTPClient.
Proof.
  unfold discoverJWKSURL, discovery_client, st_bind, st_ret, lift_world. intros Hd Hc. revert Hd.
  destruct (url.NewRequest _); [naive_solver|].
  destruct HTTPClient; [|destruct (rs_discoveryClient s) eqn:E]; simpl;
    destruct (http_Do _ _ _) as [r0 w]; intros [= <- <-]; simpl; rewrite ?E; auto.
Qed.

Lemma resolveJWKSURL_inv cr s r s' :
  resolveJWKSURL cr s = (r, s') -> discovery_inv s ->
  discovery_inv s' /\ (forall uri, r = Ok uri -> uri = "" \/ good_uri uri).
Proof.
  unfold resolveJWKSURL, discovery_inv. destruct (negb _); [unfold st_ret; intros [= <- <-] ?; split; [done|intros ? [= <-]; by left]|].
  destruct (JWKCertSecretRef (auth_of cr)); [unfold st_ret; intros [= <- <-] ?; split; [done|intros ? [= <-]; by left]|].
  unfold st_bind.
  destruct (discoverJWKSURL (Issuer (auth_of cr)) s) as [r1 s1] eqn:E. intros Hr [Hc Hcl].
  pose proof (discoverJWKSURL_frame _ _ _ _ E) as (Hcache & _ & Hp).
  pose proof (discoverJWKSURL_client _ _ _ _ E Hcl) as Hcl1.
  destruct r1 as [uri|e|]; [| |done].
  - apply discovered_url in E as (? & ? & ? & ? & ? & _ & _ & _ & _ & _ & _ & _ & Hg).
    injection Hr as <- <-. split; [|intros u [= <-]; by right]. split; [|exact Hcl1].
    unfold cache_of in *. simpl. rewrite Hcache. by apply map_Forall_insert_2.
  - unfold cachedDiscovery, get_state in Hr. rewrite Hcache in Hr.
    unfold cache_of in *. destruct (rs_discoveryCache s) as [c|]; simpl in *.
    + destruct (c !! Issuer (auth_of cr)) as [uri|] eqn:El; injection Hr as <- <-; rewrite Hcache; simpl;
        (split; [split; [exact Hc|exact Hcl1]|]); [|done].
      intros u [= <-]. right. exact (Hc _ _ El).
    + injection Hr as <- <-. rewrite Hcache. simpl. split; [split; [exact Hc|exact Hcl1]|done].
Qed.

Lemma resolveJWKSURL_metrics cr s r s' :
  resolveJWKSURL cr s = (r, s') -> rs_metrics s' = rs_metrics s /\ r <> Panic.
Proof.
  unfold resolveJWKSURL. destruct (negb _); [by intros [= <- <-]|].
  destruct (JWKCertSecretRef (auth_of cr)); [by intros [= <- <-]|]. unfold st_bind.
  destruct (discoverJWKSURL (Issuer (auth_of cr)) s) as [r1 s1] eqn:E.
  apply discoverJWKSURL_frame in E as (_ & Hm & Hp).
  destruct r1 as [uri|e|]; [|unfold cachedDiscovery, get_state; simpl; destruct (_ ≫= _)|done];
    intros [= <- <-]; done.
Qed.

End jwks.

(** A sequence of resolutions, for one configuration after another. *)
Inductive resolutions {W} `{!Env W, !UrlLib} (hc : option Client) : RState W -> list string -> RState W -> Prop :=
| resolutions_nil s : resolutions hc s [] s
| resolutions_ok cr s uri s1 l s2 :
    resolveJWKSURL hc cr s = (Ok uri, s1) -> resolutions hc s1 l s2 -> resolutions hc s (uri :: l) s2
| resolutions_fail cr s e s1 l s2 :
    resolveJWKSURL hc cr s = (Fail e, s1) -> resolutions hc s1 l s2 -> resolutions hc s l s2.

(** From a fresh reconciler, through any sequence of resolutions with any network
    behaviour, every URL ever handed to the renderer is empty or a validated
    https URL, the cache holds validated URLs only, and the default client is
    the hardened one: dials guarded, redirects refused. *)
Theorem cache_invariant `{!Env W, !UrlLib} (hc : option Client) (w : W) m uris s'
    (Hres : resolutions hc (mkRState w None None m) uris s') :
  discovery_inv s' /\ Forall (fun uri => uri = "" \/ good_uri uri) uris.
Proof.
  assert (Hinit : discovery_inv (mkRState w None None m)).
  { split; [apply map_Forall_empty|by left]. }
  revert Hres Hinit. generalize (mkRState w None None m). intros s Hres.
  induction Hres as [s|cr s uri s1 l s2 Hr Hl IH|cr s e s1 l s2 Hr Hl IH]; intros Hinv.
  - split; [done|constructor].
  - apply resolveJWKSURL_inv in Hr as [Hi Hu]; [|done]. destruct (IH Hi) as [? ?].
    split; [done|]. constructor; [by apply Hu|done].
  - apply resolveJWKSURL_inv in Hr as [Hi _]; [|done]. by apply IH.
Qed.

(** The concrete reconciler state of the runs below. *)
Definition demo_state : RState Sim := mkRState demo_world None None metrics.zeroMetrics.

Lemma discoverJWKSURL_ok_witness :
  fst (discoverJWKSURL None "https://idp" demo_state) = Ok "https://idp/keys"
  /\ good_uri "https://idp/keys".
Proof.
  destruct (discoverJWKSURL None "https://idp" demo_state) as [r s'] eqn:E.
  assert (Hr : r = Ok "https://idp/keys").
  { transitivity (fst (discoverJWKSURL None "https://idp" demo_state)); [by rewrite E|]. vm_compute. reflexivity. }
  subst r. split; [reflexivity|].
  destruct (discoverJWKSURL_ok None "https://idp" demo_state "https://idp/keys" s' E)
    as (? & ? & ? & ? & ? & _ & _ & _ & _ & _ & _ & _ & Hg).
  exact Hg.
Defined.

Lemma discovery_accepts_witness :
  exists s', discoverJWKSURL None "https://idp/" demo_state = (Ok "https://idp/keys", s')
  /\ rs_world s' = demo_world.
Proof.
  destruct (discovery_accepts None "https://idp/" demo_state (mkResponse 200 demo_document None) demo_world
              demo_members "https://idp/" "https://idp/keys" "idp") as (s' & Hs & Hw & _).
  - reflexivity.
  - reflexivity.
  - reflexivity.
  - split; reflexivity.
  - replace (String.length _) with 85%nat by (vm_compute; reflexivity). unfold body_limit. lia.
  - vm_compute. reflexivity.
  - vm_compute. discriminate.
  - repeat constructor; cbn; set_solver.
  - unfold demo_members. rewrite !Forall_cons. split_and!; [left; set_solver|right; reflexivity|left; set_solver|constructor].
  - apply list_elem_of_here.
  - do 2 apply list_elem_of_further. apply list_elem_of_here.
  - reflexivity.
  - vm_compute. reflexivity.
  - discriminate.
  - exists s'. split; [exact Hs|exact Hw].
Defined.

Definition demo_auth_cr : HyperFleetConfig :=
  api.demo_cr (mkAuthSpec None "https://idp" "aud" None) None.

Lemma cache_invariant_witness :
  exists s', resolutions None demo_state ["https://idp/keys"] s' /\ discovery_inv s'.
Proof.
  destruct (resolveJWKSURL None demo_auth_cr demo_state) as [r s'] eqn:E.
  assert (Hr : r = Ok "https://idp/keys").
  { transitivity (fst (resolveJWKSURL None demo_auth_cr demo_state)); [by rewrite E|]. vm_compute. reflexivity. }
  subst r. exists s'.
  assert (H : resolutions None demo_state ["https://idp/keys"] s')
    by (eapply resolutions_ok; [exact E|constructor]).
  split; [exact H|]. apply (cache_invariant None demo_world metrics.zeroMetrics ["https://idp/keys"] s' H).
Defined.

End jwks.
