(* ===== verification/Locking.v ===== *)
(** * Concurrent reconciles ([discoveryCacheMu] and [discoveryClientOnce])

    The sequential model of [Jwks] runs [resolveJWKSURL] as one step.  Here any number of calls run
    at once and interleave at every access of [r.discoveryCache] and [r.discoveryClient],
    at [Lock] and [Unlock], at [Once.Do] and at the fetch.  The accesses never race, no call waits for
    ever, and every interleaving is one of atomic runs of the three sequential operations
    of [Jwks].  [sync.Mutex] and [sync.Once] behave as documented: [Lock] waits until the mutex is
    free; [Do] runs its function in the first call and makes every other call wait for it. *)

From S2P Require Import Prelude Kube ConfigTypes Json Url JsonDecode Contract Api Env NetAddr DiscoveryGuard.
From S2P Require Import Metrics State Sim Jwks.
Import jwks.

Module locking.

(** Where a call of [resolveJWKSURL] stands: the next thing it does. *)
Inductive pc :=
| Begin (cr : HyperFleetConfig)
| OnceDo (cr : HyperFleetConfig)                    (* discoveryClientOnce.Do(...) *)
| OnceBuild (cr : HyperFleetConfig)                 (* r.discoveryClient = newDiscoveryHTTPClient() *)
| ReadClient (cr : HyperFleetConfig)                (* httpClient = r.discoveryClient *)
| Fetch (cr : HyperFleetConfig) (httpClient : Client)  (* httpClient.Do, and the checks *)
| CacheLock (issuer uri : string)                   (* cacheDiscovery: Lock *)
| CacheInit (issuer uri : string)                   (* if r.discoveryCache == nil { ... } *)
| CacheWrite (issuer uri : string)                  (* r.discoveryCache[issuer] = uri *)
| CacheUnlock (uri : string)                        (* the deferred Unlock *)
| CachedLock (issuer : string) (err : error)        (* cachedDiscovery: Lock *)
| CachedRead (issuer : string) (err : error)        (* uri, ok := r.discoveryCache[issuer] *)
| CachedUnlock (err : error) (found : option string)   (* the deferred Unlock *)
| Returned (r : outcome string).

(** [sync.Once]: which call runs the function, and whether it has returned. *)
Inductive OnceState := NotStarted | Running (t : nat) | Done.

(** What the calls share, and where each of them stands. *)
Record Globals (W : Type) := mkGlobals { shared : RState W; mutex : option nat; once : OnceState }.
Arguments mkGlobals {W} _ _ _.
Arguments shared {W} _.
Arguments mutex {W} _.
Arguments once {W} _.
Record CState (W : Type) := mkCState { globals : Globals W; pool : list pc }.
Arguments mkCState {W} _ _.
Arguments globals {W} _.
Arguments pool {W} _.

Definition returned (p : pc) : bool := match p with Returned _ => true | _ => false end.

(** Between [Lock] and [Unlock], and inside [Do]. *)
Definition holds (p : pc) : bool :=
  match p with
  | CacheInit _ _ | CacheWrite _ _ | CacheUnlock _ | CachedRead _ _ | CachedUnlock _ _ => true
  | _ => false
  end.
Definition building (p : pc) : bool := match p with OnceBuild _ => true | _ => false end.

(** The shared variables, and which of them the next thing accesses; [true] is a write. *)
Inductive Var := DiscoveryCache | DiscoveryClient.
Definition access (p : pc) : option (Var * bool) :=
  match p with
  | OnceBuild _ => Some (DiscoveryClient, true)
  | ReadClient _ => Some (DiscoveryClient, false)
  | CacheInit _ _ | CacheWrite _ _ => Some (DiscoveryCache, true)
  | CachedRead _ _ => Some (DiscoveryCache, false)
  | _ => None
  end.

Section machine.
Context {W : Type} `{!Env W, !UrlLib} (HTTPClient : option Client).

Definition issuer_of (cr : HyperFleetConfig) : string := Issuer (auth_of cr).
Definition discoveryURL_of (issuer : string) : string := TrimSuffix issuer "/" +:+ oidcDiscoveryPath.

(** The outcome of [discoverJWKSURL], to the call that goes on from there. *)
Definition after_discovery (issuer : string) (r : outcome string) : pc :=
  match r with
  | Ok uri => CacheLock issuer uri
  | Fail err => CachedLock issuer err
  | Panic => Returned Panic
  end.

(** The fallback that is returned. *)
Definition fallback (err : error) (found : option string) : outcome string :=
  match found with Some uri => Ok uri | None => Fail err end.

(** What precedes the client: no discovery needed, or a URL no request can be built for. *)
Definition begin (cr : HyperFleetConfig) : pc :=
  if negb (api.AuthEnabled cr) then Returned (Ok "")
  else match JWKCertSecretRef (auth_of cr) with
       | Some _ => Returned (Ok "")
       | None =>
           match url.NewRequest (discoveryURL_of (issuer_of cr)) with
           | Some err => CachedLock (issuer_of cr)
                           (Wrapf "build discovery request for %q: %w" [discoveryURL_of (issuer_of cr)] err)
           | None => match HTTPClient with Some c => Fetch cr c | None => OnceDo cr end
           end
       end.

(** The fetch and the checks on the response. *)
Definition fetch (cr : HyperFleetConfig) (c : Client) : ST (RState W) (outcome string) :=
  (let! resp := lift_world (http_Do c (discovery_request (discoveryURL_of (issuer_of cr)))) in
   st_ret match resp with
          | inl err => Fail (Wrapf "fetch %q: %w" [discoveryURL_of (issuer_of cr)] err)
          | inr resp => check_response (discoveryURL_of (issuer_of cr)) (TrimSuffix (issuer_of cr) "/") resp
          end)%st.

(** One step of call [t]; [None] when it has to wait, or has returned. *)
Definition tnext (t : nat) (p : pc) (g : Globals W) : option (pc * Globals W) :=
  let 'mkGlobals s mu on := g in
  match p with
  | Begin cr => Some (begin cr, g)
  | OnceDo cr =>
      match on with
      | NotStarted => Some (OnceBuild cr, mkGlobals s mu (Running t))
      | Running _ => None
      | Done => Some (ReadClient cr, g)
      end
  | OnceBuild cr => Some (ReadClient cr, mkGlobals (set_client (Some newDiscoveryHTTPClient) s) mu Done)
  | ReadClient cr =>
      match rs_discoveryClient s with
      | Some c => Some (Fetch cr c, g)
      | None => Some (Returned Panic, g)
      end
  | Fetch cr c => let '(r, s') := fetch cr c s in Some (after_discovery (issuer_of cr) r, mkGlobals s' mu on)
  | CacheLock i u => match mu with None => Some (CacheInit i u, mkGlobals s (Some t) on) | Some _ => None end
  | CacheInit i u => Some (CacheWrite i u, mkGlobals (set_cache (Some (cache_of s)) s) mu on)
  | CacheWrite i u =>
      match rs_discoveryCache s with
      | Some c => Some (CacheUnlock u, mkGlobals (set_cache (Some (<[i := u]> c)) s) mu on)
      | None => Some (Returned Panic, g)
      end
  | CacheUnlock u => Some (Returned (Ok u), mkGlobals s None on)
  | CachedLock i e => match mu with None => Some (CachedRead i e, mkGlobals s (Some t) on) | Some _ => None end
  | CachedRead i e => Some (CachedUnlock e (rs_discoveryCache s ≫= lookup i), g)
  | CachedUnlock e r => Some (Returned (fallback e r), mkGlobals s None on)
  | Returned _ => None
  end.

Inductive step : CState W -> CState W -> Prop :=
| step_thread s t p p' g' :
    pool s !! t = Some p -> tnext t p (globals s) = Some (p', g') ->
    step s (mkCState g' (<[t := p']> (pool s))).

(** A fresh reconciler, and the configurations the calls are made for. *)
Definition initial (w : W) (m : metrics.Metrics) (crs : list HyperFleetConfig) : CState W :=
  mkCState (mkGlobals (mkRState w None None m) None NotStarted) (Begin <$> crs).

(** A run along a schedule: the calls in the order in which they are let take a step. *)
Fixpoint run (schedule : list nat) (s : CState W) : option (CState W) :=
  match schedule with
  | [] => Some s
  | t :: rest =>
      match pool s !! t with
      | Some p => match tnext t p (globals s) with
                  | Some (p', g') => run rest (mkCState g' (<[t := p']> (pool s)))
                  | None => None
                  end
      | None => None
      end
  end.

Lemma run_steps schedule s s' : run schedule s = Some s' -> rtc step s s'.
Proof.
  revert s. induction schedule as [|t rest IH]; intros s; cbn; [by intros [= ->]|].
  destruct (pool s !! t) as [p|] eqn:Hp; [|done]. destruct (tnext t p (globals s)) as [[p' g']|] eqn:Hn; [|done].
  intros Hr. eapply rtc_l; [by eapply step_thread|]. by apply IH.
Qed.

Lemma run_pool schedule s l : option_map pool (run schedule s) = Some l -> exists s', rtc step s s' /\ pool s' = l.
Proof.
  destruct (run schedule s) as [s'|] eqn:E; [|done]. intros [= <-]. exists s'. split; [|done]. by eapply run_steps.
Qed.

(** Two calls are about to access the same variable, one of them to write it. *)
Definition race (s : CState W) : Prop :=
  exists t1 t2 p1 p2 v w, t1 <> t2 /\ pool s !! t1 = Some p1 /\ pool s !! t2 = Some p2
    /\ access p1 = Some (v, true) /\ access p2 = Some (v, w).

(** ** The invariant *)

(** What the mutex, the once and the client are where a call stands. *)
Definition placed (g : Globals W) (t : nat) (p : pc) : Prop :=
  (holds p = true <-> mutex g = Some t)
  /\ (building p = true <-> once g = Running t)
  /\ match p with
     | ReadClient _ => once g = Done
     | CacheWrite _ _ => is_Some (rs_discoveryCache (shared g))
     | Fetch cr c => c = default newDiscoveryHTTPClient HTTPClient /\ api.AuthEnabled cr = true
         /\ JWKCertSecretRef (auth_of cr) = None /\ url.NewRequest (discoveryURL_of (issuer_of cr)) = None
     | _ => True
     end
  /\ match p with
     | OnceDo cr | OnceBuild cr | ReadClient cr => HTTPClient = None /\ api.AuthEnabled cr = true
         /\ JWKCertSecretRef (auth_of cr) = None /\ url.NewRequest (discoveryURL_of (issuer_of cr)) = None
     | _ => True
     end.

Record Inv (s : CState W) : Prop := {
  inv_placed t p : pool s !! t = Some p -> placed (globals s) t p;
  inv_mutex t : mutex (globals s) = Some t -> is_Some (pool s !! t);
  inv_once t : once (globals s) = Running t -> is_Some (pool s !! t);
  inv_client : rs_discoveryClient (shared (globals s))
               = match once (globals s) with Done => Some newDiscoveryHTTPClient | _ => None end;
}.

Lemma initial_inv w m crs : Inv (initial w m crs).
Proof.
  constructor; [|done|done|done]. intros t p [cr [-> _]]%list_lookup_fmap_Some.
  by split_and!.
Qed.

(** What a step of call [t] may do to the lock, the once and the shared variables. *)
Record moved (t : nat) (g g' : Globals W) : Prop := {
  moved_mutex : mutex g' = mutex g \/ (mutex g = None /\ mutex g' = Some t)
                \/ (mutex g = Some t /\ mutex g' = None);
  moved_once : once g' = once g \/ (once g = NotStarted /\ once g' = Running t)
               \/ (once g = Running t /\ once g' = Done);
  moved_cache : is_Some (rs_discoveryCache (shared g)) -> is_Some (rs_discoveryCache (shared g'));
  moved_client : rs_discoveryClient (shared g) = match once g with Done => Some newDiscoveryHTTPClient | _ => None end ->
    rs_discoveryClient (shared g') = match once g' with Done => Some newDiscoveryHTTPClient | _ => None end;
}.

Lemma placed_other g g' t t' p : moved t g g' -> t <> t' -> placed g t' p -> placed g' t' p.
Proof.
  intros [Hm Ho Hc _] Hne (H1 & H2 & H3 & H4). split_and!.
  - rewrite H1. destruct Hm as [->|[[-> ->]|[-> ->]]]; naive_solver.
  - rewrite H2. destruct Ho as [->|[[-> ->]|[-> ->]]]; naive_solver.
  - destruct p; try done; [destruct Ho as [->|[[E _]|[E _]]]; [done|congruence..]|auto].
  - done.
Qed.

(** The fetch acts on the world. *)
Lemma fetch_frame cr c s : exists r w, fetch cr c s = (r, set_world w s).
Proof.
  unfold fetch, st_bind, lift_world, st_ret. destruct (http_Do _ _ _) as [resp w]. by eexists _, w.
Qed.

Lemma tnext_moved t p g p' g' : placed g t p -> tnext t p g = Some (p', g') -> moved t g g'.
Proof.
  destruct g as [s mu on]. intros ((Hm & _) & (Ho & _) & _). destruct p; cbn in *; intros Hn.
  - injection Hn as _ <-. constructor; auto.
  - destruct on; [injection Hn as _ <-|done|injection Hn as _ <-]; constructor; cbn; auto.
  - injection Hn as _ <-. specialize (Ho eq_refl). subst on. constructor; cbn; auto.
  - destruct (rs_discoveryClient s); injection Hn as _ <-; constructor; auto.
  - destruct (fetch_frame cr httpClient s) as (r & w & E). rewrite E in Hn. injection Hn as _ <-. constructor; cbn; auto.
  - destruct mu; [done|]. injection Hn as _ <-. constructor; cbn; auto.
  - injection Hn as _ <-. constructor; cbn; auto.
  - destruct (rs_discoveryCache s); injection Hn as _ <-; constructor; cbn; auto.
  - injection Hn as _ <-. specialize (Hm eq_refl). subst mu. constructor; cbn; auto.
  - destruct mu; [done|]. injection Hn as _ <-. constructor; cbn; auto.
  - injection Hn as _ <-. constructor; cbn; auto.
  - injection Hn as _ <-. specialize (Hm eq_refl). subst mu. constructor; cbn; auto.
  - done.
Qed.

Lemma begin_placed g t cr : mutex g <> Some t -> once g <> Running t -> placed g t (begin cr).
Proof.
  intros Hm Ho. unfold begin. destruct (api.AuthEnabled cr) eqn:Ha; [|by split_and!].
  destruct (JWKCertSecretRef (auth_of cr)) eqn:Hj; [by split_and!|].
  destruct (url.NewRequest _) eqn:Hr; [by split_and!|]. destruct HTTPClient eqn:Hc; split_and!; try done; cbn.
  by rewrite Hc.
Qed.

Lemma after_discovery_placed g t i r : mutex g <> Some t -> once g <> Running t -> placed g t (after_discovery i r).
Proof. intros. by destruct r; split_and!. Qed.

Lemma tnext_placed t p g p' g' : placed g t p ->
  rs_discoveryClient (shared g) = match once g with Done => Some newDiscoveryHTTPClient | _ => None end ->
  tnext t p g = Some (p', g') -> placed g' t p'.
Proof.
  destruct g as [s mu on]. intros (Hm & Ho & Hx & Hy) Hcl.
  destruct p; cbn in Hm, Ho, Hx, Hy, Hcl |- *; intros Hn.
  - injection Hn as <- <-. apply begin_placed; naive_solver.
  - destruct on; [injection Hn as <- <-|done|injection Hn as <- <-]; split_and!; naive_solver.
  - injection Hn as <- <-. split_and!; naive_solver.
  - subst on. rewrite Hcl in Hn. injection Hn as <- <-. destruct Hy as (-> & ? & ? & ?). split_and!; naive_solver.
  - destruct (fetch_frame cr httpClient s) as (r & w & E). rewrite E in Hn. injection Hn as <- <-.
    apply after_discovery_placed; naive_solver.
  - destruct mu; [done|]. injection Hn as <- <-. split_and!; naive_solver.
  - injection Hn as <- <-. split_and!; [naive_solver..|by eexists|done].
  - destruct Hx as [c Hc]. rewrite Hc in Hn. injection Hn as <- <-. split_and!; naive_solver.
  - injection Hn as <- <-. split_and!; naive_solver.
  - destruct mu; [done|]. injection Hn as <- <-. split_and!; naive_solver.
  - injection Hn as <- <-. split_and!; naive_solver.
  - injection Hn as <- <-. split_and!; naive_solver.
  - done.
Qed.

Lemma step_inv s s' : step s s' -> Inv s -> Inv s'.
Proof.
  intros [s0 t p p' g' Hp Hn] [Hpl Hmu Hon Hcl].
  pose proof (tnext_moved _ _ _ _ _ (Hpl _ _ Hp) Hn) as Hmv.
  assert (Hlk : forall t', is_Some (pool s0 !! t') -> is_Some (<[t := p']> (pool s0) !! t')).
  { intros t' [q Hq]. apply lookup_lt_is_Some. rewrite length_insert. by eapply lookup_lt_Some. }
  constructor; cbn.
  - intros t' q Hq. destruct (decide (t = t')) as [<-|Hne].
    + rewrite list_lookup_insert_eq in Hq by (by eapply lookup_lt_Some). injection Hq as <-.
      by eapply tnext_placed; [apply Hpl| |].
    + rewrite list_lookup_insert_ne in Hq by done. eapply placed_other; [done..|]. by apply Hpl.
  - intros t' Ht. apply Hlk. destruct (moved_mutex _ _ _ Hmv) as [E|[[_ E]|[_ E]]]; [| |congruence].
    + apply Hmu. congruence.
    + replace t' with t by congruence. by eexists.
  - intros t' Ht. apply Hlk. destruct (moved_once _ _ _ Hmv) as [E|[[_ E]|[_ E]]]; [| |congruence].
    + apply Hon. congruence.
    + replace t' with t by congruence. by eexists.
  - by apply (moved_client _ _ _ Hmv).
Qed.

Lemma reachable_inv w m crs s : rtc step (initial w m crs) s -> Inv s.
Proof.
  assert (Hrtc : forall s1 s2, rtc step s1 s2 -> Inv s1 -> Inv s2) by (induction 1; eauto using step_inv).
  intros Hr. apply (Hrtc _ _ Hr), initial_inv.
Qed.

(** ** Exclusion *)

Lemma one_holder s t1 t2 p1 p2 : Inv s -> pool s !! t1 = Some p1 -> pool s !! t2 = Some p2 ->
  holds p1 = true -> holds p2 = true -> t1 = t2.
Proof.
  intros [Hpl _ _ _] H1 H2 Hh1 Hh2. apply Hpl in H1 as ((E1 & _) & _), H2 as ((E2 & _) & _).
  specialize (E1 Hh1). specialize (E2 Hh2). congruence.
Qed.

Lemma no_race s : Inv s -> ~ race s.
Proof.
  intros HI (t1 & t2 & p1 & p2 & v & w & Hne & H1 & H2 & A1 & A2).
  pose proof (inv_placed _ HI _ _ H1) as (_ & [B1 _] & X1 & _).
  pose proof (inv_placed _ HI _ _ H2) as (_ & [B2 _] & X2 & _).
  destruct p1; try discriminate A1; injection A1 as <-; destruct p2; try discriminate A2; cbn in *;
    solve [ apply Hne; eapply one_holder; done
          | specialize (B1 eq_refl); (specialize (B2 eq_refl) || idtac); congruence ].
Qed.

(** ** Every run ends, and only when every call has returned *)

(** A bound on the steps a call still takes. *)
Definition todo (p : pc) : nat :=
  match p with
  | Begin _ => 9 | OnceDo _ => 8 | OnceBuild _ => 7 | ReadClient _ => 6 | Fetch _ _ => 5
  | CacheLock _ _ => 4 | CacheInit _ _ => 3 | CacheWrite _ _ => 2 | CacheUnlock _ => 1
  | CachedLock _ _ => 3 | CachedRead _ _ => 2 | CachedUnlock _ _ => 1
  | Returned _ => 0
  end.

Lemma tnext_todo t p g p' g' : tnext t p g = Some (p', g') -> (todo p' < todo p)%nat.
Proof.
  destruct g as [s mu on]. destruct p; cbn; intros Hn.
  - injection Hn as <- _. unfold begin. repeat case_match; cbn; lia.
  - destruct on; [|done|]; injection Hn as <- _; cbn; lia.
  - injection Hn as <- _. cbn; lia.
  - case_match; injection Hn as <- _; cbn; lia.
  - destruct (fetch _ _ _) as [r s']. injection Hn as <- _. destruct r; cbn; lia.
  - case_match; [done|]. injection Hn as <- _. cbn; lia.
  - injection Hn as <- _. cbn; lia.
  - case_match; injection Hn as <- _; cbn; lia.
  - injection Hn as <- _. cbn; lia.
  - case_match; [done|]. injection Hn as <- _. cbn; lia.
  - injection Hn as <- _. cbn; lia.
  - injection Hn as <- _. cbn; lia.
  - done.
Qed.

Definition work (l : list pc) : nat := sum_list_with todo l.

Lemma work_insert l t p p' : l !! t = Some p -> (todo p' < todo p)%nat -> (work (<[t := p']> l) < work l)%nat.
Proof.
  unfold work. revert t. induction l as [|q l IH]; intros [|t] Hp Hlt; cbn in *; try done.
  - injection Hp as ->. lia.
  - specialize (IH t Hp Hlt). by apply Nat.add_lt_mono_l, IH.
Qed.

Lemma step_work s s' : step s s' -> (work (pool s') < work (pool s))%nat.
Proof. intros [s0 t p p' g' Hp Hn]. cbn. eapply work_insert; [exact Hp|]. by eapply tnext_todo. Qed.

(** A call that neither waits for the mutex nor for the once can go on. *)
Lemma can_step s t p : pool s !! t = Some p -> returned p = false ->
  (mutex (globals s) = None \/ holds p = true) ->
  (once (globals s) = NotStarted \/ once (globals s) = Done \/ building p = true \/ holds p = true) ->
  exists s', step s s'.
Proof.
  intros Hp Hr Hm Ho.
  assert (Hn : exists p' g', tnext t p (globals s) = Some (p', g')).
  { destruct (globals s) as [sh mu on]. cbn in Hm, Ho. destruct p; cbn in *; try done; try (by eexists _, _).
    - destruct on; [by eexists _, _|exfalso; naive_solver|by eexists _, _].
    - case_match; by eexists _, _.
    - destruct (fetch _ _ _) as [r s']. by eexists _, _.
    - destruct mu; [exfalso; naive_solver|by eexists _, _].
    - case_match; by eexists _, _.
    - destruct mu; [exfalso; naive_solver|by eexists _, _]. }
  destruct Hn as (p' & g' & Hn). eexists. by eapply step_thread.
Qed.

Lemma no_deadlock s : Inv s -> (exists s', step s s') \/ Forall (fun p => returned p = true) (pool s).
Proof.
  intros HI. destruct (mutex (globals s)) as [t|] eqn:Hm.
  { left. destruct (inv_mutex _ HI t Hm) as [p Hp]. pose proof (inv_placed _ HI _ _ Hp) as ([_ Hh] & _).
    specialize (Hh Hm). apply (can_step s t p Hp); [by destruct p|auto|auto]. }
  destruct (once (globals s)) as [|t|] eqn:Ho.
  2:{ left. destruct (inv_once _ HI t Ho) as [p Hp]. pose proof (inv_placed _ HI _ _ Hp) as (_ & [_ Hb] & _).
      specialize (Hb Ho). apply (can_step s t p Hp); [by destruct p|auto|auto]. }
  all: destruct (decide (Forall (fun p => returned p = true) (pool s))) as [Hall|Hn]; [by right|left];
    apply not_Forall_Exists in Hn; [|apply _]; apply Exists_exists in Hn as (p & Hin & Hr);
    apply list_elem_of_lookup_1 in Hin as [t Hp]; apply not_true_is_false in Hr;
    apply (can_step s t p Hp Hr); auto.
Qed.

(** ** The atomic machine

    The same calls, each of whose three operations is one step: the sequential definitions of [Jwks]. *)
Inductive apc :=
| ABegin (cr : HyperFleetConfig)
| ACache (issuer uri : string)
| ACached (issuer : string) (err : error)
| AReturned (r : outcome string).

Definition anext (p : apc) (s : RState W) : option (apc * RState W) :=
  match p with
  | ABegin cr =>
      if negb (api.AuthEnabled cr) || bool_decide (is_Some (JWKCertSecretRef (auth_of cr)))
      then Some (AReturned (Ok ""), s)
      else let '(r, s') := discoverJWKSURL HTTPClient (issuer_of cr) s in
           Some (match r with
                 | Ok uri => ACache (issuer_of cr) uri
                 | Fail err => ACached (issuer_of cr) err
                 | Panic => AReturned Panic
                 end, s')
  | ACache i u => let '(_, s') := cacheDiscovery i u s in Some (AReturned (Ok u), s')
  | ACached i e => let '(r, s') := cachedDiscovery i s in Some (AReturned (fallback e r), s')
  | AReturned _ => None
  end.

Inductive arun : apc -> RState W -> outcome string -> RState W -> Prop :=
| arun_returned r s : arun (AReturned r) s r s
| arun_step p s p' s' r s2 : anext p s = Some (p', s') -> arun p' s' r s2 -> arun p s r s2.

(** Alone, a call of the atomic machine is [resolveJWKSURL]. *)
Lemma atomic_alone cr s : arun (ABegin cr) s (fst (resolveJWKSURL HTTPClient cr s)) (snd (resolveJWKSURL HTTPClient cr s)).
Proof.
  unfold resolveJWKSURL. destruct (api.AuthEnabled cr) eqn:Ha; cbn [negb].
  2:{ eapply arun_step; [by cbn; rewrite Ha|constructor]. }
  destruct (JWKCertSecretRef (auth_of cr)) eqn:Hj.
  { eapply arun_step; [by cbn; rewrite Ha, Hj|constructor]. }
  destruct (discoverJWKSURL HTTPClient (issuer_of cr) s) as [r s1] eqn:E.
  pose proof (discoverJWKSURL_frame _ _ _ _ _ E) as (_ & _ & Hp).
  eapply arun_step; [cbn; rewrite Ha, Hj, E; reflexivity|].
  unfold st_bind. unfold issuer_of in *. rewrite E. destruct r as [u|e|]; [| |done].
  - eapply arun_step; [reflexivity|constructor].
  - unfold cachedDiscovery, get_state. destruct (rs_discoveryCache s1 ≫= lookup (Issuer (auth_of cr))) eqn:Ec;
      (eapply arun_step; [cbn; unfold get_state; rewrite Ec; reflexivity|constructor]).
Qed.

Record AState := mkAState { ashared : RState W; apool : list apc }.

Inductive astep : AState -> AState -> Prop :=
| astep_thread a t p p' s' :
    apool a !! t = Some p -> anext p (ashared a) = Some (p', s') ->
    astep a (mkAState s' (<[t := p']> (apool a))).

Definition ainitial (w : W) (m : metrics.Metrics) (crs : list HyperFleetConfig) : AState :=
  mkAState (mkRState w None None m) (ABegin <$> crs).

(** ** Refinement

    A discovery takes effect at its fetch, [cacheDiscovery] at its write and [cachedDiscovery] at its read. *)
Definition abs (p : pc) : apc :=
  match p with
  | Begin cr | OnceDo cr | OnceBuild cr | ReadClient cr | Fetch cr _ => ABegin cr
  | CacheLock i u | CacheInit i u | CacheWrite i u => ACache i u
  | CacheUnlock u => AReturned (Ok u)
  | CachedLock i e | CachedRead i e => ACached i e
  | CachedUnlock e r => AReturned (fallback e r)
  | Returned r => AReturned r
  end.

Definition same_state (c a : RState W) : Prop :=
  rs_world a = rs_world c /\ rs_metrics a = rs_metrics c /\ cache_of a = cache_of c
  /\ (rs_discoveryClient a = None \/ rs_discoveryClient a = Some newDiscoveryHTTPClient).

(** Discovery, once its request can be built, is a fetch with the client. *)
Lemma discover_is_fetch cr c a : same_state c a -> url.NewRequest (discoveryURL_of (issuer_of cr)) = None ->
  exists r c' a', fetch cr (default newDiscoveryHTTPClient HTTPClient) c = (r, c')
    /\ discoverJWKSURL HTTPClient (issuer_of cr) a = (r, a') /\ same_state c' a'.
Proof.
  intros (Hw & Hm & Hc & Hcl) Hn. unfold discoverJWKSURL, fetch, st_bind, lift_world, st_ret, discovery_client.
  unfold discoveryURL_of in *. rewrite Hn.
  destruct HTTPClient as [cl|]; cbn [default]; [|destruct Hcl as [Hcl|Hcl]; rewrite Hcl];
    unfold set_client; cbn [rs_world]; rewrite Hw;
    destruct (http_Do _ _ _) as [resp w']; eexists _, _, _; (split; [reflexivity|]); (split; [reflexivity|]);
    unfold same_state; cbn; auto.
Qed.

Lemma build_fails cr e a : url.NewRequest (discoveryURL_of (issuer_of cr)) = Some e ->
  discoverJWKSURL HTTPClient (issuer_of cr) a
  = (Fail (Wrapf "build discovery request for %q: %w" [discoveryURL_of (issuer_of cr)] e), a).
Proof. unfold discoverJWKSURL, discoveryURL_of. by intros ->. Qed.

(** Each step is a step of the atomic machine, or none. *)
Lemma tnext_sim t p g p' g' a : placed g t p -> same_state (shared g) a ->
  rs_discoveryClient (shared g) = match once g with Done => Some newDiscoveryHTTPClient | _ => None end ->
  tnext t p g = Some (p', g') ->
  (abs p' = abs p /\ same_state (shared g') a)
  \/ (exists a', anext (abs p) a = Some (abs p', a') /\ same_state (shared g') a').
Proof.
  destruct g as [s mu on]. intros (_ & _ & Hx & Hy) Hs Hcl. pose proof Hs as (Hw & Hm & Hc & Ha). cbn in Hw, Hm, Hc.
  destruct p; cbn in Hx, Hy, Hs, Hcl |- *; intros Hn.
  - injection Hn as <- <-. unfold begin. destruct (api.AuthEnabled cr) eqn:Hau; cbn [negb orb].
    2:{ right. by exists a. }
    destruct (JWKCertSecretRef (auth_of cr)) eqn:Hj; [right; by exists a|]. cbn [bool_decide].
    destruct (url.NewRequest _) as [e|] eqn:Hr; [|left; by destruct HTTPClient].
    right. rewrite bool_decide_eq_false_2 by (by intros [? ?]). rewrite (build_fails cr e a Hr). by exists a.
  - destruct on; [|done|]; injection Hn as <- <-; by left.
  - injection Hn as <- <-. left. by split.
  - subst on. rewrite Hcl in Hn. injection Hn as <- <-. by left.
  - destruct Hx as (-> & Hau & Hj & Hr). destruct (discover_is_fetch cr s a Hs Hr) as (r & c' & a' & Ef & Ed & Hs').
    rewrite Ef in Hn. injection Hn as <- <-. right. rewrite Hau, Hj, Ed. exists a'. split; [|done]. by destruct r.
  - destruct mu; [done|]. injection Hn as <- <-. by left.
  - injection Hn as <- <-. left. by split.
  - destruct Hx as [c Hc0]. rewrite Hc0 in Hn. injection Hn as <- <-. right. eexists. split; [reflexivity|].
    split_and!; try done. unfold cache_of in Hc |- *. cbn in Hc |- *. rewrite Hc0 in Hc. cbn in Hc. by rewrite Hc.
  - injection Hn as <- <-. by left.
  - destruct mu; [done|]. injection Hn as <- <-. by left.
  - injection Hn as <- <-. right. exists a. split; [|done]. cbn. do 3 f_equal.
    unfold cache_of in Hc. destruct (rs_discoveryCache a) as [ca|], (rs_discoveryCache s) as [cs|]; cbn in *; subst;
      by rewrite ?lookup_empty.
  - injection Hn as <- <-. by left.
  - done.
Qed.

Definition simulates (s : CState W) (a : AState) : Prop :=
  apool a = abs <$> pool s /\ same_state (shared (globals s)) (ashared a).

Lemma step_sim s s' a : Inv s -> step s s' -> simulates s a -> exists a', rtc astep a a' /\ simulates s' a'.
Proof.
  intros HI Hst [Hp Hs]. destruct Hst as [s t p p' g' Ht Hn].
  destruct (tnext_sim t p _ p' g' _ (inv_placed _ HI _ _ Ht) Hs (inv_client _ HI) Hn) as [[He Hs']|(a' & He & Hs')].
  - exists a. split; [done|]. split; [|done]. cbn. rewrite list_fmap_insert, He, Hp.
    symmetry. apply list_insert_id. by rewrite list_lookup_fmap, Ht.
  - exists (mkAState a' (<[t := abs p']> (apool a))). split.
    + apply rtc_once. eapply astep_thread; [|exact He]. by rewrite Hp, list_lookup_fmap, Ht.
    + split; [|done]. cbn. by rewrite list_fmap_insert, Hp.
Qed.

Lemma reachable_sim w m crs s : rtc step (initial w m crs) s ->
  exists a, rtc astep (ainitial w m crs) a /\ simulates s a.
Proof.
  assert (Hrtc : forall s1 s2, rtc step s1 s2 -> Inv s1 -> forall a, simulates s1 a ->
    exists a', rtc astep a a' /\ simulates s2 a').
  { induction 1 as [s1|s1 s2 s3 H12 _ IH]; intros HI a Hs; [by exists a|].
    destruct (step_sim _ _ _ HI H12 Hs) as (a1 & H1 & Hs1).
    destruct (IH (step_inv _ _ H12 HI) a1 Hs1) as (a2 & H2 & ?). exists a2. split; [by etrans|done]. }
  intros Hr. apply (Hrtc _ _ Hr); [apply initial_inv|]. split; [|by split_and!; auto].
  cbn. by rewrite <-list_fmap_compose.
Qed.

(** What the atomic machine never breaks. *)
Definition good_pc (p : apc) : Prop :=
  match p with
  | ACache _ uri => good_uri uri
  | AReturned (Ok uri) => uri = "" \/ good_uri uri
  | AReturned Panic => False
  | _ => True
  end.
Definition good_cache (s : RState W) : Prop := map_Forall (fun _ uri => good_uri uri) (cache_of s).

Lemma anext_good p s p' s' : anext p s = Some (p', s') -> good_cache s -> good_pc p -> good_cache s' /\ good_pc p'.
Proof.
  unfold good_cache. destruct p as [cr|i u|i e|r]; cbn; intros Hn Hc Hp; [| | |done].
  - destruct (_ || _); [injection Hn as <- <-; split; [done|by left]|].
    destruct (discoverJWKSURL HTTPClient (issuer_of cr) s) as [r s1] eqn:E. injection Hn as <- <-.
    pose proof (discoverJWKSURL_frame _ _ _ _ _ E) as (Hk & _ & Hr). unfold cache_of in *. rewrite Hk. split; [done|].
    destruct r as [u|e|]; [|done|done]. by apply discovered_url in E as (? & ? & ? & ? & ? & _ & _ & _ & _ & _ & _ & _ & Hg).
  - injection Hn as <- <-. split; [|by right]. unfold cache_of in *. cbn. by apply map_Forall_insert_2.
  - injection Hn as <- <-. split; [done|]. unfold cache_of in Hc. destruct (rs_discoveryCache s) as [c|]; cbn in *; [|done].
    destruct (c !! i) as [u|] eqn:El; [|done]. right. exact (Hc _ _ El).
Qed.

Lemma atomic_good a a' : rtc astep a a' -> good_cache (ashared a) /\ Forall good_pc (apool a) ->
  good_cache (ashared a') /\ Forall good_pc (apool a').
Proof.
  induction 1 as [|a1 a2 a3 [a t p p' s' Hp Hn] _ IH]; [done|]. intros [Hc Hl]. apply IH. cbn.
  destruct (anext_good _ _ _ _ Hn Hc) as [? ?]; [by eapply Forall_lookup_1|]. split; [done|]. by apply Forall_insert.
Qed.

Lemma reachable_good w m crs s : rtc step (initial w m crs) s ->
  good_cache (shared (globals s)) /\ Forall (fun p => good_pc (abs p)) (pool s).
Proof.
  intros (a & Ha & Hp & _ & _ & Hc & _)%reachable_sim. apply atomic_good in Ha as [Hg Hl].
  - unfold good_cache in *. rewrite Hc in Hg. split; [done|]. by rewrite Hp, Forall_fmap in Hl.
  - split; [apply map_Forall_empty|]. cbn. rewrite Forall_fmap. by apply Forall_forall.
Qed.

(** C11: however many calls of [resolveJWKSURL] run at once and however they interleave, the state
    they reach is one that atomic runs of [discoverJWKSURL], [cachedDiscovery] and
    [cacheDiscovery], in some order, reach from the same start: every call stands where it stands
    there, having returned the same, in the same world, with the same cache entries and metrics.
    (A call of the atomic machine that runs alone is [resolveJWKSURL]: [atomic_alone].) *)
Theorem concurrent_refines w m crs s (Hr : rtc step (initial w m crs) s) :
  exists a, rtc astep (ainitial w m crs) a /\ apool a = abs <$> pool s
  /\ rs_world (ashared a) = rs_world (shared (globals s))
  /\ cache_of (ashared a) = cache_of (shared (globals s))
  /\ rs_metrics (ashared a) = rs_metrics (shared (globals s)).
Proof. destruct (reachable_sim _ _ _ _ Hr) as (a & ? & ? & ? & ? & ? & _). by exists a. Qed.

(** C12: in every state that concurrent calls reach, no two of them are about to access the cache
    or the client with one about to write it; at most one holds the mutex; the cache holds
    validated URLs only and a client that was built is the hardened one; and a call
    that has returned did not panic, and returned the empty URL, a validated one or an error. *)
Theorem concurrent_safe w m crs s (Hr : rtc step (initial w m crs) s) :
  ~ race s
  /\ (forall t1 t2 p1 p2, pool s !! t1 = Some p1 -> pool s !! t2 = Some p2 ->
        holds p1 = true -> holds p2 = true -> t1 = t2)
  /\ discovery_inv (shared (globals s))
  /\ (forall t r, pool s !! t = Some (Returned r) ->
        r <> Panic /\ forall uri, r = Ok uri -> uri = "" \/ good_uri uri).
Proof.
  pose proof (reachable_inv _ _ _ _ Hr) as HI. destruct (reachable_good _ _ _ _ Hr) as [Hg Hl].
  split; [by apply no_race|]. split; [by intros *; apply one_holder|]. split.
  - split; [exact Hg|]. rewrite (inv_client _ HI). destruct (once (globals s)); auto.
  - intros t r Ht. pose proof (Forall_lookup_1 _ _ _ _ Hl Ht) as Hp. cbn in Hp. destruct r; [|done|done].
    split; [done|]. by intros u [= ->].
Qed.

Lemma nsteps_work n s s' : nsteps step n s s' -> (n + work (pool s') <= work (pool s))%nat.
Proof. induction 1 as [|n s1 s2 s3 Hst _ IH]; [lia|]. apply step_work in Hst. lia. Qed.

(** C13: concurrent calls all return.  Whatever the schedule, [n] calls take at most [9 * n] steps
    together; and no reachable state is stuck: as long as some call has not returned, some call can
    take a step.  So every run that goes on as long as it can ends with every call returned. *)
Theorem concurrent_completes w m crs :
  (forall n s, nsteps step n (initial w m crs) s -> (n <= 9 * length crs)%nat)
  /\ (forall s, rtc step (initial w m crs) s -> (exists s', step s s') \/ Forall (fun p => returned p = true) (pool s)).
Proof.
  split.
  - intros n s Hn%nsteps_work. enough (work (pool (initial w m crs)) = 9 * length crs)%nat by lia.
    clear. cbn. unfold work. induction crs as [|cr crs IH]; [done|]. cbn in *. lia.
  - intros s Hr. by eapply no_deadlock, reachable_inv.
Qed.

End machine.

(** ** A concrete run

    Two calls: both come to the once, the first builds the client, fetches and takes the mutex
    while the second is about to read the client. *)
Definition demo_schedule : list nat := [0; 1; 0; 0; 1; 0; 0; 0]%nat.
Definition demo_calls : CState Sim := initial demo_world metrics.zeroMetrics [demo_auth_cr; demo_auth_cr].

Lemma demo_interleaving : exists s, rtc (step None) demo_calls s
  /\ pool s = [CacheInit "https://idp" "https://idp/keys"; ReadClient demo_auth_cr].
Proof. apply (run_pool None demo_schedule). vm_compute. reflexivity. Qed.

Lemma concurrent_refines_witness : exists a, rtc (astep None)
    (ainitial demo_world metrics.zeroMetrics [demo_auth_cr; demo_auth_cr]) a
  /\ apool a = [ACache "https://idp" "https://idp/keys"; ABegin demo_auth_cr].
Proof.
  destruct demo_interleaving as (s & Hr & Hp).
  destruct (concurrent_refines None demo_world metrics.zeroMetrics [demo_auth_cr; demo_auth_cr] s Hr) as (a & Ha & He & _).
  exists a. split; [exact Ha|]. rewrite He, Hp. reflexivity.
Defined.

Lemma concurrent_safe_witness :
  exists s, rtc (step None) demo_calls s /\ ~ race s /\ discovery_inv (shared (globals s)).
Proof.
  destruct demo_interleaving as (s & Hr & Hp).
  destruct (concurrent_safe None demo_world metrics.zeroMetrics [demo_auth_cr; demo_auth_cr] s Hr) as (Hn & _ & Hi & _).
  exists s. split; [exact Hr|]. split; [exact Hn|exact Hi].
Defined.

Lemma concurrent_completes_witness : exists s s', rtc (step None) demo_calls s /\ step None s s'.
Proof.
  destruct demo_interleaving as (s & Hr & Hp). exists s.
  destruct (proj2 (concurrent_completes None demo_world metrics.zeroMetrics [demo_auth_cr; demo_auth_cr]) s Hr)
    as [[s' Hs]|Hall]; [by exists s'|].
  rewrite Hp in Hall. apply Forall_cons in Hall as [Hf _]. discriminate Hf.
Defined.

End locking.
