(* ===== verification/Status.v ===== *)
(** * Status aggregation ([internal/controller/hyperfleetconfig_status.go])

    Module [status] models the rollup of component conditions into the
    resource's status.  [meta.SetStatusCondition] belongs to apimachinery: it is
    the operation of the class [ConditionsLib], and [ConditionsLaws] is its
    documented behaviour. *)

From S2P Require Import Prelude Kube ConfigTypes Contract.

(** [SetStatusCondition now l c]: the list after the call, made at time [now],
    and whether it changed. *)
Class ConditionsLib := {
  SetStatusCondition (now : Z) (l : list Condition) (c : Condition) : list Condition * bool }.

(** A time that is set, or now. *)
Definition time_or (now t : Z) : Z := if (t =? 0)%Z then now else t.

Class ConditionsLaws `{!ConditionsLib} := {
  (* a type that is absent is appended, with its transition time set *)
  set_absent now l c :
    c_Type c ∉ (c_Type <$> l) ->
    SetStatusCondition now l c =
      (l ++ [mkCondition (c_Type c) (c_Status c) (c_ObservedGeneration c)
               (time_or now (c_LastTransitionTime c)) (c_Reason c) (c_Message c)], true);
  (* a type that is present is updated in place; its transition time moves only
     with its status; the result tells whether a field changed *)
  set_present now l1 e l2 c :
    c_Type e = c_Type c -> c_Type c ∉ (c_Type <$> l1) ->
    let e' := mkCondition (c_Type e) (c_Status c) (c_ObservedGeneration c)
                (if String.eqb (c_Status e) (c_Status c) then c_LastTransitionTime e
                 else time_or now (c_LastTransitionTime c)) (c_Reason c) (c_Message c) in
    fst (SetStatusCondition now (l1 ++ e :: l2) c) = l1 ++ e' :: l2
    /\ snd (SetStatusCondition now (l1 ++ e :: l2) c)
       = negb (String.eqb (c_Status e) (c_Status c) && String.eqb (c_Reason e) (c_Reason c)
               && String.eqb (c_Message e) (c_Message c)
               && (c_ObservedGeneration e =? c_ObservedGeneration c)%Z);
}.

Module status.

(** ** The code *)

Fixpoint flattenConditions (componentConditions : list ComponentConditions) : list Condition :=
  match componentConditions with
  | [] => []
  | entry :: rest => cc_Conditions entry ++ flattenConditions rest
  end.

Fixpoint findComponentEntry (entries : list ComponentConditions) (name : string) :
    option ComponentConditions :=
  match entries with
  | [] => None
  | e :: rest => if String.eqb (cc_Name e) name then Some e else findComponentEntry rest name
  end.

Fixpoint rollupCondition (condType : string) (componentConditions : list Condition)
    (defaultReason defaultMessage expectedConditionStatus : string) : Condition :=
  match componentConditions with
  | [] => newCondition condType expectedConditionStatus defaultReason defaultMessage
  | c :: rest =>
      if String.eqb (c_Type c) condType && negb (String.eqb (c_Status c) expectedConditionStatus)
      then newCondition condType (c_Status c) (c_Reason c) (c_Message c)
      else rollupCondition condType rest defaultReason defaultMessage expectedConditionStatus
  end.

Definition degradedCondition (missingSecrets : list string) (reconcileErr : option error) : Condition :=
  match missingSecrets, reconcileErr with
  | _ :: _, _ =>
      newCondition ConditionDegraded ConditionTrue ReasonReferencedSecretMissing
        ("referenced secret(s) missing in the operator's namespace: " +:+ JoinStrings missingSecrets ", ")
  | [], Some _ =>
      newCondition ConditionDegraded ConditionTrue ReasonReconcileError
        "the last reconcile failed; see the operator's logs for details"
  | [], None =>
      newCondition ConditionDegraded ConditionFalse ReasonAsExpected "no failure detected"
  end.

Section aggregate.
Context {W : Type} `{!ConditionsLib} (now : ST W Z).

(** A loop of [meta.SetStatusCondition(&l, c)]; whether any call changed [l]. *)
Fixpoint set_conditions (fresh l : list Condition) : ST W (list Condition * bool) :=
  match fresh with
  | [] => st_ret (l, false)
  | c :: rest =>
      (let! t := now in
       let '(l1, changed) := SetStatusCondition t l c in
       let! (l2, changed2) := set_conditions rest l1 in
       st_ret (l2, changed || changed2))%st
  end.

(** The seeded list of one entry: the published conditions still reported. *)
Definition seed (prevConds fresh : list Condition) : list Condition :=
  filter (fun c => c_Type c ∈ (c_Type <$> fresh)) prevConds.

Definition merge_entry (cr : HyperFleetConfig) (entry : ComponentConditions) :
    ST W ComponentConditions :=
  let prevConds := match findComponentEntry (status_Components (cr_Status cr)) (cc_Name entry) with
                   | Some p => cc_Conditions p | None => [] end in
  let fresh := cc_Conditions entry in
  (let! (conds, _) := set_conditions (map (set_ObservedGeneration (cr_Generation cr)) fresh)
                        (seed prevConds fresh) in
   st_ret (mkComponentConditions (cc_Name entry) conds))%st.

Fixpoint merge_entries (cr : HyperFleetConfig) (entries : list ComponentConditions) :
    ST W (list ComponentConditions) :=
  match entries with
  | [] => st_ret []
  | e :: rest =>
      (let! e' := merge_entry cr e in let! rest' := merge_entries cr rest in st_ret (e' :: rest'))%st
  end.

Definition with_components (cr : HyperFleetConfig) (l : list ComponentConditions) : HyperFleetConfig :=
  with_status cr (mkStatus (status_ObservedGeneration (cr_Status cr)) (status_Conditions (cr_Status cr)) l).
Definition with_observed (cr : HyperFleetConfig) (g : Z) : HyperFleetConfig :=
  with_status cr (mkStatus g (status_Conditions (cr_Status cr)) (status_Components (cr_Status cr))).

Definition setComponentStatuses (cr : HyperFleetConfig)
    (componentConditions : list ComponentConditions) : ST W (HyperFleetConfig * bool) :=
  (let! entries := merge_entries cr (SortBy cc_Name componentConditions) in
   let prev := SortBy cc_Name (status_Components (cr_Status cr)) in
   st_ret (with_components cr entries, negb (bool_decide (prev = entries))))%st.

(** The conditions the first loop publishes. *)
Definition fresh_conditions (cr : HyperFleetConfig) (componentConditions : list ComponentConditions)
    (componentsCollected : bool) (missingSecrets : list string) (reconcileErr : option error) :
    list Condition :=
  let flat := flattenConditions componentConditions in
  map (set_ObservedGeneration (cr_Generation cr))
    (degradedCondition missingSecrets reconcileErr ::
     if componentsCollected then
       [rollupCondition ConditionAvailable flat ReasonDeploymentAvailable
          "all components are available" ConditionTrue;
        rollupCondition ConditionProgressing flat ReasonRolloutComplete
          "all components have completed rollout" ConditionFalse]
     else []).

Definition aggregateStatus (cr : HyperFleetConfig) (componentConditions : list ComponentConditions)
    (componentsCollected : bool) (missingSecrets : list string) (reconcileErr : option error) :
    ST W (HyperFleetConfig * bool) :=
  (let! (conds, changed) :=
     set_conditions (fresh_conditions cr componentConditions componentsCollected missingSecrets reconcileErr)
       (status_Conditions (cr_Status cr)) in
   let cr1 := with_status cr (with_conditions (cr_Status cr) conds) in
   if componentsCollected then
     let! (cr2, changed2) := setComponentStatuses cr1 componentConditions in
     let g := cr_Generation cr2 in
     if (status_ObservedGeneration (cr_Status cr2) =? g)%Z
     then st_ret (cr2, changed || changed2)
     else st_ret (with_observed cr2 g, true)
   else st_ret (cr1, changed))%st.

(** Aggregation acts on the world through the clock only: what every reading of
    the clock preserves, it preserves. *)
Lemma set_conditions_frame (R : relation W) `{!PreOrder R} fresh l w :
  (forall w, R w (snd (now w))) -> R w (snd (set_conditions fresh l w)).
Proof.
  intros Hn. revert l w. induction fresh as [|c fresh IH]; intros l w; cbn; [done|].
  unfold st_bind. pose proof (Hn w) as H1. destruct (now w) as [t w1]. cbn in H1.
  destruct (SetStatusCondition t l c) as [l1 ch].
  pose proof (IH l1 w1) as H2. destruct (set_conditions fresh l1 w1) as [[l2 ch2] w2].
  cbn in *. by etrans.
Qed.

Lemma merge_entries_frame (R : relation W) `{!PreOrder R} cr entries w :
  (forall w, R w (snd (now w))) -> R w (snd (merge_entries cr entries w)).
Proof.
  intros Hn. revert w. induction entries as [|e entries IH]; intros w; cbn; [done|].
  unfold st_bind, merge_entry, st_bind.
  match goal with |- context [set_conditions ?f ?l w] =>
    pose proof (set_conditions_frame R f l w Hn) as H1; destruct (set_conditions f l w) as [[conds ch] w1] end.
  cbn in *. specialize (IH w1). destruct (merge_entries cr entries w1) as [rest w2]. cbn in *. by etrans.
Qed.

Lemma aggregateStatus_frame (R : relation W) `{!PreOrder R} cr reps col miss err w :
  (forall w, R w (snd (now w))) -> R w (snd (aggregateStatus cr reps col miss err w)).
Proof.
  intros Hn. unfold aggregateStatus, st_bind.
  match goal with |- context [set_conditions ?f ?l w] =>
    pose proof (set_conditions_frame R f l w Hn) as H1; destruct (set_conditions f l w) as [[conds ch] w1] end.
  destruct col; [|exact H1]. unfold setComponentStatuses, st_bind.
  match goal with |- context [merge_entries ?c ?l w1] =>
    pose proof (merge_entries_frame R c l w1 Hn) as H2; destruct (merge_entries c l w1) as [es w2] end.
  cbn in *. case_match; cbn; by etrans.
Qed.

(** Only the status is written. *)
Lemma aggregateStatus_status cr reps col miss err w :
  let cr' := fst (fst (aggregateStatus cr reps col miss err w)) in
  with_status cr (cr_Status cr') = cr'.
Proof.
  unfold aggregateStatus, setComponentStatuses, st_bind. destruct (set_conditions _ _ w) as [[conds ch] w1].
  destruct col; [|done]. destruct (merge_entries _ _ w1) as [es w2]. cbn. by case_match.
Qed.

End aggregate.

(** ** Rolling up *)

Lemma rollupCondition_type t l r m s : c_Type (rollupCondition t l r m s) = t.
Proof. induction l as [|c l IH]; [done|]. cbn. by case_match. Qed.

Lemma flattenConditions_elem c l :
  c ∈ flattenConditions l <-> exists e, e ∈ l /\ c ∈ cc_Conditions e.
Proof.
  induction l as [|e l IH]; cbn.
  - split; [intros H; by apply not_elem_of_nil in H|intros (? & H & _); by apply not_elem_of_nil in H].
  - rewrite elem_of_app, IH. split.
    + intros [?|(e' & ? & ?)]; [exists e; by split; [left|]|exists e'; split; [by right|done]].
    + intros (e' & He & ?). apply elem_of_cons in He as [->|He]; [by left|right; eauto].
Qed.

Lemma rollup_expected t l r m s :
  c_Status (rollupCondition t l r m s) = s <-> forall c, c ∈ l -> c_Type c = t -> c_Status c = s.
Proof.
  induction l as [|c l IH]; cbn.
  - split; [intros _ c H; by apply not_elem_of_nil in H|done].
  - destruct (String.eqb_spec (c_Type c) t) as [Et|Et]; destruct (String.eqb_spec (c_Status c) s) as [Es|Es]; cbn.
    2:{ split; [done|]. intros H. by apply H; [left|]. }
    all: rewrite IH; split; [|intros H c' ?; apply H; by right];
      intros H c' Hc ?; apply elem_of_cons in Hc as [->|Hc]; [by try done|by apply H].
Qed.

(** Over the conditions of all components, Available is published
    True exactly when every reported Available is True (AND), Progressing is
    published False exactly when every reported Progressing is False (OR of
    True); otherwise the first offending component condition is published as it is. *)
Theorem rollup_spec reports :
  let flat := flattenConditions reports in
  let a := rollupCondition ConditionAvailable flat ReasonDeploymentAvailable
             "all components are available" ConditionTrue in
  let p := rollupCondition ConditionProgressing flat ReasonRolloutComplete
             "all components have completed rollout" ConditionFalse in
  (c_Status a = ConditionTrue <->
     forall e c, e ∈ reports -> c ∈ cc_Conditions e -> c_Type c = ConditionAvailable ->
       c_Status c = ConditionTrue)
  /\ (c_Status p = ConditionFalse <->
     forall e c, e ∈ reports -> c ∈ cc_Conditions e -> c_Type c = ConditionProgressing ->
       c_Status c = ConditionFalse)
  /\ (c_Status a <> ConditionTrue -> exists e c, e ∈ reports /\ c ∈ cc_Conditions e
        /\ c_Type c = ConditionAvailable /\ a = newCondition (c_Type c) (c_Status c) (c_Reason c) (c_Message c))
  /\ (c_Status p <> ConditionFalse -> exists e c, e ∈ reports /\ c ∈ cc_Conditions e
        /\ c_Type c = ConditionProgressing /\ p = newCondition (c_Type c) (c_Status c) (c_Reason c) (c_Message c)).
Proof.
  cbv zeta.
  assert (Hoff : forall t l r m s, c_Status (rollupCondition t l r m s) <> s ->
    exists c, c ∈ l /\ c_Type c = t
      /\ rollupCondition t l r m s = newCondition (c_Type c) (c_Status c) (c_Reason c) (c_Message c)).
  { intros t l r m s. induction l as [|c l IH]; cbn; [done|].
    destruct (String.eqb_spec (c_Type c) t) as [<-|Et]; cbn;
      [destruct (String.eqb (c_Status c) s); cbn|].
    2:{ intros _. exists c. split; [by left|done]. }
    all: intros H; destruct (IH H) as (c' & ? & ? & ?); exists c'; split; [by right|done]. }
  split_and!.
  - rewrite rollup_expected. split; intros H.
    + intros e c He Hc. apply H. apply flattenConditions_elem. eauto.
    + intros c Hc. apply flattenConditions_elem in Hc as (e & ? & ?). eauto.
  - rewrite rollup_expected. split; intros H.
    + intros e c He Hc. apply H. apply flattenConditions_elem. eauto.
    + intros c Hc. apply flattenConditions_elem in Hc as (e & ? & ?). eauto.
  - intros H. apply Hoff in H as (c & Hc & Ht & ->). apply flattenConditions_elem in Hc as (e & ? & ?). eauto 10.
  - intros H. apply Hoff in H as (c & Hc & Ht & ->). apply flattenConditions_elem in Hc as (e & ? & ?). eauto 10.
Qed.

(** Degraded is True exactly when a referenced Secret is missing or
    the reconcile failed, with the missing Secrets taking precedence; and it
    says nothing about the error: two failures with different errors publish the same condition. *)
Theorem degraded_spec missing err :
  let d := degradedCondition missing err in
  c_Type d = ConditionDegraded
  /\ (c_Status d = ConditionTrue <-> missing <> [] \/ is_Some err)
  /\ (c_Status d = ConditionFalse <-> missing = [] /\ err = None)
  /\ (c_Reason d = ReasonReferencedSecretMissing <-> missing <> [])
  /\ (c_Reason d = ReasonReconcileError <-> missing = [] /\ is_Some err)
  /\ forall err', is_Some err -> is_Some err' -> degradedCondition missing err' = d.
Proof.
  cbv zeta.
  destruct missing as [|s missing], err as [e|]; cbn; split_and!; try split; intros;
    repeat match goal with
    | H : _ \/ _ |- _ => destruct H
    | H : _ /\ _ |- _ => destruct H
    | H : is_Some _ |- _ => destruct H as [? H]; simplify_eq
    end; try done; eauto; try (by left); try (by right; eauto).
Qed.

(** ** Condition lists *)

Fixpoint find_cond (t : string) (l : list Condition) : option Condition :=
  match l with
  | [] => None
  | c :: l' => if String.eqb (c_Type c) t then Some c else find_cond t l'
  end.

Lemma find_cond_none t l : find_cond t l = None <-> t ∉ fmap c_Type l.
Proof.
  induction l as [|c l IH]; cbn; [split; [intros _ H; by apply not_elem_of_nil in H|done]|].
  rewrite not_elem_of_cons. destruct (String.eqb_spec (c_Type c) t) as [<-|Hn].
  - split; [done|]. by intros [? _].
  - rewrite IH. split; [auto|by intros [_ ?]].
Qed.

Lemma find_cond_some t l c :
  find_cond t l = Some c <-> exists l1 l2, l = l1 ++ c :: l2 /\ c_Type c = t /\ t ∉ fmap c_Type l1.
Proof.
  induction l as [|d l IH]; cbn.
  - split; [done|]. intros ([|? ?] & ? & ? & _); done.
  - destruct (String.eqb_spec (c_Type d) t) as [E|E].
    + split.
      * intros [= <-]. exists [], l. split_and!; [done|done|apply not_elem_of_nil].
      * intros ([|d' l1] & l2 & [= -> ->] & ? & Hn); [done|]. exfalso. apply Hn. cbn. rewrite E. left.
    + rewrite IH. split.
      * intros (l1 & l2 & -> & ? & ?). exists (d :: l1), l2. split_and!; [done|done|].
        cbn. rewrite not_elem_of_cons. auto.
      * intros ([|d' l1] & l2 & [= -> ->] & ? & Hn); [done|]. cbn in Hn.
        apply not_elem_of_cons in Hn as [_ Hn]. by exists l1, l2.
Qed.

Lemma find_cond_app t l1 l2 :
  find_cond t (l1 ++ l2) = match find_cond t l1 with Some c => Some c | None => find_cond t l2 end.
Proof. induction l1 as [|c l1 IH]; [done|]. cbn. by destruct (String.eqb _ _). Qed.

Lemma find_cond_type t l c : find_cond t l = Some c -> c_Type c = t.
Proof. intros H. by apply find_cond_some in H as (? & ? & _ & ? & _). Qed.

Lemma find_cond_filter (P : Condition -> Prop) `{!forall c, Decision (P c)} t l :
  (forall c, c_Type c = t -> P c) -> find_cond t (filter P l) = find_cond t l.
Proof.
  intros HP. induction l as [|c l IH]; [done|]. rewrite filter_cons. cbn.
  destruct (String.eqb_spec (c_Type c) t) as [E|E].
  - rewrite decide_True by auto. cbn. by rewrite (proj2 (String.eqb_eq _ _) E).
  - case_decide; [|done]. cbn. by rewrite (proj2 (String.eqb_neq _ _) E).
Qed.

Lemma filter_id {A} (P : A -> Prop) `{!forall a, Decision (P a)} (l : list A) :
  (forall a, a ∈ l -> P a) -> filter P l = l.
Proof.
  induction l as [|a l IH]; intros HP; [done|].
  rewrite filter_cons_True by (apply HP; left). f_equal. apply IH. intros b Hb. apply HP. by right.
Qed.

(** A published condition carries what was reported. *)
Definition reports (e c : Condition) : Prop :=
  c_Status e = c_Status c /\ c_Reason e = c_Reason c /\ c_Message e = c_Message c
  /\ c_ObservedGeneration e = c_ObservedGeneration c.

(** A transition time is kept when the status of the condition [before] is kept. *)
Definition keeps_time (before : option Condition) (e' c : Condition) : Prop :=
  forall e, before = Some e -> c_Status e = c_Status c -> c_LastTransitionTime e' = c_LastTransitionTime e.

Section laws.
Context {W : Type} `{CL : ConditionsLib} `{CLaws : !ConditionsLaws} (now : ST W Z).

(** One call of [SetStatusCondition], in terms of lookups. *)
Lemma set_one t l c :
  let '(l', changed) := SetStatusCondition t l c in
  (exists e', find_cond (c_Type c) l' = Some e' /\ reports e' c
     /\ keeps_time (find_cond (c_Type c) l) e' c)
  /\ (forall u, u <> c_Type c -> find_cond u l' = find_cond u l)
  /\ (forall u, u ∈ fmap c_Type l' <-> u ∈ fmap c_Type l \/ u = c_Type c)
  /\ (changed = false <-> l' = l)
  /\ (NoDup (fmap c_Type l) -> NoDup (fmap c_Type l')).
Proof.
  destruct (find_cond (c_Type c) l) as [e|] eqn:E.
  - apply find_cond_some in E as (l1 & l2 & -> & Et & Hn).
    pose proof (set_present t l1 e l2 c Et Hn) as [H1 H2].
    destruct (SetStatusCondition t (l1 ++ e :: l2) c) as [l' ch]. cbn [fst snd] in *. subst l' ch.
    set (e' := mkCondition _ _ _ _ _ _).
    assert (Et' : c_Type e' = c_Type c) by done.
    assert (Hty : fmap c_Type (l1 ++ e' :: l2) = fmap c_Type (l1 ++ e :: l2)) by (by rewrite !fmap_app).
    rewrite Hty. split_and!.
    + exists e'. split; [apply find_cond_some; by exists l1, l2|]. split; [done|].
      intros e0 [= <-] Es. cbn. by rewrite (proj2 (String.eqb_eq _ _) Es).
    + intros u Hu. rewrite !find_cond_app. cbn. rewrite Et.
      by rewrite (proj2 (String.eqb_neq (c_Type c) u)).
    + intros u. split; [auto|]. intros [?| ->]; [done|]. rewrite fmap_app, fmap_cons, <-Et. set_solver.
    + rewrite negb_false_iff, !andb_true_iff, !String.eqb_eq, Z.eqb_eq. split.
      * intros [[[Hs Hr] Hm] Hg]. f_equal. unfold e'.
        rewrite (proj2 (String.eqb_eq _ _) Hs), <-Hs, <-Hr, <-Hm, <-Hg. by destruct e.
      * intros Heq. apply app_inv_head in Heq. assert (Heq' : e' = e) by congruence.
        pose proof (f_equal c_Status Heq') as Es. pose proof (f_equal c_Reason Heq') as Er.
        pose proof (f_equal c_Message Heq') as Em. pose proof (f_equal c_ObservedGeneration Heq') as Eg.
        by repeat split.
    + done.
  - apply find_cond_none in E. rewrite (set_absent t l c E).
    set (e' := mkCondition _ _ _ _ _ _). split_and!.
    + exists e'. split; [apply find_cond_some; exists l, []; by split_and!|]. split; [done|]. by intros e.
    + intros u Hu. rewrite find_cond_app. cbn.
      rewrite (proj2 (String.eqb_neq (c_Type c) u)) by done. by destruct (find_cond u l).
    + intros u. rewrite fmap_app. cbn. set_solver.
    + split; [done|]. intros Hl. apply (f_equal length) in Hl. rewrite length_app in Hl. cbn in Hl. lia.
    + intros Hnd. rewrite fmap_app. apply NoDup_app. split; [done|]. split; [set_solver|apply NoDup_singleton].
Qed.

Lemma set_one_noop t l c e :
  find_cond (c_Type c) l = Some e -> reports e c -> SetStatusCondition t l c = (l, false).
Proof.
  intros Hf (Hs & Hr & Hm & Hg). apply find_cond_some in Hf as (l1 & l2 & -> & Et & Hn).
  pose proof (set_present t l1 e l2 c Et Hn) as [H1 H2].
  destruct (SetStatusCondition t (l1 ++ e :: l2) c) as [l' ch]. cbn [fst snd] in *. subst l' ch.
  rewrite Hs, Hr, Hm, Hg, !String.eqb_refl, Z.eqb_refl. cbn. f_equal. f_equal. f_equal.
  rewrite <-Hs, <-Hr, <-Hm, <-Hg. by destruct e.
Qed.

Lemma set_conditions_spec fresh l w :
  NoDup (fmap c_Type fresh) ->
  let '((l', changed), w') := set_conditions now fresh l w in
  (forall c, c ∈ fresh -> exists e', find_cond (c_Type c) l' = Some e' /\ reports e' c
       /\ keeps_time (find_cond (c_Type c) l) e' c)
  /\ (forall u, u ∉ fmap c_Type fresh -> find_cond u l' = find_cond u l)
  /\ (forall u, u ∈ fmap c_Type l' <-> u ∈ fmap c_Type l \/ u ∈ fmap c_Type fresh)
  /\ (changed = false -> l' = l)
  /\ (NoDup (fmap c_Type l) -> NoDup (fmap c_Type l')).
Proof.
  revert l w. induction fresh as [|c fresh IH]; intros l w Hnd; cbn.
  { split_and!; try done; [|set_solver]. intros c H. by apply not_elem_of_nil in H. }
  apply NoDup_cons in Hnd as [Hc Hnd]. unfold st_bind. destruct (now w) as [t w1].
  pose proof (set_one t l c) as H1. destruct (SetStatusCondition t l c) as [l1 ch1].
  destruct H1 as ((e1 & Hf1 & Hr1 & Hk1) & Ho1 & Ht1 & Hch1 & Hn1).
  specialize (IH l1 w1 Hnd). destruct (set_conditions now fresh l1 w1) as [[l2 ch2] w2].
  destruct IH as (Ha & Ho & Ht & Hch & Hn). cbn. split_and!.
  - intros c' Hc'. apply elem_of_cons in Hc' as [->|Hc'].
    + exists e1. rewrite Ho by done. done.
    + destruct (Ha c' Hc') as (e' & Hf & Hr & Hk). exists e'. split_and!; [done|done|].
      rewrite <-(Ho1 (c_Type c')); [done|]. intros E. apply Hc. rewrite <-E. by apply list_elem_of_fmap_2.
  - intros u Hu. apply not_elem_of_cons in Hu as [Hu Hu']. by rewrite Ho, Ho1.
  - intros u. rewrite Ht, Ht1, elem_of_cons. tauto.
  - intros H. apply orb_false_iff in H as [Hc1 Hc2]. apply Hch1 in Hc1 as ->. by rewrite Hch.
  - auto.
Qed.

Lemma set_conditions_noop fresh l w :
  (forall c, c ∈ fresh -> exists e, find_cond (c_Type c) l = Some e /\ reports e c) ->
  fst (set_conditions now fresh l w) = (l, false).
Proof.
  revert w. induction fresh as [|c fresh IH]; intros w H; [done|]. cbn. unfold st_bind.
  destruct (now w) as [t w1]. destruct (H c ltac:(left)) as (e & He & Hr).
  rewrite (set_one_noop t l c e He Hr).
  specialize (IH w1 ltac:(intros c' Hc'; apply H; by right)).
  destruct (set_conditions now fresh l w1) as [[l2 ch2] w2]. cbn in *. by injection IH as -> ->.
Qed.

(** ** One component's entry *)

(** [published prev fresh gen conds]: [conds] is what should be published for
    a component that reported [fresh] and whose last entry was [prev]. *)
Definition published (prev fresh : list Condition) (gen : Z) (conds : list Condition) : Prop :=
  (forall t, t ∈ fmap c_Type conds <-> t ∈ fmap c_Type fresh)
  /\ forall c, c ∈ fresh -> exists e, find_cond (c_Type c) conds = Some e
       /\ reports e (set_ObservedGeneration gen c)
       /\ keeps_time (find_cond (c_Type c) prev) e c.

Definition prev_conditions (cr : HyperFleetConfig) (name : string) : list Condition :=
  match findComponentEntry (status_Components (cr_Status cr)) name with
  | Some p => cc_Conditions p | None => [] end.

Lemma types_set_gen g l : fmap c_Type (map (set_ObservedGeneration g) l) = fmap c_Type l.
Proof. induction l as [|c l IH]; [done|]. cbn. by f_equal. Qed.

Lemma seed_types prev fresh t : t ∈ fmap c_Type (seed prev fresh) -> t ∈ fmap c_Type fresh.
Proof.
  intros H. apply list_elem_of_fmap in H as (c & -> & Hc). unfold seed in Hc.
  by apply list_elem_of_filter in Hc as [? _].
Qed.

Lemma merge_entry_spec cr entry w :
  NoDup (fmap c_Type (cc_Conditions entry)) ->
  let '(entry', w') := merge_entry now cr entry w in
  cc_Name entry' = cc_Name entry
  /\ published (prev_conditions cr (cc_Name entry)) (cc_Conditions entry) (cr_Generation cr) (cc_Conditions entry').
Proof.
  intros Hnd. unfold merge_entry, st_bind. fold (prev_conditions cr (cc_Name entry)).
  set (fresh := cc_Conditions entry) in *. set (prev := prev_conditions cr (cc_Name entry)).
  pose proof (set_conditions_spec (map (set_ObservedGeneration (cr_Generation cr)) fresh) (seed prev fresh) w) as H.
  rewrite types_set_gen in H. specialize (H Hnd).
  destruct (set_conditions now _ _ w) as [[conds ch] w']. destruct H as (Ha & _ & Ht & _). cbn.
  split; [done|]. split.
  - intros t. rewrite Ht. split; [intros [?|?]; [by eapply seed_types|done]|auto].
  - intros c Hc. destruct (Ha (set_ObservedGeneration (cr_Generation cr) c)) as (e & Hf & Hr & Hk).
    { apply list_elem_of_fmap. by exists c. }
    exists e. split_and!; [exact Hf|exact Hr|]. intros e0 He0 Hs. apply Hk; [|exact Hs].
    unfold seed. rewrite find_cond_filter; [exact He0|].
    intros c' E. cbn in E. rewrite E. by apply list_elem_of_fmap_2.
Qed.

Lemma merge_entry_noop cr entry conds w :
  prev_conditions cr (cc_Name entry) = conds ->
  published [] (cc_Conditions entry) (cr_Generation cr) conds ->
  fst (merge_entry now cr entry w) = mkComponentConditions (cc_Name entry) conds.
Proof.
  intros Hp [Ht Hc]. unfold merge_entry, st_bind. fold (prev_conditions cr (cc_Name entry)). rewrite Hp.
  assert (Hs : seed conds (cc_Conditions entry) = conds).
  { unfold seed. apply filter_id. intros c Hin. apply Ht. by apply list_elem_of_fmap_2. }
  rewrite Hs.
  pose proof (set_conditions_noop (map (set_ObservedGeneration (cr_Generation cr)) (cc_Conditions entry)) conds w) as H.
  destruct (set_conditions now _ conds w) as [[l ch] w']. cbn in *.
  assert (E : (l, ch) = (conds, false)).
  { apply H. intros c Hin. apply list_elem_of_fmap in Hin as (c0 & -> & Hc0).
    destruct (Hc c0 Hc0) as (e & Hf & Hr & _). by exists e. }
  by injection E as -> ->.
Qed.

(** ** All entries *)

Definition entry_published (cr : HyperFleetConfig) (e e' : ComponentConditions) : Prop :=
  cc_Name e' = cc_Name e
  /\ published (prev_conditions cr (cc_Name e)) (cc_Conditions e) (cr_Generation cr) (cc_Conditions e').

Lemma merge_entries_spec cr es w :
  Forall (fun e => NoDup (c_Type <$> cc_Conditions e)) es ->
  Forall2 (entry_published cr) es (fst (merge_entries now cr es w)).
Proof.
  intros Hnd. revert w. induction Hnd as [|e es He Hes IH]; intros w; [constructor|]. cbn. unfold st_bind.
  pose proof (merge_entry_spec cr e w He) as H1. destruct (merge_entry now cr e w) as [e' w1].
  specialize (IH w1). destruct (merge_entries now cr es w1) as [es' w2]. by constructor.
Qed.

Lemma merge_entries_noop cr es es' w :
  Forall2 (fun e e' => cc_Name e' = cc_Name e
             /\ published [] (cc_Conditions e) (cr_Generation cr) (cc_Conditions e')) es es' ->
  Forall (fun e' => prev_conditions cr (cc_Name e') = cc_Conditions e') es' ->
  fst (merge_entries now cr es w) = es'.
Proof.
  intros H. revert w. induction H as [|e e' es es' [Hn Hp] Hes IH]; intros w Hall; [done|].
  apply Forall_cons in Hall as [He Hall]. cbn. unfold st_bind. rewrite Hn in He.
  pose proof (merge_entry_noop cr e (cc_Conditions e') w He Hp) as H1.
  destruct (merge_entry now cr e w) as [e1 w1]. cbn in H1. subst e1. specialize (IH w1 Hall).
  destruct (merge_entries now cr es w1) as [es1 w2]. cbn in *. subst es1. f_equal.
  rewrite <-Hn. by destruct e'.
Qed.

Lemma findComponentEntry_in es e :
  NoDup (cc_Name <$> es) -> e ∈ es -> findComponentEntry es (cc_Name e) = Some e.
Proof.
  induction es as [|d es IH]; intros Hnd He; [by apply not_elem_of_nil in He|].
  cbn in *. apply NoDup_cons in Hnd as [Hd Hnd]. apply elem_of_cons in He as [->|He].
  - by rewrite String.eqb_refl.
  - destruct (String.eqb_spec (cc_Name d) (cc_Name e)) as [E|]; [|by apply IH].
    destruct Hd. rewrite E. by apply list_elem_of_fmap_2.
Qed.

Lemma Forall2_names cr es es' : Forall2 (entry_published cr) es es' -> cc_Name <$> es' = cc_Name <$> es.
Proof. induction 1 as [|e e' es es' [Hn _] _ IH]; [done|]. cbn. by rewrite Hn, IH. Qed.

Lemma keeps_nothing e c : keeps_time None e c.
Proof. by intros ?. Qed.

Lemma published_weaken prev fresh g conds : published prev fresh g conds -> published [] fresh g conds.
Proof.
  intros [Ht Hc]. split; [done|]. intros c Hin. destruct (Hc c Hin) as (e & ? & ? & _).
  exists e. split_and!; [done|done|apply keeps_nothing].
Qed.

Lemma names_sorted cr es es' :
  Forall2 (entry_published cr) es es' -> Sorted (key_le cc_Name) es -> Sorted (key_le cc_Name) es'.
Proof.
  induction 1 as [|e e' es es' [Hn _] H IH]; intros Hs; [done|].
  apply Sorted_inv in Hs as [Hs Hd]. constructor; [by apply IH|].
  destruct H as [|d d' ds ds' [Hdn _] H]; constructor.
  apply HdRel_inv in Hd. unfold key_le in *. by rewrite Hn, Hdn.
Qed.

Lemma types_sorted reps :
  Forall (fun e => NoDup (c_Type <$> cc_Conditions e)) reps ->
  Forall (fun e => NoDup (c_Type <$> cc_Conditions e)) (SortBy cc_Name reps).
Proof. rewrite !Forall_forall. intros H e He. apply H. by rewrite (SortBy_perm cc_Name reps) in He. Qed.

(** ** The whole aggregation *)

Lemma fresh_conditions_types cr reps col miss err :
  c_Type <$> fresh_conditions cr reps col miss err
  = ConditionDegraded :: (if col then [ConditionAvailable; ConditionProgressing] else []).
Proof.
  unfold fresh_conditions. rewrite types_set_gen.
  assert (Hd : c_Type (degradedCondition miss err) = ConditionDegraded) by (by destruct miss, err).
  destruct col; cbn; by rewrite Hd, ?rollupCondition_type.
Qed.

Lemma fresh_conditions_NoDup cr reps col miss err :
  NoDup (c_Type <$> fresh_conditions cr reps col miss err).
Proof.
  rewrite fresh_conditions_types.
  destruct col; repeat (apply NoDup_cons; split; [set_solver|]); by apply NoDup_nil.
Qed.

(** The pieces of a result of [aggregateStatus]. *)
Lemma aggregate_parts cr reps col miss err w :
  let '((cr', changed), w') := aggregateStatus now cr reps col miss err w in
  exists conds ch, 
    (exists w1, set_conditions now (fresh_conditions cr reps col miss err) (status_Conditions (cr_Status cr)) w
                = ((conds, ch), w1)
     /\ if col
        then exists entries w2, merge_entries now (with_status cr (with_conditions (cr_Status cr) conds))
                 (SortBy cc_Name reps) w1 = (entries, w2)
             /\ cr' = with_status cr (mkStatus (cr_Generation cr) conds entries)
             /\ changed = (ch || negb (bool_decide (SortBy cc_Name (status_Components (cr_Status cr)) = entries)))
                          || negb (status_ObservedGeneration (cr_Status cr) =? cr_Generation cr)%Z
        else cr' = with_status cr (with_conditions (cr_Status cr) conds) /\ changed = ch).
Proof.
  unfold aggregateStatus, st_bind, setComponentStatuses.
  destruct (set_conditions now _ _ w) as [[conds ch] w1] eqn:E. destruct col; cbn.
  - unfold st_bind. destruct (merge_entries now _ _ w1) as [entries w2] eqn:Em. cbn.
    destruct (Z.eqb_spec (status_ObservedGeneration (cr_Status cr)) (cr_Generation cr)) as [Eg|Eg]; cbn;
      exists conds, ch, w1; (split; [done|]); exists entries, w2; (split; [done|]); split.
    + by rewrite <-Eg.
    + by rewrite orb_false_r.
    + done.
    + by rewrite orb_true_r.
  - by exists conds, ch, w1.
Qed.

Lemma prev_conditions_with cr s name :
  status_Components s = status_Components (cr_Status cr) ->
  prev_conditions (with_status cr s) name = prev_conditions cr name.
Proof. unfold prev_conditions. cbn. by intros ->. Qed.

(** The status after every component reported. *)
Lemma aggregate_publishes cr reps miss err w
    (Hnames : NoDup (cc_Name <$> reps))
    (Htypes : Forall (fun e => NoDup (c_Type <$> cc_Conditions e)) reps) :
  let cr' := fst (fst (aggregateStatus now cr reps true miss err w)) in
  let s' := cr_Status cr' in
  cr' = with_status cr s'
  /\ status_ObservedGeneration s' = cr_Generation cr
  /\ cc_Name <$> status_Components s' = cc_Name <$> SortBy cc_Name reps
  /\ Sorted (key_le cc_Name) (status_Components s')
  /\ (forall e, e ∈ reps -> exists e', findComponentEntry (status_Components s') (cc_Name e) = Some e'
        /\ published (prev_conditions cr (cc_Name e)) (cc_Conditions e) (cr_Generation cr) (cc_Conditions e'))
  /\ (forall c, c ∈ fresh_conditions cr reps true miss err ->
        exists e', find_cond (c_Type c) (status_Conditions s') = Some e' /\ reports e' c
          /\ keeps_time (find_cond (c_Type c) (status_Conditions (cr_Status cr))) e' c)
  /\ (forall t, t <> ConditionDegraded -> t <> ConditionAvailable -> t <> ConditionProgressing ->
        find_cond t (status_Conditions s') = find_cond t (status_Conditions (cr_Status cr))).
Proof.
  cbv zeta. pose proof (aggregate_parts cr reps true miss err w) as Hp.
  destruct (aggregateStatus now cr reps true miss err w) as [[cr' ch'] w'].
  destruct Hp as (conds & ch & w1 & Hs & entries & w2 & Hm & -> & _). cbn.
  pose proof (set_conditions_spec _ (status_Conditions (cr_Status cr)) w
                (fresh_conditions_NoDup cr reps true miss err)) as Hspec.
  rewrite Hs in Hspec. destruct Hspec as (Ha & Ho & _).
  pose proof (types_sorted reps Htypes) as Hts.
  pose proof (merge_entries_spec (with_status cr (with_conditions (cr_Status cr) conds)) _ w1 Hts) as Hme.
  rewrite Hm in Hme. cbn in Hme. pose proof (Forall2_names _ _ _ Hme) as Hnm.
  assert (Hnd : NoDup (cc_Name <$> entries)).
  { rewrite Hnm. by rewrite (SortBy_perm cc_Name reps). }
  split_and!; try done.
  - apply (names_sorted _ _ _ Hme), SortBy_Sorted.
  - intros e He. rewrite <-(SortBy_perm cc_Name reps) in He.
    apply list_elem_of_lookup in He as [k Hk].
    destruct (Forall2_lookup_l _ _ _ _ _ Hme Hk) as (e' & Hk' & Hn & Hpub).
    exists e'. rewrite prev_conditions_with in Hpub by done. split; [|exact Hpub].
    rewrite <-Hn. apply findComponentEntry_in; [done|]. by apply list_elem_of_lookup_2 in Hk'.
  - intros t H1 H2 H3. apply Ho. rewrite fresh_conditions_types. set_solver.
Qed.

(** C20: when every component reported (distinct names, each with distinct
    condition types), the published entries are sorted by component name, one
    per report, each with exactly the reported types and contents under the
    resource's generation; a condition whose status did not change keeps its
    published transition time; the three rollup conditions are set, any other
    condition is left as it was, and the observed generation is the current one. *)
Theorem aggregate_published cr reps miss err w
    (Hnames : NoDup (cc_Name <$> reps))
    (Htypes : Forall (fun e => NoDup (c_Type <$> cc_Conditions e)) reps) :
  let cr' := fst (fst (aggregateStatus now cr reps true miss err w)) in
  let s' := cr_Status cr' in
  cr' = with_status cr s'
  /\ status_ObservedGeneration s' = cr_Generation cr
  /\ cc_Name <$> status_Components s' = cc_Name <$> SortBy cc_Name reps
  /\ Sorted (key_le cc_Name) (status_Components s')
  /\ (forall e, e ∈ reps -> exists e', findComponentEntry (status_Components s') (cc_Name e) = Some e'
        /\ published (prev_conditions cr (cc_Name e)) (cc_Conditions e) (cr_Generation cr) (cc_Conditions e'))
  /\ (forall c, c ∈ fresh_conditions cr reps true miss err ->
        exists e', find_cond (c_Type c) (status_Conditions s') = Some e' /\ reports e' c
          /\ keeps_time (find_cond (c_Type c) (status_Conditions (cr_Status cr))) e' c)
  /\ (forall t, t <> ConditionDegraded -> t <> ConditionAvailable -> t <> ConditionProgressing ->
        find_cond t (status_Conditions s') = find_cond t (status_Conditions (cr_Status cr))).
Proof. by apply aggregate_publishes. Qed.

(** The status after a reconcile that stopped early. *)
Lemma aggregate_aborts cr reps miss err w :
  let cr' := fst (fst (aggregateStatus now cr reps false miss err w)) in
  let s' := cr_Status cr' in
  cr' = with_status cr s'
  /\ status_Components s' = status_Components (cr_Status cr)
  /\ status_ObservedGeneration s' = status_ObservedGeneration (cr_Status cr)
  /\ (forall t, t <> ConditionDegraded ->
        find_cond t (status_Conditions s') = find_cond t (status_Conditions (cr_Status cr)))
  /\ exists d, find_cond ConditionDegraded (status_Conditions s') = Some d
       /\ reports d (set_ObservedGeneration (cr_Generation cr) (degradedCondition miss err)).
Proof.
  cbv zeta. pose proof (aggregate_parts cr reps false miss err w) as Hp.
  destruct (aggregateStatus now cr reps false miss err w) as [[cr' ch'] w'].
  destruct Hp as (conds & ch & w1 & Hs & -> & _). cbn.
  pose proof (set_conditions_spec _ (status_Conditions (cr_Status cr)) w
                (fresh_conditions_NoDup cr reps false miss err)) as Hspec.
  rewrite Hs in Hspec. destruct Hspec as (Ha & Ho & _). split_and!; try done.
  - intros t Ht. apply Ho. rewrite fresh_conditions_types. set_solver.
  - destruct (Ha (set_ObservedGeneration (cr_Generation cr) (degradedCondition miss err)))
      as (d & Hd & Hr & _); [left|].
    exists d. split; [|exact Hr]. by destruct miss, err.
Qed.

(** When the reconcile stopped before every component
    reported, only the Degraded condition is written: the per-component
    entries, the observed generation and every other condition keep their
    published values, so no health is made up. *)
Theorem aggregate_aborted cr reps miss err w :
  let cr' := fst (fst (aggregateStatus now cr reps false miss err w)) in
  let s' := cr_Status cr' in
  cr' = with_status cr s'
  /\ status_Components s' = status_Components (cr_Status cr)
  /\ status_ObservedGeneration s' = status_ObservedGeneration (cr_Status cr)
  /\ (forall t, t <> ConditionDegraded ->
        find_cond t (status_Conditions s') = find_cond t (status_Conditions (cr_Status cr)))
  /\ exists d, find_cond ConditionDegraded (status_Conditions s') = Some d
       /\ reports d (set_ObservedGeneration (cr_Generation cr) (degradedCondition miss err)).
Proof. apply aggregate_aborts. Qed.

(** Writing the same conditions again changes nothing. *)
Lemma set_conditions_again fresh l w w2 :
  NoDup (c_Type <$> fresh) ->
  fst (set_conditions now fresh (fst (fst (set_conditions now fresh l w))) w2)
  = (fst (fst (set_conditions now fresh l w)), false).
Proof.
  intros Hnd. pose proof (set_conditions_spec fresh l w Hnd) as Hs.
  destruct (set_conditions now fresh l w) as [[l' ch] w']. destruct Hs as (Ha & _).
  apply set_conditions_noop. intros c Hc. destruct (Ha c Hc) as (e & ? & ? & _). by exists e.
Qed.

(** Merging the same reports over the entries they were published as changes nothing,
    and the entries are already in the order of their names. *)
Lemma merge_entries_again cr cr1 reps w w2 :
  NoDup (cc_Name <$> reps) -> Forall (fun e => NoDup (c_Type <$> cc_Conditions e)) reps ->
  let entries := fst (merge_entries now cr (SortBy cc_Name reps) w) in
  status_Components (cr_Status cr1) ≡ₚ entries -> cr_Generation cr1 = cr_Generation cr ->
  fst (merge_entries now cr1 (SortBy cc_Name reps) w2) = entries /\ SortBy cc_Name entries = entries.
Proof.
  intros Hnames Htypes entries Hc Hg.
  pose proof (merge_entries_spec cr _ w (types_sorted reps Htypes)) as Hme. fold entries in Hme.
  assert (Hnd : NoDup (cc_Name <$> entries)).
  { rewrite (Forall2_names _ _ _ Hme). by rewrite (SortBy_perm cc_Name reps). }
  split; [|by apply SortBy_id, (names_sorted _ _ _ Hme), SortBy_Sorted].
  apply merge_entries_noop.
  - eapply Forall2_impl; [exact Hme|]. intros e e' [Hn Hpub]. split; [exact Hn|]. rewrite Hg.
    eapply published_weaken. exact Hpub.
  - apply Forall_forall. intros e' He'. unfold prev_conditions.
    rewrite findComponentEntry_in; [done|by rewrite Hc|by rewrite Hc].
Qed.

(** Aggregating the same reports over what a first aggregation published. *)
Lemma aggregate_again cr reps col miss err w w2 :
  NoDup (cc_Name <$> reps) -> Forall (fun e => NoDup (c_Type <$> cc_Conditions e)) reps ->
  let cr1 := fst (fst (aggregateStatus now cr reps col miss err w)) in
  fst (aggregateStatus now cr1 reps col miss err w2) = (cr1, false).
Proof.
  intros Hnames Htypes.
  cbv zeta. pose proof (aggregate_parts cr reps col miss err w) as Hp.
  destruct (aggregateStatus now cr reps col miss err w) as [[cr1 ch1] w']. cbn [fst].
  destruct Hp as (conds & ch & w1 & Hs & Hrest).
  pose proof (set_conditions_again _ (status_Conditions (cr_Status cr)) w w2
                (fresh_conditions_NoDup cr reps col miss err)) as Hagain.
  rewrite Hs in Hagain. cbn [fst] in Hagain.
  pose proof (aggregate_parts cr1 reps col miss err w2) as Hp2.
  destruct (aggregateStatus now cr1 reps col miss err w2) as [[cr2 ch2] w2']. cbn [fst].
  destruct Hp2 as (conds2 & ch2' & w3 & Hs2 & Hrest2). destruct col.
  - destruct Hrest as (entries & w4 & Hm & -> & _). destruct Hrest2 as (entries2 & w5 & Hm2 & -> & ->).
    unfold fresh_conditions in *. cbn in Hs2, Hagain. rewrite Hs2 in Hagain. injection Hagain as -> ->.
    match type of Hm2 with merge_entries now ?c _ _ = _ =>
      pose proof (merge_entries_again (with_status cr (with_conditions (cr_Status cr) conds))
        c reps w1 w3 Hnames Htypes) as Hme end.
    rewrite Hm in Hme. specialize (Hme (reflexivity _) eq_refl). rewrite Hm2 in Hme.
    destruct Hme as [Heq Hsort]. cbn in Heq, Hsort |- *. subst entries2.
    by rewrite Hsort, bool_decide_eq_true_2, Z.eqb_refl by done.
  - destruct Hrest as [-> _]. destruct Hrest2 as [-> ->].
    unfold fresh_conditions in *. cbn in Hs2, Hagain. rewrite Hs2 in Hagain. by injection Hagain as -> ->.
Qed.

(** C19: aggregating the same reports a second time changes
    nothing and says so, whatever the clock reads: the deferred update writes
    once, and a level-triggered reconcile loop settles. *)
Theorem aggregate_idempotent cr reps col miss err w w2
    (Hnames : NoDup (cc_Name <$> reps))
    (Htypes : Forall (fun e => NoDup (c_Type <$> cc_Conditions e)) reps) :
  let cr1 := fst (fst (aggregateStatus now cr reps col miss err w)) in
  fst (aggregateStatus now cr1 reps col miss err w2) = (cr1, false).
Proof. by apply aggregate_again. Qed.

(** The same after a first aggregation that changed nothing, on the resource as it was: the order of
    its entries does not matter. *)
Lemma aggregate_unwritten cr reps miss err w w2 :
  NoDup (cc_Name <$> reps) -> Forall (fun e => NoDup (c_Type <$> cc_Conditions e)) reps ->
  let '(cr1, changed) := fst (aggregateStatus now cr reps true miss err w) in
  changed = false -> fst (aggregateStatus now cr reps true miss err w2) = (cr1, false).
Proof.
  intros Hnames Htypes. pose proof (aggregate_parts cr reps true miss err w) as Hp.
  destruct (aggregateStatus now cr reps true miss err w) as [[cr1 ch1] w'].
  destruct Hp as (conds & ch & w1 & Hs & entries & w4 & Hm & -> & ->). cbn [fst].
  intros Hch. apply orb_false_iff in Hch as [Hch Hg]. apply orb_false_iff in Hch as [-> He].
  apply negb_false_iff in Hg, He. apply bool_decide_eq_true in He.
  pose proof (set_conditions_again _ (status_Conditions (cr_Status cr)) w w2
                (fresh_conditions_NoDup cr reps true miss err)) as Hagain.
  pose proof (set_conditions_spec _ (status_Conditions (cr_Status cr)) w
                (fresh_conditions_NoDup cr reps true miss err)) as Hspec.
  rewrite Hs in Hagain, Hspec. destruct Hspec as (_ & _ & _ & Hc & _). specialize (Hc eq_refl). subst conds.
  pose proof (aggregate_parts cr reps true miss err w2) as Hp2.
  destruct (aggregateStatus now cr reps true miss err w2) as [[cr2 ch2] w2'].
  destruct Hp2 as (conds2 & ch2' & w3 & Hs2 & entries2 & w5 & Hm2 & -> & ->).
  cbn [fst] in Hagain |- *. rewrite Hs2 in Hagain. injection Hagain as -> ->.
  pose proof (merge_entries_again (with_status cr (with_conditions (cr_Status cr) (status_Conditions (cr_Status cr))))
    (with_status cr (with_conditions (cr_Status cr) (status_Conditions (cr_Status cr)))) reps w1 w3 Hnames Htypes) as Hme.
  rewrite Hm in Hme. cbn [fst cr_Status status_Components with_status with_conditions] in Hme.
  destruct Hme as [Heq _]; [by rewrite <-He, SortBy_perm|done|]. rewrite Hm2 in Heq. cbn in Heq. subst entries2.
  by rewrite He, bool_decide_eq_true_2, Hg by done.
Qed.

(** No change reported: nothing to persist. *)
Lemma aggregate_quiet cr reps col miss err w :
  let '((cr', changed), _) := aggregateStatus now cr reps col miss err w in
  changed = false ->
  status_Conditions (cr_Status cr') = status_Conditions (cr_Status cr)
  /\ status_ObservedGeneration (cr_Status cr') = status_ObservedGeneration (cr_Status cr)
  /\ status_Components (cr_Status cr') ≡ₚ status_Components (cr_Status cr).
Proof.
  pose proof (aggregate_parts cr reps col miss err w) as Hp.
  destruct (aggregateStatus now cr reps col miss err w) as [[cr' changed] w']. intros Hch.
  destruct Hp as (conds & ch & w1 & Hs & Hrest).
  pose proof (set_conditions_spec _ (status_Conditions (cr_Status cr)) w
                (fresh_conditions_NoDup cr reps col miss err)) as Hspec.
  rewrite Hs in Hspec. destruct Hspec as (_ & _ & _ & Hc & _). destruct col.
  - destruct Hrest as (entries & w2 & _ & -> & ->). cbn.
    apply orb_false_iff in Hch as [Hch Hg]. apply orb_false_iff in Hch as [-> He].
    apply negb_false_iff in Hg, He. apply Z.eqb_eq in Hg. apply bool_decide_eq_true in He.
    split_and!; [by apply Hc|done|]. rewrite <-He. apply SortBy_perm.
  - destruct Hrest as [-> ->]. cbn. split_and!; [by apply Hc|done|done].
Qed.

(** When the aggregation reports no change there is nothing to
    persist: conditions and observed generation are what they were, and the
    entries are the same up to order. *)
Theorem aggregate_unchanged cr reps col miss err w :
  let '((cr', changed), _) := aggregateStatus now cr reps col miss err w in
  changed = false ->
  status_Conditions (cr_Status cr') = status_Conditions (cr_Status cr)
  /\ status_ObservedGeneration (cr_Status cr') = status_ObservedGeneration (cr_Status cr)
  /\ status_Components (cr_Status cr') ≡ₚ status_Components (cr_Status cr).
Proof. apply aggregate_quiet. Qed.

End laws.

(** ** A concrete condition setter, for concrete runs *)

Fixpoint demo_set (now : Z) (l : list Condition) (c : Condition) : list Condition * bool :=
  match l with
  | [] => ([mkCondition (c_Type c) (c_Status c) (c_ObservedGeneration c)
              (time_or now (c_LastTransitionTime c)) (c_Reason c) (c_Message c)], true)
  | e :: l' =>
      if String.eqb (c_Type e) (c_Type c)
      then (mkCondition (c_Type e) (c_Status c) (c_ObservedGeneration c)
              (if String.eqb (c_Status e) (c_Status c) then c_LastTransitionTime e
               else time_or now (c_LastTransitionTime c)) (c_Reason c) (c_Message c) :: l',
            negb (String.eqb (c_Status e) (c_Status c) && String.eqb (c_Reason e) (c_Reason c)
                  && String.eqb (c_Message e) (c_Message c)
                  && (c_ObservedGeneration e =? c_ObservedGeneration c)%Z))
      else let '(r, ch) := demo_set now l' c in (e :: r, ch)
  end.

#[global] Instance demo_ConditionsLib : ConditionsLib := { SetStatusCondition := demo_set }.

#[global] Instance demo_ConditionsLaws : ConditionsLaws.
Proof.
  constructor; unfold SetStatusCondition, demo_ConditionsLib.
  - intros now l c. induction l as [|e l IH]; intros Hn; [done|].
    cbn in Hn. apply not_elem_of_cons in Hn as [Hne Hn]. cbn.
    rewrite (proj2 (String.eqb_neq _ _) (not_eq_sym Hne)). by rewrite IH.
  - intros now l1 e l2 c He Hn. induction l1 as [|d l1 IH].
    + cbn. by rewrite (proj2 (String.eqb_eq _ _) He).
    + cbn in Hn. apply not_elem_of_cons in Hn as [Hne Hn]. cbn.
      rewrite (proj2 (String.eqb_neq _ _) (not_eq_sym Hne)).
      destruct (IH Hn) as [H1 H2]. destruct (demo_set now (l1 ++ e :: l2) c). cbn in *.
      by rewrite H1, H2.
Qed.

Definition demo_now : ST Z Z := fun t => (t, (t + 1)%Z).

Definition demo_reports : list ComponentConditions :=
  [mkComponentConditions "sentinel-clusters"
     [newCondition ConditionAvailable ConditionTrue ReasonDeploymentAvailable "";
      newCondition ConditionProgressing ConditionFalse ReasonRolloutComplete ""];
   mkComponentConditions "api"
     [newCondition ConditionAvailable ConditionFalse ReasonDeploymentUnavailable "";
      newCondition ConditionProgressing ConditionTrue ReasonRolloutInProgress ""]].

Definition demo_status_cr : HyperFleetConfig :=
  mkConfig SingletonName 3 "uid"
    (mkSpec BundleCloudCAPI (mkAPISpec (mkDatabaseSpec (mkSecretRef "db")) (mkAuthSpec None "" "" None)
       None SizingProfileSmall))
    (mkStatus 2 [] [mkComponentConditions "api"
       [mkCondition ConditionAvailable ConditionFalse 2 55 ReasonDeploymentUnavailable ""]]).

Lemma demo_reports_ok :
  NoDup (cc_Name <$> demo_reports) /\ Forall (fun e => NoDup (c_Type <$> cc_Conditions e)) demo_reports.
Proof.
  split; [|repeat apply Forall_cons_2; [..|by apply Forall_nil]];
    repeat (apply NoDup_cons; split; [set_solver|]); by apply NoDup_nil.
Qed.

Lemma aggregate_published_witness :
  let s' := cr_Status (fst (fst (aggregateStatus demo_now demo_status_cr demo_reports true [] None 1000%Z))) in
  cc_Name <$> status_Components s' = cc_Name <$> SortBy cc_Name demo_reports
  /\ exists c, (findComponentEntry (status_Components s') "api" ≫= fun e =>
                find_cond ConditionAvailable (cc_Conditions e)) = Some c /\ c_LastTransitionTime c = 55%Z.
Proof.
  cbv zeta. split.
  - apply (aggregate_published demo_now demo_status_cr demo_reports [] None 1000%Z
             (proj1 demo_reports_ok) (proj2 demo_reports_ok)).
  - eexists. split; [vm_compute; reflexivity|reflexivity].
Defined.

Lemma aggregate_idempotent_witness :
  let cr1 := fst (fst (aggregateStatus demo_now demo_status_cr demo_reports true ["database"] None 1000%Z)) in
  fst (aggregateStatus demo_now cr1 demo_reports true ["database"] None 2000%Z) = (cr1, false).
Proof.
  exact (aggregate_idempotent demo_now demo_status_cr demo_reports true ["database"] None 1000%Z 2000%Z
           (proj1 demo_reports_ok) (proj2 demo_reports_ok)).
Defined.

Lemma aggregate_aborted_witness :
  let s' := cr_Status (fst (fst (aggregateStatus demo_now demo_status_cr [] false ["tls"] None 7%Z))) in
  status_Components s' = status_Components (cr_Status demo_status_cr)
  /\ status_ObservedGeneration s' = 2%Z.
Proof.
  destruct (aggregate_aborted demo_now demo_status_cr [] ["tls"] None 7%Z) as (_ & H1 & H2 & _).
  split; [exact H1|exact H2].
Defined.

Lemma aggregate_unchanged_witness :
  let cr1 := fst (fst (aggregateStatus demo_now demo_status_cr demo_reports true [] None 1000%Z)) in
  snd (fst (aggregateStatus demo_now cr1 demo_reports true [] None 2000%Z)) = false
  /\ status_Conditions (cr_Status (fst (fst (aggregateStatus demo_now cr1 demo_reports true [] None 2000%Z))))
     = status_Conditions (cr_Status cr1).
Proof.
  cbv zeta. set (cr1 := fst (fst (aggregateStatus demo_now demo_status_cr demo_reports true [] None 1000%Z))).
  assert (E : snd (fst (aggregateStatus demo_now cr1 demo_reports true [] None 2000%Z)) = false)
    by (vm_compute; reflexivity).
  split; [exact E|].
  pose proof (aggregate_unchanged demo_now cr1 demo_reports true [] None 2000%Z) as H.
  destruct (aggregateStatus demo_now cr1 demo_reports true [] None 2000%Z) as [[cr' ch] w'].
  cbn [fst snd] in *. exact (proj1 (H E)).
Defined.

End status.
