(* ===== verification/Apply.v ===== *)
(** * Server-side apply of a component's operands ([internal/apply/apply.go])

    Module [apply] models [Objects]: for each object, in order, the owner
    reference, the conversion, the apply and the read-back.  The objects are
    updated in place in the source; here the loop returns them. *)

From S2P Require Import Prelude Kube ConfigTypes Json Contract Api Env Sim.

Module apply.

Definition FieldManager : string := "hyperfleet-operator".

Section objects.
Context {W : Type} `{E : Env W}.

(** The kind of an object, from its [TypeMeta]. *)
Definition kind_of (o : Object) : string := Kind (obj_TypeMeta o).

(** One turn of the loop. *)
Definition apply_one (reader : Reader) (owner : HyperFleetConfig) (obj : Object) :
    ST W (outcome Object) :=
  let kind := kind_of obj in
  let name := obj_Name obj in
  match SetControllerReference owner obj with
  | inl err => st_ret (Fail (Wrapf "set controller reference on %s %q: %w" [kind; name] err))
  | inr obj =>
      match ToUnstructured obj with
      | inl err => st_ret (Fail (Wrapf "convert %s %q to unstructured: %w" [kind; name] err))
      | inr content =>
          (let! r := client_Apply content FieldManager true in
           match r with
           | Some err => st_ret (Fail (Wrapf "apply %s %q: %w" [kind; name] err))
           | None =>
               let! g := get_Object reader obj in
               st_ret
                 match g with
                 | Found obj' => Ok obj'
                 | NotFound => Fail (Wrapf "refresh %s %q after apply: %w" [kind; name] (External "not found"))
                 | GetError err => Fail (Wrapf "refresh %s %q after apply: %w" [kind; name] err)
                 end
           end)%st
      end
  end.

Fixpoint apply_all (reader : Reader) (owner : HyperFleetConfig) (objs : list Object) :
    ST W (outcome (list Object)) :=
  match objs with
  | [] => st_ret (Ok [])
  | obj :: rest =>
      (let!? obj' := apply_one reader owner obj in
       let!? rest' := apply_all reader owner rest in
       st_ret (Ok (obj' :: rest')))%st
  end.

(** A nil [refreshReader] is replaced by the client. *)
Definition Objects (refreshReader : option Reader) (owner : HyperFleetConfig) (objs : list Object) :
    ST W (outcome (list Object)) :=
  apply_all (default CachedClient refreshReader) owner objs.

Lemma apply_one_no_panic reader owner o w : fst (apply_one reader owner o w) <> Panic.
Proof.
  unfold apply_one, st_bind, st_ret. destruct (SetControllerReference _ _); [done|].
  destruct (ToUnstructured _); [done|]. destruct (client_Apply _ _ _ w) as [[err|] w1]; [done|].
  destruct (get_Object _ _ w1) as [[| |] w2]; done.
Qed.

Lemma apply_all_no_panic reader owner objs w : fst (apply_all reader owner objs w) <> Panic.
Proof.
  revert w. induction objs as [|o objs IH]; intros w; [done|]. cbn. unfold so_bind.
  pose proof (apply_one_no_panic reader owner o w) as H1.
  destruct (apply_one reader owner o w) as [[o'| |] w1]; [|done|done].
  specialize (IH w1). by destruct (apply_all reader owner objs w1) as [[l| |] w2].
Qed.

End objects.

(** ** The order of the calls *)

Section logged.
Context {W : Type} `{E : Env W}.

(** The calls made for one object that went through: what is sent is the
    conversion of the object with its owner set, under the operator's field
    manager and with force; then that object is read back. *)
Definition object_calls (reader : Reader) (owner : HyperFleetConfig) (o : Object) :
    list (Call Unstructured) :=
  match SetControllerReference owner o with
  | inl _ => []
  | inr o1 =>
      match ToUnstructured o1 with
      | inl _ => []
      | inr u => [CApply u FieldManager true; CGetObject reader o1]
      end
  end.

Lemma apply_one_log reader owner o w l :
  let '(r, (w', l')) := apply_one (E := logged_Env E) reader owner o (w, l) in
  exists k, l' = l ++ take k (object_calls reader owner o) /\ (is_ok r = true -> k = 2%nat).
Proof.
  unfold apply_one, object_calls, st_bind, st_ret, logged_Env. cbn.
  destruct (SetControllerReference owner o) as [e|o1]; [exists 0%nat; cbn; by rewrite app_nil_r|].
  destruct (ToUnstructured o1) as [e|u]; [exists 0%nat; cbn; by rewrite app_nil_r|].
  unfold log_call. cbn. destruct (client_Apply u FieldManager true w) as [[err|] w1]; cbn.
  - by exists 1%nat.
  - destruct (get_Object reader o1 w1) as [[| |] w2]; cbn; exists 2%nat; cbn;
      (split; [|done]); by rewrite <-app_assoc.
Qed.

(** A failed sequence made a prefix of the calls, a successful one all of them. *)
Lemma Objects_prefix refreshReader owner objs w l :
  let '(r, (_, l')) := Objects (E := logged_Env E) refreshReader owner objs (w, l) in
  let calls := objs ≫= object_calls (default CachedClient refreshReader) owner in
  exists k, l' = l ++ take k calls /\ (is_ok r = true -> take k calls = calls).
Proof.
  unfold Objects. set (reader := default CachedClient refreshReader). revert w l.
  induction objs as [|o objs IH]; intros w l; cbn.
  { exists 0%nat. by rewrite app_nil_r. }
  unfold so_bind. pose proof (apply_one_log reader owner o w l) as H1.
  destruct (apply_one (E := logged_Env E) reader owner o (w, l)) as [r1 [w1 l1]].
  destruct H1 as (k1 & -> & Hk1). set (c1 := object_calls reader owner o) in *.
  assert (Hpre : exists k, take k1 c1 = take k (c1 ++ (objs ≫= object_calls reader owner))).
  { exists (Nat.min k1 (length c1)). rewrite take_app_le by lia.
    destruct (Nat.le_ge_cases k1 (length c1)); [by rewrite Nat.min_l|].
    rewrite Nat.min_r, !take_ge by lia. done. }
  destruct r1 as [o'|e|]; [|destruct Hpre as [k Hk]; cbn; exists k; rewrite Hk; done..].
  assert (Hc1 : take k1 c1 = c1).
  { rewrite Hk1 by done. unfold c1, object_calls. repeat case_match; done. }
  rewrite Hc1. specialize (IH w1 (l ++ c1)).
  destruct (apply_all (E := logged_Env E) reader owner objs (w1, l ++ c1)) as [r2 [w2 l2]].
  destruct IH as (k & -> & Hk).
  assert (Ht : take (length c1 + k) (c1 ++ (objs ≫= object_calls reader owner))
               = c1 ++ take k (objs ≫= object_calls reader owner)).
  { rewrite take_app_ge by lia. by rewrite Nat.add_comm, Nat.add_sub. }
  destruct r2; cbn; exists (length c1 + k)%nat; (split; [by rewrite Ht, app_assoc|]);
    intros Hok; try done. by rewrite Ht, Hk.
Qed.

(** Whatever the API server answers, the calls made are a prefix
    of the full sequence: each object's apply and read-back, in the rendered
    order, one object completed before the next begins.  After a success
    it is the whole sequence, so nothing is skipped; after a failure nothing
    that follows was sent. *)
Theorem Objects_calls refreshReader owner objs w l :
  let '(r, (_, l')) := Objects (E := logged_Env E) refreshReader owner objs (w, l) in
  exists made, l' = l ++ made
  /\ made `prefix_of` objs ≫= object_calls (default CachedClient refreshReader) owner
  /\ (is_ok r = true -> made = objs ≫= object_calls (default CachedClient refreshReader) owner).
Proof.
  pose proof (Objects_prefix refreshReader owner objs w l) as H.
  destruct (Objects (E := logged_Env E) refreshReader owner objs (w, l)) as [r [w' l']].
  destruct H as (k & -> & Hk). eexists. split; [done|]. split; [apply prefix_take|exact Hk].
Qed.

End logged.

(** ** The objects that come back *)

Section laws.
Context {W : Type} `{E : Env W} `{EL : !EnvLaws W}.

Definition same_object (o o' : Object) : Prop :=
  obj_type o' = obj_type o /\ obj_Name o' = obj_Name o /\ obj_Namespace o' = obj_Namespace o.

Lemma apply_one_same reader owner o w o' w' :
  apply_one reader owner o w = (Ok o', w') -> same_object o o'.
Proof.
  unfold apply_one, st_bind, st_ret, same_object.
  destruct (SetControllerReference owner o) as [e|o1] eqn:E1; [done|].
  destruct (ToUnstructured o1); [done|]. destruct (client_Apply _ _ _ w) as [[err|] w1]; [done|].
  destruct (get_Object reader o1 w1) as [[o2| |] w2] eqn:E2; [|done|done]. intros [= <- <-].
  apply SetControllerReference_same in E1. apply get_Object_same in E2.
  destruct E1 as (<- & <- & <-). exact E2.
Qed.

(** On success what comes back matches what was asked for. *)
Lemma apply_same refreshReader owner objs w objs' w' :
  Objects refreshReader owner objs w = (Ok objs', w') -> Forall2 same_object objs objs'.
Proof.
  intros Hok.
  unfold Objects in Hok. revert w objs' w' Hok. set (reader := default CachedClient refreshReader).
  induction objs as [|o objs IH]; intros w objs' w' Hok; cbn in Hok.
  { injection Hok as <- _. constructor. }
  apply so_bind_ok in Hok as (o' & w1 & H1 & Hok). apply so_bind_ok in Hok as (l & w2 & H2 & Hok).
  injection Hok as <- _. constructor; [by eapply apply_one_same|by eapply IH].
Qed.

(** On success the returned objects are, one for one and in
    order, the objects rendered (same type, name and namespace). *)
Theorem Objects_same refreshReader owner objs w objs' w'
    (Hok : Objects refreshReader owner objs w = (Ok objs', w')) : Forall2 same_object objs objs'.
Proof. by eapply apply_same. Qed.

End laws.

(** The API's objects, applied to the simulated cluster. *)
Definition demo_apply_cr : HyperFleetConfig := api.demo_cr (mkAuthSpec (Some false) "" "" None) None.
Definition demo_objects : list Object :=
  match api.Render (H := api.toy_yaml) (api.New "" "hf" []) demo_apply_cr with Ok l => l | _ => [] end.

Lemma Objects_same_witness :
  length demo_objects = 6
  /\ exists objs', fst (Objects (Some APIReader) demo_apply_cr demo_objects demo_world) = Ok objs'
       /\ Forall2 same_object demo_objects objs'.
Proof.
  split; [vm_compute; reflexivity|].
  assert (Hok : is_ok (fst (Objects (Some APIReader) demo_apply_cr demo_objects demo_world)) = true)
    by (vm_compute; reflexivity).
  destruct (Objects (Some APIReader) demo_apply_cr demo_objects demo_world) as [[objs'| |] w'] eqn:E2;
    [|discriminate Hok..].
  exists objs'. split; [reflexivity|].
  exact (Objects_same (Some APIReader) demo_apply_cr demo_objects demo_world objs' w' E2).
Defined.

End apply.
