(* ===== verification/Observability.v ===== *)
(** * Rollout detection, readiness and the applied-config digest
      ([internal/controller/observability.go])

    Module [observability] models the functions of that file.  Marshalling a
    pod template to JSON follows [k8s.io/api]'s struct tags, so it is the class
    [TemplateLib]; the spec's own JSON is written out from its tags.  The log
    lines are left out. *)

From S2P Require Import Prelude Kube ConfigTypes Json Url JsonDecode Contract Api Env Sha256 ConfigHash Metrics.
From S2P Require Import State Sim.

(** [json.Marshal] of a [corev1.PodTemplateSpec]. *)
Class TemplateLib := { Marshal_PodTemplateSpec : PodTemplateSpec -> error + string }.

Module observability.
Import metrics.

Definition templateHashAnnotation : string := "hyperfleet.redhat.com/template-hash".

(** ** The JSON of a spec, from its struct tags *)

Definition json_SecretRef (r : SecretRef) : Json := JObject (str_member "name" (ref_Name r)).
Definition json_DatabaseSpec (d : DatabaseSpec) : Json :=
  JObject (member "secretRef" (json_SecretRef (db_SecretRef d))).
Definition json_AuthSpec (a : AuthSpec) : Json :=
  JObject (ptr_omitempty "enabled" JBool (Enabled a) ++ str_omitempty "issuer" (Issuer a)
           ++ str_omitempty "audience" (Audience a)
           ++ ptr_omitempty "jwkCertSecretRef" json_SecretRef (JWKCertSecretRef a)).
Definition json_TLSSpec (t : TLSSpec) : Json :=
  JObject (member "secretRef" (json_SecretRef (tls_SecretRef t))).
Definition json_APISpec (a : APISpec) : Json :=
  JObject (member "database" (json_DatabaseSpec (Database a)) ++ member "auth" (json_AuthSpec (Auth a))
           ++ ptr_omitempty "tls" json_TLSSpec (TLS a) ++ str_omitempty "profile" (Profile a)).
Definition json_HyperFleetConfigSpec (s : HyperFleetConfigSpec) : Json :=
  JObject (str_member "bundle" (spec_Bundle s) ++ member "api" (json_APISpec (spec_API s))).

(** ** The digests *)

(** Everything [hashConfig] writes to the hash.  A spec holds strings, Booleans
    and pointers to them, so [json.Marshal] does not fail on it and the fallback text is not reached. *)
Definition config_preimage (spec : HyperFleetConfigSpec) (componentConfigHashes : list string) : string :=
  fold_left (fun acc ch => acc +:+ nul +:+ ch) componentConfigHashes
    (json_encode (json_HyperFleetConfigSpec spec)).

Definition hashConfig (spec : HyperFleetConfigSpec) (componentConfigHashes : list string) : string :=
  take_string 12 (sha256.hex_digest (config_preimage spec componentConfigHashes)).

Definition hashPodTemplate `{TemplateLib} (dep : Deployment) : string :=
  match Marshal_PodTemplateSpec (Template (dep_Spec dep)) with
  | inl _ => "unmarshalable"
  | inr b => take_string 12 (sha256.hex_digest b)
  end.

Definition with_meta_annotation (k v : string) (d : Deployment) : Deployment :=
  mkDeployment (dep_TypeMeta d)
    (with_annotations (dep_Meta d) (Some (<[k := v]> (default ∅ (om_Annotations (dep_Meta d))))))
    (dep_Spec d) (dep_Status d).

Definition stampTemplateHash (dep : Deployment) (hash : string) : Deployment :=
  with_meta_annotation templateHashAnnotation hash dep.

(** ** Rollouts *)

Record rolloutEvent := mkRolloutEvent { component : string; trigger : string }.

#[global] Instance rolloutEvent_eq_dec : EqDecision rolloutEvent.
Proof. solve_decision. Defined.

(** The index loop, both slices having the same length. *)
Fixpoint same_images (ac bc : list Container) : bool :=
  match ac, bc with
  | a :: ac', b :: bc' => if negb (String.eqb (ct_Image a) (ct_Image b)) then false else same_images ac' bc'
  | _, _ => true
  end.

Definition containers (d : Deployment) : list Container := Containers (tpl_Spec (Template (dep_Spec d))).

Definition sameContainerImages (a b : Deployment) : bool :=
  if negb (length (containers a) =? length (containers b))%nat then false
  else same_images (containers a) (containers b).

Definition rolloutTrigger (live desired : Deployment) : string :=
  if negb (sameContainerImages live desired) then TriggerImage else TriggerConfig.

(** The [switch] of [detectRollouts], on the result of the read. *)
Definition classify (comp desired : string) (dep : Deployment) (g : GetResult Deployment) :
    list rolloutEvent :=
  match g with
  | NotFound => [mkRolloutEvent comp TriggerCreate]
  | GetError _ => []
  | Found live =>
      let prev := map_get (om_Annotations (dep_Meta live)) templateHashAnnotation in
      let configChanged := negb (String.eqb prev "") && negb (String.eqb prev desired) in
      let imageChanged := negb (sameContainerImages live dep) in
      if configChanged || imageChanged then [mkRolloutEvent comp (rolloutTrigger live dep)] else []
  end.

Definition dep_Namespace (d : Deployment) : string := om_Namespace (dep_Meta d).

Section code.
Context {W : Type} `{E : Env W} `{TL : TemplateLib}.

(** The events, and the objects with their Deployments stamped. *)
Fixpoint detectRollouts (comp : string) (objs : list Object) : ST W (list rolloutEvent * list Object) :=
  match objs with
  | [] => st_ret ([], [])
  | ODeployment d :: rest =>
      let desired := hashPodTemplate d in
      let dep := stampTemplateHash d desired in
      (let! g := get_Deployment (dep_Namespace dep) (dep_Name dep) in
       let! (events, rest') := detectRollouts comp rest in
       st_ret (classify comp desired dep g ++ events, ODeployment dep :: rest'))%st
  | o :: rest =>
      (let! (events, rest') := detectRollouts comp rest in st_ret (events, o :: rest'))%st
  end.

Definition commitRollouts (events : list rolloutEvent) : ST (RState W) unit :=
  st_iter (fun e => record_metric (IncOperandRollout (component e) (trigger e))) events.

(** The first Available condition decides. *)
Definition deploymentAvailable (dep : Deployment) : bool :=
  match List.find (fun c => String.eqb (dc_Type c) "Available") (st_Conditions (dep_Status dep)) with
  | Some c => String.eqb (dc_Status c) ConditionTrue
  | None => false
  end.

Definition recordReadiness (comp : string) (objs : list Object) : ST (RState W) unit :=
  st_iter (fun o =>
    match o with
    | ODeployment d =>
        (let! g := lift_world (get_Deployment (dep_Namespace d) (dep_Name d)) in
         match g with
         | NotFound => record_metric (SetOperandReady comp false)
         | GetError _ => st_ret tt
         | Found live => record_metric (SetOperandReady comp (deploymentAvailable live))
         end)%st
    | _ => st_ret tt
    end) objs.

End code.

(** ** Image comparison *)

Lemma same_images_spec ac bc :
  length ac = length bc -> same_images ac bc = true <-> ct_Image <$> ac = ct_Image <$> bc.
Proof.
  revert bc. induction ac as [|a ac IH]; intros [|b bc] Hl; simpl in Hl; try lia; [done|]. cbn.
  destruct (String.eqb_spec (ct_Image a) (ct_Image b)) as [->|Hne]; cbn.
  - rewrite (IH bc) by lia. split; [by intros ->|by intros [= ->]].
  - split; [done|]. by intros [= ? _].
Qed.

Lemma sameContainerImages_spec a b :
  sameContainerImages a b = true <-> ct_Image <$> containers a = ct_Image <$> containers b.
Proof.
  unfold sameContainerImages. destruct (Nat.eqb_spec (length (containers a)) (length (containers b))); cbn.
  - by apply same_images_spec.
  - split; [done|]. intros Hf. apply (f_equal length) in Hf. by rewrite !length_fmap in Hf.
Qed.

(** ** Stamping *)

Definition stamp_template `{TemplateLib} (o : Object) : Object :=
  match o with ODeployment d => ODeployment (stampTemplateHash d (hashPodTemplate d)) | _ => o end.

Lemma stamp_template_same `{TemplateLib} o :
  obj_type (stamp_template o) = obj_type o /\ obj_Name (stamp_template o) = obj_Name o
  /\ obj_Namespace (stamp_template o) = obj_Namespace o.
Proof. by destruct o. Qed.

Section detection.
Context {W : Type} `{E : Env W} `{TL : TemplateLib}.

Lemma detectRollouts_objs comp objs w : (detectRollouts comp objs w).1.2 = map stamp_template objs.
Proof.
  revert w. induction objs as [|o objs IH]; intros w; [done|].
  destruct o; cbn; unfold st_bind, st_ret;
    try (destruct (detectRollouts comp objs w) as [[ev l] w1] eqn:E1; cbn;
         specialize (IH w); rewrite E1 in IH; cbn in IH; by rewrite IH).
  destruct (get_Deployment _ _ w) as [g w0].
  destruct (detectRollouts comp objs w0) as [[ev l] w1] eqn:E1; cbn.
  specialize (IH w0). rewrite E1 in IH. cbn in IH. by rewrite IH.
Qed.

(** When the list has one Deployment, exactly one read is made. *)
Lemma detectRollouts_none comp objs w :
  deployments objs = [] -> detectRollouts comp objs w = (([], objs), w).
Proof.
  induction objs as [|o objs IH]; [done|]. unfold deployments in *. destruct o; cbn; try done;
    intros Hd; unfold st_bind; by rewrite (IH Hd).
Qed.

Lemma detectRollouts_one comp objs d w :
  deployments objs = [d] ->
  let '(g, w') := get_Deployment (dep_Namespace d) (dep_Name d) w in
  detectRollouts comp objs w
  = ((classify comp (hashPodTemplate d) (stampTemplateHash d (hashPodTemplate d)) g,
      map stamp_template objs), w').
Proof.
  intros Hd. pose proof (detectRollouts_objs comp objs w) as Ho.
  destruct (get_Deployment (dep_Namespace d) (dep_Name d) w) as [g w'] eqn:Eg.
  destruct (detectRollouts comp objs w) as [[ev l] w1] eqn:Ed. cbn in Ho. subst l.
  enough ((ev, w1) = (classify comp (hashPodTemplate d) (stampTemplateHash d (hashPodTemplate d)) g, w'))
    by congruence.
  revert Hd w1 Ed. generalize (map stamp_template objs) as l'.
  induction objs as [|o objs IH]; intros l' Hd w1 Ed; [done|].
  destruct o as [d0|?|?|?|?|?|?]; unfold deployments in Hd; cbn in Hd;
    try (cbn in Ed; unfold st_bind, st_ret in Ed;
         destruct (detectRollouts comp objs w) as [[ev1 l1] w2]; injection Ed as <- _ <-;
         by apply (IH l1)).
  injection Hd as -> Hd. cbn [detectRollouts] in Ed. unfold st_bind, st_ret in Ed.
  change (dep_Namespace (stampTemplateHash d (hashPodTemplate d))) with (dep_Namespace d) in Ed.
  change (dep_Name (stampTemplateHash d (hashPodTemplate d))) with (dep_Name d) in Ed.
  rewrite Eg in Ed. rewrite (detectRollouts_none comp objs w' Hd) in Ed.
  injection Ed as <- _ <-. by rewrite app_nil_r.
Qed.

(** C28: for a component with one Deployment, exactly one read is made, of
    that Deployment, and: an absent one is a creation; an unreadable one is
    skipped; otherwise the event is an image rollout exactly when the container images
    differ, a config rollout exactly when only the recorded template digest
    differs, and nothing when neither differs or no digest was ever recorded. *)
Theorem detect_spec comp objs d w (Hd : deployments objs = [d]) :
  let '(g, w') := get_Deployment (dep_Namespace d) (dep_Name d) w in
  let '((events, _), w1) := detectRollouts comp objs w in
  w1 = w'
  /\ match g with
  | NotFound => events = [mkRolloutEvent comp TriggerCreate]
  | GetError _ => events = []
  | Found live =>
      let prev := map_get (om_Annotations (dep_Meta live)) templateHashAnnotation in
      let same := ct_Image <$> containers live = ct_Image <$> containers d in
      (events = [mkRolloutEvent comp TriggerImage] <-> ~ same)
      /\ (events = [mkRolloutEvent comp TriggerConfig] <-> same /\ prev <> "" /\ prev <> hashPodTemplate d)
      /\ (events = [] <-> same /\ (prev = "" \/ prev = hashPodTemplate d))
  end.
Proof.
  pose proof (detectRollouts_one comp objs d w Hd) as Ho.
  destruct (get_Deployment _ _ w) as [g w']. rewrite Ho. split; [done|].
  destruct g as [live| |]; [|done|done]. cbv zeta.
  rewrite <-(sameContainerImages_spec live d). cbn [classify].
  change (sameContainerImages live (stampTemplateHash d (hashPodTemplate d)))
    with (sameContainerImages live d).
  unfold rolloutTrigger.
  change (sameContainerImages live (stampTemplateHash d (hashPodTemplate d)))
    with (sameContainerImages live d).
  generalize (map_get (om_Annotations (dep_Meta live)) templateHashAnnotation). intros prev.
  generalize (hashPodTemplate d). intros h.
  destruct (sameContainerImages live d), (String.eqb_spec prev ""), (String.eqb_spec prev h); simpl;
    split_and!; split; try done; naive_solver.
Qed.

(** The digest is recorded where it cannot cause a rollout:
    stamping leaves each object's spec alone, hence the digest itself; and once the live
    Deployment carries the stamp and the images of an earlier rendering, any
    rendering with the same pod template is reported as no rollout. *)
Theorem steady_no_rollout comp d d' live
    (Ht : Template (dep_Spec d') = Template (dep_Spec d))
    (Ha : map_get (om_Annotations (dep_Meta live)) templateHashAnnotation
          = map_get (om_Annotations (dep_Meta (stampTemplateHash d (hashPodTemplate d)))) templateHashAnnotation)
    (Hi : ct_Image <$> containers live = ct_Image <$> containers d) :
  dep_Spec (stampTemplateHash d' (hashPodTemplate d')) = dep_Spec d'
  /\ hashPodTemplate (stampTemplateHash d' (hashPodTemplate d')) = hashPodTemplate d'
  /\ classify comp (hashPodTemplate d') (stampTemplateHash d' (hashPodTemplate d')) (Found live) = [].
Proof.
  split; [done|]. split; [done|]. cbn [classify].
  assert (Hs : sameContainerImages live (stampTemplateHash d' (hashPodTemplate d')) = true).
  { apply sameContainerImages_spec. rewrite Hi. unfold containers. cbn. by rewrite Ht. }
  rewrite Hs, Ha. unfold map_get at 1 2. cbn. rewrite lookup_insert_eq. cbn.
  assert (Hh : hashPodTemplate d' = hashPodTemplate d) by (unfold hashPodTemplate; by rewrite Ht).
  rewrite Hh, String.eqb_refl. by rewrite andb_false_r.
Qed.

Lemma commitRollouts_metrics evs (s : RState W) :
  let s' := snd (commitRollouts evs s) in
  s' = set_metrics (rs_metrics s') s
  /\ rs_metrics s' = fold_left (fun m e => IncOperandRollout (component e) (trigger e) m) evs (rs_metrics s).
Proof.
  unfold commitRollouts. revert s. induction evs as [|e evs IH]; intros s; cbn.
  { by destruct s. }
  unfold st_bind, record_metric.
  destruct (IH (set_metrics (IncOperandRollout (component e) (trigger e) (rs_metrics s)) s)) as [H1 H2].
  split; [|exact H2]. cbn in H1. exact H1.
Qed.

Lemma recordReadiness_none comp objs (s : RState W) :
  deployments objs = [] -> recordReadiness comp objs s = (tt, s).
Proof.
  unfold recordReadiness, deployments. induction objs as [|o objs IH]; [done|].
  destruct o; cbn; try done; intros Hd; unfold st_bind, st_ret; by rewrite IH.
Qed.

Lemma recordReadiness_one comp objs d (s : RState W) :
  deployments objs = [d] ->
  let '(g, w') := get_Deployment (dep_Namespace d) (dep_Name d) (rs_world s) in
  let m := rs_metrics s in
  snd (recordReadiness comp objs s)
  = set_metrics (match g with
                 | NotFound => SetOperandReady comp false m
                 | GetError _ => m
                 | Found live => SetOperandReady comp (deploymentAvailable live) m
                 end) (set_world w' s).
Proof.
  destruct (get_Deployment (dep_Namespace d) (dep_Name d) (rs_world s)) as [g w'] eqn:Eg. cbv zeta.
  unfold recordReadiness. induction objs as [|o objs IH]; [done|].
  destruct o as [d0|?|?|?|?|?|?]; unfold deployments in *; cbn [omap list_omap as_deployment];
    cbn [st_iter]; try exact IH.
  cbn. intros [= -> Hd]. unfold st_bind, lift_world. rewrite Eg. cbn.
  pose proof (recordReadiness_none comp objs) as Hn. unfold recordReadiness in Hn.
  destruct g; cbn; rewrite Hn by done; by destruct s.
Qed.

(** After an apply, the readiness gauge of a component with one Deployment is
    1 when the live Deployment's Available condition is True, 0 when it is
    not, or is missing, or the Deployment is gone, and untouched when it cannot be read;
    no other component's gauge and no other metric moves. *)
Theorem readiness_spec comp objs d (s : RState W) (Hd : deployments objs = [d]) :
  let '(g, _) := get_Deployment (dep_Namespace d) (dep_Name d) (rs_world s) in
  let m' := rs_metrics (snd (recordReadiness comp objs s)) in
  OperandReady m' !! comp
    = match g with
      | Found live => Some (if deploymentAvailable live then 1 else 0)%Z
      | NotFound => Some 0%Z
      | GetError _ => OperandReady (rs_metrics s) !! comp
      end
  /\ (forall c, c <> comp -> OperandReady m' !! c = OperandReady (rs_metrics s) !! c)
  /\ ReconcileErrors m' = ReconcileErrors (rs_metrics s)
  /\ OperandRollouts m' = OperandRollouts (rs_metrics s)
  /\ AppliedConfig m' = AppliedConfig (rs_metrics s).
Proof.
  pose proof (recordReadiness_one comp objs d s Hd) as Ho.
  destruct (get_Deployment _ _ (rs_world s)) as [g w']. rewrite Ho. cbv zeta. cbn [rs_metrics set_metrics].
  destruct g; cbn; rewrite ?lookup_insert_eq; split_and!; try done;
    intros c Hc; by rewrite lookup_insert_ne.
Qed.

(** Availability is the first Available condition's status. *)
Lemma deploymentAvailable_true d :
  deploymentAvailable d = true <->
  exists l1 c l2, st_Conditions (dep_Status d) = l1 ++ c :: l2 /\ dc_Type c = "Available"
    /\ dc_Status c = ConditionTrue /\ Forall (fun c => dc_Type c <> "Available") l1.
Proof.
  unfold deploymentAvailable. induction (st_Conditions (dep_Status d)) as [|c l IH]; cbn.
  { split; [done|]. by intros ([|? ?] & ? & ? & ? & _). }
  destruct (String.eqb_spec (dc_Type c) "Available") as [E1|E1].
  - rewrite String.eqb_eq. split.
    + intros Es. exists [], c, l. by repeat split.
    + intros ([|c' l1] & c2 & l2 & Hl & Ht & Hs & Hf); simplify_eq/=; [done|].
      by apply Forall_cons in Hf as [? _].
  - rewrite IH. split.
    + intros (l1 & c2 & l2 & -> & Ht & Hs & Hf). exists (c :: l1), c2, l2. split_and!; try done. by constructor.
    + intros ([|c' l1] & c2 & l2 & Hl & Ht & Hs & Hf); simplify_eq/=.
      apply Forall_cons in Hf as [_ Hf]. by exists l1, c2, l2.
Qed.

End detection.

(** ** The preimage of the applied-config digest *)

Import rollout(no_nul).

Lemma no_nul_app a b : no_nul (a +:+ b) <-> no_nul a /\ no_nul b.
Proof.
  unfold no_nul. induction a as [|c a IH].
  { change ("" +:+ b) with b. cbn. rewrite Forall_nil. tauto. }
  rewrite string_app_cons. cbn [String.list_ascii_of_string]. rewrite !Forall_cons, IH. tauto.
Qed.

Lemma no_nul_cons c s : no_nul (String c s) <-> c <> "000"%char /\ no_nul s.
Proof. unfold no_nul. cbn [String.list_ascii_of_string]. by rewrite Forall_cons. Qed.

Lemma no_nul_join l sep : no_nul sep -> Forall no_nul l -> no_nul (JoinStrings l sep).
Proof.
  intros Hs. induction 1 as [|x l Hx Hl IH]; [constructor|]. destruct l as [|y l]; [done|].
  rewrite rollout.JoinStrings_cons, !no_nul_app. done.
Qed.

Lemma not_nul c : (N_of_ascii c <> 0)%N -> c <> "000"%char.
Proof. by intros H ->. Qed.

Lemma is_cont_not_nul lo hi c : is_cont lo hi c = true -> (0 < lo)%N -> c <> "000"%char.
Proof. unfold is_cont. intros H Hlo. apply not_nul. apply andb_true_iff in H as [H _]. apply N.leb_le in H. lia. Qed.

(** The first [n] characters are not NUL. *)
Fixpoint head_not_nul (n : nat) (s : string) : Prop :=
  match n, s with
  | S n', String c s' => c <> "000"%char /\ head_not_nul n' s'
  | _, _ => True
  end.

Lemma rune_tail_not_nul c s n : rune_tail c s = Some n -> head_not_nul n s.
Proof.
  unfold rune_tail, cont2, cont3, cont4. intros H.
  repeat (case_match; simplify_eq/=; bool_prop; try done); split_and!; try done;
    eapply is_cont_not_nul; try eassumption; lia.
Qed.

Lemma escape_ascii_no_nul c : (N_of_ascii c <? 128)%N = true -> no_nul (escape_ascii c).
Proof.
  intros H. destruct c as [[] [] [] [] [] [] [] []]; try discriminate H;
    repeat constructor; discriminate.
Qed.

Lemma json_escape_no_nul s copy skip :
  head_not_nul copy s -> no_nul (json_escape_go copy skip s).
Proof.
  revert copy skip. induction s as [|c s IH]; intros [|copy] skip Hh; cbn [json_escape_go];
    try (by constructor).
  - destruct skip; [|by apply IH]. destruct (N_of_ascii c <? 128)%N eqn:Hc.
    { rewrite no_nul_app. split; [by apply escape_ascii_no_nul|by apply IH]. }
    assert (Hn : c <> "000"%char) by (apply not_nul; apply N.ltb_ge in Hc; lia).
    destruct (rune_tail c s) as [n|] eqn:Er.
    + destruct (is_line_sep c s) as [d|] eqn:El.
      * apply no_nul_app. split; [repeat constructor; discriminate|].
        apply no_nul_cons. split; [|by apply IH]. unfold is_line_sep in El. repeat (case_match; simplify_eq/=; try done).
      * apply no_nul_cons. split; [done|]. apply IH. by eapply rune_tail_not_nul.
    + apply no_nul_app. split; [repeat constructor; discriminate|by apply IH].
  - destruct Hh as [Hc Hh]. apply no_nul_cons. split; [done|by apply IH].
Qed.

Lemma json_string_no_nul s : no_nul (json_string s).
Proof.
  unfold json_string, dq. apply no_nul_cons. split; [done|]. apply no_nul_app.
  split; [by apply json_escape_no_nul|]. repeat constructor; discriminate.
Qed.

Lemma dec_N_no_nul n : no_nul (dec_N n).
Proof.
  unfold no_nul. eapply Forall_impl; [apply dec_N_digits|]. intros c Hc ->. discriminate.
Qed.

Lemma json_encode_no_nul j : no_nul (json_encode j).
Proof.
  assert (Hlit : forall c, c <> "000"%char -> no_nul (String c "")) by (intros c Hc; by repeat constructor).
  induction j as [s|n|b|l Hl|l Hl] using Json_nested_ind; cbn [json_encode].
  - apply json_string_no_nul.
  - destruct n; cbn [dec_Z]; [by apply Hlit|apply dec_N_no_nul|].
    rewrite no_nul_app. split; [by apply Hlit|apply dec_N_no_nul].
  - destruct b; repeat constructor; discriminate.
  - rewrite !no_nul_app. split; [by apply Hlit|]. split; [|by apply Hlit].
    apply no_nul_join; [by apply Hlit|]. by apply Forall_map.
  - rewrite !no_nul_app. split; [by apply Hlit|]. split; [|by apply Hlit].
    apply no_nul_join; [by apply Hlit|]. apply Forall_map. eapply Forall_impl; [exact Hl|].
    intros [k v] Hv. cbn. rewrite !no_nul_app. split; [apply json_string_no_nul|].
    split; [by apply Hlit|exact Hv].
Qed.

(** The text after the JSON: every digest with its leading NUL. *)
Definition nul_list (l : list string) : string := foldr (fun ch acc => nul +:+ ch +:+ acc) "" l.

Lemma config_preimage_eq spec l :
  config_preimage spec l = json_encode (json_HyperFleetConfigSpec spec) +:+ nul_list l.
Proof.
  unfold config_preimage. generalize (json_encode (json_HyperFleetConfigSpec spec)). intros j. revert j.
  induction l as [|ch l IH]; intros j; cbn [fold_left nul_list foldr]; [by rewrite string_app_nil_r|].
  rewrite IH, !string_app_assoc. done.
Qed.

Lemma no_nul_cut a b l1 l2 :
  no_nul a -> no_nul b -> a +:+ nul_list l1 = b +:+ nul_list l2 -> a = b /\ nul_list l1 = nul_list l2.
Proof.
  revert b. induction a as [|c a IH]; intros [|d b] Ha Hb E.
  - split; [done|exact E].
  - apply no_nul_cons in Hb as [Hd _]. destruct l1; [discriminate E|]. injection E as <- _. done.
  - apply no_nul_cons in Ha as [Hc _]. destruct l2; [discriminate E|]. injection E as -> _. done.
  - rewrite !string_app_cons in E. injection E as <- E.
    apply no_nul_cons in Ha as [_ Ha]. apply no_nul_cons in Hb as [_ Hb].
    by destruct (IH b Ha Hb E) as [-> ?].
Qed.

Lemma nul_list_inj l1 l2 :
  Forall no_nul l1 -> Forall no_nul l2 -> nul_list l1 = nul_list l2 -> l1 = l2.
Proof.
  intros H1. revert l2. induction H1 as [|a l1 Ha H1 IH]; intros l2 H2 E.
  - by destruct l2.
  - destruct H2 as [|b l2 Hb H2]; [done|]. injection E as E.
    apply no_nul_cut in E as [-> E]; [|done..]. by rewrite (IH l2 H2 E).
Qed.

(** ** A spec is determined by its JSON *)

Lemma str_omitempty_cases k s : (s = "" /\ str_omitempty k s = []) \/ (s <> "" /\ str_omitempty k s = [(k, JString s)]).
Proof. unfold str_omitempty, omitempty. destruct (String.eqb_spec s ""); auto. Qed.
Lemma json_AuthSpec_inj a b : json_AuthSpec a = json_AuthSpec b -> a = b.
Proof.
  destruct a as [e1 i1 u1 j1], b as [e2 i2 u2 j2]. unfold json_AuthSpec. cbn [Enabled Issuer Audience JWKCertSecretRef].
  destruct (str_omitempty_cases "issuer" i1) as [[? ->]|[? ->]], (str_omitempty_cases "issuer" i2) as [[? ->]|[? ->]],
    (str_omitempty_cases "audience" u1) as [[? ->]|[? ->]], (str_omitempty_cases "audience" u2) as [[? ->]|[? ->]];
  destruct e1, e2, j1 as [[n1]|], j2 as [[n2]|]; cbn; intros [=]; subst; try done; try congruence.
Qed.

(** The API server admits only valid UTF-8 strings. *)
Definition valid_spec (s : HyperFleetConfigSpec) : bool := json.valid_json (json_HyperFleetConfigSpec s).
Lemma json_HyperFleetConfigSpec_inj a b : json_HyperFleetConfigSpec a = json_HyperFleetConfigSpec b -> a = b.
Proof.
  destruct a as [b1 [[[d1]] a1 t1 p1]], b as [b2 [[[d2]] a2 t2 p2]]. unfold json_HyperFleetConfigSpec, json_APISpec.
  cbn [spec_Bundle spec_API Database Auth TLS Profile].
  pose proof (json_AuthSpec_inj a1 a2) as Hinj. revert Hinj.
  generalize (json_AuthSpec a1) (json_AuthSpec a2). intros x1 x2 Hinj.
  destruct (str_omitempty_cases "profile" p1) as [[? ->]|[? ->]], (str_omitempty_cases "profile" p2) as [[? ->]|[? ->]];
  destruct t1 as [[[t1]]|], t2 as [[[t2]]|]; cbn; intros [=]; subst; try done;
  try (rewrite Hinj by done; congruence).
Qed.
Lemma spec_nesting s : (json.nesting (json_HyperFleetConfigSpec s) <= 5)%N.
Proof.
  destruct s as [b1 [[[d1]] [e i u j] t1 p1]]. unfold json_HyperFleetConfigSpec, json_APISpec, json_AuthSpec.
  cbn [spec_Bundle spec_API Database Auth TLS Profile Enabled Issuer Audience JWKCertSecretRef].
  destruct (str_omitempty_cases "profile" p1) as [[? ->]|[? ->]],
    (str_omitempty_cases "issuer" i) as [[? ->]|[? ->]],
    (str_omitempty_cases "audience" u) as [[? ->]|[? ->]], t1 as [[[t1]]|], e, j as [[j]|]; vm_compute; discriminate.
Qed.

(** C34: the bytes hashed for the applied-config metric determine the whole
    spec and every component's config hash, and are determined by them: any
    edit of the spec, a Secret rotation or a newly resolved URL (which change a
    component's hash) changes them, and nothing else does. *)
Theorem config_preimage_injective s1 s2 l1 l2
    (V1 : valid_spec s1 = true) (V2 : valid_spec s2 = true)
    (H1 : Forall no_nul l1) (H2 : Forall no_nul l2) :
  config_preimage s1 l1 = config_preimage s2 l2 <-> s1 = s2 /\ l1 = l2.
Proof.
  split; [|by intros [-> ->]]. rewrite !config_preimage_eq. intros E.
  apply no_nul_cut in E as [Ej E]; [|apply json_encode_no_nul..].
  split; [|by apply nul_list_inj]. apply json_HyperFleetConfigSpec_inj, json.json_encode_inj; try done;
    eapply N.le_trans; try apply spec_nesting; discriminate.
Qed.

(** ** Concrete runs *)

(** A template's images and its config-hash annotation. *)
#[global] Instance demo_TemplateLib : TemplateLib | 100 := {
  Marshal_PodTemplateSpec t :=
    inr (JoinStrings (ct_Image <$> Containers (tpl_Spec t)) "," +:+ "|"
         +:+ map_get (tpl_Annotations t) rollout.configHashAnnotation) }.

Definition demo_spec_cr : HyperFleetConfig := api.demo_cr (mkAuthSpec (Some false) "" "" None) None.
Definition demo_deployment : Deployment := api.deployment demo_spec_cr "img:2" "hf".
Definition demo_live : Deployment :=
  stampTemplateHash (api.deployment demo_spec_cr "img:1" "hf") "0123".

Definition demo_rollout_world : Sim :=
  mkSim 0 None ∅ {[dep_Name demo_live := demo_live]} [] ∅.

Lemma config_preimage_injective_witness :
  let s := cr_Spec demo_spec_cr in config_preimage s ["ab"; "cd"] <> config_preimage s ["ab"; "ce"].
Proof.
  intros s E. apply (config_preimage_injective s s ["ab"; "cd"] ["ab"; "ce"]) in E;
    first [by destruct E|reflexivity|repeat constructor; discriminate].
Defined.

Lemma detect_spec_witness :
  fst (fst (detectRollouts "api" [OService (api.service demo_spec_cr "hf"); ODeployment demo_deployment]
              demo_rollout_world)) = [mkRolloutEvent "api" TriggerImage]
  /\ ct_Image <$> containers demo_live <> ct_Image <$> containers demo_deployment.
Proof.
  pose proof (detect_spec "api" [OService (api.service demo_spec_cr "hf"); ODeployment demo_deployment]
                demo_deployment demo_rollout_world eq_refl) as H.
  split; [vm_compute; reflexivity|].
  destruct (detectRollouts "api" [OService (api.service demo_spec_cr "hf"); ODeployment demo_deployment]
              demo_rollout_world) as [[ev l] w1] eqn:E.
  assert (Eev : ev = [mkRolloutEvent "api" TriggerImage]).
  { transitivity (fst (fst (detectRollouts "api"
      [OService (api.service demo_spec_cr "hf"); ODeployment demo_deployment] demo_rollout_world)));
      [by rewrite E|vm_compute; reflexivity]. }
  destruct H as (_ & Hi & _). exact (proj1 Hi Eev).
Defined.

Lemma steady_no_rollout_witness :
  classify "api" (hashPodTemplate demo_deployment)
    (stampTemplateHash demo_deployment (hashPodTemplate demo_deployment))
    (Found (stampTemplateHash demo_deployment (hashPodTemplate demo_deployment))) = [].
Proof.
  apply (steady_no_rollout "api" demo_deployment demo_deployment
    (stampTemplateHash demo_deployment (hashPodTemplate demo_deployment))); reflexivity.
Defined.

Lemma readiness_spec_witness :
  let s := mkRState demo_rollout_world None None zeroMetrics in
  OperandReady (rs_metrics (snd (recordReadiness "api" [ODeployment demo_deployment] s))) !! "api"
  = Some 0%Z.
Proof.
  exact (proj1 (readiness_spec "api" [ODeployment demo_deployment] demo_deployment
    (mkRState demo_rollout_world None None zeroMetrics) eq_refl)).
Defined.

End observability.
