(* ===== verification/Reconciler.v ===== *)
(** * The reconcile loop ([internal/controller/hyperfleetconfig_controller.go])

    Module [reconciler] models [Reconcile] and the small functions around it.
    The loops over components are written against the [IsComponent]
    interface and are verified against its contract; [Reconcile] runs them on
    what [bundle.Resolve] returns.  Three things outlive a failure of the
    body and feed the deferred status update: they are the record [Learned]. *)

From S2P Require Import Prelude Kube ConfigTypes Json Url JsonDecode Contract Api Sentinel Bundle NetAddr.
From S2P Require Import DiscoveryGuard Sha256 Env ConfigHash Metrics State Jwks Status Apply.
From S2P Require Import Observability Sim.

Module reconciler.
Import metrics.

(** The reconciler's settings.  [APIReader_] says whether the uncached reader is set. *)
Record Settings := mkSettings {
  APIReader_ : bool;
  OperatorNamespace : string;
  APIImage : string;
  SentinelImage : string;
  BrokerInfo : option sentinel.BrokerInfo;
  HTTPClient : option Client }.

(** What the deferred status update reads. *)
Record Learned := mkLearned {
  componentConditions : list ComponentConditions;
  componentsCollected : bool;
  missingSecrets : list string }.

Definition nothing_learned : Learned := mkLearned [] false [].

Definition BState (W : Type) : Type := RState W * Learned.

Section effects.
Context {W : Type}.

Definition lift_state {A} (m : ST (RState W) A) : ST (BState W) A :=
  fun s => let '(a, s1) := m s.1 in (a, (s1, s.2)).

Definition learn (f : Learned -> Learned) : ST (BState W) unit := fun s => (tt, (s.1, f s.2)).

(** [if err != nil { metrics.IncReconcileError(reason); return ..., fmt.Errorf(format, args, err) }] *)
Definition on_error {A} (reason format : string) (args : list string) (m : ST (BState W) (outcome A)) :
    ST (BState W) (outcome A) :=
  fun s =>
    match m s with
    | (Fail err, s1) =>
        (Fail (Wrapf format args err), snd (lift_state (record_metric (IncReconcileError reason)) s1))
    | x => x
    end.

End effects.

(** ** The loops over the components *)

Section components.
Context {W : Type} `{E : Env W} `{TL : TemplateLib} {C : Type} `{IC : IsComponent C}.
Context (r : Settings).

Definition missing_of (entries : list rollout.hashEntry) : list string :=
  omap (fun e => if negb (rollout.present e) then Some (rollout.he_id e) else None) entries.

(** The first loop: the Secrets of every component. *)
Fixpoint read_secrets (cr : HyperFleetConfig) (componentEntries : gmap string (list rollout.hashEntry))
    (components : list C) : ST (BState W) (outcome (gmap string (list rollout.hashEntry))) :=
  match components with
  | [] => st_ret (Ok componentEntries)
  | comp :: rest =>
      (let!? refs := st_ret (cReferencedSecrets comp cr) in
       let!? entries := on_error "secrets" "read referenced secrets for component %q: %w" [cName comp]
         (lift_state (lift_world (rollout.resolveSecretEntries (OperatorNamespace r) refs))) in
       let! _ := learn (fun l => mkLearned (componentConditions l) (componentsCollected l)
                                   (missingSecrets l ++ missing_of entries)) in
       read_secrets cr (<[cName comp := entries]> componentEntries) rest)%st
  end.

Definition sort_missing (l : Learned) : Learned :=
  mkLearned (componentConditions l) (componentsCollected l) (Compact (SortStrings (missingSecrets l))).

Definition refreshReader : Reader := if APIReader_ r then APIReader else CachedClient.

(** The body of the second loop: the hash it appends. *)
Definition reconcile_component (cr : HyperFleetConfig)
    (componentEntries : gmap string (list rollout.hashEntry)) (component : C) :
    ST (BState W) (outcome string) :=
  (let!? objs := on_error "render" "render component %q: %w" [cName component]
     (st_ret (cRender component cr)) in
   let '(hash, objs) := rollout.stampConfigHash objs (cRollout component)
                          (default [] (componentEntries !! cName component)) in
   let! (rollouts, objs) := lift_state (lift_world
     (observability.detectRollouts (cName component) objs)) in
   let!? objs := on_error "apply" "apply component %q: %w" [cName component]
     (lift_state (lift_world (apply.Objects (Some refreshReader) cr objs))) in
   let! _ := lift_state (observability.commitRollouts rollouts) in
   let! _ := lift_state (observability.recordReadiness (cName component) objs) in
   let!? conds := on_error "conditions" "get conditions for component %q: %w" [cName component]
     (st_ret (cConditions component cr objs)) in
   let! _ := learn (fun l => mkLearned
     (componentConditions l ++ [mkComponentConditions (cName component) conds])
     (componentsCollected l) (missingSecrets l)) in
   st_ret (Ok hash))%st.

(** The second loop: the config hashes, in order. *)
Fixpoint reconcile_components (cr : HyperFleetConfig)
    (componentEntries : gmap string (list rollout.hashEntry)) (components : list C) :
    ST (BState W) (outcome (list string)) :=
  match components with
  | [] => st_ret (Ok [])
  | component :: rest =>
      (let!? hash := reconcile_component cr componentEntries component in
       let!? hashes := reconcile_components cr componentEntries rest in
       st_ret (Ok (hash :: hashes)))%st
  end.

End components.

(** ** [Reconcile] *)

Section reconcile.
Context {W : Type} `{E : Env W} `{TL : TemplateLib} `{UL : UrlLib} `{CL : ConditionsLib} `{Y : YamlLib}.
Context (r : Settings).

Definition bundle_config : bundle.Config :=
  bundle.mkBundleConfig (APIImage r) (SentinelImage r) (OperatorNamespace r) (BrokerInfo r) "".

(** From resolving the bundle to publishing the digest of what was applied. *)
Definition reconcile_body (cr : HyperFleetConfig) : ST (BState W) (outcome unit) :=
  (let!? components := on_error "bundle" "resolve components: %w" []
     (st_ret (bundle.Resolve (spec_Bundle (cr_Spec cr)) bundle_config)) in
   let apiBaseURL := api.APIBaseURL cr (OperatorNamespace r) in
   let components := bundle.SetAPIBaseURL components apiBaseURL in
   let!? componentEntries := read_secrets r cr ∅ components in
   let! _ := learn sort_missing in
   let!? jwksURL := on_error "discovery" "resolve JWKS URL: %w" []
     (lift_state (jwks.resolveJWKSURL (HTTPClient r) cr)) in
   let components := bundle.SetResolvedJWKSURL components jwksURL in
   let!? componentConfigHashes := reconcile_components r cr componentEntries components in
   let! _ := learn (fun l => mkLearned (componentConditions l) true (missingSecrets l)) in
   let! _ := lift_state (record_metric (SetAppliedConfigHash
     (observability.hashConfig (cr_Spec cr) componentConfigHashes))) in
   st_ret (Ok tt))%st.

Definition now : ST (RState W) Z := lift_world env_Now.

Definition reterr {A} (res : outcome A) : option error :=
  match res with Fail e => Some e | _ => None end.

(** [errors.Join(reterr, err)]: a nil [reterr] is dropped.  A panic goes on after the deferred call. *)
Definition join_result (res : outcome unit) (err : error) : outcome unit :=
  match res with
  | Ok _ => Fail err
  | Fail e => Fail (JoinErrors e err)
  | Panic => Panic
  end.

(** The deferred status update. *)
Definition update_status (cr : HyperFleetConfig) (res : outcome unit) (l : Learned) :
    ST (RState W) (outcome unit) :=
  (let! (cr', changed) := status.aggregateStatus now cr (componentConditions l)
                            (componentsCollected l) (missingSecrets l) (reterr res) in
   if (changed : bool) then
     let! err := lift_world (status_Update cr') in
     st_ret match err with
            | Some err => join_result res (Wrapf "update status: %w" [] err)
            | None => res
            end
   else st_ret res)%st.

(** The body, then the deferred status update. *)
Definition reconcile_found (cr : HyperFleetConfig) : ST (RState W) (outcome unit) :=
  fun s =>
    let '(res, (s1, l)) := reconcile_body cr (s, nothing_learned) in
    update_status cr res l s1.

(** The request's key has no namespace, the resource being cluster-scoped, so it
    is printed as a slash and the name. *)
Definition Reconcile (name : string) : ST (RState W) (outcome unit) :=
  (let! start := now in
   let! g := lift_world (get_HyperFleetConfig name) in
   let! res := match g with
               | NotFound => st_ret (Ok tt)
               | GetError err =>
                   let! _ := record_metric (IncReconcileError "get") in
                   st_ret (Fail (Wrapf "get HyperFleetConfig %q: %w" ["/" +:+ name] err))
               | Found cr => reconcile_found cr
               end in
   let! stop := now in
   let! _ := record_metric (ObserveReconcile (stop - start)) in
   st_ret res)%st.

End reconcile.

(** ** Around it *)

Definition NamespacedOperandTypes : list ObjectType :=
  [TDeployment; TService; TServiceAccount; TConfigMap; TRole; TRoleBinding; TNetworkPolicy].

(** What [SetupWithManager] registers: the watched resource, the owned operand
    types, and the Secret watch with its predicate. *)
Record ControllerSetup := mkControllerSetup {
  setup_For : string; setup_Owns : list ObjectType; setup_Watches : list (ObjectType * string);
  setup_Named : string }.

Definition wrapHyperFleetConfigControllerSetupError (err : option error) : option error :=
  match err with
  | None => None
  | Some err => Some (Wrapf "complete hyperfleetconfig controller: %w" [] err)
  end.

Definition controllerSetup : ControllerSetup :=
  mkControllerSetup "HyperFleetConfig"
    (fold_left (fun acc t => acc ++ [t]) NamespacedOperandTypes [])
    [(TSecret, "ResourceVersionChangedPredicate")] "hyperfleetconfig".

(** [complete] is the builder's [Complete]. *)
Definition SetupWithManager (complete : ControllerSetup -> option error) : option error :=
  wrapHyperFleetConfigControllerSetupError (complete controllerSetup).

(** The requests for a changed object of a namespace. *)
Definition mapSecretToConfig (r : Settings) (namespace : string) : list string :=
  if negb (String.eqb namespace (OperatorNamespace r)) then [] else [SingletonName].

(** ** A concrete reconciler, for concrete runs *)

Definition demo_settings : Settings :=
  mkSettings true "hf" "" "sentinel:1"
    (Some (sentinel.mkBrokerInfo sentinel.BrokerTypeRabbitMQ "")) None.

End reconciler.
