(* ===== verification/ReconcilerMetrics.v ===== *)
(** * What a reconcile counts

    Every failure of the loop is counted once under the stage that its error names,
    every reconcile is timed once, nothing panics, and the gauges about the
    applied state move only when something was applied.  A computation that
    does this is [accounted]; the property is kept by sequencing. *)

From S2P Require Import Prelude Kube ConfigTypes Json Url JsonDecode Contract Api Sentinel Bundle NetAddr.
From S2P Require Import DiscoveryGuard Sha256 Env ConfigHash Metrics State Jwks Status Apply.
From S2P Require Import Observability Sim Reconciler.

Module accounting.
Import metrics reconciler.

(** The stage an error of the loop is counted under, by the text it is wrapped in. *)
Definition stages : list (string * string) :=
  [("get HyperFleetConfig %q: %w", "get"); ("resolve components: %w", "bundle");
   ("read referenced secrets for component %q: %w", "secrets"); ("resolve JWKS URL: %w", "discovery");
   ("render component %q: %w", "render"); ("apply component %q: %w", "apply");
   ("get conditions for component %q: %w", "conditions")].

Definition stage_of (format : string) : option string :=
  snd <$> List.find (fun p => String.eqb p.1 format) stages.

Definition stage (e : error) : option string :=
  match e with Wrapf format _ _ => stage_of format | _ => None end.

Definition failure {A} (res : outcome A) : option error :=
  match res with Fail e => Some e | _ => None end.

(** A failure raises the counter of its own stage by one and no other; without
    one no counter moves. *)
Definition counted (f : option error) (m m' : Metrics) : Prop :=
  match f with
  | None => ReconcileErrors m' = ReconcileErrors m
  | Some e => exists reason, stage e = Some reason /\ ReconcileErrors m' = inc reason (ReconcileErrors m)
  end.

(** Everything but the error counter, the rollout counter and the readiness gauge. *)
Definition same_gauges (m m' : Metrics) : Prop :=
  ReconcileDuration m' = ReconcileDuration m /\ AppliedConfig m' = AppliedConfig m.

Definition acc (f : option error) (m m' : Metrics) : Prop := counted f m m' /\ same_gauges m m'.

Lemma acc_refl m : acc None m m.
Proof. done. Qed.

Lemma acc_trans f m1 m2 m3 : acc None m1 m2 -> acc f m2 m3 -> acc f m1 m3.
Proof.
  unfold acc, same_gauges, counted. intros (E1 & <- & <-) (E2 & <- & <-). split; [|done].
  rewrite <- E1. exact E2.
Qed.

Section logic.
Context {W : Type}.

Definition met (s : BState W) : Metrics := rs_metrics s.1.

(** Runs without a panic, and counts its own failure. *)
Definition accounted {A} (m : ST (BState W) (outcome A)) : Prop :=
  forall s, fst (m s) <> Panic /\ acc (failure (fst (m s))) (met s) (met (snd (m s))).

(** Touches neither the error counter nor the gauges above. *)
Definition quiet {A} (m : ST (BState W) A) : Prop := forall s, acc None (met s) (met (snd (m s))).

Lemma accounted_ok {A} (a : A) : accounted (st_ret (Ok a)).
Proof. intros s. split; [done|]. apply acc_refl. Qed.

Lemma accounted_bind {A B} (m : ST (BState W) (outcome A)) (k : A -> ST (BState W) (outcome B)) :
  accounted m -> (forall a, accounted (k a)) -> accounted (so_bind m k).
Proof.
  intros Hm Hk s. unfold so_bind. destruct (Hm s) as [Hp Ha]. destruct (m s) as [[a|e|] s1]; [|by split..].
  cbn in Ha. destruct (Hk a s1) as [Hp2 Ha2]. split; [done|].
  by apply (acc_trans _ _ _ _ Ha Ha2).
Qed.

Lemma accounted_quiet_bind {A B} (m : ST (BState W) A) (k : A -> ST (BState W) (outcome B)) :
  quiet m -> (forall a, accounted (k a)) -> accounted (st_bind m k).
Proof.
  intros Hm Hk s. unfold st_bind. pose proof (Hm s) as Ha. destruct (m s) as [a s1].
  destruct (Hk a s1) as [Hp2 Ha2]. split; [done|]. by apply (acc_trans _ _ _ _ Ha Ha2).
Qed.

Lemma quiet_ret {A} (a : A) : quiet (st_ret a).
Proof. intros s. apply acc_refl. Qed.

Lemma quiet_learn f : quiet (learn f : ST (BState W) unit).
Proof. intros s. apply acc_refl. Qed.

Lemma quiet_world {A} (m : ST W A) : quiet (lift_state (lift_world m)).
Proof.
  intros [s l]. unfold lift_state, lift_world, met. cbn.
  destruct (m (rs_world s)). apply acc_refl.
Qed.

(** A step that may fail, guarded by the counter. *)
Lemma accounted_on_error {A} reason f args (m : ST (BState W) (outcome A)) :
  stage_of f = Some reason -> (forall s, fst (m s) <> Panic) -> quiet m ->
  accounted (on_error reason f args m).
Proof.
  intros Hf Hp Hq s. unfold on_error. specialize (Hp s). pose proof (Hq s) as Ha.
  destruct (m s) as [[a|e|] s1]; [by split| |by split]. split; [done|].
  destruct Ha as (E & Hd & Hc). unfold acc, same_gauges, counted, met in *. cbn [fst snd failure stage].
  split; [|done]. exists reason. split; [exact Hf|]. cbn in *. by rewrite E.
Qed.

End logic.

Create HintDb account.
#[export] Hint Resolve accounted_ok quiet_learn quiet_world quiet_ret : account.

Ltac account :=
  repeat match goal with
  | |- accounted (so_bind _ _) => apply accounted_bind; [|intros ?]
  | |- accounted (st_bind _ _) => apply accounted_quiet_bind; [|intros ?]
  | |- accounted (on_error _ _ _ _) => apply accounted_on_error; [reflexivity|intros ?|]
  | |- accounted _ => solve [auto with account]
  | |- quiet _ => solve [auto with account]
  end.

Section components.
Context {W : Type} `{E : Env W} `{TL : TemplateLib} {C : Type} `{IC : IsComponent C} `{CC : !ComponentContract C}.
Context (r : Settings).

(** A component whose Secrets can be listed. *)
Definition listed (cr : HyperFleetConfig) (c : C) : Prop := exists refs, cReferencedSecrets c cr = Ok refs.

Lemma resolveSecretEntries_no_panic ns refs w : fst (rollout.resolveSecretEntries (W := W) ns refs w) <> Panic.
Proof.
  revert w. induction refs as [|ref refs IH]; intros w; [done|]. cbn. unfold st_bind, so_bind.
  destruct (get_Secret ns (SecretName ref) w) as [[s| |e] w1]; [| |done];
    specialize (IH w1); by destruct (rollout.resolveSecretEntries ns refs w1) as [[l|e|] w2].
Qed.

Lemma lift_no_panic {A} (m : ST W (outcome A)) (s : BState W) :
  (forall w, fst (m w) <> Panic) -> fst (lift_state (lift_world m) s) <> Panic.
Proof.
  intros Hm. unfold lift_state, lift_world. specialize (Hm (rs_world s.1)).
  by destruct (m (rs_world s.1)) as [[a|e|] w].
Qed.

Lemma read_secrets_accounted cr entries comps :
  Forall (listed cr) comps -> accounted (read_secrets r cr entries comps).
Proof.
  intros Hl. revert entries. induction Hl as [|c comps [refs Hc] Hl IH]; intros entries; cbn [read_secrets].
  - apply accounted_ok.
  - rewrite Hc. account. apply lift_no_panic, resolveSecretEntries_no_panic.
Qed.

Lemma quiet_commit evs : quiet (W := W) (lift_state (observability.commitRollouts evs)).
Proof.
  intros [s l]. unfold lift_state, met. cbn.
  destruct (observability.commitRollouts_metrics evs s) as [_ Hm].
  destruct (observability.commitRollouts evs s) as [[] s1]. cbn in *. rewrite Hm.
  clear. generalize (rs_metrics s) as m. induction evs as [|e evs IH]; intros m; [apply acc_refl|].
  cbn. eapply acc_trans; [|apply IH]. done.
Qed.

Lemma quiet_readiness comp objs : quiet (W := W) (lift_state (observability.recordReadiness comp objs)).
Proof.
  intros [s l]. unfold lift_state, met. cbn.
  destruct (observability.recordReadiness comp objs s) as [[] s1] eqn:E1. cbn. revert s E1.
  unfold observability.recordReadiness.
  induction objs as [|o objs IH]; intros s E1; [injection E1 as <-; apply acc_refl|].
  cbn [st_iter] in E1. unfold st_bind in E1. destruct o as [d|?|?|?|?|?|?]; try by apply IH.
  unfold lift_world in E1.
  destruct (get_Deployment _ _ (rs_world s)) as [[live| |e] w1]; cbn in E1; apply IH in E1; exact E1.
Qed.

#[local] Hint Resolve quiet_commit quiet_readiness : account.

Lemma conditions_no_panic c cr objs : cConditions c cr objs <> Panic.
Proof. destruct (conditions_law c cr objs) as (l & -> & _). done. Qed.

Lemma reconcile_component_accounted cr entries c :
  cRender c cr <> Panic -> accounted (W := W) (reconcile_component r cr entries c).
Proof.
  intros Hr. unfold reconcile_component. account; [exact Hr|].
  destruct (rollout.stampConfigHash _ _ _) as [hash objs].
  apply accounted_quiet_bind; [apply quiet_world|]. intros [rollouts objs2].
  account.
  - apply lift_no_panic. intros w. apply apply.apply_all_no_panic.
  - apply conditions_no_panic.
Qed.

Lemma reconcile_components_accounted cr entries comps :
  Forall (fun c => cRender c cr <> Panic) comps ->
  accounted (W := W) (reconcile_components r cr entries comps).
Proof.
  induction 1 as [|c comps Hc Hl IH]; cbn [reconcile_components]; [apply accounted_ok|].
  account. by apply reconcile_component_accounted.
Qed.

(** The config hash of a component: of what it renders and of its Secret entries. *)
Definition component_hash (cr : HyperFleetConfig) (entries : gmap string (list rollout.hashEntry)) (c : C)
    (h : string) : Prop :=
  exists objs, cRender c cr = Ok objs
    /\ h = fst (rollout.stampConfigHash objs (cRollout c) (default [] (entries !! cName c))).

Lemma reconcile_component_hash cr entries c (s : BState W) h s1 :
  reconcile_component r cr entries c s = (Ok h, s1) -> component_hash cr entries c h.
Proof.
  unfold reconcile_component. intros H. apply so_bind_ok in H as (objs & s2 & Hr & H).
  unfold on_error, st_ret in Hr. destruct (cRender c cr) as [objs0|e|] eqn:Er; [|discriminate Hr..].
  injection Hr as Hr _. subst objs0. exists objs. split; [exact Er|].
  destruct (rollout.stampConfigHash objs _ _) as [hash objs1]. unfold st_bind at 1 in H.
  destruct (lift_state _ s2) as [[evs objs2] s3]. apply so_bind_ok in H as (objs3 & s4 & _ & H).
  unfold st_bind in H. destruct (lift_state (observability.commitRollouts evs) s4) as [? s5].
  destruct (lift_state _ s5) as [? s6]. apply so_bind_ok in H as (conds & s7 & _ & H).
  cbn in H. by injection H as <- _.
Qed.

Lemma reconcile_components_hashes cr entries comps (s : BState W) hs s1 :
  reconcile_components r cr entries comps s = (Ok hs, s1) ->
  Forall2 (component_hash cr entries) comps hs.
Proof.
  revert s hs. induction comps as [|c comps IH]; intros s hs H; cbn [reconcile_components] in H.
  { injection H as <- _. constructor. }
  apply so_bind_ok in H as (h & s2 & Hh & H). apply so_bind_ok in H as (hs2 & s3 & Hhs & H).
  injection H as <- <-. constructor; [by eapply reconcile_component_hash|by eapply IH].
Qed.

End components.

(** ** The whole reconcile *)

Section reconcile.
Context {W : Type} `{E : Env W} `{TL : TemplateLib} `{UL : UrlLib} `{CL : ConditionsLib} `{Y : YamlLib}.
Context (r : Settings).

(** One step of a sequence: what it needs to say of its success and its failure. *)
Lemma step_bind {A B} (m : ST (BState W) (outcome A)) (k : A -> ST (BState W) (outcome B))
    (s : BState W) (P : outcome B * BState W -> Prop) :
  accounted m ->
  (forall a s1, m s = (Ok a, s1) -> acc None (met s) (met s1) -> P (k a s1)) ->
  (forall e s1, m s = (Fail e, s1) -> acc (Some e) (met s) (met s1) -> P (Fail e, s1)) ->
  P (so_bind m k s).
Proof.
  intros Hm Hok Hfail. unfold so_bind. destruct (Hm s) as [Hp Ha].
  destruct (m s) as [[a|e|] s1]; [by apply Hok|by apply Hfail|done].
Qed.

Lemma resolved_ready b cfg l cr :
  bundle.Resolve b cfg = Ok l ->
  forall u v, Forall (listed cr) (bundle.SetAPIBaseURL l v)
  /\ Forall (fun c => cRender c cr <> Panic) (bundle.SetResolvedJWKSURL (bundle.SetAPIBaseURL l v) u).
Proof.
  intros Hr u v. apply bundle.Resolve_broker in Hr.
  assert (Hl : forall c, bundle.broker_set c -> listed cr c).
  { intros [a|sc] Hb; [by eexists|]. destruct Hb as [b0 Hb]. eexists. cbn.
    unfold sentinel.ReferencedSecrets. by rewrite Hb. }
  split.
  - eapply Forall_impl; [by apply bundle.SetAPIBaseURL_broker|exact Hl].
  - eapply Forall_impl; [by apply bundle.SetResolvedJWKSURL_broker, bundle.SetAPIBaseURL_broker|].
    intros c Hb. apply panic_law. by apply bundle.broker_set_secrets.
Qed.

Lemma quiet_jwks cr : quiet (W := W) (lift_state (jwks.resolveJWKSURL (HTTPClient r) cr)).
Proof.
  intros [s l]. unfold lift_state, met. cbn.
  destruct (jwks.resolveJWKSURL (HTTPClient r) cr s) as [res s1] eqn:E1.
  apply jwks.resolveJWKSURL_metrics in E1 as [Hm _]. cbn. rewrite Hm. apply acc_refl.
Qed.

Lemma jwks_accounted reason f args cr :
  stage_of f = Some reason ->
  accounted (W := W) (on_error reason f args (lift_state (jwks.resolveJWKSURL (HTTPClient r) cr))).
Proof.
  intros Hf. apply accounted_on_error; [done| |apply quiet_jwks]. intros [s l]. unfold lift_state. cbn.
  destruct (jwks.resolveJWKSURL (HTTPClient r) cr s) as [res s1] eqn:E1.
  by apply jwks.resolveJWKSURL_metrics in E1 as [_ Hp].
Qed.

Definition body_counts (cr : HyperFleetConfig) (m : Metrics) (out : outcome unit * BState W) : Prop :=
  match out.1 with
  | Ok _ => exists hashes m0, acc None m m0
      /\ (exists comps entries url,
           bundle.Resolve (spec_Bundle (cr_Spec cr)) (bundle_config r) = Ok comps
           /\ Forall2 (component_hash cr entries)
                (bundle.SetResolvedJWKSURL
                   (bundle.SetAPIBaseURL comps (api.APIBaseURL cr (OperatorNamespace r))) url) hashes)
      /\ met out.2 = SetAppliedConfigHash (observability.hashConfig (cr_Spec cr) hashes) m0
      /\ componentsCollected out.2.2 = true
  | Fail e => acc (Some e) m (met out.2)
  | Panic => False
  end.

Lemma reconcile_body_counts cr s : body_counts cr (met s) (reconcile_body r cr s).
Proof.
  unfold reconcile_body. apply step_bind.
  { apply accounted_on_error; [reflexivity|intros ?; apply bundle.Resolve_no_panic|apply quiet_ret]. }
  2: by intros.
  intros comps s1 Hres H1.
  assert (Hr : bundle.Resolve (spec_Bundle (cr_Spec cr)) (bundle_config r) = Ok comps).
  { unfold on_error, st_ret in Hres. destruct (bundle.Resolve _ _) as [l|e|]; [|discriminate Hres..]. by injection Hres as <-. }
  pose proof (resolved_ready _ _ _ cr Hr) as Hready.
  apply step_bind; [by apply read_secrets_accounted, (Hready "")| |].
  2: intros e s2 _ H2; by apply (acc_trans _ _ (met s1)).
  intros entries s2 _ H2. unfold st_bind at 1. cbn.
  apply step_bind; [by apply jwks_accounted| |].
  2:{ intros e s3 _ H3. cbn. eapply acc_trans; [|exact H3]. by apply (acc_trans _ _ (met s1)). }
  intros url s3 _ H3. apply step_bind; [by apply reconcile_components_accounted, Hready| |].
  - intros hashes s4 Hhs H4. cbn. exists hashes, (met s4). split.
    { do 2 (eapply acc_trans; [eassumption|]). by apply (acc_trans _ _ (met s3)). }
    split; [|done]. exists comps, entries, url. split; [done|].
    by eapply reconcile_components_hashes.
  - intros e s4 _ H4. cbn. eapply acc_trans; [|exact H4].
    do 2 (eapply acc_trans; [eassumption|]). exact H3.
Qed.

(** The deferred update touches no metric; it keeps the body's result or
    joins its own failure to it. *)
Lemma update_status_frame cr res l (s : RState W) :
  let '(res', s') := update_status cr res l s in
  rs_metrics s' = rs_metrics s
  /\ (res' = res \/ exists err, res' = join_result res (Wrapf "update status: %w" [] err)).
Proof.
  unfold update_status, st_bind.
  assert (PreOrder (fun a b : RState W => rs_metrics b = rs_metrics a)) by (split; [done|congruence]).
  pose proof (status.aggregateStatus_frame now (fun a b => rs_metrics b = rs_metrics a) cr
    (componentConditions l) (componentsCollected l) (missingSecrets l) (reterr res) s) as Hf.
  destruct (status.aggregateStatus now cr _ _ _ _ s) as [[cr' ch] s1]. cbn in Hf.
  assert (Hm : rs_metrics s1 = rs_metrics s).
  { apply Hf. intros s0. unfold now, lift_world. by destruct (env_Now (rs_world s0)). }
  destruct ch; [|unfold st_ret; auto]. unfold lift_world.
  destruct (status_Update cr' (rs_world s1)) as [[err|] w2]; cbn; rewrite Hm; eauto.
Qed.

Definition update_error (e : error) : Prop := exists err, e = Wrapf "update status: %w" [] err.

(** The body's part of a returned error: a failed status update is joined to it. *)
Definition body_error (e : error) : error := match e with JoinErrors e1 _ => e1 | _ => e end.

Lemma stage_body e reason : stage e = Some reason -> body_error e = e.
Proof. by destruct e. Qed.

(** C3: whatever the API server, the network and the clock do, a
    reconcile does not panic; it is timed exactly once; and when reading the resource or
    the body failed, the counter of the stage that the returned error names goes
    up by one and no other does, whether or not a failed status update is joined to the error.
    No counter moves on a success, nor when the status update alone failed. *)
Theorem reconcile_accounting name (s : RState W) :
  let '(res, s') := Reconcile r name s in
  let m := rs_metrics s in let m' := rs_metrics s' in
  res <> Panic
  /\ (exists d, ReconcileDuration m' = d :: ReconcileDuration m)
  /\ match res with
     | Ok _ => ReconcileErrors m' = ReconcileErrors m
     | Fail e => (exists reason, stage (body_error e) = Some reason
                    /\ ReconcileErrors m' = inc reason (ReconcileErrors m))
                 \/ update_error e /\ ReconcileErrors m' = ReconcileErrors m
     | Panic => False
     end.
Proof.
  unfold Reconcile, st_bind, now, lift_world, record_metric, st_ret, get_state.
  destruct (env_Now (rs_world s)) as [start w1]. cbn.
  destruct (get_HyperFleetConfig name w1) as [[cr| |e] w2]; cbn.
  - unfold reconcile_found.
    pose proof (reconcile_body_counts cr (set_world w2 (set_world w1 s), nothing_learned)) as Hb.
    destruct (reconcile_body r cr _) as [res [s1 l]]. unfold body_counts, met in Hb. cbn in Hb.
    pose proof (update_status_frame cr res l s1) as Hu.
    destruct (update_status cr res l s1) as [res' s2]. destruct Hu as [Hm Hres].
    destruct (env_Now (rs_world s2)) as [stop w3]. cbn. rewrite Hm.
    destruct res as [[]|e|]; [| |done].
    + destruct Hb as (hashes & m0 & (He & Hd & _) & _ & -> & _). cbn in *. rewrite Hd.
      destruct Hres as [->|[err ->]]; cbn; (split; [done|]); (split; [by eexists|]); [done|].
      right. split; [by exists err|done].
    + destruct Hb as ((reason & Hs & He) & Hd & _). cbn in He. rewrite Hd.
      destruct Hres as [->|[err ->]]; cbn; (split; [done|]); (split; [by eexists|]); left; exists reason;
        (split; [|exact He]); [by rewrite (stage_body e reason)|exact Hs].
  - destruct (env_Now w2) as [stop w3]. cbn. split; [done|]. split; [by eexists|done].
  - destruct (env_Now w2) as [stop w3]. cbn. split; [done|]. split; [by eexists|].
    left. by exists "get".
Qed.

(** C27: the applied-config gauge moves only when the whole
    loop succeeded; it then has one series, the digest of the spec and of the
    config hash of every component rendered, in order; on any failure before that it
    keeps its value, so it always describes a configuration that was applied in full. *)
Theorem applied_gauge cr (s : RState W) :
  let '(res, s') := reconcile_found r cr s in
  let g := AppliedConfig (rs_metrics s) in let g' := AppliedConfig (rs_metrics s') in
  match fst (reconcile_body r cr (s, nothing_learned)) with
  | Ok _ => exists hashes comps entries url,
      g' = {[observability.hashConfig (cr_Spec cr) hashes := 1%Z]}
      /\ bundle.Resolve (spec_Bundle (cr_Spec cr)) (bundle_config r) = Ok comps
      /\ Forall2 (component_hash cr entries)
           (bundle.SetResolvedJWKSURL
              (bundle.SetAPIBaseURL comps (api.APIBaseURL cr (OperatorNamespace r))) url) hashes
  | _ => g' = g
  end.
Proof.
  unfold reconcile_found. pose proof (reconcile_body_counts cr (s, nothing_learned)) as Hb.
  destruct (reconcile_body r cr _) as [res [s1 l]]. unfold body_counts, met in Hb. cbn in Hb.
  pose proof (update_status_frame cr res l s1) as Hu.
  destruct (update_status cr res l s1) as [res' s2]. destruct Hu as [Hm _]. cbn. rewrite Hm.
  destruct res as [[]|e|]; [| |done].
  - destruct Hb as (hashes & m0 & _ & (comps & entries & url & Hr & Hf) & -> & _).
    by exists hashes, comps, entries, url.
  - by destruct Hb as (_ & _ & ->).
Qed.

End reconcile.
End accounting.
