(* ===== verification/MetricsBounds.v ===== *)
(** * How many series the operator exports

    The labels of the operator's metrics come from closed sets, whatever the
    API server answers and whatever the configuration says, so the number of exported series
    has a bound that does not depend on how long the process runs.  The bound is kept by every
    computation that [keeps] it, which sequencing preserves. *)

From S2P Require Import Prelude Kube ConfigTypes Json Url JsonDecode Contract Api Sentinel Bundle NetAddr.
From S2P Require Import DiscoveryGuard Sha256 Env ConfigHash Metrics State Jwks Status Apply.
From S2P Require Import Observability Sim Reconciler ReconcilerMetrics.

Module series.
Import metrics reconciler accounting.

(** The values of the [reason] label, and of the [trigger] label. *)
Definition reasons : list string := ["get"; "bundle"; "secrets"; "discovery"; "render"; "apply"].
Definition triggers : list string := [TriggerCreate; TriggerImage; TriggerConfig].

(** A digest label: twelve lower-case hexadecimal digits. *)
Definition hash_label (h : string) : Prop :=
  String.length h = 12%nat
  /\ Forall (fun c => sha256.lower_hex c = true) (String.list_ascii_of_string h).

Definition within (operands : list string) (m : Metrics) : Prop :=
  (forall k, is_Some (ReconcileErrors m !! k) -> k ∈ reasons)
  /\ (forall k v, OperandReady m !! k = Some v -> k ∈ operands /\ (v = 0 \/ v = 1)%Z)
  /\ (forall k, is_Some (OperandRollouts m !! k) -> k.1 ∈ operands /\ k.2 ∈ triggers)
  /\ (AppliedConfig m = ∅ \/ exists h, AppliedConfig m = {[h := 1%Z]} /\ hash_label h).

(** ** The helpers keep the bound *)

Lemma inc_keys `{Countable K} (k k' : K) (m : gmap K N) :
  is_Some (inc k m !! k') -> k' = k \/ is_Some (m !! k').
Proof. unfold inc. rewrite lookup_insert_is_Some. naive_solver. Qed.

Lemma within_error ops reason m : reason ∈ reasons -> within ops m -> within ops (IncReconcileError reason m).
Proof.
  intros Hr (H1 & H2). split; [|exact H2]. cbn. intros k Hk. apply inc_keys in Hk as [->|Hk]; auto.
Qed.

Lemma within_ready ops operand b m : operand ∈ ops -> within ops m -> within ops (SetOperandReady operand b m).
Proof.
  intros Ho (H1 & H2 & H3). split; [exact H1|]. split; [|exact H3]. cbn. intros k v.
  rewrite lookup_insert_Some. intros [[-> <-]|[_ Hk]]; [|by apply H2]. split; [done|]. destruct b; auto.
Qed.

Lemma within_rollout ops operand t m :
  operand ∈ ops -> t ∈ triggers -> within ops m -> within ops (IncOperandRollout operand t m).
Proof.
  intros Ho Ht (H1 & H2 & H3 & H4). split; [exact H1|]. split; [exact H2|]. split; [|exact H4].
  cbn. intros k Hk. apply inc_keys in Hk as [->|Hk]; auto.
Qed.

Lemma within_applied ops h m : hash_label h -> within ops m -> within ops (SetAppliedConfigHash h m).
Proof.
  intros Hh (H1 & H2 & H3 & _). split; [exact H1|]. split; [exact H2|]. split; [exact H3|].
  right. by exists h.
Qed.

Lemma within_observe ops d m : within ops m -> within ops (ObserveReconcile d m).
Proof. done. Qed.

(** The prefix of a digest. *)
Lemma take_string_label n s : (n <= String.length s)%nat ->
  String.length (take_string n s) = n
  /\ String.list_ascii_of_string (take_string n s) = take n (String.list_ascii_of_string s).
Proof.
  unfold take_string. revert n. induction s as [|c s IH]; intros [|n] Hn; cbn in *; try done; [lia|].
  destruct (IH n) as [H1 H2]; [lia|]. by rewrite H1, H2.
Qed.

Lemma hashConfig_label spec hashes : hash_label (observability.hashConfig spec hashes).
Proof.
  unfold observability.hashConfig, hash_label.
  generalize (observability.config_preimage spec hashes). intros p.
  destruct (take_string_label 12 (sha256.hex_digest p)) as [H1 H2].
  { rewrite sha256.hex_digest_length. lia. }
  split; [exact H1|]. rewrite H2. apply Forall_take, sha256.hex_digest_lower.
Qed.

(** ** Computations that keep it *)

Section logic.
Context {W : Type} (ops : list string).

Definition keeps {A} (m : ST (BState W) A) : Prop := forall s, within ops (met s) -> within ops (met (snd (m s))).

(** Touches no metric at all. *)
Definition still {A} (m : ST (BState W) A) : Prop := forall s, met (snd (m s)) = met s.

Lemma keeps_still {A} (m : ST (BState W) A) : still m -> keeps m.
Proof. intros H s. by rewrite H. Qed.

Lemma still_ret {A} (a : A) : still (st_ret a).
Proof. done. Qed.

Lemma still_learn f : still (learn f : ST (BState W) unit).
Proof. done. Qed.

Lemma still_world {A} (m : ST W A) : still (lift_state (lift_world m)).
Proof. intros [s l]. unfold lift_state, lift_world, met. cbn. by destruct (m (rs_world s)). Qed.

Lemma keeps_bind {A B} (m : ST (BState W) (outcome A)) (k : A -> ST (BState W) (outcome B)) :
  keeps m -> (forall a, keeps (k a)) -> keeps (so_bind m k).
Proof.
  intros Hm Hk s Hs. unfold so_bind. pose proof (Hm s Hs) as H1.
  destruct (m s) as [[a|e|] s1]; [by apply Hk|done|done].
Qed.

(** With what is known of the first step's value. *)
Lemma keeps_st_bind {A B} (P : A -> Prop) (m : ST (BState W) A) (k : A -> ST (BState W) B) :
  keeps m -> (forall s, P (fst (m s))) -> (forall a, P a -> keeps (k a)) -> keeps (st_bind m k).
Proof.
  intros Hm HP Hk s Hs. unfold st_bind. pose proof (Hm s Hs) as H1. specialize (HP s).
  destruct (m s) as [a s1]. by apply Hk.
Qed.

Lemma keeps_then {A B} (m : ST (BState W) A) (k : A -> ST (BState W) B) :
  keeps m -> (forall a, keeps (k a)) -> keeps (st_bind m k).
Proof. intros Hm Hk. by apply (keeps_st_bind (fun _ => True)). Qed.

Lemma keeps_on_error {A} reason f args (m : ST (BState W) (outcome A)) :
  reason ∈ reasons -> keeps m -> keeps (on_error reason f args m).
Proof.
  intros Hr Hm s Hs. unfold on_error. pose proof (Hm s Hs) as H1.
  destruct (m s) as [[a|e|] s1]; [done| |done]. by apply within_error.
Qed.

(** A stage that cannot fail needs no label. *)
Lemma keeps_total {A} reason f args (o : outcome A) a :
  o = Ok a -> keeps (on_error reason f args (st_ret o)).
Proof. by intros -> s Hs. Qed.

Definition event_ok (comp : string) (e : observability.rolloutEvent) : Prop :=
  observability.component e = comp /\ observability.trigger e ∈ triggers.

Lemma keeps_commit comp evs : comp ∈ ops -> Forall (event_ok comp) evs ->
  keeps (lift_state (observability.commitRollouts evs)).
Proof.
  intros Hc Hev [s l]. unfold lift_state, met. cbn.
  destruct (observability.commitRollouts_metrics evs s) as [_ Hm].
  destruct (observability.commitRollouts evs s) as [[] s1]. cbn in *. rewrite Hm. clear Hm s1.
  generalize (rs_metrics s) as m. induction Hev as [|e evs [<- Ht] Hev IH]; intros m Hs; [done|].
  cbn. apply IH. by apply within_rollout.
Qed.

End logic.

Create HintDb series.
#[export] Hint Resolve still_ret still_learn still_world : series.
#[export] Hint Extern 1 (_ ∈ reasons) => unfold reasons; set_solver : series.

Ltac keep :=
  repeat match goal with
  | |- keeps _ (so_bind _ _) => apply keeps_bind; [|intros ?]
  | |- keeps _ (st_bind _ _) => apply keeps_then; [|intros ?]
  | |- keeps _ (on_error _ _ _ _) => apply keeps_on_error; [solve [auto with series]|]
  | |- keeps _ _ => solve [apply keeps_still; auto with series]
  end.

Section components.
Context {W : Type} `{E : Env W} `{TL : TemplateLib} {C : Type} `{IC : IsComponent C} `{CC : !ComponentContract C}.
Context (r : Settings) (ops : list string).

Lemma classify_ok comp desired dep g : Forall (event_ok comp) (observability.classify comp desired dep g).
Proof.
  assert (Hone : forall t, t ∈ triggers -> Forall (event_ok comp) [observability.mkRolloutEvent comp t])
    by (intros t Ht; apply Forall_singleton; by split).
  unfold observability.classify, observability.rolloutTrigger. destruct g as [live| |].
  - destruct (_ || _); [|constructor]. destruct (negb _); apply Hone; unfold triggers; set_solver.
  - apply Hone. unfold triggers. set_solver.
  - constructor.
Qed.

Lemma detectRollouts_events comp objs w : Forall (event_ok comp) (observability.detectRollouts comp objs w).1.1.
Proof.
  revert w. induction objs as [|o objs IH]; intros w; [constructor|].
  destruct o; cbn; unfold st_bind, st_ret;
    try (specialize (IH w); by destruct (observability.detectRollouts comp objs w) as [[ev l] w1]).
  destruct (get_Deployment _ _ w) as [g w0]. specialize (IH w0).
  destruct (observability.detectRollouts comp objs w0) as [[ev l] w1]. cbn.
  apply Forall_app. split; [apply classify_ok|exact IH].
Qed.

Lemma keeps_readiness comp objs : comp ∈ ops ->
  keeps (W := W) ops (lift_state (observability.recordReadiness comp objs)).
Proof.
  intros Hc [s l]. unfold lift_state, met. cbn.
  destruct (observability.recordReadiness comp objs s) as [[] s1] eqn:E1. cbn. revert s E1.
  unfold observability.recordReadiness.
  induction objs as [|o objs IH]; intros s E1 Hs; [by injection E1 as <-|].
  cbn [st_iter] in E1. unfold st_bind in E1. destruct o as [d|?|?|?|?|?|?]; try by apply (IH s).
  unfold lift_world in E1.
  destruct (get_Deployment _ _ (rs_world s)) as [[live| |e] w1]; cbn in E1; apply IH in E1; try exact E1;
    by try apply within_ready.
Qed.

Lemma read_secrets_keeps cr entries comps : keeps (W := W) ops (read_secrets r cr entries comps).
Proof.
  revert entries. induction comps as [|c comps IH]; intros entries; cbn [read_secrets]; keep. apply IH.
Qed.

Lemma reconcile_component_keeps cr entries c : cName c ∈ ops ->
  keeps (W := W) ops (reconcile_component r cr entries c).
Proof.
  intros Hc. unfold reconcile_component. apply keeps_bind; [keep|intros objs].
  destruct (rollout.stampConfigHash _ _ _) as [hash objs1].
  apply (keeps_st_bind _ (fun a => Forall (event_ok (cName c)) a.1)).
  - keep.
  - intros [s l]. unfold lift_state, lift_world. cbn. pose proof (detectRollouts_events (cName c) objs1 (rs_world s)) as H.
    by destruct (observability.detectRollouts _ _ _) as [[ev l1] w1].
  - intros [evs objs2] Hev. apply keeps_bind; [keep|intros objs3].
    apply keeps_then; [by apply (keeps_commit _ (cName c))|intros _].
    apply keeps_then; [by apply keeps_readiness|intros _]. apply keeps_bind; [|intros conds; keep].
    destruct (conditions_law c cr objs3) as (l & Hl & _). by apply (keeps_total _ _ _ _ _ l).
Qed.

Lemma reconcile_components_keeps cr entries comps : Forall (fun c => cName c ∈ ops) comps ->
  keeps (W := W) ops (reconcile_components r cr entries comps).
Proof.
  induction 1 as [|c comps Hc Hl IH]; cbn [reconcile_components]; keep; [|exact IH].
  by apply reconcile_component_keeps.
Qed.

End components.
(** ** The whole reconcile *)

(** The operands of the one bundle that resolves. *)
Definition operand_names : list string :=
  ["api"; "sentinel-clusters"; "sentinel-nodepools"; "sentinel-channels"; "sentinel-versions";
   "sentinel-wifconfigs"].

Section reconcile.
Context {W : Type} `{E : Env W} `{TL : TemplateLib} `{UL : UrlLib} `{CL : ConditionsLib} `{Y : YamlLib}.
Context (r : Settings).

Lemma resolved_operands b cfg l u v : bundle.Resolve b cfg = Ok l ->
  Forall (fun c => cName c ∈ operand_names)
    (bundle.SetResolvedJWKSURL (bundle.SetAPIBaseURL l v) u).
Proof.
  intros Hr. apply bundle.Resolve_ok in Hr as (_ & _ & ->).
  pose proof (bundle.SetResolvedJWKSURL_names (bundle.SetAPIBaseURL (bundle.cloud_components cfg) v) u) as Hn.
  rewrite bundle.SetAPIBaseURL_names in Hn. unfold bundle.comp_names in Hn.
  change (Forall ((fun n => n ∈ operand_names) ∘ cName)
    (bundle.SetResolvedJWKSURL (bundle.SetAPIBaseURL (bundle.cloud_components cfg) v) u)).
  rewrite <-Forall_fmap, Hn. apply Forall_forall. intros n Hin. exact Hin.
Qed.

Lemma still_jwks cr : still (W := W) (lift_state (jwks.resolveJWKSURL (HTTPClient r) cr)).
Proof.
  intros [s l]. unfold lift_state, met. cbn.
  destruct (jwks.resolveJWKSURL (HTTPClient r) cr s) as [res s1] eqn:E1.
  by apply jwks.resolveJWKSURL_metrics in E1 as [Hm _].
Qed.

Lemma reconcile_body_keeps cr : keeps (W := W) operand_names (reconcile_body r cr).
Proof.
  unfold reconcile_body. intros s Hs. unfold so_bind at 1.
  assert (Hb : keeps (W := W) operand_names
    (on_error "bundle" "resolve components: %w" [] (st_ret (bundle.Resolve (spec_Bundle (cr_Spec cr)) (bundle_config r))))).
  { keep. }
  specialize (Hb s Hs). unfold on_error, st_ret in Hb |- *.
  destruct (bundle.Resolve _ _) as [comps|e|] eqn:Hr; [|exact Hb..].
  clear Hb. revert s Hs. apply keeps_bind; [apply read_secrets_keeps|intros entries].
  apply keeps_then; [keep|intros _].
  apply keeps_bind; [apply keeps_on_error; [auto with series|apply keeps_still, still_jwks]|intros url].
  apply keeps_bind; [by eapply reconcile_components_keeps, resolved_operands|intros hashes].
  apply keeps_then; [keep|intros _]. apply keeps_then; [|by intros _ s Hs].
  intros s Hs. by apply within_applied; [apply hashConfig_label|].
Qed.

Lemma Reconcile_within name (s : RState W) :
  within operand_names (rs_metrics s) -> within operand_names (rs_metrics (Reconcile r name s).2).
Proof.
  intros Hs. unfold Reconcile, st_bind, now, lift_world, record_metric, st_ret.
  destruct (env_Now (rs_world s)) as [start w1]. cbn.
  destruct (get_HyperFleetConfig name w1) as [[cr| |e] w2]; cbn.
  - unfold reconcile_found. set (s0 := set_world w2 (set_world w1 s)).
    pose proof (reconcile_body_keeps cr (s0, nothing_learned) Hs) as Hb.
    destruct (reconcile_body r cr _) as [res [s1 l]]. unfold met in Hb. cbn in Hb.
    pose proof (update_status_frame cr res l s1) as Hu.
    destruct (update_status cr res l s1) as [res' s2]. destruct Hu as [Hm _].
    destruct (env_Now (rs_world s2)) as [stop w3]. cbn. apply within_observe. by rewrite Hm.
  - destruct (env_Now w2) as [stop w3]. cbn. by apply within_observe.
  - destruct (env_Now w2) as [stop w3]. cbn. apply within_observe, within_error; [auto with series|done].
Qed.

(** Reconciles one after another; the world may change in between. *)
Inductive reconciles : RState W -> RState W -> Prop :=
| reconciles_none s : reconciles s s
| reconciles_step s w name s' :
    reconciles (Reconcile r name (set_world w s)).2 s' -> reconciles s s'.

Lemma reconciles_within s s' : reconciles s s' ->
  within operand_names (rs_metrics s) -> within operand_names (rs_metrics s').
Proof. induction 1 as [s|s w name s' _ IH]; intros Hs; [done|]. by apply IH, Reconcile_within. Qed.

End reconcile.

(** Finitely many keys, finitely many series. *)
Lemma size_keys `{Countable K} {A} (m : gmap K A) (l : list K) :
  (forall k, is_Some (m !! k) -> k ∈ l) -> (size m <= length l)%nat.
Proof.
  intros Hk. rewrite <-(size_dom (D := gset K)). apply (submseteq_length (elements (dom m))), NoDup_submseteq.
  - apply NoDup_elements.
  - intros k Hin. apply Hk. apply elem_of_elements in Hin. by apply elem_of_dom.
Qed.

(** C16: the labels come from closed sets, so the number of series is bounded for the
    life of the process.  From start-up, through any number of reconciles of
    any objects, with any behaviour of the API server and the network and any changes in between: at most one error series
    for each of the six stages, one readiness gauge per operand (0 or 1), three rollout
    series per operand (the three triggers), and one applied-config series,
    whose label is twelve hexadecimal digits. *)
Theorem series_bounded {W} `{E : Env W} `{TL : TemplateLib} `{UL : UrlLib} `{CL : ConditionsLib} `{Y : YamlLib}
    (r : Settings) w client cache commit go s'
    (Hr : reconciles r (mkRState w client cache (Init commit go zeroMetrics)) s') :
  let m := rs_metrics s' in
  within operand_names m
  /\ (size (ReconcileErrors m) <= 6)%nat /\ (size (OperandReady m) <= 6)%nat
  /\ (size (OperandRollouts m) <= 18)%nat /\ (size (AppliedConfig m) <= 1)%nat.
Proof.
  assert (Hm : within operand_names (rs_metrics s')).
  { apply (reconciles_within _ _ _ Hr). unfold within. cbn [rs_metrics Init zeroMetrics ReconcileErrors
      OperandReady OperandRollouts AppliedConfig].
    split_and!; [intros k [? Hk]|intros k v Hk|intros k [? Hk]|by left]; by rewrite lookup_empty in Hk. }
  cbv zeta. split; [exact Hm|]. destruct Hm as (H1 & H2 & H3 & H4). split_and!.
  - by apply (size_keys _ reasons).
  - apply (size_keys _ operand_names). intros k [v Hk]. by apply H2 in Hk as [? _].
  - change 18%nat with (length (operand_names ≫= fun o => map (pair o) triggers)).
    apply (size_keys _ (operand_names ≫= fun o => map (pair o) triggers)). intros [o t] Hk.
    apply H3 in Hk as [Ho Ht]. cbn in Ho, Ht. apply list_elem_of_bind. exists o.
    split; [|exact Ho]. change (map (pair o) triggers) with (pair o <$> triggers).
    apply list_elem_of_fmap. exists t. split; [done|exact Ht].
  - destruct H4 as [->|(h & -> & _)]; [rewrite map_size_empty|rewrite map_size_singleton]; lia.
Qed.

(** Two reconciles on a concrete cluster, which is emptied in between. *)
Definition started_state : RState Sim := mkRState demo_world None None (Init "abc" "go1.24" zeroMetrics).

Lemma series_bounded_witness :
  exists s', reconciles (Y := api.toy_yaml) demo_settings started_state s'
  /\ (size (OperandRollouts (rs_metrics s')) <= 18)%nat.
Proof.
  pose (s1 := (Reconcile (Y := api.toy_yaml) demo_settings SingletonName (set_world demo_world started_state)).2).
  pose (s2 := (Reconcile (Y := api.toy_yaml) demo_settings SingletonName
                 (set_world (mkSim 0 None ∅ ∅ [] ∅) s1)).2).
  exists s2. assert (Hr : reconciles (Y := api.toy_yaml) demo_settings started_state s2).
  { do 2 eapply reconciles_step. apply reconciles_none. }
  split; [exact Hr|].
  destruct (series_bounded (Y := api.toy_yaml) demo_settings demo_world None None "abc" "go1.24" s2 Hr)
    as (_ & _ & _ & H & _).
  exact H.
Defined.

End series.
