(* ===== verification/ReconcilerCalls.v ===== *)
(** * Which calls a reconcile makes, and in which order

    The environment is run with its log of calls.  [makes] says that a step
    appended a prefix of the expected calls, and all of them if it
    succeeded.  The expected calls of the loop are a pure function of the
    configuration, the Secret entries and the JWKS URL: they are the abstract
    specification of what a reconcile does to the cluster, and the last theorem is
    that [Reconcile] implements it. *)

From S2P Require Import Prelude Kube ConfigTypes Json Url JsonDecode Contract Api Sentinel Bundle NetAddr.
From S2P Require Import DiscoveryGuard Sha256 Env ConfigHash Metrics State Jwks Status Apply.
From S2P Require Import Observability Sim Reconciler.

Module calls.
Import reconciler.

(** ** Sequences of calls *)

Section makes.
Context {S X : Type} (log : S -> list X).

Definition emits {A} (m : ST S A) (s : S) (k : list X) : Prop := log (snd (m s)) = log s ++ k.

Definition makes {A} (m : ST S (outcome A)) (s : S) (expected : list X) : Prop :=
  exists k, emits m s k /\ k `prefix_of` expected /\ (is_ok (fst (m s)) = true -> k = expected).

Lemma st_bind_eq {A B} (m : ST S A) (k : A -> ST S B) s a s1 :
  m s = (a, s1) -> st_bind m k s = k a s1.
Proof. unfold st_bind. by intros ->. Qed.

Lemma makes_full {A} (m : ST S (outcome A)) s k : emits m s k -> makes m s k.
Proof. exists k. by split. Qed.

Lemma makes_bind {A B} (m : ST S (outcome A)) (k : A -> ST S (outcome B)) s e1 e2 :
  makes m s e1 -> (forall a s1, m s = (Ok a, s1) -> makes (k a) s1 e2) ->
  makes (so_bind m k) s (e1 ++ e2).
Proof.
  intros (k1 & H1 & Hp & Hf) Hk. unfold makes, emits, so_bind in *.
  destruct (m s) as [[a|e|] s1] eqn:E; cbn in *.
  - destruct (Hk a s1 eq_refl) as (k2 & H2 & Hp2 & Hf2). rewrite Hf in H1 by done.
    exists (e1 ++ k2). split; [by rewrite H2, H1, app_assoc|]. split; [by apply prefix_app|].
    intros Hok. by rewrite Hf2.
  - exists k1. split; [done|]. split; [by apply prefix_app_r|done].
  - exists k1. split; [done|]. split; [by apply prefix_app_r|done].
Qed.

Lemma makes_emits_bind {A B} (m : ST S A) (k : A -> ST S (outcome B)) s e1 e2 :
  emits m s e1 -> (forall a s1, m s = (a, s1) -> makes (k a) s1 e2) ->
  makes (st_bind m k) s (e1 ++ e2).
Proof.
  intros H1 Hk. unfold makes, emits, st_bind in *. destruct (m s) as [a s1] eqn:E; cbn in *.
  destruct (Hk a s1 eq_refl) as (k2 & H2 & Hp2 & Hf2).
  exists (e1 ++ k2). split; [by rewrite H2, H1, app_assoc|]. split; [by apply prefix_app|].
  intros Hok. by rewrite Hf2.
Qed.

Lemma emits_bind {A B} (m : ST S A) (k : A -> ST S B) s e1 e2 :
  emits m s e1 -> (forall a s1, m s = (a, s1) -> emits (k a) s1 e2) ->
  emits (st_bind m k) s (e1 ++ e2).
Proof.
  intros H1 Hk. unfold emits, st_bind in *. destruct (m s) as [a s1] eqn:E; cbn in *.
  by rewrite (Hk a s1 eq_refl), H1, app_assoc.
Qed.

Lemma emits_ret {A} (a : A) s : emits (st_ret a) s [].
Proof. unfold emits. cbn. by rewrite app_nil_r. Qed.

Lemma makes_ret {A} (a : outcome A) s : makes (st_ret a) s [].
Proof. apply makes_full. unfold emits. cbn. by rewrite app_nil_r. Qed.

Lemma makes_eq {A} (m : ST S (outcome A)) s e e' : e = e' -> makes m s e -> makes m s e'.
Proof. by intros ->. Qed.

End makes.

(** ** The log of the reconcile state *)

Section logged.
Context {W : Type} `{E : Env W} `{TL : TemplateLib}.

Definition LE : Env (W * list (Call Unstructured)) := logged_Env E.

Definition wlog (s : W * list (Call Unstructured)) : list (Call Unstructured) := s.2.
Definition rlog (s : RState (W * list (Call Unstructured))) : list (Call Unstructured) :=
  wlog (rs_world s).
Definition blog (s : BState (W * list (Call Unstructured))) : list (Call Unstructured) := rlog s.1.

Lemma makes_lift {A} (m : ST (W * list (Call Unstructured)) (outcome A)) s e :
  makes wlog m (rs_world s.1) e -> makes blog (lift_state (lift_world m)) s e.
Proof.
  unfold makes, emits, lift_state, lift_world, blog, rlog. destruct s as [s l]. cbn.
  by destruct (m (rs_world s)).
Qed.

Lemma emits_lift {A} (m : ST (W * list (Call Unstructured)) A) s e :
  emits wlog m (rs_world s.1) e -> emits blog (lift_state (lift_world m)) s e.
Proof.
  unfold emits, lift_state, lift_world, blog, rlog. destruct s as [s l]. cbn.
  by destruct (m (rs_world s)).
Qed.

Lemma makes_on_error {A} reason f args (m : ST (BState (W * list (Call Unstructured))) (outcome A)) s e :
  makes blog m s e -> makes blog (on_error reason f args m) s e.
Proof.
  unfold makes, emits, on_error. destruct (m s) as [[a|err|] s1]; cbn; [done| |done].
  intros (k & H1 & H2 & _). by exists k.
Qed.

Lemma emits_learn f s : emits blog (learn f) s [].
Proof. unfold emits. cbn. by rewrite app_nil_r. Qed.

Lemma emits_metric f s : emits (A := unit) blog (lift_state (record_metric f)) s [].
Proof. unfold emits. cbn. by rewrite app_nil_r. Qed.

(** *** Secrets *)

Definition secret_reads (ns : string) (refs : list SecretReference) : list (Call Unstructured) :=
  map (fun ref => CGetSecret ns (SecretName ref)) refs.

Lemma resolveSecretEntries_makes ns refs w :
  makes wlog (rollout.resolveSecretEntries (Env0 := LE) ns refs) w (secret_reads ns refs).
Proof.
  revert w. induction refs as [|ref refs IH]; intros w; [apply makes_ret|].
  cbn [rollout.resolveSecretEntries].
  apply (makes_emits_bind _ _ _ _ [CGetSecret ns (SecretName ref)] (secret_reads ns refs)).
  { unfold emits, LE, logged_Env, log_call, wlog. cbn. by destruct (get_Secret ns (SecretName ref) w.1). }
  intros [x| |e] s1 _; [| |exists []; split; [by unfold emits; cbn; rewrite app_nil_r|
    split; [apply prefix_nil|done]]];
    rewrite <-(app_nil_r (secret_reads ns refs)); (apply makes_bind; [apply IH|]); intros; apply makes_ret.
Qed.

Section components.
Context {C : Type} `{IC : IsComponent C} (r : Settings).

Definition component_secret_reads (cr : HyperFleetConfig) (c : C) : list (Call Unstructured) :=
  match cReferencedSecrets c cr with
  | Ok refs => secret_reads (OperatorNamespace r) refs
  | _ => []
  end.

Lemma read_secrets_makes cr entries comps s :
  makes blog (read_secrets (E := LE) r cr entries comps) s (comps ≫= component_secret_reads cr).
Proof.
  revert entries s. induction comps as [|c comps IH]; intros entries s; cbn [read_secrets].
  { apply makes_ret. }
  rewrite bind_cons. unfold component_secret_reads at 1.
  destruct (cReferencedSecrets c cr) as [refs|e|]; cbn.
  - unfold so_bind at 1. cbn. apply makes_bind.
    + apply makes_on_error, makes_lift, resolveSecretEntries_makes.
    + intros es s1 _. apply (makes_emits_bind _ _ _ _ []); [apply emits_learn|]. intros. apply IH.
  - exists []. split; [by unfold emits; cbn; rewrite app_nil_r|]. split; [apply prefix_nil|done].
  - exists []. split; [by unfold emits; cbn; rewrite app_nil_r|]. split; [apply prefix_nil|done].
Qed.

(** *** The work on one component *)

(** The objects a component's apply sends, before the owner reference: a pure
    function of the resource and the Secret entries. *)
Definition desired_objects (cr : HyperFleetConfig)
    (entries : gmap string (list rollout.hashEntry)) (c : C) : outcome (string * list Object) :=
  outcome_bind (cRender c cr) (fun objs =>
    let '(hash, objs) := rollout.stampConfigHash objs (cRollout c) (default [] (entries !! cName c)) in
    Ok (hash, map observability.stamp_template objs)).

Definition deployment_reads (objs : list Object) : list (Call Unstructured) :=
  (fun d => CGetDeployment (observability.dep_Namespace d) (dep_Name d)) <$> deployments objs.

(** Look at the live Deployment, apply everything, look again. *)
Definition component_calls (cr : HyperFleetConfig) (entries : gmap string (list rollout.hashEntry)) (c : C) :
    list (Call Unstructured) :=
  match desired_objects cr entries c with
  | Ok (_, objs) =>
      deployment_reads objs ++ (objs ≫= apply.object_calls (refreshReader r) cr) ++ deployment_reads objs
  | _ => []
  end.

Definition work_calls (cr : HyperFleetConfig) (entries : gmap string (list rollout.hashEntry))
    (components : list C) : list (Call Unstructured) :=
  components ≫= component_calls cr entries.

Lemma deployment_reads_stamp objs :
  deployment_reads (map observability.stamp_template objs) = deployment_reads objs.
Proof.
  unfold deployment_reads, deployments. induction objs as [|o objs IH]; [done|].
  destruct o; cbn; by rewrite IH.
Qed.

Lemma deployment_reads_cons o objs :
  deployment_reads (o :: objs)
  = match as_deployment o with
    | Some d => [CGetDeployment (observability.dep_Namespace d) (dep_Name d)] ++ deployment_reads objs
    | None => deployment_reads objs
    end.
Proof. unfold deployment_reads, deployments. cbn. by destruct (as_deployment o). Qed.

Lemma get_Deployment_emits ns name w :
  emits wlog (get_Deployment (Env := LE) ns name) w [CGetDeployment ns name].
Proof. unfold emits, LE, logged_Env, log_call, wlog. cbn. by destruct (get_Deployment ns name w.1). Qed.

Lemma emits_rlift {A} (m : ST (W * list (Call Unstructured)) A) s e :
  emits wlog m (rs_world s) e -> emits rlog (lift_world m) s e.
Proof. unfold emits, lift_world, rlog. by destruct (m (rs_world s)). Qed.

Lemma detectRollouts_emits comp objs w :
  emits wlog (observability.detectRollouts (E := LE) comp objs) w (deployment_reads objs).
Proof.
  revert w. induction objs as [|o objs IH]; intros w; [apply emits_ret|].
  rewrite deployment_reads_cons.
  destruct o as [d|?|?|?|?|?|?]; cbn [observability.detectRollouts as_deployment];
    [apply emits_bind; [apply get_Deployment_emits|]; intros g w1 _|..];
    rewrite <-(app_nil_r (deployment_reads objs));
    (apply emits_bind; [apply IH|]; intros [ev l] w2 _; apply emits_ret).
Qed.

Lemma Objects_makes refresh cr objs w :
  makes wlog (apply.Objects (E := LE) refresh cr objs) w
    (objs ≫= apply.object_calls (default CachedClient refresh) cr).
Proof.
  destruct w as [w l].
  pose proof (apply.Objects_prefix refresh cr objs w l) as H. unfold makes, emits, LE.
  destruct (apply.Objects (E := logged_Env E) refresh cr objs (w, l)) as [res [w' l']].
  destruct H as (k & -> & Hk). eexists. split; [done|]. split; [apply prefix_take|exact Hk].
Qed.

Lemma recordReadiness_emits comp objs (s : RState (W * list (Call Unstructured))) :
  emits rlog (observability.recordReadiness (E := LE) comp objs) s (deployment_reads objs).
Proof.
  unfold observability.recordReadiness. revert s.
  induction objs as [|o objs IH]; intros s; cbn [st_iter]; [apply emits_ret|].
  rewrite deployment_reads_cons.
  destruct o as [d|?|?|?|?|?|?]; cbn [as_deployment];
    try (apply (emits_bind _ _ _ _ []); [apply emits_ret|]; intros; apply IH).
  apply emits_bind; [|intros; apply IH]. rewrite <-(app_nil_r [CGetDeployment _ _]).
  apply emits_bind; [apply emits_rlift, get_Deployment_emits|].
  intros [live| |e] s1 _; unfold emits; cbn; by rewrite app_nil_r.
Qed.

Lemma commitRollouts_emits evs (s : RState (W * list (Call Unstructured))) :
  emits rlog (observability.commitRollouts evs) s [].
Proof.
  unfold emits. destruct (observability.commitRollouts_metrics evs s) as [-> _].
  by rewrite app_nil_r.
Qed.

Lemma emits_state {A} (m : ST (RState (W * list (Call Unstructured))) A) s e :
  emits rlog m s.1 e -> emits blog (lift_state m) s e.
Proof. unfold emits, lift_state, blog. destruct s as [s l]. cbn. by destruct (m s). Qed.

Context `{EL : !EnvLaws W}.

#[local] Instance logged_EnvLaws : @EnvLaws _ LE.
Proof.
  constructor.
  - intros reader o w o' w' H. unfold LE, logged_Env, log_call in H. cbn in H.
    destruct (get_Object reader o w.1) as [g w1] eqn:Eg. injection H as -> _.
    by apply (get_Object_same _ _ _ _ _ Eg).
  - intros cr o o' H. by apply (SetControllerReference_same cr o o').
Qed.

Lemma deployment_reads_same objs objs' :
  Forall2 apply.same_object objs objs' -> deployment_reads objs' = deployment_reads objs.
Proof.
  induction 1 as [|o o' l l' (Ht & Hn & Hs) Hl IH]; [done|].
  rewrite !deployment_reads_cons, IH.
  destruct o, o'; cbn in Ht; try done. unfold obj_Name, obj_Namespace in *. cbn in *.
  unfold observability.dep_Namespace, dep_Name. by rewrite Hn, Hs.
Qed.

Lemma reconcile_component_makes cr entries c s :
  makes blog (reconcile_component (E := LE) r cr entries c) s (component_calls cr entries c).
Proof.
  unfold reconcile_component, component_calls, desired_objects.
  destruct (cRender c cr) as [objs0|e|] eqn:Er; cbn [outcome_bind].
  2,3: apply makes_full; unfold emits, on_error, so_bind, blog, rlog; cbn; by rewrite app_nil_r.
  destruct (rollout.stampConfigHash objs0 (cRollout c) (default [] (entries !! cName c)))
    as [hash objs] eqn:Es.
  apply (makes_bind _ _ _ _ []); [apply makes_on_error, makes_ret|].
  intros a s1 [= <- _]. rewrite Es, deployment_reads_stamp.
  apply makes_emits_bind; [apply emits_lift, detectRollouts_emits|].
  intros [evs objs1] s2 Hdet.
  assert (Ho : objs1 = map observability.stamp_template objs).
  { pose proof (observability.detectRollouts_objs (E := LE) (cName c) objs (rs_world s1.1)) as Ho.
    unfold lift_state, lift_world in Hdet.
    destruct (observability.detectRollouts (E := LE) (cName c) objs (rs_world s1.1)) as [[ev l] w1].
    cbn in Ho. congruence. }
  subst objs1. apply makes_bind.
  { apply makes_on_error, makes_lift, (Objects_makes (Some (refreshReader r))). }
  intros objs2 s3 Hap.
  assert (Hsame : Forall2 apply.same_object (map observability.stamp_template objs) objs2).
  { unfold on_error, lift_state, lift_world in Hap.
    destruct (apply.Objects (E := LE) (Some (refreshReader r)) cr (map observability.stamp_template objs)
                (rs_world s2.1)) as [[o|e|] w1] eqn:Eo; [|discriminate Hap..]. injection Hap as <- _.
    by apply (apply.apply_same (E := LE) (Some (refreshReader r)) cr _ (rs_world s2.1) _ w1). }
  apply (makes_emits_bind _ _ _ _ [] (deployment_reads objs));
    [apply emits_state, commitRollouts_emits|]. intros ? s4 _.
  rewrite <-(app_nil_r (deployment_reads objs)).
  apply makes_emits_bind.
  { apply emits_state. rewrite <-(deployment_reads_stamp objs), <-(deployment_reads_same _ _ Hsame).
    apply recordReadiness_emits. }
  intros ? s5 _. apply (makes_bind _ _ _ _ []); [apply makes_on_error, makes_ret|].
  intros conds s6 _. apply (makes_emits_bind _ _ _ _ []); [apply emits_learn|]. intros. apply makes_ret.
Qed.

Lemma reconcile_components_makes cr entries comps s :
  makes blog (reconcile_components (E := LE) r cr entries comps) s (work_calls cr entries comps).
Proof.
  revert s. induction comps as [|c comps IH]; intros s; cbn [reconcile_components]; [apply makes_ret|].
  unfold work_calls. rewrite bind_cons.
  apply makes_bind; [apply reconcile_component_makes|]. intros hash s1 _.
  rewrite <-(app_nil_r (comps ≫= _)). apply makes_bind; [apply IH|]. intros. apply makes_ret.
Qed.

End components.

(** *** The entries the first loop returns *)

(** One entry per reference of each component, under its role, in order. *)
Definition entries_for {C} `{IC : IsComponent C} (cr : HyperFleetConfig) (comps : list C)
    (entries : gmap string (list rollout.hashEntry)) : Prop :=
  Forall (fun c => exists es refs, entries !! cName c = Some es /\ cReferencedSecrets c cr = Ok refs
    /\ rollout.he_id <$> es = sr_Role <$> refs) comps.

Lemma resolveSecretEntries_ids {V} `{EV : Env V} ns refs w es w' :
  rollout.resolveSecretEntries (Env0 := EV) ns refs w = (Ok es, w') ->
  rollout.he_id <$> es = sr_Role <$> refs.
Proof.
  revert w es w'. induction refs as [|ref refs IH]; intros w es w' H; [by injection H as <- _|].
  cbn [rollout.resolveSecretEntries] in H. unfold st_bind in H.
  destruct (get_Secret ns (SecretName ref) w) as [[x| |e] w1]; [| |discriminate H];
    apply so_bind_ok in H as (l & w2 & H & H2); injection H2 as <- _; cbn; by rewrite (IH _ _ _ H).
Qed.

Lemma read_secrets_entries {V C} `{EV : Env V} `{IC : IsComponent C} (r : Settings) cr entries comps s es s' :
  NoDup (cName <$> comps) ->
  read_secrets (E := EV) r cr entries comps s = (Ok es, s') ->
  entries_for cr comps es
  /\ (forall n, n ∉ cName <$> comps -> es !! n = entries !! n).
Proof.
  revert entries s. induction comps as [|c comps IH]; intros entries s Hnd H; cbn [read_secrets] in H.
  { injection H as <- _. split; [constructor|done]. }
  cbn in Hnd. apply NoDup_cons in Hnd as [Hc Hnd].
  apply so_bind_ok in H as (refs & s1 & Hrefs & H). injection Hrefs as Hrefs ->.
  apply so_bind_ok in H as (esc & s2 & Hes & H). unfold st_bind in H. cbn in H.
  apply (IH _ _ Hnd) in H as [Hall Hout]. split.
  - constructor; [|exact Hall]. exists esc, refs. split; [|split; [done|]].
    + rewrite Hout by done. apply lookup_insert_eq.
    + unfold on_error, lift_state, lift_world in Hes.
      destruct (rollout.resolveSecretEntries _ _ (rs_world s1.1)) as [[e0|e0|] w1] eqn:Er;
        [|discriminate Hes..]. injection Hes as <- _. by eapply resolveSecretEntries_ids.
  - intros n Hn. cbn in Hn. apply not_elem_of_cons in Hn as [Hn1 Hn2].
    rewrite Hout by done. by apply lookup_insert_ne.
Qed.

(** *** The whole reconcile *)

Context `{UL : UrlLib} `{CL : ConditionsLib} `{Y : YamlLib} `{EL : !EnvLaws W} (r : Settings).

Definition well_known (cr : HyperFleetConfig) : string :=
  TrimSuffix (Issuer (auth_of cr)) "/" +:+ jwks.oidcDiscoveryPath.

(** At most one request, to the issuer's well-known path. *)
Definition discovery_calls (cr : HyperFleetConfig) (k : list (Call Unstructured)) : Prop :=
  k = [] \/ exists c, k = [CHTTP c (jwks.discovery_request (well_known cr))].

Lemma resolveJWKSURL_emits cr s :
  exists k, emits rlog (jwks.resolveJWKSURL (Env0 := LE) (HTTPClient r) cr) s k /\ discovery_calls cr k.
Proof.
  unfold emits, jwks.resolveJWKSURL, discovery_calls.
  destruct (negb (api.AuthEnabled cr)); [exists []; cbn; rewrite app_nil_r; auto|].
  destruct (JWKCertSecretRef (auth_of cr)); [exists []; cbn; rewrite app_nil_r; auto|].
  unfold st_bind. unfold jwks.discoverJWKSURL at 1.
  destruct (url.NewRequest _) as [e|]; cbn.
  { exists []. rewrite app_nil_r. split; [|auto].
    unfold jwks.cachedDiscovery, get_state. by destruct (_ ≫= _). }
  unfold st_bind. destruct (jwks.discovery_client (HTTPClient r) s) as [c s1] eqn:Ec.
  assert (Hw : rs_world s1 = rs_world s).
  { unfold jwks.discovery_client in Ec. by repeat (case_match; simplify_eq/=). }
  unfold lift_world, LE, logged_Env, log_call. cbn. rewrite Hw.
  destruct (http_Do c _ (rs_world s).1) as [resp w1]. cbn.
  exists [CHTTP c (jwks.discovery_request (well_known cr))]. split; [|eauto].
  destruct resp as [err|resp]; [|destruct (jwks.check_response _ _ resp)];
    unfold jwks.cachedDiscovery, jwks.cacheDiscovery, get_state, modify; cbn;
    try (destruct (_ ≫= _)); done.
Qed.

(** The components the body works on, before and after discovery. *)
Definition resolved (cr : HyperFleetConfig) : list bundle.Component :=
  match bundle.Resolve (spec_Bundle (cr_Spec cr)) (bundle_config r) with
  | Ok comps => bundle.SetAPIBaseURL comps (api.APIBaseURL cr (OperatorNamespace r))
  | _ => []
  end.
Definition configured (cr : HyperFleetConfig) (url : string) : list bundle.Component :=
  bundle.SetResolvedJWKSURL (resolved cr) url.

Definition secret_phase (cr : HyperFleetConfig) : list (Call Unstructured) :=
  resolved cr ≫= component_secret_reads r cr.
Definition work_phase (cr : HyperFleetConfig) (entries : gmap string (list rollout.hashEntry)) (url : string) :
    list (Call Unstructured) := work_calls r cr entries (configured cr url).

(** The calls of one run of the body, phase by phase. *)
Definition body_trace (cr : HyperFleetConfig) (ok : bool) (k : list (Call Unstructured)) : Prop :=
  exists ks kh kw entries url,
    k = ks ++ kh ++ kw
    /\ ks `prefix_of` secret_phase cr
    /\ (kh ++ kw <> [] \/ ok = true -> ks = secret_phase cr)
    /\ discovery_calls cr kh
    /\ kw `prefix_of` work_phase cr entries url
    /\ (kw <> [] \/ ok = true -> entries_for cr (resolved cr) entries)
    /\ (ok = true -> kw = work_phase cr entries url).

(** A run that stopped while reading Secrets, during discovery, or later. *)
Lemma trace_secrets cr ks : ks `prefix_of` secret_phase cr -> body_trace cr false ks.
Proof.
  intros Hp. exists ks, [], [], ∅, "".
  split_and!; [by rewrite app_nil_r|done|by intros [?|?]|by left|apply prefix_nil|by intros [?|?]|done].
Qed.

Lemma trace_discovery cr kh : discovery_calls cr kh -> body_trace cr false (secret_phase cr ++ kh).
Proof.
  intros Hd. exists (secret_phase cr), kh, [], ∅, "".
  split_and!; [by rewrite app_nil_r|done|done|done|apply prefix_nil|by intros [?|?]|done].
Qed.

Lemma trace_work cr kh kw entries url ok :
  discovery_calls cr kh -> kw `prefix_of` work_phase cr entries url -> entries_for cr (resolved cr) entries ->
  (ok = true -> kw = work_phase cr entries url) -> body_trace cr ok (secret_phase cr ++ kh ++ kw).
Proof. intros ????. by exists (secret_phase cr), kh, kw, entries, url. Qed.

Lemma resolved_names cr : NoDup (cName <$> resolved cr).
Proof.
  unfold resolved. destruct (bundle.Resolve _ _) as [comps|e|] eqn:Er; [|constructor..].
  fold (bundle.comp_names (bundle.SetAPIBaseURL comps (api.APIBaseURL cr (OperatorNamespace r)))).
  rewrite bundle.SetAPIBaseURL_names.
  pose proof (proj1 (bundle.resolve_names _ _ comps Er)) as Hn. exact Hn.
Qed.

Definition traced {A} (cr : HyperFleetConfig) (s : BState (W * list (Call Unstructured)))
    (out : outcome A * BState (W * list (Call Unstructured))) : Prop :=
  exists k, blog out.2 = blog s ++ k /\ body_trace cr (is_ok out.1) k.

Lemma reconcile_body_trace cr s : traced cr s (reconcile_body (E := LE) r cr s).
Proof.
  pose proof (resolved_names cr) as Hnd. pose proof (trace_secrets cr) as Ht1.
  pose proof (trace_discovery cr) as Ht2. pose proof (trace_work cr) as Ht3.
  unfold work_phase, configured in Ht3. unfold secret_phase, resolved in *. unfold reconcile_body.
  unfold so_bind at 1. unfold on_error at 1. cbn [st_ret]. cbv zeta.
  destruct (bundle.Resolve (spec_Bundle (cr_Spec cr)) (bundle_config r)) as [comps0|e|] eqn:Er.
  2,3: exists []; split; [unfold blog, rlog; cbn; by rewrite app_nil_r|apply Ht1, prefix_nil].
  cbn [st_ret]. set (comps := bundle.SetAPIBaseURL comps0 (api.APIBaseURL cr (OperatorNamespace r))) in *.
  (* the secrets *)
  pose proof (read_secrets_makes r cr ∅ comps s) as (ks & Hks & Hpre & Hfull). unfold emits in Hks.
  unfold so_bind at 1.
  destruct (read_secrets (E := LE) r cr ∅ comps s) as [[entries|e|] s1] eqn:Es; cbn in Hks, Hfull.
  2,3: exists ks; split; [exact Hks|]; by apply Ht1.
  specialize (Hfull eq_refl). subst ks.
  apply (read_secrets_entries (EV := LE)) in Es as [Hent _]; [|exact Hnd].
  unfold st_bind at 1. cbn [learn].
  (* discovery *)
  destruct (resolveJWKSURL_emits cr s1.1) as (kh & Hkh & Hd). unfold emits in Hkh.
  unfold so_bind at 1. unfold on_error at 1. unfold lift_state at 1. cbn [fst snd].
  destruct (jwks.resolveJWKSURL (Env0 := LE) (HTTPClient r) cr s1.1) as [[url|e|] s2]; cbn in Hkh.
  2,3: exists ((comps ≫= component_secret_reads r cr) ++ kh); split; [|by apply Ht2];
    unfold blog, rlog in *; cbn; by rewrite Hkh, Hks, <-app_assoc.
  (* the components *)
  pose proof (reconcile_components_makes r cr entries (bundle.SetResolvedJWKSURL comps url)
    (s2, sort_missing s1.2)) as (kw & Hkw & Hpre3 & Hfull3). unfold emits in Hkw.
  unfold so_bind at 1.
  destruct (reconcile_components (E := LE) r cr entries (bundle.SetResolvedJWKSURL comps url)
    (s2, sort_missing s1.2)) as [[hs|e|] s3]; cbn in Hkw, Hfull3;
    (exists ((comps ≫= component_secret_reads r cr) ++ kh ++ kw);
     split; [|by apply (Ht3 _ _ entries url)]);
    unfold blog, rlog in *; cbn; cbn in Hkw; by rewrite Hkw, Hkh, Hks, <-!app_assoc.
Qed.

(** The whole reconcile: the read of the resource, the body, at most one status update. *)
Definition reconcile_trace (name : string) (cr : HyperFleetConfig) (ok : bool)
    (k : list (Call Unstructured)) : Prop :=
  exists kb ku okb, k = [CGetConfig name] ++ kb ++ ku
    /\ body_trace cr okb kb /\ (ok = true -> okb = true)
    /\ (ku = [] \/ exists st, ku = [CStatusUpdate (with_status cr st)]).

Lemma update_status_emits cr res l (s : RState (W * list (Call Unstructured))) :
  exists k, emits rlog (update_status (E := LE) cr res l) s k
  /\ (k = [] \/ exists st, k = [CStatusUpdate (with_status cr st)])
  /\ (is_ok (fst (update_status (E := LE) cr res l s)) = true -> is_ok res = true).
Proof.
  unfold update_status, emits, st_bind.
  assert (PreOrder (fun a b : RState (W * list (Call Unstructured)) => rlog b = rlog a))
    by (split; [done|congruence]).
  pose proof (status.aggregateStatus_frame (now (E := LE)) (fun a b => rlog b = rlog a) cr
    (componentConditions l) (componentsCollected l) (missingSecrets l) (reterr res) s) as Hf.
  pose proof (status.aggregateStatus_status (now (E := LE)) cr
    (componentConditions l) (componentsCollected l) (missingSecrets l) (reterr res) s) as Hst.
  destruct (status.aggregateStatus (now (E := LE)) cr _ _ _ _ s) as [[cr' ch] s1]. cbn in Hf, Hst.
  assert (Hm : rlog s1 = rlog s).
  { apply Hf. intros s0. unfold now, lift_world, LE, logged_Env, rlog. cbn.
    by destruct (env_Now (rs_world s0).1). }
  destruct ch; [|exists []; cbn; rewrite Hm, app_nil_r; auto].
  exists [CStatusUpdate cr']. unfold lift_world, LE, logged_Env, log_call. cbn.
  destruct (status_Update cr' (rs_world s1).1) as [err w2]. unfold rlog, wlog in *. cbn. rewrite Hm. split; [done|].
  split; [right; exists (cr_Status cr'); by rewrite Hst|]. destruct err; [|done]. by destruct res.
Qed.

Definition rtraced (name : string) (s : RState (W * list (Call Unstructured)))
    (out : outcome unit * RState (W * list (Call Unstructured))) : Prop :=
  exists k, rlog out.2 = rlog s ++ k
  /\ match fst (get_HyperFleetConfig name (snd (env_Now (rs_world s).1))) with
     | Found cr => reconcile_trace name cr (is_ok out.1) k
     | _ => k = [CGetConfig name]
     end.

Lemma reconcile_found_traced cr s :
  exists kb ku okb, rlog (snd (reconcile_found (E := LE) r cr s)) = rlog s ++ kb ++ ku
  /\ body_trace cr okb kb
  /\ (is_ok (fst (reconcile_found (E := LE) r cr s)) = true -> okb = true)
  /\ (ku = [] \/ exists st, ku = [CStatusUpdate (with_status cr st)]).
Proof.
  pose proof (reconcile_body_trace cr (s, nothing_learned)) as (kb & Hkb & Hb).
  unfold reconcile_found.
  destruct (reconcile_body (E := LE) r cr (s, nothing_learned)) as [res [s1 l]].
  destruct (update_status_emits cr res l s1) as (ku & Hku & Hst & Hok).
  unfold emits in Hku. destruct (update_status (E := LE) cr res l s1) as [res' s2].
  exists kb, ku, (is_ok res). unfold emits, blog in *. cbn in *.
  split; [by rewrite Hku, Hkb, app_assoc|]. done.
Qed.

(** The clock and the metrics leave the log alone. *)
Lemma finish_log res (start : Z) (s : RState (W * list (Call Unstructured))) :
  let out := st_bind (now (E := LE)) (fun stop =>
    st_bind (record_metric (metrics.ObserveReconcile (stop - start))) (fun _ => st_ret res)) s in
  out.1 = (res : outcome unit) /\ rlog out.2 = rlog s.
Proof.
  unfold st_bind, now, lift_world, LE, logged_Env, rlog. cbn. by destruct (env_Now (rs_world s).1).
Qed.

Lemma now_LE (s : RState (W * list (Call Unstructured))) :
  now (E := LE) s = (fst (env_Now (rs_world s).1), set_world (snd (env_Now (rs_world s).1), (rs_world s).2) s).
Proof. unfold now, lift_world, LE, logged_Env. cbn. by destruct (env_Now (rs_world s).1). Qed.

Lemma get_config_LE name (s : RState (W * list (Call Unstructured))) :
  lift_world (get_HyperFleetConfig (Env := LE) name) s
  = (fst (get_HyperFleetConfig name (rs_world s).1),
     set_world (snd (get_HyperFleetConfig name (rs_world s).1), (rs_world s).2 ++ [CGetConfig name]) s).
Proof.
  unfold lift_world, LE, logged_Env, log_call. cbn. by destruct (get_HyperFleetConfig name (rs_world s).1).
Qed.

Lemma reconcile_traced name s : rtraced name s (Reconcile (E := LE) r name s).
Proof.
  unfold Reconcile, rtraced. rewrite !(st_bind_eq _ _ _ _ _ (now_LE s)). destruct (env_Now (rs_world s).1) as [start w1]. cbn [fst snd].
  rewrite !(st_bind_eq _ _ _ _ _ (get_config_LE name _)). cbn [rs_world set_world fst snd].
  destruct (get_HyperFleetConfig name w1) as [g w2]. cbn [fst snd].
  set (s2 := set_world (w2, (rs_world s).2 ++ [CGetConfig name]) _).
  assert (Hl : rlog s2 = rlog s ++ [CGetConfig name]) by done.
  destruct g as [cr| |e].
  - destruct (reconcile_found_traced cr s2) as (kb & ku & okb & Hlog & Hb & Hok & Hu).
    destruct (reconcile_found (E := LE) r cr s2) as [res s3] eqn:Ef.
    rewrite !(st_bind_eq _ _ _ _ _ Ef). cbn [fst snd] in Hlog, Hok.
    destruct (finish_log res start s3) as [H1 H2]. cbv zeta in H1, H2. rewrite H1, H2.
    exists ([CGetConfig name] ++ kb ++ ku). split; [by rewrite Hlog, Hl, <-app_assoc|].
    by exists kb, ku, okb.
  - rewrite !(st_bind_eq (st_ret (Ok tt)) _ s2 _ _ eq_refl).
    destruct (finish_log (Ok tt) start s2) as [H1 H2]. cbv zeta in H1, H2.
    exists [CGetConfig name]. by rewrite H2.
  - set (s3 := set_metrics (metrics.IncReconcileError "get" (rs_metrics s2)) s2).
    rewrite !(st_bind_eq _ _ s2 (Fail (Wrapf "get HyperFleetConfig %q: %w" ["/" +:+ name] e)) s3 eq_refl).
    destruct (finish_log (Fail (Wrapf "get HyperFleetConfig %q: %w" ["/" +:+ name] e)) start s3) as [H1 H2].
    cbv zeta in H1, H2. exists [CGetConfig name]. by rewrite H2.
Qed.

(** C1: [Reconcile] implements its abstract trace.  It reads the resource
    first.  It then reads, in the operator's namespace, the Secrets the resolved
    components declare, in order.  Only when all were read does it make at
    most one discovery request; only then does it work on the components: for each, read
    the live Deployment, send every desired object under the operator's field
    manager with force and read it back, read the Deployment again.  What is
    sent is a function of the resource, the Secret entries and the JWKS URL.
    A failure cuts this sequence short, a success completes it; and the one
    other write, of the resource's status, comes last and at most once. *)
Theorem reconcile_calls name (s : RState (W * list (Call Unstructured))) :
  exists k, rlog (snd (Reconcile (E := LE) r name s)) = rlog s ++ k
  /\ match fst (get_HyperFleetConfig name (snd (env_Now (rs_world s).1))) with
     | Found cr => reconcile_trace name cr (is_ok (fst (Reconcile (E := LE) r name s))) k
     | _ => k = [CGetConfig name]
     end.
Proof.
  pose proof (reconcile_traced name s) as H. unfold rtraced in H.
  by destruct (Reconcile (E := LE) r name s).
Qed.

End logged.

Lemma reconcile_calls_witness :
  let s := mkRState (demo_world, []) None None metrics.zeroMetrics in
  exists k cr, get_HyperFleetConfig SingletonName (snd (env_Now demo_world)) = (Found cr, snd (env_Now demo_world))
  /\ rlog (snd (Reconcile (E := LE) (Y := api.toy_yaml) demo_settings SingletonName s)) = k
  /\ reconcile_trace (Y := api.toy_yaml) demo_settings SingletonName cr
       (is_ok (fst (Reconcile (E := LE) (Y := api.toy_yaml) demo_settings SingletonName s))) k.
Proof.
  intros s.
  destruct (reconcile_calls (Y := api.toy_yaml) demo_settings SingletonName s) as (k & Hk & Ht).
  exists k. eexists. split; [reflexivity|]. split; [exact Hk|exact Ht].
Defined.

End calls.
