(* ===== verification/Learning.v ===== *)
(** * What a successful reconcile reads

    The run of the body as one chain of worlds: the answers to the Secret reads, discovery, and
    per component the objects that are applied, read back and judged.  Everything is a function of
    the world the run starts in, so that what is published can be stated of what the API server answered.
    Generic over the components, up to the run of the whole body. *)

From S2P Require Import Prelude Kube ConfigTypes Json Url JsonDecode Contract Api Sentinel Bundle NetAddr.
From S2P Require Import DiscoveryGuard Sha256 Env ConfigHash Metrics State Jwks Status Apply.
From S2P Require Import Observability Sim Reconciler ReconcilerMetrics ReconcilerCalls.

Module learning.
Import metrics reconciler calls.

(** ** The answers to the Secret reads *)

Section answers.
Context {W : Type} `{E : Env W} `{TL : TemplateLib}.

(** A reference, and what reading its Secret answered. *)
Definition Answer : Type := SecretReference * GetResult Secret.

Fixpoint secret_answers (ns : string) (refs : list SecretReference) (w : W) : list Answer * W :=
  match refs with
  | [] => ([], w)
  | ref :: rest =>
      let '(g, w1) := get_Secret ns (SecretName ref) w in
      let '(l, w2) := secret_answers ns rest w1 in ((ref, g) :: l, w2)
  end.

Definition entry_of (a : Answer) : rollout.hashEntry :=
  match a.2 with
  | Found x => rollout.mkHashEntry (sr_Role a.1) true (secret_ResourceVersion x)
  | _ => rollout.mkHashEntry (sr_Role a.1) false ""
  end.

Lemma resolveSecretEntries_answers ns refs w es w' :
  rollout.resolveSecretEntries ns refs w = (Ok es, w') ->
  secret_answers ns refs w = (zip refs (secret_answers ns refs w).1.*2, w')
  /\ es = entry_of <$> (secret_answers ns refs w).1.
Proof.
  revert w es w'. induction refs as [|ref refs IH]; intros w es w' H; [by injection H as <- <-|].
  cbn [rollout.resolveSecretEntries secret_answers] in *. unfold st_bind in H.
  destruct (get_Secret ns (SecretName ref) w) as [g w1].
  destruct g as [x| |e]; [| |discriminate H];
    apply so_bind_ok in H as (l & w2 & H & H2); injection H2 as <- <-;
    destruct (IH _ _ _ H) as [H1 ->]; destruct (secret_answers ns refs w1) as [l1 w3];
    cbn in *; injection H1 as H1 ->; by rewrite <-H1.
Qed.

(** ** The deployments that are looked at *)

Fixpoint read_deployments (objs : list Object) (w : W) : W :=
  match objs with
  | [] => w
  | ODeployment d :: rest =>
      read_deployments rest (snd (get_Deployment (observability.dep_Namespace d) (dep_Name d) w))
  | _ :: rest => read_deployments rest w
  end.

Lemma read_deployments_stamp objs w :
  read_deployments (map observability.stamp_template objs) w = read_deployments objs w.
Proof. revert w. induction objs as [|o objs IH]; intros w; [done|]. destruct o; cbn; by rewrite IH. Qed.

Lemma detectRollouts_world comp objs w :
  snd (observability.detectRollouts comp objs w) = read_deployments objs w.
Proof.
  revert w. induction objs as [|o objs IH]; intros w; [done|].
  destruct o as [d|?|?|?|?|?|?]; cbn; unfold st_bind;
    [destruct (get_Deployment _ _ w) as [g w1]|..]; cbn;
    match goal with |- context [observability.detectRollouts comp objs ?w1] =>
      specialize (IH w1); by destruct (observability.detectRollouts comp objs w1) as [[ev l] w2] end.
Qed.

Lemma recordReadiness_world comp objs (s : RState W) :
  rs_world (snd (observability.recordReadiness comp objs s)) = read_deployments objs (rs_world s).
Proof.
  unfold observability.recordReadiness. revert s. induction objs as [|o objs IH]; intros s; [done|].
  cbn [st_iter]. unfold st_bind at 1. destruct o as [d|?|?|?|?|?|?]; try exact (IH s).
  unfold st_bind at 1, lift_world. cbn [read_deployments].
  destruct (get_Deployment _ _ (rs_world s)) as [[live| |e] w1]; cbn; by rewrite IH.
Qed.

End answers.

Lemma commitRollouts_world {W} evs (s : RState W) :
  rs_world (snd (observability.commitRollouts evs s)) = rs_world s.
Proof. by destruct (observability.commitRollouts_metrics evs s) as [-> _]. Qed.

(** ** The components *)

Section components.
Context {W : Type} `{E : Env W} `{TL : TemplateLib} {C : Type} `{IC : IsComponent C}.
Context (r : Settings).

(** The answers of the first loop, component by component. *)
Fixpoint component_answers (cr : HyperFleetConfig) (comps : list C) (w : W) : list (C * list Answer) * W :=
  match comps with
  | [] => ([], w)
  | c :: rest =>
      match cReferencedSecrets c cr with
      | Ok refs =>
          let '(l, w1) := secret_answers (OperatorNamespace r) refs w in
          let '(ls, w2) := component_answers cr rest w1 in ((c, l) :: ls, w2)
      | _ => ([], w)
      end
  end.

Definition entries_from (answers : list (C * list Answer)) : gmap string (list rollout.hashEntry) :=
  list_to_map ((fun a : C * list Answer => (cName a.1, entry_of <$> a.2)) <$> answers).

(** The roles of the references whose Secret was not found. *)
Definition missing_roles (answers : list (C * list Answer)) : list string :=
  answers ≫= fun a : C * list Answer => omap (fun x : Answer => match x.2 with NotFound => Some (sr_Role x.1) | _ => None end) a.2.

Definition readable (l : list Answer) : Prop := Forall (fun a : Answer => forall e, a.2 <> GetError e) l.

Lemma answers_readable ns refs w es w' :
  rollout.resolveSecretEntries ns refs w = (Ok es, w') -> readable (secret_answers ns refs w).1.
Proof.
  revert w es w'. induction refs as [|ref refs IH]; intros w es w' H; [constructor|].
  cbn [rollout.resolveSecretEntries secret_answers] in *. unfold st_bind in H.
  destruct (get_Secret ns (SecretName ref) w) as [g w1].
  destruct g as [x| |e]; [| |discriminate H];
    apply so_bind_ok in H as (l & w2 & H & _); specialize (IH _ _ _ H);
    destruct (secret_answers ns refs w1) as [l1 w3]; by constructor.
Qed.

Lemma missing_of_answers l : readable l ->
  missing_of (entry_of <$> l)
  = omap (fun x : Answer => match x.2 with NotFound => Some (sr_Role x.1) | _ => None end) l.
Proof.
  induction 1 as [|[ref g] l Hg _ IH]; [done|]. unfold missing_of in *. rewrite fmap_cons. cbn. rewrite IH.
  destruct g as [x| |e]; [done..|]. by destruct (Hg e).
Qed.

(** The first loop: its entries and what it learns are what was answered. *)
Lemma read_secrets_answers cr entries comps s es s' :
  NoDup (cName <$> comps) -> read_secrets r cr entries comps s = (Ok es, s') ->
  let '(answers, w) := component_answers cr comps (rs_world s.1) in
  answers.*1 = comps /\ es = entries_from answers ∪ entries /\ s'.1 = set_world w s.1
  /\ s'.2 = mkLearned (componentConditions s.2) (componentsCollected s.2)
              (missingSecrets s.2 ++ missing_roles answers).
Proof.
  revert entries s. induction comps as [|c comps IH]; intros entries [s l] Hnd H.
  { injection H as <- <-. cbn. split_and!; [done| |by destruct s|].
    - unfold entries_from. cbn. by rewrite map_empty_union.
    - rewrite app_nil_r. by destruct l. }
  cbn in Hnd. apply NoDup_cons in Hnd as [Hc Hnd]. cbn [read_secrets component_answers] in *.
  apply so_bind_ok in H as (refs & s1 & Hrefs & H). injection Hrefs as -> <-.
  apply so_bind_ok in H as (esc & s2 & Hes & H).
  unfold on_error, lift_state, lift_world in Hes. cbn [fst snd] in *.
  destruct (rollout.resolveSecretEntries _ _ (rs_world s)) as [[e0|e0|] w1] eqn:Er; [|discriminate Hes..].
  injection Hes as <- <-. pose proof (answers_readable _ _ _ _ _ Er) as Hread.
  apply resolveSecretEntries_answers in Er as [Ha ->].
  destruct (secret_answers (OperatorNamespace r) refs (rs_world s)) as [la wa]. cbn [fst snd] in *.
  injection Ha as _ ->. unfold st_bind in H. cbn in H. apply (IH _ _ Hnd) in H. cbn [fst snd rs_world set_world] in H.
  destruct (component_answers cr comps w1) as [ls w2]. destruct H as (Hl & -> & -> & ->). cbn.
  split_and!; [by rewrite Hl| |done|].
  - unfold entries_from. rewrite <-insert_union_r; [by rewrite insert_union_l|].
    apply not_elem_of_list_to_map_1. rewrite <-list_fmap_compose. unfold compose. cbn.
    rewrite <-Hl, <-list_fmap_compose in Hc. exact Hc.
  - rewrite <-app_assoc. unfold missing_roles. cbn [fst snd]. by rewrite <-missing_of_answers.
Qed.

(** The second loop: from world to world, what each component reports.  The objects that are
    desired are applied after a look at the live Deployments; those read back are
    looked at again, and judged. *)
Inductive collects (cr : HyperFleetConfig) (entries : gmap string (list rollout.hashEntry)) :
    W -> list C -> list ComponentConditions -> W -> Prop :=
| collects_nil w : collects cr entries w [] [] w
| collects_cons w c cs hash desired applied w1 conds es w2 :
    desired_objects cr entries c = Ok (hash, desired) ->
    apply.Objects (Some (refreshReader r)) cr desired (read_deployments desired w) = (Ok applied, w1) ->
    cConditions c cr applied = Ok conds ->
    collects cr entries (read_deployments applied w1) cs es w2 ->
    collects cr entries w (c :: cs) (mkComponentConditions (cName c) conds :: es) w2.

Lemma collects_names cr entries w cs es w' : collects cr entries w cs es w' -> cc_Name <$> es = cName <$> cs.
Proof. induction 1 as [|? ? ? ? ? ? ? ? ? ? _ _ _ _ IH]; [done|]. cbn. by rewrite IH. Qed.

Lemma reconcile_component_collects cr entries c s h s' :
  reconcile_component r cr entries c s = (Ok h, s') ->
  exists desired applied w1 conds,
    desired_objects cr entries c = Ok (h, desired)
    /\ apply.Objects (Some (refreshReader r)) cr desired (read_deployments desired (rs_world s.1)) = (Ok applied, w1)
    /\ cConditions c cr applied = Ok conds
    /\ rs_world s'.1 = read_deployments applied w1
    /\ s'.2 = mkLearned (componentConditions s.2 ++ [mkComponentConditions (cName c) conds])
                (componentsCollected s.2) (missingSecrets s.2).
Proof.
  unfold reconcile_component, desired_objects. destruct s as [s l].
  unfold so_bind at 1, on_error at 1. cbn [st_ret]. destruct (cRender c cr) as [objs|e|]; [|done|done].
  cbn [st_ret outcome_bind]. destruct (rollout.stampConfigHash objs _ _) as [hash objs1].
  unfold st_bind at 1, lift_state at 1, lift_world at 1. cbn [fst snd].
  pose proof (detectRollouts_world (cName c) objs1 (rs_world s)) as Hw.
  pose proof (observability.detectRollouts_objs (cName c) objs1 (rs_world s)) as Ho.
  destruct (observability.detectRollouts (cName c) objs1 (rs_world s)) as [[evs objs2] w0].
  cbn in Hw, Ho. subst w0 objs2. unfold so_bind at 1, on_error at 1, lift_state at 1, lift_world at 1.
  cbn [fst snd rs_world set_world]. rewrite <-read_deployments_stamp.
  destruct (apply.Objects _ cr _ _) as [[applied|e|] w1] eqn:Ea; [|done|done].
  unfold st_bind at 1, lift_state at 1. cbn [fst snd].
  match goal with |- context [observability.commitRollouts evs ?s0] =>
    pose proof (commitRollouts_world evs s0) as H1; destruct (observability.commitRollouts evs s0) as [[] s1] end.
  unfold st_bind at 1, lift_state at 1. cbn [fst snd] in *.
  pose proof (recordReadiness_world (cName c) applied s1) as H2.
  destruct (observability.recordReadiness (cName c) applied s1) as [[] s2]. cbn [fst snd] in *.
  unfold so_bind, on_error, st_ret. destruct (cConditions c cr applied) as [conds|e|] eqn:Ec; [|done|done].
  unfold st_bind, learn. cbn. intros [= <- <-]. exists (map observability.stamp_template objs1), applied, w1, conds.
  split_and!; [done|exact Ea|done|cbn; by rewrite H2, H1|done].
Qed.

Lemma reconcile_components_collects cr entries comps s hs s' :
  reconcile_components r cr entries comps s = (Ok hs, s') ->
  exists es, collects cr entries (rs_world s.1) comps es (rs_world s'.1)
    /\ s'.2 = mkLearned (componentConditions s.2 ++ es) (componentsCollected s.2) (missingSecrets s.2).
Proof.
  revert s hs. induction comps as [|c comps IH]; intros s hs H; cbn [reconcile_components] in H.
  { injection H as _ <-. exists []. rewrite app_nil_r. split; [constructor|by destruct s.2]. }
  apply so_bind_ok in H as (h & s1 & H1 & (hs' & s2 & H2 & [= _ <-])%so_bind_ok).
  apply reconcile_component_collects in H1 as (desired & applied & w1 & conds & Hd & Ha & Hc & Hw & Hl).
  apply IH in H2 as (es & Hes & Hl2). rewrite Hw in Hes. exists (mkComponentConditions (cName c) conds :: es).
  split; [by eapply collects_cons|]. rewrite Hl2, Hl. cbn. by rewrite <-app_assoc.
Qed.

End components.

(** ** The whole body *)

Section body.
Context {W : Type} `{E : Env W} `{TL : TemplateLib} `{UL : UrlLib} `{CL : ConditionsLib} `{Y : YamlLib}.
Context (r : Settings).

Lemma reconcile_body_ran cr (s s1 : RState W) l :
  reconcile_body r cr (s, nothing_learned) = (Ok tt, (s1, l)) ->
  let '(answers, w) := component_answers r cr (resolved r cr) (rs_world s) in
  answers.*1 = resolved r cr
  /\ exists url sd, jwks.resolveJWKSURL (HTTPClient r) cr (set_world w s) = (Ok url, sd)
     /\ collects r cr (entries_from answers) (rs_world sd) (configured r cr url) (componentConditions l) (rs_world s1)
     /\ componentsCollected l = true /\ missingSecrets l = Compact (SortStrings (missing_roles answers)).
Proof.
  pose proof (resolved_names r cr) as Hnd.
  assert (Hres : forall comps0, bundle.Resolve (spec_Bundle (cr_Spec cr)) (bundle_config r) = Ok comps0 ->
    resolved r cr = bundle.SetAPIBaseURL comps0 (api.APIBaseURL cr (OperatorNamespace r)))
    by (intros comps0 Er; unfold resolved; by rewrite Er).
  unfold configured. unfold reconcile_body. intros (comps0 & s0 & H0 & H)%so_bind_ok. unfold on_error in H0. cbn [st_ret] in H0.
  destruct (bundle.Resolve (spec_Bundle (cr_Spec cr)) (bundle_config r)) as [cs|e|]; [|discriminate H0..].
  injection H0 as -> <-. cbv zeta in H. rewrite <-(Hres _ eq_refl) in H. clear Hres.
  apply so_bind_ok in H as (entries & s2 & Hs & H).
  apply read_secrets_answers in Hs; [|exact Hnd]. cbn [fst snd] in Hs.
  destruct (component_answers r cr (resolved r cr) (rs_world s)) as [answers w]. destruct Hs as (Ha & -> & H1 & H2).
  destruct s2 as [s2 l2]. cbn [fst snd] in *. subst s2 l2. split; [exact Ha|].
  unfold st_bind in H. cbn [learn fst snd] in H. apply so_bind_ok in H as (url & s3 & Hj & H).
  unfold on_error, lift_state in Hj. cbn [fst snd] in Hj. exists url.
  destruct (jwks.resolveJWKSURL (HTTPClient r) cr (set_world w s)) as [[u|e|] sd] eqn:Ej; [|discriminate Hj..].
  injection Hj as -> <-. exists sd. split; [reflexivity|].
  apply so_bind_ok in H as (hs & s4 & Hc & H).
  apply reconcile_components_collects in Hc as (es & Hes & Hl). cbn [fst snd] in Hes, Hl.
  unfold sort_missing in Hl. cbn in H, Hl. injection H as <- <-. rewrite Hl. cbn.
  rewrite map_union_empty in Hes. split_and!; [exact Hes|done|done].
Qed.

End body.

End learning.
