(* ===== verification/ReconcilerStatus.v ===== *)
(** * What a reconcile publishes

    Follows what the body learns (component conditions, missing Secrets,
    whether every component was examined) into the deferred status update:
    the status after a success and after a failure; and when rollouts are counted. *)

From S2P Require Import Prelude Kube ConfigTypes Json Url JsonDecode Contract Api Sentinel Bundle NetAddr.
From S2P Require Import DiscoveryGuard Sha256 Env ConfigHash Metrics State Jwks Status Apply.
From S2P Require Import Observability Sim Reconciler ReconcilerMetrics ReconcilerCalls Learning.

Module publishing.
Import metrics reconciler calls learning.

(** The entry of a component that was examined. *)
Definition examined (e : ComponentConditions) : Prop :=
  c_Type <$> cc_Conditions e = [ConditionAvailable; ConditionProgressing]
  /\ Forall wf_condition (cc_Conditions e).

Section components.
Context {W : Type} `{E : Env W} `{TL : TemplateLib} {C : Type} `{IC : IsComponent C} `{CC : !ComponentContract C}.
Context (r : Settings).

(** A step that does not touch what was learned. *)
Definition learns_nothing {A} (m : ST (BState W) A) : Prop := forall s, snd (snd (m s)) = snd s.

Lemma lift_learns_nothing {A} (m : ST (RState W) A) : learns_nothing (lift_state m).
Proof. intros [s l]. unfold lift_state. cbn. by destruct (m s). Qed.

Lemma on_error_learns_nothing {A} reason f args (m : ST (BState W) (outcome A)) :
  learns_nothing m -> learns_nothing (on_error reason f args m).
Proof. intros Hm s. unfold on_error. specialize (Hm s). by destruct (m s) as [[a|e|] s1]. Qed.

Lemma reconcile_component_learned cr entries c s :
  let '(res, s1) := reconcile_component r cr entries c s in
  missingSecrets s1.2 = missingSecrets s.2 /\ componentsCollected s1.2 = componentsCollected s.2
  /\ (is_ok res = true -> exists conds,
        componentConditions s1.2 = componentConditions s.2 ++ [mkComponentConditions (cName c) conds]
        /\ examined (mkComponentConditions (cName c) conds)).
Proof.
  unfold reconcile_component.
  unfold so_bind at 1, on_error at 1. cbn [st_ret].
  destruct (cRender c cr) as [objs|e|]; [|done|done].
  cbn [st_ret]. destruct (rollout.stampConfigHash objs _ _) as [hash objs1].
  unfold st_bind at 1.
  match goal with |- context [lift_state ?m s] =>
    pose proof (lift_learns_nothing m s) as H1; destruct (lift_state m s) as [[evs objs2] s1] end.
  cbn in H1. unfold so_bind at 1.
  match goal with |- context [on_error ?a ?b ?d ?m s1] =>
    pose proof (on_error_learns_nothing a b d m (lift_learns_nothing _) s1) as H2;
    destruct (on_error a b d m s1) as [[objs3|e|] s2] end; cbn in H2; rewrite <-H1, <-H2; [|done|done].
  unfold st_bind at 1.
  pose proof (lift_learns_nothing (observability.commitRollouts evs) s2) as H3.
  destruct (lift_state (observability.commitRollouts evs) s2) as [[] s3]. cbn in H3.
  unfold st_bind at 1.
  pose proof (lift_learns_nothing (observability.recordReadiness (cName c) objs3) s3) as H4.
  destruct (lift_state (observability.recordReadiness (cName c) objs3) s3) as [[] s4]. cbn in H4.
  destruct (conditions_law c cr objs3) as (conds & Hc & Hty & Hwf).
  unfold so_bind, on_error, st_ret. rewrite Hc. unfold st_bind, learn. cbn. rewrite H4, H3.
  split; [done|]. split; [done|]. intros _. by exists conds.
Qed.

Lemma reconcile_components_learned cr entries comps s :
  let '(res, s1) := reconcile_components r cr entries comps s in
  missingSecrets s1.2 = missingSecrets s.2 /\ componentsCollected s1.2 = componentsCollected s.2
  /\ (is_ok res = true -> exists l, componentConditions s1.2 = componentConditions s.2 ++ l
        /\ cc_Name <$> l = cName <$> comps /\ Forall examined l).
Proof.
  revert s. induction comps as [|c comps IH]; intros s; cbn [reconcile_components].
  { cbn. split_and!; [done..|]. intros _. exists []. by rewrite app_nil_r. }
  unfold so_bind at 1. pose proof (reconcile_component_learned cr entries c s) as H1.
  destruct (reconcile_component r cr entries c s) as [[h|e|] s1]; destruct H1 as (Hm & Hc & Hl); [|done|done].
  destruct (Hl eq_refl) as (conds & Hcond & Hex). unfold so_bind. specialize (IH s1).
  destruct (reconcile_components r cr entries comps s1) as [[hs|e|] s2]; cbn;
    destruct IH as (Hm2 & Hc2 & Hl2); rewrite Hm2, Hc2, Hm, Hc; (split; [done|]); (split; [done|]); try done.
  intros _. destruct (Hl2 eq_refl) as (l & Hl3 & Hn & Hf).
  exists (mkComponentConditions (cName c) conds :: l). rewrite Hl3, Hcond, <-app_assoc.
  split; [done|]. split; [cbn; by rewrite Hn|]. by constructor.
Qed.

Lemma read_secrets_learned cr entries comps s :
  let '(res, s1) := read_secrets r cr entries comps s in
  componentConditions s1.2 = componentConditions s.2 /\ componentsCollected s1.2 = componentsCollected s.2.
Proof.
  revert entries s. induction comps as [|c comps IH]; intros entries s; cbn [read_secrets]; [done|].
  unfold so_bind at 1. cbn [st_ret]. destruct (cReferencedSecrets c cr) as [refs|e|]; [|done|done].
  cbn [st_ret]. unfold so_bind at 1.
  match goal with |- context [on_error ?a ?b ?d ?m s] =>
    pose proof (on_error_learns_nothing a b d m (lift_learns_nothing _) s) as H2;
    destruct (on_error a b d m s) as [[esc|e|] s2] end; cbn in H2; rewrite <-H2; [|done|done].
  unfold st_bind, learn.
  match goal with |- context [read_secrets r cr ?m comps ?s3] => specialize (IH m s3);
    destruct (read_secrets r cr m comps s3) as [res s4] end.
  exact IH.
Qed.

(** ** When rollouts are counted *)

Lemma readiness_rollouts comp objs (s : RState W) :
  OperandRollouts (rs_metrics (snd (observability.recordReadiness comp objs s)))
  = OperandRollouts (rs_metrics s).
Proof.
  unfold observability.recordReadiness. revert s. induction objs as [|o objs IH]; intros s; [done|].
  cbn [st_iter]. unfold st_bind at 1. destruct o as [d|?|?|?|?|?|?]; try exact (IH s).
  unfold st_bind at 1, lift_world. destruct (get_Deployment _ _ (rs_world s)) as [[live| |e] w1];
    cbn; by rewrite IH.
Qed.

Lemma world_metrics {A} (m : ST W A) (s : BState W) :
  rs_metrics (snd (lift_state (lift_world m) s)).1 = rs_metrics s.1.
Proof. destruct s as [s l]. unfold lift_state, lift_world. cbn. by destruct (m (rs_world s)). Qed.

Lemma on_error_frame {A} reason f args (m : ST (BState W) (outcome A)) s :
  (rs_metrics (snd (m s)).1 = rs_metrics s.1) ->
  OperandRollouts (rs_metrics (snd (on_error reason f args m s)).1) = OperandRollouts (rs_metrics s.1)
  /\ OperandReady (rs_metrics (snd (on_error reason f args m s)).1) = OperandReady (rs_metrics s.1).
Proof. unfold on_error. destruct (m s) as [[a|e|] s1]; cbn; by intros ->. Qed.

(** The rollout counter after a list of events. *)
Definition count_rollouts (evs : list observability.rolloutEvent) (m : gmap (string * string) N) :
    gmap (string * string) N :=
  fold_left (fun acc e => inc (observability.component e, observability.trigger e) acc) evs m.

(** C21: the rollouts detected before an apply, from the live state of
    that moment, are counted, all of them, when the whole apply succeeded; if
    rendering or applying fails, no rollout is counted and no readiness gauge moves,
    so a retried apply is not counted twice. *)
Theorem rollouts_committed cr entries c (s : BState W) objs (Hr : cRender c cr = Ok objs) :
  let '(hash, objs1) := rollout.stampConfigHash objs (cRollout c) (default [] (entries !! cName c)) in
  let evs := fst (fst (observability.detectRollouts (cName c) objs1 (rs_world s.1))) in
  let '(res, s1) := reconcile_component r cr entries c s in
  let m := rs_metrics s.1 in let m1 := rs_metrics s1.1 in
  match res with
  | Ok h => h = hash /\ OperandRollouts m1 = count_rollouts evs (OperandRollouts m)
  | _ => OperandRollouts m1 = OperandRollouts m /\ OperandReady m1 = OperandReady m
  end.
Proof.
  destruct (rollout.stampConfigHash objs (cRollout c) (default [] (entries !! cName c)))
    as [hash objs1] eqn:Es. cbv zeta.
  unfold reconcile_component. unfold so_bind at 1, on_error at 1. cbn [st_ret]. rewrite Hr. cbn [st_ret].
  rewrite Es. unfold st_bind at 1.
  pose proof (world_metrics (observability.detectRollouts (cName c) objs1) s) as H1.
  assert (Hev : fst (fst (lift_state (lift_world (observability.detectRollouts (cName c) objs1)) s))
                = fst (fst (observability.detectRollouts (cName c) objs1 (rs_world s.1)))).
  { unfold lift_state, lift_world. by destruct (observability.detectRollouts (cName c) objs1 (rs_world s.1)). }
  destruct (lift_state (lift_world (observability.detectRollouts (cName c) objs1)) s) as [[evs objs2] s1].
  cbn [fst snd] in H1, Hev. rewrite <-Hev. unfold so_bind at 1.
  match goal with |- context [on_error ?a ?b ?d ?m s1] =>
    destruct (on_error_frame a b d m s1 (world_metrics _ s1)) as [H2 H3];
    destruct (on_error a b d m s1) as [[objs3|e|] s2] end; cbn [fst snd] in H2, H3; rewrite H1 in H2, H3;
    [|done|done].
  unfold st_bind at 1. unfold lift_state at 1.
  pose proof (observability.commitRollouts_metrics evs s2.1) as [_ H4].
  destruct (observability.commitRollouts evs s2.1) as [[] s3]. cbn [fst snd] in H4.
  unfold st_bind at 1. unfold lift_state at 1. cbn [fst snd].
  pose proof (readiness_rollouts (cName c) objs3 s3) as H5.
  destruct (observability.recordReadiness (cName c) objs3 s3) as [[] s4]. cbn [fst snd] in H5.
  destruct (conditions_law c cr objs3) as (conds & Hc & _).
  unfold so_bind, on_error, st_ret. rewrite Hc. unfold st_bind, learn. cbn. split; [done|].
  rewrite H5, H4, <-H2. clear. generalize (rs_metrics s2.1) as m.
  induction evs as [|e evs IH]; intros m; [done|]. cbn. by rewrite IH.
Qed.

End components.

(** ** The published status *)

Section reconcile.
Context {W : Type} `{E : Env W} `{TL : TemplateLib} `{UL : UrlLib} `{CL : ConditionsLib}
  `{CLaws : !ConditionsLaws} `{Y : YamlLib}.
Context (r : Settings).

Definition learned_ok (cr : HyperFleetConfig) (out : outcome unit * BState W) : Prop :=
  match out.1 with
  | Ok _ => componentsCollected out.2.2 = true
      /\ cc_Name <$> componentConditions out.2.2 = cName <$> resolved r cr
      /\ Forall examined (componentConditions out.2.2)
      /\ NoDup (missingSecrets out.2.2)
  | _ => componentsCollected out.2.2 = false
  end.

Lemma reconcile_body_learned cr (s : RState W) :
  learned_ok cr (reconcile_body r cr (s, nothing_learned)).
Proof.
  assert (Hres : forall comps0, bundle.Resolve (spec_Bundle (cr_Spec cr)) (bundle_config r) = Ok comps0 ->
    resolved r cr = bundle.SetAPIBaseURL comps0 (api.APIBaseURL cr (OperatorNamespace r)))
    by (intros comps0 Er; unfold resolved; by rewrite Er).
  unfold reconcile_body. unfold so_bind at 1, on_error at 1. cbn [st_ret]. cbv zeta.
  destruct (bundle.Resolve (spec_Bundle (cr_Spec cr)) (bundle_config r)) as [comps0|e|]; [|done|done].
  cbn [st_ret]. specialize (Hres comps0 eq_refl). rewrite <-Hres. set (comps := resolved r cr) in *.
  unfold so_bind at 1. pose proof (read_secrets_learned r cr ∅ comps (s, nothing_learned)) as Hl.
  destruct (read_secrets r cr ∅ comps (s, nothing_learned)) as [[entries|e|] s1];
    destruct Hl as (Hcond & Hcol); [|done|done].
  unfold st_bind at 1. cbn [learn]. unfold so_bind at 1.
  match goal with |- context [on_error ?a ?b ?d ?m ?s0] =>
    pose proof (on_error_learns_nothing a b d m (lift_learns_nothing _) s0) as H2;
    destruct (on_error a b d m s0) as [[url|e|] s2] end; cbn in H2;
    [|unfold learned_ok; cbn; by rewrite H2|unfold learned_ok; cbn; by rewrite H2].
  unfold so_bind at 1.
  pose proof (reconcile_components_learned r cr entries (bundle.SetResolvedJWKSURL comps url) s2) as Hl.
  destruct (reconcile_components r cr entries (bundle.SetResolvedJWKSURL comps url) s2) as [[hs|e|] s3];
    destruct Hl as (Hm3 & Hc3 & Hl3); unfold learned_ok; cbn;
    [|by rewrite Hc3, H2|by rewrite Hc3, H2].
  destruct (Hl3 eq_refl) as (l & Hl4 & Hn & Hex).
  rewrite Hl4, H2. cbn. rewrite Hcond. cbn. split; [done|]. split.
  { rewrite Hn. exact (bundle.SetResolvedJWKSURL_names comps url). }
  split; [exact Hex|]. rewrite Hm3, H2. apply Compact_NoDup, SortBy_Sorted.
Qed.

(** The clock was read, and nothing else was done. *)
Definition ticks : relation (RState W) := rtc (fun s s' => s' = snd (now s)).

Lemma aggregate_ticks cr reps col miss err (s : RState W) :
  ticks s (snd (status.aggregateStatus now cr reps col miss err s)).
Proof. apply (status.aggregateStatus_frame now (rtc _)). intros s0. by apply rtc_once. Qed.

(** How the deferred update ends, for a body result that did not panic. *)
Lemma update_status_ok cr res l (s s' : RState W) :
  update_status cr res l s = (Ok tt, s') ->
  res = Ok tt /\ exists cr' changed s2,
    status.aggregateStatus now cr (componentConditions l) (componentsCollected l) (missingSecrets l) None s
      = ((cr', changed), s2)
    /\ (if changed : bool then exists w, status_Update cr' (rs_world s2) = (None, w) /\ s' = set_world w s2
        else s' = s2).
Proof.
  unfold update_status, st_bind. destruct res as [[]|e|]; cbn [reterr].
  - intros H. split; [done|].
    destruct (status.aggregateStatus now cr _ _ _ None s) as [[cr' ch] s2]. exists cr', ch, s2.
    split; [done|]. destruct ch; [|by injection H]. unfold lift_world in H.
    destruct (status_Update cr' (rs_world s2)) as [[err|] w]; [discriminate H|]. exists w. by injection H as <-.
  - destruct (status.aggregateStatus now cr _ _ _ _ s) as [[cr' ch] s2]. destruct ch; [|done]. unfold lift_world.
    by destruct (status_Update cr' (rs_world s2)) as [[err|] w].
  - destruct (status.aggregateStatus now cr _ _ _ _ s) as [[cr' ch] s2]. destruct ch; [|done]. unfold lift_world.
    by destruct (status_Update cr' (rs_world s2)) as [[err|] w].
Qed.

Lemma examined_types l : Forall examined l -> Forall (fun e => NoDup (c_Type <$> cc_Conditions e)) l.
Proof.
  intros H. eapply Forall_impl; [exact H|]. intros e [-> _].
  repeat (apply NoDup_cons; split; [set_solver|]). by apply NoDup_nil.
Qed.

(** The aggregate of a full set of reports, without an error. *)
Lemma aggregate_publication cr reps miss (s : RState W) :
  cc_Name <$> reps = cName <$> resolved r cr -> Forall examined reps ->
  let cr' := fst (fst (status.aggregateStatus now cr reps true miss None s)) in
  cr' = with_status cr (cr_Status cr')
  /\ status_ObservedGeneration (cr_Status cr') = cr_Generation cr
  /\ cc_Name <$> status_Components (cr_Status cr') = cc_Name <$> SortBy cc_Name reps
  /\ (forall e, e ∈ reps -> exists e', status.findComponentEntry (status_Components (cr_Status cr')) (cc_Name e) = Some e'
       /\ status.published (status.prev_conditions cr (cc_Name e)) (cc_Conditions e) (cr_Generation cr) (cc_Conditions e'))
  /\ (exists d, status.find_cond ConditionDegraded (status_Conditions (cr_Status cr')) = Some d
       /\ status.reports d (set_ObservedGeneration (cr_Generation cr) (status.degradedCondition miss None)))
  /\ (exists a, status.find_cond ConditionAvailable (status_Conditions (cr_Status cr')) = Some a
       /\ (c_Status a = ConditionTrue <-> forall e c, e ∈ reps -> c ∈ cc_Conditions e ->
             c_Type c = ConditionAvailable -> c_Status c = ConditionTrue)).
Proof.
  intros Hn Hex. assert (Hnames : NoDup (cc_Name <$> reps)) by (rewrite Hn; apply resolved_names).
  pose proof (status.aggregate_publishes now cr reps miss None s Hnames (examined_types _ Hex)) as Hp.
  cbv zeta in *. destruct Hp as (Hcr & Hg & Hnm & _ & Hent & Hc & _). split_and!; try done.
  - destruct (Hc (set_ObservedGeneration (cr_Generation cr) (status.degradedCondition miss None)))
      as (d & Hd & Hr & _); [left|].
    exists d. split; [by destruct miss|exact Hr].
  - match type of Hc with forall c, c ∈ ?L -> _ =>
      destruct (Hc (set_ObservedGeneration (cr_Generation cr)
        (status.rollupCondition ConditionAvailable (status.flattenConditions reps)
           ReasonDeploymentAvailable "all components are available" ConditionTrue))) as (a & Ha & (Hs & _) & _) end;
      [right; left|].
    cbn [c_Type set_ObservedGeneration] in Ha. rewrite status.rollupCondition_type in Ha.
    exists a. split; [done|]. rewrite Hs. cbn [c_Status set_ObservedGeneration].
    rewrite status.rollup_expected. split.
    + intros H e c He Hcc. apply H. apply status.flattenConditions_elem. eauto.
    + intros H c Hcc. apply status.flattenConditions_elem in Hcc as (e & ? & ?). eauto.
Qed.

Lemma Compact_Sort_nil l : Compact (SortStrings l) = [] <-> l = [].
Proof.
  split; [|by intros ->]. intros H. destruct l as [|x l]; [done|].
  assert (Hx : x ∈ Compact (SortStrings (x :: l))) by (apply elem_of_Compact, SortStrings_elem; left).
  rewrite H in Hx. by apply not_elem_of_nil in Hx.
Qed.

(** What the Degraded condition says of a run in which these Secrets were not found. *)
Definition degraded_as (missing : list string) (d : Condition) : Prop :=
  match missing with
  | [] => c_Status d = ConditionFalse /\ c_Reason d = ReasonAsExpected
  | _ :: _ => c_Status d = ConditionTrue /\ c_Reason d = ReasonReferencedSecretMissing
      /\ c_Message d = "referenced secret(s) missing in the operator's namespace: "
                       +:+ JoinStrings (Compact (SortStrings missing)) ", "
  end.

Lemma degraded_reports missing g d :
  status.reports d (set_ObservedGeneration g (status.degradedCondition (Compact (SortStrings missing)) None)) ->
  degraded_as missing d.
Proof.
  intros (Hs & Hr & Hm & _). unfold degraded_as. pose proof (Compact_Sort_nil missing) as Hn.
  destruct missing as [|x l].
  - by rewrite Hs, Hr.
  - destruct (Compact (SortStrings (x :: l))) as [|y k]; [by destruct (proj1 Hn eq_refl)|]. by rewrite Hs, Hr, Hm.
Qed.

(** The status that a run leaves: [cr'], written if it differs from what was published. *)
Definition left_status (cr cr' : HyperFleetConfig) (changed : bool) (s2 s' : RState W) : Prop :=
  if changed then exists w, status_Update cr' (rs_world s2) = (None, w) /\ s' = set_world w s2
  else s' = s2 /\ status_Conditions (cr_Status cr') = status_Conditions (cr_Status cr)
       /\ status_Components (cr_Status cr') ≡ₚ status_Components (cr_Status cr).

(** C2: a reconcile that returns no error has examined every component of the bundle, from the
    objects read back after its apply, and published, or found already published, the aggregate for
    the current generation: one entry per component sorted by name, with exactly the conditions the
    component reported; Degraded is True, with the missing references in its
    message, exactly when the read of some declared Secret answered that it is not there; Available
    is True exactly when each component's Available condition is.  The Secret answers,
    discovery and the applied objects are those of the run, each call in the world the one before it left. *)
Theorem reconcile_publishes cr (s s' : RState W) (Hok : reconcile_found r cr s = (Ok tt, s')) :
  let '(answers, w) := component_answers r cr (resolved r cr) (rs_world s) in
  answers.*1 = resolved r cr
  /\ exists url sd conds sb cr' changed s2,
    jwks.resolveJWKSURL (HTTPClient r) cr (set_world w s) = (Ok url, sd)
    /\ collects r cr (entries_from answers) (rs_world sd) (configured r cr url) conds (rs_world sb)
    /\ ticks sb s2 /\ left_status cr cr' changed s2 s'
    /\ cr' = with_status cr (cr_Status cr')
    /\ status_ObservedGeneration (cr_Status cr') = cr_Generation cr
    /\ cc_Name <$> status_Components (cr_Status cr') = cc_Name <$> SortBy cc_Name conds
    /\ (forall e, e ∈ conds -> examined e
         /\ exists e', status.findComponentEntry (status_Components (cr_Status cr')) (cc_Name e) = Some e'
         /\ status.published (status.prev_conditions cr (cc_Name e)) (cc_Conditions e) (cr_Generation cr) (cc_Conditions e'))
    /\ (exists d, status.find_cond ConditionDegraded (status_Conditions (cr_Status cr')) = Some d
         /\ degraded_as (missing_roles answers) d)
    /\ (exists a, status.find_cond ConditionAvailable (status_Conditions (cr_Status cr')) = Some a
         /\ (c_Status a = ConditionTrue <-> forall e c, e ∈ conds -> c ∈ cc_Conditions e ->
               c_Type c = ConditionAvailable -> c_Status c = ConditionTrue)).
Proof.
  unfold reconcile_found in Hok. pose proof (reconcile_body_learned cr s) as Hl. unfold learned_ok in Hl.
  destruct (reconcile_body r cr (s, nothing_learned)) as [res [s1 l]] eqn:Eb. cbn [fst snd] in Hl.
  apply update_status_ok in Hok as (-> & cr' & changed & s2 & Hagg & Hch).
  destruct Hl as (Hcol & Hn & Hex & Hnd). rewrite Hcol in Hagg. apply reconcile_body_ran in Eb.
  destruct (component_answers r cr (resolved r cr) (rs_world s)) as [answers w].
  destruct Eb as (Ha & url & sd & Hurl & Hcoll & _ & Hmiss). split; [exact Ha|].
  pose proof (aggregate_publication cr (componentConditions l) (missingSecrets l) s1 Hn Hex) as Hp.
  pose proof (status.aggregate_quiet now cr (componentConditions l) true (missingSecrets l) None s1) as Hq.
  pose proof (aggregate_ticks cr (componentConditions l) true (missingSecrets l) None s1) as Ht.
  rewrite Hagg in Hp, Hq, Ht. cbn [fst snd] in Hp, Ht. cbv zeta in Hp.
  destruct Hp as (Hcr & Hg & Hnm & Hent & (d & Hd & Hrep) & Hav).
  exists url, sd, (componentConditions l), s1, cr', changed, s2. split_and!; try done.
  - unfold left_status. destruct changed; [done|]. destruct (Hq eq_refl) as (? & _ & ?). done.
  - intros e He. split; [by apply (proj1 (Forall_forall _ _) Hex)|by apply Hent].
  - exists d. split; [exact Hd|]. rewrite Hmiss in Hrep. by eapply degraded_reports.
Qed.

(** Two statuses that differ in the Degraded condition at most. *)
Definition same_but_degraded (st st' : HyperFleetConfigStatus) : Prop :=
  status_Components st' = status_Components st
  /\ status_ObservedGeneration st' = status_ObservedGeneration st
  /\ forall t, t <> ConditionDegraded ->
       status.find_cond t (status_Conditions st') = status.find_cond t (status_Conditions st).

(** How the deferred update ends after a failed body. *)
Definition left_after (e : error) (cr cr' : HyperFleetConfig) (changed : bool) (s2 : RState W)
    (out : outcome unit * RState W) : Prop :=
  if changed then
    let '(err, w) := status_Update cr' (rs_world s2) in
    out = (Fail (match err with None => e | Some err => JoinErrors e (Wrapf "update status: %w" [] err) end),
           set_world w s2)
  else cr' = cr /\ out = (Fail e, s2).

Lemma with_status_same cr cr' : cr' = with_status cr (cr_Status cr') -> cr_Status cr' = cr_Status cr -> cr' = cr.
Proof. intros -> H. cbn in H. rewrite H. by destruct cr. Qed.

(** C4: when the body fails with [e], whatever was examined before, the status that the deferred
    update writes keeps the published components, generation and every other condition, and
    sets Degraded to True, for a missing Secret if one was found missing and for the failure
    otherwise; the write is skipped only if that status is the published one.  The caller gets
    [e], joined with the status update's own error if that failed. *)
Theorem reconcile_aborts cr (s : RState W) e s1 l
    (Hfail : reconcile_body r cr (s, nothing_learned) = (Fail e, (s1, l))) :
  exists cr' changed s2,
    cr' = with_status cr (cr_Status cr') /\ same_but_degraded (cr_Status cr) (cr_Status cr')
    /\ (exists d, status.find_cond ConditionDegraded (status_Conditions (cr_Status cr')) = Some d
         /\ c_Status d = ConditionTrue /\ c_ObservedGeneration d = cr_Generation cr
         /\ c_Reason d = match missingSecrets l with [] => ReasonReconcileError | _ => ReasonReferencedSecretMissing end)
    /\ ticks s1 s2 /\ left_after e cr cr' changed s2 (reconcile_found r cr s).
Proof.
  pose proof (reconcile_body_learned cr s) as Hl. unfold learned_ok in Hl. rewrite Hfail in Hl. cbn in Hl.
  unfold reconcile_found. rewrite Hfail. unfold update_status, st_bind. cbn [reterr]. rewrite Hl.
  pose proof (status.aggregate_aborts now cr (componentConditions l) (missingSecrets l) (Some e) s1) as Ha.
  pose proof (status.aggregate_quiet now cr (componentConditions l) false (missingSecrets l) (Some e) s1) as Hq.
  pose proof (aggregate_ticks cr (componentConditions l) false (missingSecrets l) (Some e) s1) as Ht.
  destruct (status.aggregateStatus now cr (componentConditions l) false (missingSecrets l) (Some e) s1)
    as [[cr' ch] s2].
  cbn [fst snd] in Ha, Ht. cbv zeta in Ha. destruct Ha as (H1 & H2 & H3 & H4 & d & Hd & Hs & Hr & _ & Hg).
  exists cr', ch, s2. split; [exact H1|]. split; [by split_and!|]. split; [|split; [exact Ht|]].
  - exists d. rewrite Hs, Hr, Hg. split; [done|]. by destruct (missingSecrets l).
  - unfold left_after. destruct ch.
    + unfold lift_world. by destruct (status_Update cr' (rs_world s2)) as [[err|] w].
    + split; [|done]. apply (with_status_same _ _ H1). destruct (Hq eq_refl) as (Hc & _ & _).
      destruct (cr_Status cr'), (cr_Status cr). cbn in *. congruence.
Qed.

End reconcile.
(** ** Concrete runs *)

(** The other bundle has no entity set yet: its reconcile fails at once. *)
Definition demo_abort_cr : HyperFleetConfig :=
  mkConfig SingletonName 7 "uid"
    (mkSpec BundleOnPremAgent (mkAPISpec (mkDatabaseSpec (mkSecretRef "db"))
       (mkAuthSpec None "" "" None) None SizingProfileSmall))
    (mkStatus 6 [] [mkComponentConditions "api" []]).

Lemma reconcile_aborts_witness :
  let out := reconcile_found (Y := api.toy_yaml) demo_settings demo_abort_cr jwks.demo_state in
  exists e s1 l, reconcile_body (Y := api.toy_yaml) demo_settings demo_abort_cr (jwks.demo_state, nothing_learned)
    = (Fail e, (s1, l))
  /\ exists cr' changed s2, same_but_degraded (cr_Status demo_abort_cr) (cr_Status cr')
       /\ left_after e demo_abort_cr cr' changed s2 out.
Proof.
  cbv zeta.
  destruct (reconcile_body (Y := api.toy_yaml) demo_settings demo_abort_cr (jwks.demo_state, nothing_learned))
    as [[u|e|] [s1 l]] eqn:Eb; [discriminate Eb| |discriminate Eb].
  exists e, s1, l. split; [reflexivity|].
  destruct (reconcile_aborts (Y := api.toy_yaml) demo_settings demo_abort_cr jwks.demo_state e s1 l Eb)
    as (cr' & changed & s2 & _ & H1 & _ & _ & H2).
  exists cr', changed, s2. split; [exact H1|exact H2].
Defined.

Lemma rollouts_committed_witness :
  let cr := apply.demo_apply_cr in let c := api.New "" "hf" [] in
  exists objs, api.Render (H := api.toy_yaml) c cr = Ok objs
  /\ let '(hash, objs1) := rollout.stampConfigHash objs (api.Rollout c) [] in
     let evs := fst (fst (observability.detectRollouts "api" objs1 demo_world)) in
     let '(res, s1) := reconcile_component (IC := @api.api_IsComponent api.toy_yaml) demo_settings cr ∅ c
                         (jwks.demo_state, nothing_learned) in
     match res with
     | Ok h => h = hash /\ OperandRollouts (rs_metrics s1.1) = count_rollouts evs ∅
     | _ => OperandRollouts (rs_metrics s1.1) = ∅ /\ OperandReady (rs_metrics s1.1) = ∅
     end.
Proof.
  cbv zeta. destruct (api.Render (H := api.toy_yaml) (api.New "" "hf" []) apply.demo_apply_cr) as [objs| |] eqn:Er;
    [|discriminate Er..].
  exists objs. split; [reflexivity|].
  exact (rollouts_committed (IC := @api.api_IsComponent api.toy_yaml) (CC := @api.api_contract api.toy_yaml)
    demo_settings apply.demo_apply_cr ∅ (api.New "" "hf" []) (jwks.demo_state, nothing_learned) objs Er).
Defined.

End publishing.
