(* ===== verification/ReconcilerLive.v ===== *)
(** * A healthy cluster is reconciled

    Everything the environment can do wrong is ruled out one hypothesis at a
    time (class [Healthy]); then [Reconcile] succeeds: no check of the
    operator's own refuses a valid configuration.  The simulated cluster is
    healthy, so the theorems about successful reconciles have concrete runs. *)

From S2P Require Import Prelude Kube ConfigTypes Json Url JsonDecode Contract Api Sentinel Bundle NetAddr.
From S2P Require Import DiscoveryGuard Sha256 Env ConfigHash Metrics State Jwks Status Apply.
From S2P Require Import Observability Sim Reconciler ReconcilerMetrics ReconcilerCalls.
From S2P Require Import Learning ReconcilerStatus.

(** Secrets can be read (present or not); an object whose owner is set can be
    converted and applied, and is found after its apply; the status can be updated. *)
Class Healthy (W : Type) `{!Env W} := {
  secret_readable ns n w : exists g w', get_Secret ns n w = (g, w') /\ forall e, g <> GetError e;
  owner_settable cr o : exists o1, SetControllerReference cr o = inr o1;
  convertible o : exists u, ToUnstructured o = inr u;
  appliable o u w : ToUnstructured o = inr u ->
    exists w1, client_Apply u apply.FieldManager true w = (None, w1)
      /\ forall r, exists o' w2, get_Object r o w1 = (Found o', w2);
  status_updatable cr w : exists w', status_Update cr w = (None, w');
}.

Module live.
Import reconciler.

Section components.
Context {W : Type} `{E : Env W} `{HW : !Healthy W} `{TL : TemplateLib}.

(** Succeeds from every state. *)
Definition always_ok {S A} (m : ST S (outcome A)) : Prop := forall s, is_ok (fst (m s)) = true.

Lemma always_ok_bind {S A B} (m : ST S (outcome A)) (k : A -> ST S (outcome B)) :
  always_ok m -> (forall a s s1, m s = (Ok a, s1) -> is_ok (fst (k a s1)) = true) -> always_ok (so_bind m k).
Proof.
  intros Hm Hk s. unfold so_bind. specialize (Hm s). destruct (m s) as [[a|e|] s1] eqn:Em; [|done|done].
  by eapply Hk.
Qed.

Lemma always_ok_ret {S A} (a : A) : always_ok (S := S) (st_ret (Ok a)).
Proof. done. Qed.

Lemma always_ok_st_bind {S A B} (m : ST S A) (k : A -> ST S (outcome B)) :
  (forall a, always_ok (k a)) -> always_ok (st_bind m k).
Proof. intros Hk s. unfold st_bind. destruct (m s) as [a s1]. apply Hk. Qed.

Lemma always_ok_on_error {A} reason f args (m : ST (BState W) (outcome A)) :
  always_ok m -> always_ok (on_error reason f args m).
Proof. intros Hm s. unfold on_error. specialize (Hm s). by destruct (m s) as [[a|e|] s1]. Qed.

Lemma always_ok_lift {A} (m : ST W (outcome A)) :
  always_ok m -> always_ok (lift_state (lift_world m) : ST (BState W) (outcome A)).
Proof.
  intros Hm [s l]. unfold lift_state, lift_world. cbn. specialize (Hm (rs_world s)).
  by destruct (m (rs_world s)).
Qed.

Lemma resolveSecretEntries_ok ns refs : always_ok (rollout.resolveSecretEntries (W := W) ns refs).
Proof.
  induction refs as [|ref refs IH]; [done|]. intros w. cbn. unfold st_bind.
  destruct (secret_readable ns (SecretName ref) w) as (g & w' & -> & Hg).
  destruct g as [x| |e]; [| |by destruct (Hg e)]; apply always_ok_bind; done.
Qed.

Lemma Objects_ok refresh cr objs : always_ok (apply.Objects (W := W) refresh cr objs).
Proof.
  unfold apply.Objects. induction objs as [|o objs IH]; [done|]. cbn [apply.apply_all].
  apply always_ok_bind; [|intros ? ? ? _; apply always_ok_bind; done]. intros w. unfold apply.apply_one.
  destruct (owner_settable cr o) as [o1 ->]. destruct (convertible o1) as [u Hu]. rewrite Hu.
  unfold st_bind. destruct (appliable o1 u w Hu) as (w1 & -> & Hg).
  destruct (Hg (default CachedClient refresh)) as (o' & w2 & ->). done.
Qed.

Context {C : Type} `{IC : IsComponent C} `{CC : !ComponentContract C} (r : Settings).

Lemma reconcile_component_ok cr entries c :
  is_ok (cRender c cr) = true -> always_ok (S := BState W) (reconcile_component r cr entries c).
Proof.
  intros Hr. unfold reconcile_component.
  apply always_ok_bind; [apply always_ok_on_error; by intros s|]. intros objs s s1 _. revert s1.
  destruct (rollout.stampConfigHash _ _ _) as [hash objs1]. apply always_ok_st_bind. intros [evs objs2].
  apply always_ok_bind; [apply always_ok_on_error, always_ok_lift, Objects_ok|]. intros objs3 ? s2 _. revert s2.
  do 2 (apply always_ok_st_bind; intros ?).
  apply always_ok_bind.
  - apply always_ok_on_error. intros s2. cbn. by destruct (conditions_law c cr objs3) as (l & -> & _).
  - intros conds ? s2 _. revert s2. apply always_ok_st_bind. intros ?. apply always_ok_ret.
Qed.

Lemma reconcile_components_ok cr entries comps :
  Forall (fun c => is_ok (cRender c cr) = true) comps ->
  always_ok (S := BState W) (reconcile_components r cr entries comps).
Proof.
  induction 1 as [|c comps Hc _ IH]; [done|]. cbn [reconcile_components].
  apply always_ok_bind; [by apply reconcile_component_ok|]. intros h ? s1 _. revert s1.
  apply always_ok_bind; [exact IH|]. done.
Qed.

Lemma read_secrets_ok cr entries comps :
  Forall (accounting.listed cr) comps -> always_ok (S := BState W) (read_secrets r cr entries comps).
Proof.
  intros Hl. revert entries. induction Hl as [|c comps [refs Hc] _ IH]; intros entries; [done|].
  cbn [read_secrets]. rewrite Hc. apply always_ok_bind; [done|]. intros refs' ? s1 [= <- _]. revert s1.
  apply always_ok_bind; [apply always_ok_on_error, always_ok_lift, resolveSecretEntries_ok|].
  intros es ? s1 _. revert s1. apply always_ok_st_bind. intros ?. apply IH.
Qed.

End components.

(** A JWKS URL can be resolved whenever authentication needs one. *)
Definition jwks_resolvable {W} `{E : Env W} `{UL : UrlLib} (r : Settings) (cr : HyperFleetConfig) : Prop :=
  forall s, exists url s', jwks.resolveJWKSURL (HTTPClient r) cr s = (Ok url, s')
  /\ (api.AuthEnabled cr = true -> JWKCertSecretRef (auth_of cr) = None -> url <> "").

(** Settings and a resource the operator accepts. *)
Definition valid_settings (r : Settings) (cr : HyperFleetConfig) (b : sentinel.BrokerInfo) : Prop :=
  spec_Bundle (cr_Spec cr) = BundleCloudCAPI /\ BrokerInfo r = Some b
  /\ sentinel.valid_broker b = true /\ SentinelImage r <> "".

Section reconcile.
Context {W : Type} `{E : Env W} `{HW : !Healthy W} `{TL : TemplateLib} `{UL : UrlLib}
  `{CL : ConditionsLib} `{Y : YamlLib}.
Context (r : Settings) (cr : HyperFleetConfig) (b : sentinel.BrokerInfo).
Context (Hyaml : forall j, exists y, yaml_Marshal j = inr y).
Context (Hset : valid_settings r cr b) (Hjwks : jwks_resolvable (W := W) r cr).

Lemma reconcile_body_ok : always_ok (S := BState W) (reconcile_body r cr).
Proof.
  destruct Hset as (Hbundle & Hbroker & Hvalid & Himage). unfold reconcile_body. rewrite Hbundle.
  assert (Hr : bundle.Resolve BundleCloudCAPI (bundle_config r) = Ok (bundle.cloud_components (bundle_config r))).
  { apply bundle.Resolve_ok. cbn. rewrite Hbroker. eauto. }
  rewrite Hr. apply always_ok_bind; [done|]. intros comps ? s1 [= <- _]. revert s1. cbv zeta.
  destruct (accounting.resolved_ready _ _ _ cr Hr "" (api.APIBaseURL cr (OperatorNamespace r))) as [Hl _].
  apply always_ok_bind; [by apply read_secrets_ok|]. intros entries ? s1 _. revert s1.
  apply always_ok_st_bind. intros []. apply always_ok_bind.
  { apply always_ok_on_error. intros [t0 l]. unfold lift_state. cbn.
    destruct (Hjwks t0) as (url & s' & -> & _). done. }
  intros url t s1 Hu. revert s1 Hu.
  assert (Hurl : forall s1, on_error "discovery" "resolve JWKS URL: %w" []
      (lift_state (jwks.resolveJWKSURL (HTTPClient r) cr)) t = (Ok url, s1) ->
    api.AuthEnabled cr = true -> JWKCertSecretRef (auth_of cr) = None -> url <> "").
  { intros s1. unfold on_error, lift_state. destruct (Hjwks t.1) as (u & s' & -> & Hu). by intros [= <- _]. }
  intros s1 Hu. specialize (Hurl s1 Hu). clear Hu. revert s1.
  apply always_ok_bind.
  - apply reconcile_components_ok. rewrite (bundle.setters_commute BundleCloudCAPI (bundle_config r)) by done.
    by apply (bundle.resolved_render (bundle_config r) b).
  - intros hs ? s1 _. revert s1. by do 2 (apply always_ok_st_bind; intros ?).
Qed.

Lemma reconcile_found_ok : always_ok (S := RState W) (reconcile_found r cr).
Proof.
  intros s. unfold reconcile_found. pose proof (reconcile_body_ok (s, nothing_learned)) as Hok.
  destruct (reconcile_body r cr (s, nothing_learned)) as [[u|e|] [s1 l]]; [|done|done].
  unfold update_status, st_bind.
  destruct (status.aggregateStatus now cr _ _ _ _ s1) as [[cr' ch] s2]. destruct ch; [|done].
  unfold lift_world. by destruct (status_updatable cr' (rs_world s2)) as [w' ->].
Qed.

End reconcile.

Lemma reconcile_ok {W} `{E : Env W} `{HW : !Healthy W} `{TL : TemplateLib} `{UL : UrlLib}
    `{CL : ConditionsLib} `{Y : YamlLib} (r : Settings) cr b name (s : RState W)
    (Hyaml : forall j, exists y, yaml_Marshal j = inr y)
    (Hset : valid_settings r cr b) (Hjwks : jwks_resolvable (W := W) r cr)
    (Hget : fst (get_HyperFleetConfig name (snd (env_Now (rs_world s)))) = Found cr) :
  fst (Reconcile r name s) = Ok tt.
Proof.
  unfold Reconcile, st_bind, now, lift_world. destruct (env_Now (rs_world s)) as [start w1].
  cbn [rs_world set_world fst snd] in *. destruct (get_HyperFleetConfig name w1) as [g w2].
  cbn [fst] in Hget. subst g.
  pose proof (reconcile_found_ok r cr b Hyaml Hset Hjwks (set_world w2 (set_world w1 s))) as Hok.
  destruct (reconcile_found r cr (set_world w2 (set_world w1 s))) as [[[]|e|] s1]; [|done|done].
  by destruct (env_Now (rs_world s1)) as [stop w3].
Qed.

(** C5: on a healthy cluster a valid configuration reconciles: if Secrets can be
    read, objects applied and read back, and the status updated; the bundle
    is the cloud one, the broker settings and image valid, and a JWKS URL
    resolvable when needed; then [Reconcile] returns no error from any state:
    whatever Secrets are missing, and whatever was applied before. *)
Theorem reconcile_succeeds {W} `{E : Env W} `{HW : !Healthy W} `{TL : TemplateLib} `{UL : UrlLib}
    `{CL : ConditionsLib} `{Y : YamlLib} (r : Settings) cr b name (s : RState W)
    (Hyaml : forall j, exists y, yaml_Marshal j = inr y)
    (Hset : valid_settings r cr b) (Hjwks : jwks_resolvable (W := W) r cr)
    (Hget : fst (get_HyperFleetConfig name (snd (env_Now (rs_world s)))) = Found cr) :
  fst (Reconcile r name s) = Ok tt.
Proof. by apply (reconcile_ok r cr b). Qed.

(** ** The simulated cluster is healthy *)

#[global] Instance sim_Healthy : Healthy Sim.
Proof.
  constructor.
  - intros ns n w. eexists _, _. split; [reflexivity|]. intros e. by destruct (sim_secrets w !! n).
  - intros cr o. by eexists.
  - intros o. by eexists.
  - intros o u w [= <-]. eexists. split; [reflexivity|]. intros rd. cbn. unfold sim_get.
    destruct o as [d|?|?|?|?|?|?]; try (by eexists _, _). cbn.
    rewrite lookup_insert_eq.
    change (dep_Name (rolled_out d)) with (dep_Name d). change (dep_Meta (rolled_out d)) with (dep_Meta d).
    rewrite !String.eqb_refl. by eexists _, _.
  - intros cr w. by eexists.
Qed.

(** A configuration with authentication off, in the simulated cluster. *)
Definition demo_live_cr : HyperFleetConfig := api.demo_cr (mkAuthSpec (Some false) "" "" None) None.

Lemma demo_yaml_total : forall j, exists y, @yaml_Marshal api.toy_yaml j = inr y.
Proof. intros j. by eexists. Qed.

Lemma demo_jwks : jwks_resolvable (W := Sim) demo_settings demo_live_cr.
Proof. intros s. by exists "", s. Qed.

Lemma demo_valid :
  valid_settings demo_settings demo_live_cr (sentinel.mkBrokerInfo sentinel.BrokerTypeRabbitMQ "").
Proof. by split_and!. Qed.

Definition demo_live_state : RState Sim :=
  mkRState (mkSim 100 (Some demo_live_cr) {["db-creds" := mkSecret "db-creds" "41"]} ∅ [] ∅)
    None None metrics.zeroMetrics.

Lemma reconcile_succeeds_witness :
  fst (Reconcile (Y := api.toy_yaml) demo_settings SingletonName demo_live_state) = Ok tt.
Proof.
  apply (reconcile_succeeds (Y := api.toy_yaml) demo_settings demo_live_cr
    (sentinel.mkBrokerInfo sentinel.BrokerTypeRabbitMQ "") SingletonName demo_live_state
    demo_yaml_total demo_valid demo_jwks).
  reflexivity.
Defined.

Lemma reconcile_publishes_witness :
  exists s' cr', reconcile_found (Y := api.toy_yaml) demo_settings demo_live_cr demo_live_state = (Ok tt, s')
    /\ status_ObservedGeneration (cr_Status cr') = 1%Z
    /\ length (status_Components (cr_Status cr')) = 6%nat
    /\ exists d, status.find_cond ConditionDegraded (status_Conditions (cr_Status cr')) = Some d
         /\ c_Status d = ConditionTrue.
Proof.
  pose proof (reconcile_found_ok (Y := api.toy_yaml) demo_settings demo_live_cr
    (sentinel.mkBrokerInfo sentinel.BrokerTypeRabbitMQ "") demo_yaml_total demo_valid demo_jwks demo_live_state) as Hok.
  destruct (reconcile_found (Y := api.toy_yaml) demo_settings demo_live_cr demo_live_state)
    as [[[]|e|] s'] eqn:Er; [|discriminate Hok..].
  destruct (publishing.reconcile_publishes (Y := api.toy_yaml) demo_settings demo_live_cr demo_live_state s' Er)
    as (_ & url & sd & conds & sb & cr' & ch & s2 & _ & Hcoll & _ & _ & _ & Hg & Hc & _ & (d & Hd & Hdeg) & _).
  exists s', cr'. split; [reflexivity|]. split; [exact Hg|]. apply learning.collects_names in Hcoll. split.
  - apply (f_equal length) in Hc, Hcoll. rewrite length_fmap in Hc, Hcoll.
    rewrite Hc, length_fmap, (Permutation_length (SortBy_perm cc_Name conds)), Hcoll. reflexivity.
  - exists d. split; [exact Hd|]. exact (proj1 Hdeg).
Defined.

End live.
