(* ===== verification/AdmittedStatus.v ===== *)
(** * Every status the operator writes is admitted

    The schema of the status bounds the messages and asks for generations, names, reasons, types and
    statuses of a certain form; a status that breaks it is refused, and the resource would keep
    an old one for ever.  Here the conditions of both components, the degraded condition and
    the aggregation are followed up to the schema of [Admission]: whatever happens in a reconcile,
    the status it writes is one the API server accepts. *)

From S2P Require Import Prelude Kube ConfigTypes Json Url JsonDecode Contract Api Sentinel Bundle NetAddr.
From S2P Require Import DiscoveryGuard Sha256 Env ConfigHash Metrics State Jwks Status Apply.
From S2P Require Import Observability Sim Reconciler ReconcilerMetrics ReconcilerCalls.
From S2P Require Import ReconcilerStatus ReconcilerLive Regexp Admission.

Definition int32 (z : Z) : Prop := (-2147483648 <= z < 2147483648)%Z.

(** The replica counts that conditions print. *)
Definition counters_ok (o : Object) : Prop :=
  match o with
  | ODeployment d => int32 (default 1%Z (Replicas (dep_Spec d))) /\ int32 (st_AvailableReplicas (dep_Status d))
  | _ => True
  end.

(** They are [int32] fields of what the API server returns. *)
Class Int32World (W : Type) `{!Env W} := {
  get_Object_int32 r o w o' w' : get_Object r o w = (Found o', w') -> counters_ok o';
}.

(** The clock never reads the zero time, which is in the year 1. *)
Class ClockWorld (W : Type) `{!Env W} := { env_Now_set w : fst (env_Now w) <> 0%Z }.

Module admitted_status.
Import reconciler calls publishing regexp admission.

(** ** Messages *)

Definition short (c : Condition) : Prop := (String.length (c_Message c) <= 1000)%nat.

Lemma dec_N_pos p : (Z.pos p < Z.pos 2147483649)%Z -> (String.length (dec_N (N.pos p)) <= 33)%nat.
Proof.
  intros Hlt%Z.ltb_lt. rewrite <-Pos2Z.inj_ltb in Hlt. apply Pos.ltb_lt in Hlt.
  etrans; [apply dec_N_length|]. apply le_n_S. exact (Pos.size_nat_monotone _ _ Hlt).
Qed.

Lemma dec_Z_int32 z : int32 z -> (String.length (dec_Z z) <= 40)%nat.
Proof.
  intros [Hlo Hhi]. destruct z as [|p|p]; cbn [dec_Z].
  - cbn. lia.
  - etrans; [|apply (Nat.le_add_r 33 7)]. apply dec_N_pos. by eapply Z.lt_trans.
  - apply Z.opp_le_mono in Hlo. etrans; [|apply (Nat.le_add_r 34 6)].
    apply (le_n_S _ 33), dec_N_pos. by eapply Z.le_lt_trans.
Qed.

Ltac short_message :=
  unfold short, newCondition, sentinel.the_Deployment; cbn [c_Message]; rewrite ?string_app_length; cbn [String.length].

Lemma short_pair a b : short a -> short b -> Forall short [a; b].
Proof. intros. apply Forall_cons; split; [done|]. by apply Forall_singleton. Qed.

Section components.
Context {C : Type} `{IC : IsComponent C}.

(** What the schema needs of a component. *)
Record fits (c : C) : Prop := {
  fits_messages cr objs l : Forall counters_ok objs -> cConditions c cr objs = Ok l -> Forall short l;
  fits_roles cr refs : cReferencedSecrets c cr = Ok refs ->
    (length refs <= 3)%nat /\ Forall (fun ref => (String.length (sr_Role ref) <= 16)%nat) refs;
  fits_name : within 1 253 (cName c) = true;
}.

End components.

Lemma api_find_counters objs d : Forall counters_ok objs -> api.findDeployment objs = Some d -> counters_ok (ODeployment d).
Proof.
  induction 1 as [|o objs Ho _ IH]; [done|]. destruct o; cbn; try done.
  destruct (String.eqb _ _); [by intros [= <-]|done].
Qed.

Lemma sentinel_find_counters objs n d : Forall counters_ok objs -> sentinel.findDeployment objs n = Some d ->
  counters_ok (ODeployment d).
Proof.
  induction 1 as [|o objs Ho _ IH]; [done|]. destruct o; cbn; try done.
  destruct (String.eqb _ _); [by intros [= <-]|done].
Qed.

Lemma api_fits `{YamlLib} (c : api.Component) : fits c.
Proof.
  constructor.
  - intros cr objs l Ho [= <-]. pose proof (fun d => api_find_counters objs d Ho) as Hd.
    unfold api.availableCondition, api.progressingCondition.
    destruct (api.findDeployment objs) as [d|]; [|apply short_pair; short_message; lia].
    destruct (Hd d eq_refl) as [H1%dec_Z_int32 H2%dec_Z_int32]. fold (api.desiredReplicas d) in H1.
    apply short_pair; repeat case_match; short_message; lia.
  - intros cr refs [= <-]. unfold api.ReferencedSecrets.
    split; repeat case_match; cbn [app length]; rewrite ?Forall_cons; split_and?; try apply Forall_nil_2; cbn; lia.
  - done.
Qed.

Lemma sentinel_fits `{YamlLib} (c : sentinel.Component) :
  (String.length (sentinel.ResourceType c) <= 100)%nat ->
  within 1 253 (sentinel.Name c) = true -> fits c.
Proof.
  intros Hrt Hname. constructor; [| |exact Hname].
  - intros cr objs l Ho [= <-]. set (n := sentinel.ResourceName _).
    pose proof (fun d => sentinel_find_counters objs n d Ho) as Hd.
    unfold sentinel.availableCondition, sentinel.progressingCondition.
    destruct (sentinel.findDeployment objs n) as [d|]; [|apply short_pair; short_message; lia].
    destruct (Hd d eq_refl) as [H1%dec_Z_int32 H2%dec_Z_int32]. fold (sentinel.desiredReplicas d) in H1.
    apply short_pair; repeat case_match; short_message; lia.
  - intros cr refs. cbn. unfold sentinel.ReferencedSecrets.
    destruct (sentinel.BrokerInfo_ c); [|done]. repeat case_match; intros [= <-];
      split; cbn [app length]; rewrite ?Forall_cons; split_and?; try apply Forall_nil_2; cbn; lia.
Qed.

(** Every component of a resolved bundle fits. *)
Lemma resolved_fits `{YamlLib} b cfg l u : bundle.Resolve b cfg = Ok l ->
  (length (bundle.SetAPIBaseURL l u) = 6)%nat /\ Forall fits (bundle.SetAPIBaseURL l u)
  /\ forall v, Forall fits (bundle.SetResolvedJWKSURL (bundle.SetAPIBaseURL l u) v).
Proof.
  intros (_ & _ & ->)%bundle.Resolve_ok.
  assert (Hs : forall s, fits s -> fits (bundle.Sentinel s)) by (intros s [H1 H2 H3]; by constructor).
  assert (Ha : forall a, fits (bundle.API a)) by (intros a; destruct (api_fits a) as [H1 H2 H3]; by constructor).
  split; [done|]. cbn. split; [|intros v]; repeat apply Forall_cons_2; try apply Forall_nil_2; first [apply Ha|
    apply Hs, sentinel_fits; [cbn; lia|vm_compute; reflexivity]].
Qed.

(** ** What a reconcile learns *)

(** What the body may have collected when it stops, wherever it does. *)
Definition reported (e : ComponentConditions) : Prop :=
  examined e /\ Forall short (cc_Conditions e) /\ within 1 253 (cc_Name e) = true.

Section loops.
Context {W : Type} `{E : Env W} `{HI : !Int32World W} `{TL : TemplateLib} {C : Type} `{IC : IsComponent C}
  `{CC : !ComponentContract C}.
Context (r : Settings).

Lemma apply_counters reader cr objs w objs' w' :
  apply.apply_all reader cr objs w = (Ok objs', w') -> Forall counters_ok objs'.
Proof.
  revert w objs' w'. induction objs as [|o objs IH]; intros w objs' w'; cbn; [intros [= <- _]; constructor|].
  intros (o' & w1 & H1 & (l & w2 & H2 & [= <- <-])%so_bind_ok)%so_bind_ok.
  constructor; [|by eapply IH]. revert H1. unfold apply.apply_one, st_bind, st_ret.
  destruct (SetControllerReference cr o) as [|o1]; [done|]. destruct (ToUnstructured o1); [done|].
  destruct (client_Apply _ _ _ w) as [[|] wa]; [done|]. destruct (get_Object reader o1 wa) as [[| |] wb] eqn:Eg; [|done|done].
  intros [= <- _]. by eapply get_Object_int32.
Qed.

Lemma component_reports cr entries c s : fits c ->
  let '(res, s1) := reconcile_component r cr entries c s in
  missingSecrets s1.2 = missingSecrets s.2
  /\ exists l, componentConditions s1.2 = componentConditions s.2 ++ l /\ Forall reported l.
Proof.
  intros [Hmsg _ Hname]. unfold reconcile_component.
  assert (Hstop : forall (l l' : Learned), l' = l -> missingSecrets l' = missingSecrets l
    /\ exists k, componentConditions l' = componentConditions l ++ k /\ Forall reported k).
  { intros l l' ->. split; [done|]. exists []. by rewrite app_nil_r. }
  unfold so_bind at 1, on_error at 1. cbn [st_ret].
  destruct (cRender c cr) as [objs|e|]; [|by apply Hstop|by apply Hstop].
  cbn [st_ret]. destruct (rollout.stampConfigHash objs _ _) as [hash objs1].
  unfold st_bind at 1.
  match goal with |- context [lift_state ?m s] =>
    pose proof (lift_learns_nothing m s) as H1; destruct (lift_state m s) as [[evs objs2] s1] end.
  cbn in H1. unfold so_bind at 1, on_error at 1, lift_state at 1, lift_world at 1.
  destruct (apply.Objects (Some (refreshReader r)) cr objs2 (rs_world s1.1)) as [[objs3|e|] w2] eqn:Ea;
    [|by apply Hstop|by apply Hstop].
  assert (Hc : Forall counters_ok objs3) by (by eapply apply_counters).
  unfold st_bind at 1.
  match goal with |- context [lift_state (observability.commitRollouts evs) ?s2] =>
    pose proof (lift_learns_nothing (observability.commitRollouts evs) s2) as H3;
    destruct (lift_state (observability.commitRollouts evs) s2) as [[] s3] end. cbn in H3.
  unfold st_bind at 1.
  pose proof (lift_learns_nothing (observability.recordReadiness (cName c) objs3) s3) as H4.
  destruct (lift_state (observability.recordReadiness (cName c) objs3) s3) as [[] s4]. cbn in H4.
  destruct (conditions_law c cr objs3) as (conds & Hcond & Hty & Hwf).
  unfold so_bind, on_error, st_ret. rewrite Hcond. unfold st_bind, learn. cbn. rewrite H4, H3, H1.
  split; [done|]. eexists. split; [reflexivity|]. apply Forall_singleton. split; [done|].
  split; [by apply (Hmsg cr objs3)|exact Hname].
Qed.

Lemma components_report cr entries comps s : Forall fits comps ->
  let '(res, s1) := reconcile_components r cr entries comps s in
  missingSecrets s1.2 = missingSecrets s.2
  /\ exists l, componentConditions s1.2 = componentConditions s.2 ++ l /\ Forall reported l.
Proof.
  intros Hf. revert s. induction Hf as [|c comps Hc _ IH]; intros s; cbn [reconcile_components].
  { split; [done|]. exists []. by rewrite app_nil_r. }
  unfold so_bind at 1. pose proof (component_reports cr entries c s Hc) as H1.
  destruct (reconcile_component r cr entries c s) as [[h|e|] s1]; destruct H1 as (Hm & l & Hl & Hr);
    [|split; [done|by exists l]..].
  unfold so_bind. specialize (IH s1).
  destruct (reconcile_components r cr entries comps s1) as [[hs|e|] s2]; cbn;
    destruct IH as (Hm2 & l2 & Hl2 & Hr2); (split; [congruence|]); exists (l ++ l2);
    rewrite Hl2, Hl, <-app_assoc; (split; [done|]); by apply Forall_app.
Qed.

(** The ids that are collected are roles of references. *)
Definition role_list (n : nat) (ids : list string) : Prop :=
  (length ids <= n)%nat /\ Forall (fun id => (String.length id <= 16)%nat) ids.

Lemma role_list_app n m l1 l2 : role_list n l1 -> role_list m l2 -> role_list (n + m) (l1 ++ l2).
Proof. intros [H1 H2] [H3 H4]. split; [rewrite length_app; lia|by apply Forall_app]. Qed.

Lemma missing_roles ns refs w es w' : rollout.resolveSecretEntries ns refs w = (Ok es, w') ->
  (length refs <= 3)%nat -> Forall (fun ref => (String.length (sr_Role ref) <= 16)%nat) refs ->
  role_list 3 (missing_of es).
Proof.
  intros He Hlen Hf. enough (H : role_list (length refs) (missing_of es)) by (destruct H; split; [lia|done]).
  clear Hlen. revert w es w' He. induction Hf as [|ref refs Hr _ IH]; intros w es w'; cbn.
  { intros [= <- _]. split; [cbn; lia|constructor]. }
  unfold st_bind. destruct (get_Secret ns (SecretName ref) w) as [[x| |e] w1]; [| |done];
    intros (es' & w2 & H1 & [= <- _])%so_bind_ok; destruct (IH _ _ _ H1) as [IH1 IH2];
    unfold missing_of in *; (split; [cbn in *; lia|]); [exact IH2|by apply Forall_cons_2].
Qed.

Lemma read_secrets_roles cr entries comps s : Forall fits comps ->
  let '(res, s1) := read_secrets r cr entries comps s in
  componentConditions s1.2 = componentConditions s.2
  /\ exists ids, missingSecrets s1.2 = missingSecrets s.2 ++ ids /\ role_list (3 * length comps) ids.
Proof.
  intros Hf. revert entries s. induction Hf as [|c comps Hc _ IH]; intros entries s; cbn [read_secrets].
  { split; [done|]. exists []. rewrite app_nil_r. split; [done|]. split; [cbn; lia|constructor]. }
  assert (Hstop : forall n (l l' : Learned), l' = l -> componentConditions l' = componentConditions l
    /\ exists ids, missingSecrets l' = missingSecrets l ++ ids /\ role_list n ids).
  { intros n l l' ->. split; [done|]. exists []. rewrite app_nil_r. split; [done|]. split; [cbn; lia|constructor]. }
  unfold so_bind at 1. cbn [st_ret]. destruct (cReferencedSecrets c cr) as [refs|e|] eqn:Er; [|by apply Hstop|by apply Hstop].
  destruct (fits_roles _ Hc cr refs Er) as [Hlen Hroles].
  unfold so_bind at 1, on_error at 1, lift_state at 1, lift_world at 1. cbn [st_ret].
  destruct (rollout.resolveSecretEntries (OperatorNamespace r) refs (rs_world s.1)) as [[es|e|] w] eqn:Ee;
    [|by apply Hstop|by apply Hstop].
  pose proof (missing_roles _ _ _ _ _ Ee Hlen Hroles) as Hm.
  unfold st_bind, learn. cbn [fst snd].
  match goal with |- context [read_secrets r cr ?m comps ?s3] => specialize (IH m s3);
    destruct (read_secrets r cr m comps s3) as [res s4] end.
  destruct IH as (-> & ids & -> & Hids). split; [done|]. exists (missing_of es ++ ids). cbn [missingSecrets snd].
  rewrite <-app_assoc. split; [done|]. cbn [length]. replace (3 * S (length comps))%nat with (3 + 3 * length comps)%nat by lia.
  by apply role_list_app.
Qed.

End loops.

(** ** Conditions and the schema *)

Lemma published_reasons_valid : forallb (fun x => within 1 1024 x && MatchString reason_pattern x) published_reasons = true.
Proof. vm_compute. reflexivity. Qed.

Definition operator_types : list string := [ConditionAvailable; ConditionProgressing; ConditionDegraded].
Lemma operator_types_valid : forallb (fun x => within 0 316 x && MatchString type_pattern x) operator_types = true.
Proof. vm_compute. reflexivity. Qed.

Lemma forallb_Forall {A} (f : A -> bool) l : forallb f l = true <-> Forall (fun x => f x = true) l.
Proof. induction l as [|x l IH]; cbn; [by split|]. by rewrite andb_true_iff, IH, Forall_cons. Qed.

Lemma forallb_elem {A} (f : A -> bool) l x : forallb f l = true -> x ∈ l -> f x = true.
Proof. rewrite forallb_Forall, Forall_forall. auto. Qed.

(** What the operator writes: its types, a boolean status, a published reason, a short message. *)
Definition operator_condition (c : Condition) : Prop := c_Type c ∈ operator_types /\ wf_condition c /\ short c.

Lemma operator_condition_valid g c : operator_condition c -> (0 <= g)%Z ->
  fields_valid (set_ObservedGeneration g c) = true.
Proof.
  intros (Ht & [Hs Hr] & Hm) Hg. unfold fields_valid. cbn [set_ObservedGeneration c_Message c_ObservedGeneration c_Reason c_Status c_Type].
  rewrite (forallb_elem _ _ _ published_reasons_valid Hr), (forallb_elem _ _ _ operator_types_valid Ht).
  rewrite (proj2 (Z.leb_le _ _) Hg).
  assert (Hl : (RuneCount (c_Message c) <=? 32768)%N = true)
    by (apply N.leb_le; pose proof (RuneCount_length (c_Message c)); unfold short in Hm; lia).
  rewrite Hl. unfold one_of. by destruct Hs as [->| ->].
Qed.

Lemma reported_conditions e c : reported e -> c ∈ cc_Conditions e -> operator_condition c.
Proof.
  intros ([Hty Hwf] & Hs & _) Hc. rewrite Forall_forall in Hwf, Hs. split; [|by split; auto].
  apply (list_elem_of_fmap_2 c_Type) in Hc. rewrite Hty in Hc. unfold operator_types. set_solver.
Qed.

Lemma role_join ids n : role_list n ids -> (String.length (JoinStrings ids ", ") <= 18 * n)%nat.
Proof.
  intros [Hlen Hf]. etrans; [|apply (Nat.mul_le_mono_l _ _ 18 Hlen)]. clear Hlen. unfold JoinStrings.
  induction Hf as [|id ids Hid Hf IH]; [cbn; lia|]. destruct ids as [|id2 ids]; [cbn; lia|].
  change (String.concat ", " (id :: id2 :: ids)) with (id +:+ ", " +:+ String.concat ", " (id2 :: ids)).
  rewrite !string_app_length. cbn [length String.length] in *. lia.
Qed.

Lemma degraded_operator miss err : role_list 18 miss -> operator_condition (status.degradedCondition miss err).
Proof.
  intros Hr%role_join. unfold status.degradedCondition.
  destruct miss as [|id miss]; [destruct err|]; (split; [unfold operator_types; set_solver|]; split; [wf_cond|]); short_message; lia.
Qed.

Lemma rollup_operator t l reason msg st : t ∈ operator_types ->
  operator_condition (newCondition t st reason msg) -> Forall operator_condition l ->
  operator_condition (status.rollupCondition t l reason msg st).
Proof.
  intros Ht Hdef Hl. induction Hl as [|c l [Hty Hc] _ IH]; [done|]. cbn. case_match; [|done].
  split; [exact Ht|exact Hc].
Qed.

Lemma fresh_operator cr reps col miss err : (0 <= cr_Generation cr)%Z -> Forall reported reps -> role_list 18 miss ->
  Forall (fun c => fields_valid c = true) (status.fresh_conditions cr reps col miss err).
Proof.
  intros Hg Hreps Hmiss. unfold status.fresh_conditions. rewrite Forall_fmap.
  assert (Hflat : Forall operator_condition (status.flattenConditions reps)).
  { apply Forall_forall. intros c (e & He & Hc)%status.flattenConditions_elem.
    eapply reported_conditions; [exact (proj1 (Forall_forall _ _) Hreps e He)|done]. }
  assert (Hall : Forall operator_condition (status.degradedCondition miss err :: if col then
      [status.rollupCondition ConditionAvailable (status.flattenConditions reps) ReasonDeploymentAvailable
         "all components are available" ConditionTrue;
       status.rollupCondition ConditionProgressing (status.flattenConditions reps) ReasonRolloutComplete
         "all components have completed rollout" ConditionFalse] else [])).
  { apply Forall_cons_2; [by apply degraded_operator|]. destruct col; [|constructor].
    repeat apply Forall_cons_2; [..|apply Forall_nil_2]; apply rollup_operator;
      (done || (unfold operator_types; set_solver) ||
       (split; [unfold operator_types; set_solver|]; split; [wf_cond|]; short_message; lia)). }
  eapply Forall_impl; [exact Hall|]. intros c Hc. by apply operator_condition_valid.
Qed.

(** ** The aggregated status *)

Lemma Conditions_valid_spec l :
  Conditions_valid l = true <-> NoDup (c_Type <$> l) /\ Forall (fun c => Condition_valid c = true) l.
Proof.
  unfold Conditions_valid, listType_map. by rewrite andb_true_iff, bool_decide_eq_true, forallb_Forall.
Qed.

Lemma reports_valid e c : status.reports e c -> c_Type e = c_Type c -> fields_valid c = true -> fields_valid e = true.
Proof. intros (H1 & H2 & H3 & H4) H5. unfold fields_valid. by rewrite H1, H2, H3, H4, H5. Qed.

Section aggregate.
Context {W : Type} `{CL : ConditionsLib} `{CLaws : !ConditionsLaws} (now : ST W Z).
Context (Hnow : forall w, fst (now w) <> 0%Z).

(** Setting a condition leaves no transition time unset. *)
Definition times_set (l : list Condition) : Prop := Forall (fun c => lastTransitionTime_valid c = true) l.

Lemma time_or_set t u : t <> 0%Z -> negb (time_or t u =? 0)%Z = true.
Proof. unfold time_or. destruct (Z.eqb_spec u 0); intros Ht; apply negb_true_iff, Z.eqb_neq; done. Qed.

Lemma set_one_times t l c : t <> 0%Z -> times_set l -> times_set (fst (SetStatusCondition t l c)).
Proof.
  unfold times_set. intros Ht Hl. destruct (decide (c_Type c ∈ c_Type <$> l)) as [Hin|Hin].
  - destruct (status.find_cond (c_Type c) l) as [e|] eqn:E; [|by apply status.find_cond_none in E].
    apply status.find_cond_some in E as (l1 & l2 & -> & Et & Hn).
    rewrite (proj1 (set_present t l1 e l2 c Et Hn)). rewrite Forall_app, Forall_cons in *.
    destruct Hl as (H1 & He & H2). split_and!; [done| |done]. unfold lastTransitionTime_valid. cbn.
    case_match; [exact He|by apply time_or_set].
  - rewrite (set_absent t l c Hin). cbn. apply Forall_app. split; [done|]. apply Forall_singleton. by apply time_or_set.
Qed.

Lemma set_conditions_times fresh l w : times_set l -> times_set (fst (fst (status.set_conditions now fresh l w))).
Proof.
  revert l w. induction fresh as [|c fresh IH]; intros l w Hl; [done|]. cbn. unfold st_bind.
  pose proof (Hnow w) as Ht. destruct (now w) as [t w1]. pose proof (set_one_times t l c Ht Hl) as H1.
  destruct (SetStatusCondition t l c) as [l1 ch1]. specialize (IH l1 w1 H1).
  by destruct (status.set_conditions now fresh l1 w1) as [[l2 ch2] w2].
Qed.

Lemma Condition_valid_spec l : Forall (fun c => Condition_valid c = true) l <->
  times_set l /\ Forall (fun c => fields_valid c = true) l.
Proof.
  unfold times_set. rewrite <-Forall_and. apply Forall_iff. intros c. unfold Condition_valid. by rewrite andb_true_iff.
Qed.

Lemma set_conditions_valid fresh l w : NoDup (c_Type <$> fresh) -> Forall (fun c => fields_valid c = true) fresh ->
  Conditions_valid l = true -> Conditions_valid (fst (fst (status.set_conditions now fresh l w))) = true.
Proof.
  intros Hnd Hf [Hndl [Htl Hl]%Condition_valid_spec]%Conditions_valid_spec.
  pose proof (set_conditions_times fresh l w Htl) as Ht. pose proof (status.set_conditions_spec now fresh l w Hnd) as H.
  destruct (status.set_conditions now fresh l w) as [[l' ch] w']. destruct H as (Ha & Ho & _ & _ & Hn). cbn in Ht |- *.
  apply Conditions_valid_spec. split; [by apply Hn|]. apply Condition_valid_spec. split; [exact Ht|].
  apply Forall_forall. intros e He.
  assert (Hfind : status.find_cond (c_Type e) l' = Some e).
  { apply list_elem_of_split in He as (l1 & l2 & ->). apply status.find_cond_some. exists l1, l2.
    split; [done|]. split; [done|]. specialize (Hn Hndl). rewrite fmap_app in Hn. cbn in Hn.
    apply NoDup_app in Hn as (_ & Hn & _). intros Hin. apply (Hn _ Hin). left. }
  rewrite Forall_forall in Hf, Hl. destruct (decide (c_Type e ∈ c_Type <$> fresh)) as [Hin|Hin].
  - apply list_elem_of_fmap in Hin as (c & Hty & Hc). destruct (Ha c Hc) as (e' & Hf' & Hr & _).
    rewrite <-Hty, Hfind in Hf'. injection Hf' as <-. eapply reports_valid; [exact Hr|exact Hty|by apply Hf].
  - rewrite (Ho _ Hin) in Hfind. apply status.find_cond_some in Hfind as (l1 & l2 & -> & _). apply Hl. set_solver.
Qed.

Lemma prev_valid cr name : Status_valid (cr_Status cr) = true -> Conditions_valid (status.prev_conditions cr name) = true.
Proof.
  unfold Status_valid, status.prev_conditions. intros [_ [_ Hc]%andb_prop]%andb_prop.
  induction (status_Components (cr_Status cr)) as [|e es IH]; [done|]. cbn in *. apply andb_prop in Hc as [He Hes].
  destruct (String.eqb _ _); [by apply andb_prop in He as [_ ?]|by apply IH].
Qed.

Lemma merge_entry_valid cr e w : Status_valid (cr_Status cr) = true -> (0 <= cr_Generation cr)%Z -> reported e ->
  ComponentConditions_valid (fst (status.merge_entry now cr e w)) = true.
Proof.
  intros Hst Hg Hr. pose proof Hr as ([Hty _] & _ & Hname).
  unfold status.merge_entry, st_bind. fold (status.prev_conditions cr (cc_Name e)).
  match goal with |- context [status.set_conditions now ?f ?l w] =>
    pose proof (set_conditions_valid f l w) as Hv; destruct (status.set_conditions now f l w) as [[conds ch] w'] end.
  unfold ComponentConditions_valid. cbn in *. rewrite Hname. apply Hv.
  - rewrite status.types_set_gen, Hty. repeat (apply NoDup_cons; split; [set_solver|]). by apply NoDup_nil.
  - apply Forall_forall. intros c (c0 & -> & Hc)%list_elem_of_fmap.
    apply operator_condition_valid; [by eapply reported_conditions|done].
  - pose proof (prev_valid cr (cc_Name e) Hst) as [Hnd Hall]%Conditions_valid_spec. apply Conditions_valid_spec.
    unfold status.seed. split.
    2:{ apply Forall_forall. intros c [_ Hc]%list_elem_of_filter. exact (proj1 (Forall_forall _ _) Hall c Hc). }
    eapply sublist_NoDup; [exact Hnd|]. apply fmap_sublist, sublist_filter.
Qed.

Lemma merge_entries_valid cr es w : Status_valid (cr_Status cr) = true -> (0 <= cr_Generation cr)%Z -> Forall reported es ->
  forallb ComponentConditions_valid (fst (status.merge_entries now cr es w)) = true
  /\ cc_Name <$> fst (status.merge_entries now cr es w) = cc_Name <$> es.
Proof.
  intros Hst Hg Hr. revert w. induction Hr as [|e es He _ IH]; intros w; [done|]. cbn. unfold st_bind.
  pose proof (merge_entry_valid cr e w Hst Hg He) as H1.
  assert (Hn : cc_Name (fst (status.merge_entry now cr e w)) = cc_Name e)
    by (unfold status.merge_entry, st_bind; by destruct (status.set_conditions now _ _ w) as [[? ?] ?]).
  destruct (status.merge_entry now cr e w) as [e' w1]. specialize (IH w1).
  destruct (status.merge_entries now cr es w1) as [es' w2]. cbn in *. destruct IH as [-> ->]. by rewrite H1, Hn.
Qed.

Lemma aggregate_valid cr reps col miss err w :
  Status_valid (cr_Status cr) = true -> (0 <= cr_Generation cr)%Z -> Forall reported reps -> role_list 18 miss ->
  (col = true -> NoDup (cc_Name <$> reps)) ->
  Status_valid (cr_Status (fst (fst (status.aggregateStatus now cr reps col miss err w)))) = true.
Proof.
  intros Hst Hg Hreps Hmiss Hnames. pose proof (status.aggregate_parts now cr reps col miss err w) as Hp.
  destruct (status.aggregateStatus now cr reps col miss err w) as [[cr' ch'] w'].
  destruct Hp as (conds & ch & w1 & Hs & Hp). cbn [fst].
  pose proof (set_conditions_valid _ (status_Conditions (cr_Status cr)) w
    (status.fresh_conditions_NoDup cr reps col miss err) (fresh_operator cr reps col miss err Hg Hreps Hmiss)) as Hv.
  rewrite Hs in Hv. cbn [fst] in Hv. pose proof Hst as Hst'. unfold Status_valid in Hst'.
  apply andb_prop in Hst' as [[Hgen Hold]%andb_prop Hcomp]. specialize (Hv Hold). destruct col.
  - destruct Hp as (es & w2 & Hm & -> & _). unfold Status_valid. cbn.
    assert (Hst1 : Status_valid (cr_Status (with_status cr (with_conditions (cr_Status cr) conds))) = true)
      by (unfold Status_valid; cbn; by rewrite Hgen, Hv, Hcomp).
    assert (Hsorted : Forall reported (SortBy cc_Name reps)) by (by rewrite (SortBy_perm cc_Name reps)).
    pose proof (merge_entries_valid _ (SortBy cc_Name reps) w1 Hst1 Hg Hsorted) as [H1 H2]. rewrite Hm in H1, H2. cbn in H1, H2.
    rewrite Hv, H1, (proj2 (Z.leb_le _ _) Hg). unfold listType_map. rewrite H2, bool_decide_eq_true_2; [done|].
    rewrite (SortBy_perm cc_Name reps). by apply Hnames.
  - destruct Hp as [-> _]. unfold Status_valid. cbn. by rewrite Hgen, Hv, Hcomp.
Qed.

End aggregate.

(** ** The reconcile *)

Lemma Compact_roles n ids : role_list n ids -> role_list n (Compact (SortStrings ids)).
Proof.
  intros [Hlen Hf]. split.
  - etrans; [|exact Hlen]. rewrite <-(Permutation_length (SortBy_perm id ids)). fold (SortStrings ids).
    clear. induction (SortStrings ids) as [|x [|y l] IH]; [done|done|]. rewrite Compact_cons_cons.
    destruct (String.eqb x y); cbn in *; lia.
  - apply Forall_forall. intros x Hx. rewrite elem_of_Compact, SortStrings_elem in Hx.
    exact (proj1 (Forall_forall _ _) Hf x Hx).
Qed.

(** An API server that refuses a status which does not fit the schema. *)
Definition validating_Env {W} (E : Env W) : Env W := {|
  Unstructured := Unstructured;
  env_Now := env_Now;
  get_HyperFleetConfig := get_HyperFleetConfig;
  get_Secret := get_Secret;
  get_Deployment := get_Deployment;
  get_Object := get_Object;
  SetControllerReference := SetControllerReference;
  ToUnstructured := ToUnstructured;
  client_Apply := client_Apply;
  status_Update cr w := if Status_valid (cr_Status cr) then status_Update cr w
                        else (Some (External "status is invalid"), w);
  http_Do := http_Do |}.

Section reconcile.
Context {W : Type} `{E : Env W} `{HI : !Int32World W} `{HC : !ClockWorld W} `{TL : TemplateLib} `{UL : UrlLib} `{CL : ConditionsLib}
  `{CLaws : !ConditionsLaws} `{Y : YamlLib} `{CEL : CelLib}.
Context (r : Settings).

Lemma body_reports cr (s : RState W) :
  let '(_, (_, l)) := reconcile_body r cr (s, nothing_learned) in
  Forall reported (componentConditions l) /\ role_list 18 (missingSecrets l).
Proof.
  assert (H0 : role_list 18 []) by (split; [cbn; lia|constructor]).
  unfold reconcile_body. unfold so_bind at 1, on_error at 1. cbn [st_ret]. cbv zeta.
  destruct (bundle.Resolve (spec_Bundle (cr_Spec cr)) (bundle_config r)) as [comps0|e|] eqn:Er; [|by split..].
  cbn [st_ret]. destruct (resolved_fits _ _ _ (api.APIBaseURL cr (OperatorNamespace r)) Er) as (Hlen & Hfit & Hfit2).
  set (comps := bundle.SetAPIBaseURL comps0 _) in *. unfold so_bind at 1.
  pose proof (read_secrets_roles r cr ∅ comps (s, nothing_learned) Hfit) as Hl. rewrite Hlen in Hl.
  destruct (read_secrets r cr ∅ comps (s, nothing_learned)) as [[entries|e|] [s1 l1]];
    destruct Hl as (Hc1 & ids & Hm1 & Hids); cbn in Hc1, Hm1; [|rewrite Hc1, Hm1; by split..].
  unfold st_bind at 1. cbn [learn]. unfold so_bind at 1.
  match goal with |- context [on_error ?a ?b ?d ?m ?s0] =>
    pose proof (on_error_learns_nothing a b d m (lift_learns_nothing _) s0) as H2;
    destruct (on_error a b d m s0) as [[url|e|] [s2 l2]] end; cbn in H2; subst l2;
    unfold sort_missing; cbn [componentConditions missingSecrets]; rewrite ?Hc1, ?Hm1.
  2,3: split; [done|by apply Compact_roles].
  unfold so_bind at 1.
  match goal with |- context [reconcile_components r cr entries ?cs ?s0] =>
    pose proof (components_report r cr entries cs s0 (Hfit2 url)) as Hl;
    destruct (reconcile_components r cr entries cs s0) as [[hs|e|] [s3 l3]] end;
    destruct Hl as (Hm3 & k & Hc3 & Hk); cbn in Hm3, Hc3 |- *; rewrite Hm3, Hc3;
    (split; [done|by apply Compact_roles]).
Qed.

Lemma now_set (s : RState W) : fst (now s) <> 0%Z.
Proof.
  unfold now, lift_world. pose proof (env_Now_set (rs_world s)) as H. by destruct (env_Now (rs_world s)).
Qed.

(** The status computed for a stored resource, whatever the body did. *)
Lemma update_valid cr (s : RState W) : stored_ok cr ->
  let '(res, (s1, l)) := reconcile_body r cr (s, nothing_learned) in
  Status_valid (cr_Status (fst (fst (status.aggregateStatus now cr (componentConditions l) (componentsCollected l)
    (missingSecrets l) (reterr res) s1)))) = true.
Proof.
  intros (Hv & _ & Hg). pose proof (body_reports cr s) as Hb. pose proof (reconcile_body_learned r cr s) as Hl.
  unfold learned_ok in Hl.
  destruct (reconcile_body r cr (s, nothing_learned)) as [res [s1 l]]. destruct Hb as [Hrep Hroles]. cbn in Hl.
  apply aggregate_valid; [by apply now_set| |lia|done|done|].
  - unfold Config_valid in Hv. by apply andb_prop in Hv as [_ ?].
  - intros Hcol. destruct res as [u|e|]; [|congruence..]. destruct Hl as (_ & -> & _). apply resolved_names.
Qed.

Lemma validating_same cr (s : RState W) : stored_ok cr ->
  reconcile_found (E := validating_Env E) r cr s = reconcile_found r cr s.
Proof.
  intros Hok. pose proof (update_valid cr s Hok) as Hv. unfold reconcile_found.
  change (reconcile_body (E := validating_Env E) r cr (s, nothing_learned)) with (reconcile_body r cr (s, nothing_learned)).
  destruct (reconcile_body r cr (s, nothing_learned)) as [res [s1 l]]. unfold update_status, st_bind.
  change (@now W (validating_Env E)) with (@now W E).
  destruct (status.aggregateStatus now cr _ _ _ _ s1) as [[cr' ch] s2]. cbn [fst] in Hv.
  destruct ch; [|done]. unfold lift_world, validating_Env. cbn [status_Update]. by rewrite Hv.
Qed.

(** C9: the API server never refuses what the operator writes.  Let a resource be stored, after
    any history of creations, updates and status writes, and let the replica counts read back be
    32-bit integers and the clock never read the zero time; then, whatever the reconcile meets, the status it computes fits the schema,
    transition times included (the write is a step of the stored resource), and reconciling against an API server that
    validates the status is the same as against one that does not. *)
Theorem status_accepted cr (s : RState W) (Hr : rtc stored_step None (Some cr)) :
  (let '(res, (s1, l)) := reconcile_body r cr (s, nothing_learned) in
   let '((cr', _), _) := status.aggregateStatus now cr (componentConditions l) (componentsCollected l)
                           (missingSecrets l) (reterr res) s1 in
   stored_step (Some cr) (Some cr'))
  /\ reconcile_found (E := validating_Env E) r cr s = reconcile_found r cr s.
Proof.
  apply reachable_ok in Hr. split; [|by apply validating_same]. pose proof (update_valid cr s Hr) as Hv.
  destruct (reconcile_body r cr (s, nothing_learned)) as [res [s1 l]].
  pose proof (status.aggregateStatus_status now cr (componentConditions l) (componentsCollected l)
    (missingSecrets l) (reterr res) s1) as Hs.
  destruct (status.aggregateStatus now cr _ _ _ _ s1) as [[cr' ch] s2]. cbn [fst] in *. cbv zeta in Hs.
  rewrite <-Hs. by apply step_status.
Qed.

(** ** Which stored resources reconcile *)

Lemma onprem_fails cr (s : RState W) : spec_Bundle (cr_Spec cr) = BundleOnPremAgent ->
  exists e, fst (reconcile_found r cr s) = Fail e.
Proof.
  intros Hb. unfold reconcile_found.
  assert (Hbody : exists e st, reconcile_body r cr (s, nothing_learned) = (Fail e, st)).
  { unfold reconcile_body. rewrite Hb. unfold so_bind at 1, on_error at 1. cbn [st_ret]. cbn. by eexists _, _. }
  destruct Hbody as (e & [s1 l] & ->). unfold update_status, st_bind.
  destruct (status.aggregateStatus now cr _ _ _ _ s1) as [[cr' ch] s2]. destruct ch; [|by exists e].
  unfold lift_world. destruct (status_Update cr' (rs_world s2)) as [[err|] w]; by eexists.
Qed.

Lemma Reconcile_found cr name (s : RState W) :
  fst (get_HyperFleetConfig name (snd (env_Now (rs_world s)))) = Found cr ->
  exists s0, fst (Reconcile (E := validating_Env E) r name s) = fst (reconcile_found (E := validating_Env E) r cr s0).
Proof.
  intros Hget. exists (set_world (snd (get_HyperFleetConfig name (snd (env_Now (rs_world s)))))
    (set_world (snd (env_Now (rs_world s))) s)).
  unfold Reconcile, st_bind, now, lift_world. cbn [env_Now get_HyperFleetConfig validating_Env].
  destruct (env_Now (rs_world s)) as [start w1]. cbn [fst snd rs_world set_world] in *.
  destruct (get_HyperFleetConfig name w1) as [g w2]. cbn [fst snd] in *. subst g.
  destruct (reconcile_found (E := validating_Env E) r cr _) as [res s1]. cbn.
  destruct (env_Now (rs_world s1)) as [stop w3]. done.
Qed.

End reconcile.

(** C10: on a healthy cluster whose API server validates what it stores, a stored resource is
    reconciled without error exactly when its bundle is the cloud one, given valid operator settings
    and a JWKS URL that can be resolved: of what admission lets through, the on-premise bundle is all
    that the operator then refuses. *)
Theorem admitted_reconciles {W} `{E : Env W} `{HW : !Healthy W} `{HI : !Int32World W} `{HC : !ClockWorld W}
    `{TL : TemplateLib}
    `{UL : UrlLib} `{CL : ConditionsLib} `{CLaws : !ConditionsLaws} `{Y : YamlLib} `{CEL : CelLib}
    (r : Settings) cr b name (s : RState W)
    (Hr : rtc stored_step None (Some cr))
    (Hyaml : forall j, exists y, yaml_Marshal j = inr y)
    (Hbroker : BrokerInfo r = Some b) (Hvalid : sentinel.valid_broker b = true) (Himage : SentinelImage r <> "")
    (Hjwks : live.jwks_resolvable (W := W) r cr)
    (Hget : fst (get_HyperFleetConfig name (snd (env_Now (rs_world s)))) = Found cr) :
  let res := fst (Reconcile (E := validating_Env E) r name s) in
  (spec_Bundle (cr_Spec cr) = BundleCloudCAPI /\ res = Ok tt)
  \/ (spec_Bundle (cr_Spec cr) = BundleOnPremAgent /\ exists e, res = Fail e).
Proof.
  cbv zeta. apply reachable_ok in Hr. destruct (Reconcile_found r cr name s Hget) as [s0 ->].
  rewrite (validating_same r cr s0 Hr). pose proof (admitted_bundle _ (stored_admitted _ Hr)) as Hb.
  unfold AllBundleTypes in Hb. apply elem_of_cons in Hb as [Hb|Hb%list_elem_of_singleton].
  - left. split; [done|].
    assert (Hset : live.valid_settings r cr b) by (by split_and!).
    pose proof (live.reconcile_found_ok r cr b Hyaml Hset Hjwks s0) as Hok.
    by destruct (fst (reconcile_found r cr s0)) as [[]| |].
  - right. split; [done|]. by apply onprem_fails.
Qed.

(** ** A concrete cluster

    The simulated cluster, with replica counts that do not fit 32 bits read as zero, and a clock
    that skips the zero time. *)

Definition narrow (z : Z) : Z := if ((-2147483648 <=? z) && (z <? 2147483648))%Z then z else 0%Z.

Definition narrow_Object (o : Object) : Object :=
  match o with
  | ODeployment d =>
      let s := dep_Status d in
      ODeployment (mkDeployment (dep_TypeMeta d) (dep_Meta d)
        (mkDeploymentSpec (narrow <$> Replicas (dep_Spec d)) (ds_Selector (dep_Spec d)) (StrategyType (dep_Spec d))
           (ds_RollingUpdate (dep_Spec d)) (Template (dep_Spec d)))
        (mkDeploymentStatus (st_ObservedGeneration s) (st_Replicas s) (st_UpdatedReplicas s)
           (narrow (st_AvailableReplicas s)) (st_Conditions s)))
  | _ => o
  end.

Definition narrow_Env {W} (E : Env W) : Env W := {|
  Unstructured := Unstructured;
  env_Now w := let '(t, w') := env_Now w in (if (t =? 0)%Z then 1%Z else t, w');
  get_HyperFleetConfig := get_HyperFleetConfig;
  get_Secret := get_Secret;
  get_Deployment := get_Deployment;
  get_Object r o w := let '(g, w') := get_Object r o w in
                      (match g with Found o' => Found (narrow_Object o') | _ => g end, w');
  SetControllerReference := SetControllerReference;
  ToUnstructured := ToUnstructured;
  client_Apply := client_Apply;
  status_Update := status_Update;
  http_Do := http_Do |}.

Lemma narrow_int32 z : int32 (narrow z).
Proof.
  unfold narrow, int32. destruct (Z.leb_spec (-2147483648) z) as [H1|H1]; [|done].
  destruct (Z.ltb_spec z 2147483648) as [H2|H2]; [|done]. done.
Qed.

Lemma narrow_Int32World {W} (E : Env W) : Int32World W (Env0 := narrow_Env E).
Proof.
  constructor. intros r o w o' w'. cbn. destruct (get_Object r o w) as [[o2| |e] w2]; [|done|done].
  intros [= <- _]. destruct o2; try done. cbn. split; [|apply narrow_int32].
  destruct (Replicas _); cbn; [apply narrow_int32|done].
Qed.

Lemma narrow_ClockWorld {W} (E : Env W) : ClockWorld W (Env0 := narrow_Env E).
Proof. constructor. intros w. cbn. destruct (env_Now w) as [t w']. cbn. by destruct (Z.eqb_spec t 0). Qed.

Lemma narrow_Healthy {W} (E : Env W) `{HW : !Healthy W} : Healthy W (Env0 := narrow_Env E).
Proof.
  constructor; cbn.
  - apply secret_readable.
  - apply owner_settable.
  - apply convertible.
  - intros o u w Hu. destruct (appliable o u w Hu) as (w1 & H1 & H2). exists w1. split; [exact H1|].
    intros rd. destruct (H2 rd) as (o' & w2 & ->). by eexists _, w2.
  - apply status_updatable.
Qed.

#[local] Existing Instance toy_cel.

Definition demo_stored_cr : HyperFleetConfig := created "uid-1" demo_switched_off.

Lemma demo_stored_reachable : rtc stored_step None (Some demo_stored_cr).
Proof. apply rtc_once, step_create. vm_compute. reflexivity. Qed.

Definition demo_stored_state : RState Sim :=
  mkRState (mkSim 100 (Some demo_stored_cr) {["db-creds" := mkSecret "db-creds" "41"]} ∅ [] ∅)
    None None metrics.zeroMetrics.

Lemma status_accepted_witness :
  reconcile_found (E := validating_Env (narrow_Env sim_Env)) (Y := api.toy_yaml) demo_settings demo_stored_cr demo_stored_state
  = reconcile_found (E := narrow_Env sim_Env) (Y := api.toy_yaml) demo_settings demo_stored_cr demo_stored_state.
Proof.
  destruct (status_accepted (E := narrow_Env sim_Env) (HI := narrow_Int32World sim_Env) (HC := narrow_ClockWorld sim_Env) (Y := api.toy_yaml)
    demo_settings demo_stored_cr demo_stored_state demo_stored_reachable) as [_ H].
  exact H.
Defined.

Lemma admitted_reconciles_witness :
  fst (Reconcile (E := validating_Env (narrow_Env sim_Env)) (Y := api.toy_yaml) demo_settings SingletonName demo_stored_state)
  = Ok tt.
Proof.
  destruct (admitted_reconciles (E := narrow_Env sim_Env) (HW := narrow_Healthy sim_Env) (HI := narrow_Int32World sim_Env) (HC := narrow_ClockWorld sim_Env)
    (Y := api.toy_yaml) demo_settings demo_stored_cr (sentinel.mkBrokerInfo sentinel.BrokerTypeRabbitMQ "")
    SingletonName demo_stored_state demo_stored_reachable live.demo_yaml_total eq_refl eq_refl) as [[_ H]|[H _]].
  - discriminate.
  - intros s. by exists "", s.
  - reflexivity.
  - exact H.
  - discriminate H.
Defined.

End admitted_status.
