(* ===== verification/Quiescence.v ===== *)
(** * A settled cluster is left alone

    A controller is woken by its own writes, so it must stop writing.  On a
    cluster that has settled, whose answers no longer change under what a
    reconcile does to it, a reconcile that follows a successful one
    reaches the same conclusions and writes no status.  The proof compares two
    runs step by step: [same] says that two computations, started in states that look alike,
    return equal results and leave states that look alike. *)

From S2P Require Import Prelude Kube ConfigTypes Json Url JsonDecode Contract Api Sentinel Bundle NetAddr.
From S2P Require Import DiscoveryGuard Sha256 Env ConfigHash Metrics State Jwks Status Apply.
From S2P Require Import Observability Sim Reconciler ReconcilerMetrics ReconcilerCalls.
From S2P Require Import ReconcilerStatus ReconcilerLive.

Module quiescence.
Import reconciler calls.

(** ** Comparing two runs *)

Section relational.
Context {S O F : Type} (fine : S -> Prop) (sent : S -> Prop) (obs : S -> O) (fld : S -> F).

(** The first run started from a state that satisfies [sent] if it ended in one. *)
Definition back {A} (m : ST S A) : Prop := forall s, sent (m s).2 -> sent s.

Definition agree {A} (x x' : A * S) (s s' : S) : Prop :=
  x.1 = x'.1 /\ obs x.2 = obs x'.2 /\ fine x.2 /\ fine x'.2 /\ fld x.2 = fld s /\ fld x'.2 = fld s'.

Definition same {A} (m m' : ST S A) : Prop :=
  back m /\ forall s s', fine s -> fine s' -> obs s = obs s' -> sent (m s).2 -> agree (m s) (m' s') s s'.

Lemma same_ret {A} (a : A) : same (st_ret a) (st_ret a).
Proof. split; [by intros s|]. intros s s' ????. by repeat split. Qed.

Lemma same_st_bind {A B} (m m' : ST S A) (k k' : A -> ST S B) :
  same m m' -> (forall a, same (k a) (k' a)) -> same (st_bind m k) (st_bind m' k').
Proof.
  intros [Bm Hm] Hk. split.
  - intros s. unfold st_bind. specialize (Bm s). destruct (m s) as [a s1]. intros H. by apply Bm, (Hk a).
  - intros s s' Hs Hs' Ho. unfold st_bind. specialize (Hm s s' Hs Hs' Ho).
    destruct (m s) as [a s1]. intros H.
    destruct (Hm (proj1 (Hk a) s1 H)) as (Ea & Eo & F1 & F1' & G1 & G1'). destruct (m' s') as [a' s1']. cbn in *.
    subst a'. destruct (proj2 (Hk a) s1 s1' F1 F1' Eo H) as (Eb & Eo2 & F2 & F2' & G2 & G2').
    repeat split; congruence || done.
Qed.

Lemma same_so_bind {A B} (m m' : ST S (outcome A)) (k k' : A -> ST S (outcome B)) :
  same m m' -> (forall a, same (k a) (k' a)) -> same (so_bind m k) (so_bind m' k').
Proof.
  intros Hm Hk.
  assert (H : same (st_bind m (fun o => match o with Ok a => k a | Fail e => st_ret (Fail e) | Panic => st_ret Panic end))
                   (st_bind m' (fun o => match o with Ok a => k' a | Fail e => st_ret (Fail e) | Panic => st_ret Panic end))).
  { apply same_st_bind; [exact Hm|]. intros [a|e|]; [apply Hk|apply same_ret..]. }
  split.
  - intros s. specialize (proj1 H s). unfold st_bind, so_bind. by destruct (m s) as [[a|e|] s1].
  - intros s s' Hs Hs' Ho. specialize (proj2 H s s' Hs Hs' Ho). unfold st_bind, so_bind.
    by destruct (m s) as [[a|e|] s1], (m' s') as [[a'|e'|] s1'].
Qed.

End relational.

(** ** A settled cluster *)

(** Equal answers, from all worlds that look the same, which still look so afterwards. *)
Definition same_answers {W A} (I : W -> Prop) (m : ST W A) : Prop :=
  forall w w', I w -> I w' -> (m w).1 = (m w').1 /\ I (m w).2.

(** Reads answer the same in every world of [I], and the clock leaves [I] alone.
    The owner reference does not depend on the owner's status. *)
Class Settled {W} `{!Env W} (I : W -> Prop) := {
  settled_now w : I w -> I (env_Now w).2;
  settled_secret ns n : same_answers I (get_Secret ns n);
  settled_deployment ns n : same_answers I (get_Deployment ns n);
  settled_object reader o : same_answers I (get_Object reader o);
  settled_http c req : same_answers I (http_Do c req);
  settled_owner cr st o : SetControllerReference (with_status cr st) o = SetControllerReference cr o;
}.

Section settled.
Context {W : Type} `{EB : Env W} (I : W -> Prop) `{HI : !Settled I}.
Context `{TL : TemplateLib} `{UL : UrlLib} `{CL : ConditionsLib} `{Y : YamlLib}.

(** What was applied once can be applied again without a difference. *)
Definition settled_call (c : Call Unstructured) : Prop :=
  match c with
  | CApply u owner force => same_answers I (client_Apply u owner force)
  | _ => True
  end.

#[local] Abbreviation V := (W * list (Call Unstructured))%type.

Definition fineV (w : V) : Prop := I w.1.
Definition sentV (w : V) : Prop := Forall settled_call w.2.
Definition fields (s : RState V) : option Client * option (gmap string string) :=
  (rs_discoveryClient s, rs_discoveryCache s).

(** On the world, on the reconciler's state, and with what was learned. *)
#[local] Abbreviation sameV := (same fineV sentV (fun _ => tt) (fun _ => tt)).
#[local] Abbreviation sameR :=
  (same (fun s => fineV (rs_world s)) (fun s => sentV (rs_world s)) (fun _ => tt) fields).
#[local] Abbreviation sameB :=
  (same (fun s => fineV (rs_world s.1)) (fun s => sentV (rs_world s.1)) snd (fun s => fields s.1)).

Lemma sameR_world {A} (m m' : ST V A) : sameV m m' -> sameR (lift_world m) (lift_world m').
Proof.
  intros [Bm Hm]. split.
  - intros s. unfold lift_world. specialize (Bm (rs_world s)). by destruct (m (rs_world s)).
  - intros s s' Hs Hs' _ H. specialize (Hm (rs_world s) (rs_world s') Hs Hs' eq_refl). unfold lift_world in *.
    destruct (m (rs_world s)) as [a w], (m' (rs_world s')) as [a' w'].
    destruct (Hm H) as (? & _ & ? & ? & _ & _). by repeat split.
Qed.

Lemma sameB_state {A} (m m' : ST (RState V) A) : sameR m m' -> sameB (lift_state m) (lift_state m').
Proof.
  intros [Bm Hm]. split.
  - intros [s l]. unfold lift_state. specialize (Bm s). cbn. by destruct (m s).
  - intros [s l] [s' l'] Hs Hs' Hl H. specialize (Hm s s' Hs Hs' eq_refl). unfold lift_state in *. cbn in *.
    destruct (m s) as [a w], (m' s') as [a' w'].
    destruct (Hm H) as (? & _ & ? & ? & ? & ?). by repeat split.
Qed.

Lemma sameR_metric f f' : sameR (record_metric f) (record_metric f').
Proof. split; [by intros s|]. intros s s' ????. by repeat split. Qed.

Lemma sameB_learn f : sameB (learn f) (learn f).
Proof.
  split; [by intros s|]. intros [s l] [s' l'] Hs Hs' Hl _. cbn in Hl. subst l'. by repeat split.
Qed.

Lemma sameB_on_error {A} reason f args (m m' : ST (BState V) (outcome A)) :
  sameB m m' -> sameB (on_error reason f args m) (on_error reason f args m').
Proof.
  intros [Bm Hm]. split.
  - intros s. unfold on_error. specialize (Bm s). by destruct (m s) as [[a|e|] s1].
  - intros s s' Hs Hs' Ho. specialize (Hm s s' Hs Hs' Ho). unfold on_error.
    destruct (m s) as [[a|e|] [s1 l1]], (m' s') as [[a'|e'|] [s1' l1']]; cbn in *; intros H;
      destruct (Hm H) as (E & ? & ? & ? & ? & ?); cbn in *; try discriminate E;
      try (injection E as <-); (split; [done|]); unfold lift_state; cbn; split_and!; assumption.
Qed.

(** A call through the log. *)
Lemma sameV_call {A} (c : Call Unstructured) (m : ST W A) :
  (settled_call c -> same_answers I m) -> sameV (log_call c m) (log_call c m).
Proof.
  intros Hm. split.
  - intros [w k] H. unfold sentV, log_call in H. cbn in *. destruct (m w) as [a w1]. cbn in H.
    by apply Forall_app in H as [? _].
  - intros [w k] [w' k'] Hw Hw' _ H. unfold sentV, log_call in H |- *. cbn in *.
    assert (Hc : settled_call c).
    { destruct (m w) as [a w1]. cbn in H. apply Forall_app in H as [_ H]. exact (proj1 (Forall_singleton _ _) H). }
    destruct (Hm Hc w w' Hw Hw') as [E1 I1]. destruct (Hm Hc w' w Hw' Hw) as [_ I1'].
    unfold agree, fineV. destruct (m w) as [a w1], (m w') as [a' w1']. by repeat split.
Qed.

(** *** The steps of the body *)

Lemma sameV_secret ns n : sameV (get_Secret (Env := LE) ns n) (get_Secret (Env := LE) ns n).
Proof. apply sameV_call. intros _. apply settled_secret. Qed.

Lemma sameV_deployment ns n : sameV (get_Deployment (Env := LE) ns n) (get_Deployment (Env := LE) ns n).
Proof. apply sameV_call. intros _. apply settled_deployment. Qed.

Lemma sameV_object reader o : sameV (get_Object (Env := LE) reader o) (get_Object (Env := LE) reader o).
Proof. apply sameV_call. intros _. apply settled_object. Qed.

Lemma sameV_http c req : sameV (http_Do (Env := LE) c req) (http_Do (Env := LE) c req).
Proof. apply sameV_call. intros _. apply settled_http. Qed.

Lemma sameV_apply u owner force :
  sameV (client_Apply (Env := LE) u owner force) (client_Apply (Env := LE) u owner force).
Proof. apply sameV_call. intros H. exact H. Qed.

Create HintDb settled.
#[local] Hint Resolve sameV_secret sameV_deployment sameV_object sameV_apply sameR_metric sameB_learn : settled.

Ltac alike :=
  repeat match goal with
  | |- same _ _ _ _ (st_bind _ _) _ => apply same_st_bind; [|intros ?]
  | |- same _ _ _ _ (so_bind _ _) _ => apply same_so_bind; [|intros ?]
  | |- same _ _ _ _ (st_ret _) _ => apply same_ret
  | |- same _ _ _ _ (on_error _ _ _ _) _ => apply sameB_on_error
  | |- same _ _ _ _ (lift_state _) _ => apply sameB_state
  | |- same _ _ _ _ (lift_world _) _ => apply sameR_world
  | |- _ => solve [auto with settled]
  end.

Lemma sameV_entries ns refs :
  sameV (rollout.resolveSecretEntries (Env0 := LE) ns refs) (rollout.resolveSecretEntries (Env0 := LE) ns refs).
Proof.
  induction refs as [|ref refs IH]; [apply same_ret|]. cbn [rollout.resolveSecretEntries].
  apply same_st_bind; [apply sameV_secret|]. intros [x| |e]; alike; exact IH.
Qed.

Lemma sameV_detect comp objs :
  sameV (observability.detectRollouts (E := LE) comp objs) (observability.detectRollouts (E := LE) comp objs).
Proof.
  induction objs as [|o objs IH]; [apply same_ret|].
  destruct o; cbn [observability.detectRollouts]; alike; try exact IH;
    match goal with |- context [match ?p with _ => _ end] => destruct p end; apply same_ret.
Qed.

Lemma sameV_apply_one reader cr st o :
  sameV (apply.apply_one (E := LE) reader cr o) (apply.apply_one (E := LE) reader (with_status cr st) o).
Proof.
  unfold apply.apply_one.
  change (SetControllerReference (Env := LE)) with (SetControllerReference (Env := EB)). rewrite settled_owner.
  destruct (SetControllerReference cr o) as [err|o1]; [apply same_ret|].
  destruct (ToUnstructured o1) as [err|u]; [apply same_ret|].
  apply same_st_bind; [apply sameV_apply|]. intros [err|]; alike.
Qed.

Lemma sameV_Objects reader cr st objs :
  sameV (apply.Objects (E := LE) reader cr objs) (apply.Objects (E := LE) reader (with_status cr st) objs).
Proof.
  unfold apply.Objects. induction objs as [|o objs IH]; [apply same_ret|]. cbn [apply.apply_all].
  alike. apply sameV_apply_one.
Qed.

Lemma sameR_commit evs : sameR (observability.commitRollouts evs) (observability.commitRollouts evs).
Proof.
  unfold observability.commitRollouts. induction evs as [|e evs IH]; cbn [st_iter]; alike.
Qed.

Lemma sameR_readiness comp objs :
  sameR (observability.recordReadiness (E := LE) comp objs) (observability.recordReadiness (E := LE) comp objs).
Proof.
  unfold observability.recordReadiness. induction objs as [|o objs IH]; cbn [st_iter]; [apply same_ret|].
  apply same_st_bind; [|intros _; exact IH]. destruct o; alike.
  match goal with |- context [match ?p with _ => _ end] => destruct p end; alike.
Qed.

Section components.
Context {C : Type} `{IC : IsComponent C} `{CC : !ComponentContract C} (r : Settings).

Lemma sameB_read_secrets cr st entries comps :
  sameB (read_secrets (E := LE) r cr entries comps) (read_secrets (E := LE) r (with_status cr st) entries comps).
Proof.
  revert entries. induction comps as [|c comps IH]; intros entries; cbn [read_secrets]; [apply same_ret|].
  destruct (status_law c cr st) as (_ & -> & _). alike. apply sameV_entries.
Qed.

Lemma sameB_component cr st entries c :
  sameB (reconcile_component (E := LE) r cr entries c) (reconcile_component (E := LE) r (with_status cr st) entries c).
Proof.
  unfold reconcile_component. destruct (status_law c cr st) as (-> & _ & Hc). alike.
  destruct (rollout.stampConfigHash _ _ _) as [hash objs]. apply same_st_bind.
  { apply sameB_state, sameR_world, sameV_detect. }
  intros [evs objs2]. alike; [apply sameV_Objects|apply sameR_commit|apply sameR_readiness|].
  rewrite Hc. apply same_ret.
Qed.

Lemma sameB_components cr st entries comps :
  sameB (reconcile_components (E := LE) r cr entries comps)
        (reconcile_components (E := LE) r (with_status cr st) entries comps).
Proof.
  induction comps as [|c comps IH]; cbn [reconcile_components]; [apply same_ret|]. alike. apply sameB_component.
Qed.

End components.

(** *** Discovery *)

(** The client a discovery goes through. *)
Definition effective {U} (hc : option Client) (s : RState U) : Client :=
  default (default jwks.newDiscoveryHTTPClient (rs_discoveryClient s)) hc.

Definition discovery_url (issuer : string) : string := TrimSuffix issuer "/" +:+ jwks.oidcDiscoveryPath.

Definition verdict (issuer : string) (resp : error + Response) : outcome string :=
  match resp with
  | inl err => Fail (Wrapf "fetch %q: %w" [discovery_url issuer] err)
  | inr resp => jwks.check_response (discovery_url issuer) (TrimSuffix issuer "/") resp
  end.

Lemma discover_form {U} `{EU : Env U} hc issuer (s : RState U) :
  jwks.discoverJWKSURL hc issuer s
  = match url.NewRequest (discovery_url issuer) with
    | Some err => (Fail (Wrapf "build discovery request for %q: %w" [discovery_url issuer] err), s)
    | None =>
        let '(resp, w) := http_Do (effective hc s) (jwks.discovery_request (discovery_url issuer)) (rs_world s) in
        (verdict issuer resp,
         set_world w (set_client (match hc with Some _ => rs_discoveryClient s | None => Some (effective hc s) end) s))
    end.
Proof.
  unfold jwks.discoverJWKSURL, discovery_url, effective, jwks.discovery_client, st_bind, st_ret, lift_world.
  destruct (url.NewRequest _); [done|]. destruct s as [w c cache m]. cbn.
  destruct hc as [hc|]; [|destruct c as [c|]]; cbn; by destruct (http_Do _ _ w) as [resp w1].
Qed.

(** A second discovery, through the same client, has the same outcome. *)
Lemma discover_again hc issuer (s s' : RState V) :
  fineV (rs_world s) -> fineV (rs_world s') -> effective hc s' = effective hc s ->
  let '(res, s1) := jwks.discoverJWKSURL (Env0 := LE) hc issuer s in
  let '(res', s1') := jwks.discoverJWKSURL (Env0 := LE) hc issuer s' in
  res' = res /\ fineV (rs_world s1) /\ fineV (rs_world s1') /\ effective hc s1 = effective hc s
  /\ (rs_discoveryClient s' = rs_discoveryClient s1 -> rs_discoveryClient s1' = rs_discoveryClient s1).
Proof.
  intros Hs Hs' He. rewrite !discover_form, He. destruct (url.NewRequest _); [done|].
  assert (Hcall : forall w w' : V, fineV w -> fineV w' ->
    (http_Do (Env := LE) (effective hc s) (jwks.discovery_request (discovery_url issuer)) w).1
    = (http_Do (Env := LE) (effective hc s) (jwks.discovery_request (discovery_url issuer)) w').1
    /\ fineV (http_Do (Env := LE) (effective hc s) (jwks.discovery_request (discovery_url issuer)) w).2).
  { intros [w k] [w' k'] Hw Hw'. unfold fineV, LE, logged_Env, log_call in *. cbn in *.
    destruct (settled_http (effective hc s) (jwks.discovery_request (discovery_url issuer)) w w' Hw Hw') as [H1 H2].
    destruct (http_Do _ _ w), (http_Do _ _ w'). by cbn in *. }
  destruct (Hcall _ _ Hs Hs') as [E1 F1], (Hcall _ _ Hs' Hs) as [_ F1'].
  destruct (http_Do _ _ (rs_world s)) as [resp w], (http_Do _ _ (rs_world s')) as [resp' w']. cbn in *.
  subst resp'. split_and!; [done..| |]; [unfold effective|]; by destruct hc.
Qed.

Lemma resolve_again hc cr st (s : RState V) url s1 :
  fineV (rs_world s) -> jwks.resolveJWKSURL (Env0 := LE) hc cr s = (Ok url, s1) ->
  fineV (rs_world s1) /\ forall s' : RState V, fineV (rs_world s') -> fields s' = fields s1 ->
  exists s1', jwks.resolveJWKSURL (Env0 := LE) hc (with_status cr st) s' = (Ok url, s1') /\ fineV (rs_world s1')
    /\ fields s1' = fields s1.
Proof.
  intros Hs. unfold jwks.resolveJWKSURL.
  change (api.AuthEnabled (with_status cr st)) with (api.AuthEnabled cr).
  change (auth_of (with_status cr st)) with (auth_of cr).
  destruct (negb (api.AuthEnabled cr)); [intros [= <- <-]; split; [done|intros s' Hs' Hf; by exists s']|].
  destruct (JWKCertSecretRef (auth_of cr)); [intros [= <- <-]; split; [done|intros s' Hs' Hf; by exists s']|].
  set (iss := Issuer (auth_of cr)). unfold st_bind.
  assert (Hag := discover_again hc iss s). pose proof (discover_again hc iss s s Hs Hs eq_refl) as Hself.
  destruct (jwks.discoverJWKSURL (Env0 := LE) hc iss s) as [res sd] eqn:Ed.
  destruct Hself as (_ & Hfd & _ & Heff & _). destruct res as [uri|e|]; [| |done].
  - intros [= <- <-]. split; [exact Hfd|]. intros s' Hs' Hf. injection Hf as Hf1 Hf2. cbn in Hf1, Hf2.
    specialize (Hag s' Hs Hs'). rewrite <-Heff in Hag. unfold effective at 1 2 in Hag. rewrite Hf1 in Hag.
    specialize (Hag eq_refl). destruct (jwks.discoverJWKSURL (Env0 := LE) hc iss s') as [res' sd'] eqn:Ed'.
    destruct Hag as (-> & _ & Hfd' & _ & Hcl). eexists. split; [reflexivity|]. split; [exact Hfd'|].
    unfold fields. cbn. rewrite (Hcl eq_refl). pose proof (jwks.discoverJWKSURL_frame _ _ _ _ _ Ed') as (-> & _).
    pose proof (jwks.discoverJWKSURL_frame _ _ _ _ _ Ed) as (Hc & _). rewrite Hf2. cbn. by rewrite insert_insert_eq.
  - pose proof (jwks.discoverJWKSURL_frame _ _ _ _ _ Ed) as (Hc & _ & _).
    unfold jwks.cachedDiscovery, get_state. destruct (rs_discoveryCache sd ≫= lookup iss) as [uri|] eqn:El; [|done].
    intros [= <- <-]. split; [exact Hfd|]. intros s' Hs' Hf. injection Hf as Hf1 Hf2.
    specialize (Hag s' Hs Hs'). rewrite <-Heff in Hag. unfold effective at 1 2 in Hag. rewrite Hf1 in Hag.
    specialize (Hag eq_refl). destruct (jwks.discoverJWKSURL (Env0 := LE) hc iss s') as [res' sd'] eqn:Ed'.
    destruct Hag as (-> & _ & Hfd' & _ & Hcl).
    pose proof (jwks.discoverJWKSURL_frame _ _ _ _ _ Ed') as (Hc' & _ & _). rewrite Hc', Hf2, El. eexists.
    split; [reflexivity|]. split; [exact Hfd'|]. unfold fields. by rewrite (Hcl eq_refl), Hc', Hf2.
Qed.

(** *** The whole body *)

Section body.
Context (r : Settings).

(** What a run of [m] that succeeded says about a later run of [m']. *)
Lemma same_ok {A} (m m' : ST (BState V) (outcome A)) s s' a s1 :
  sameB m m' -> fineV (rs_world s.1) -> fineV (rs_world s'.1) -> s.2 = s'.2 -> m s = (Ok a, s1) ->
  sentV (rs_world s1.1) ->
  sentV (rs_world s.1) /\ fineV (rs_world s1.1) /\ fields s1.1 = fields s.1
  /\ exists s1', m' s' = (Ok a, s1') /\ fineV (rs_world s1'.1) /\ fields s1'.1 = fields s'.1 /\ s1'.2 = s1.2.
Proof.
  intros [Bm Hm] Hs Hs' Hl E Hsent. specialize (Bm s). specialize (Hm s s' Hs Hs' Hl). rewrite E in Bm, Hm.
  destruct (Hm Hsent) as (Ea & Eo & F1 & F1' & G1 & G1'). destruct (m' s') as [a' s1']. cbn in *. subst a'.
  split; [by apply Bm|]. split; [done|]. split; [done|]. by exists s1'.
Qed.

Lemma jwks_sent cr (s : RState V) : sentV (rs_world (jwks.resolveJWKSURL (Env0 := LE) (HTTPClient r) cr s).2) ->
  sentV (rs_world s).
Proof.
  destruct (resolveJWKSURL_emits r cr s) as (k & Hk & _). unfold emits, rlog, wlog, sentV in *. rewrite Hk.
  intros H. by apply Forall_app in H as [? _].
Qed.

Lemma body_again cr st (s s1 : RState V) l :
  fineV (rs_world s) -> reconcile_body (E := LE) r cr (s, nothing_learned) = (Ok tt, (s1, l)) ->
  sentV (rs_world s1) ->
  forall s', fineV (rs_world s') -> fields s' = fields s1 ->
  exists s1', reconcile_body (E := LE) r (with_status cr st) (s', nothing_learned) = (Ok tt, (s1', l))
    /\ fineV (rs_world s1') /\ fields s1' = fields s1
    /\ metrics.AppliedConfig (rs_metrics s1') = metrics.AppliedConfig (rs_metrics s1).
Proof.
  intros Hs. unfold reconcile_body. cbv zeta. change (cr_Spec (with_status cr st)) with (cr_Spec cr).
  change (api.APIBaseURL (with_status cr st)) with (api.APIBaseURL cr). intros H Hsent s' Hs' Hf.
  apply so_bind_ok in H as (comps & s0 & H0 & H). unfold so_bind at 1. unfold on_error at 1.
  unfold on_error, st_ret in H0. destruct (bundle.Resolve _ _) as [comps0|e|]; [|discriminate H0..].
  injection H0 as -> <-. cbn [st_ret].
  apply so_bind_ok in H as (entries & [sA lA] & HA & H). unfold st_bind at 1 in H. cbn [learn fst snd] in H.
  apply so_bind_ok in H as (url & [sJ lJ] & HJ & H). apply so_bind_ok in H as (hashes & [sC lC] & HC & H).
  cbn in H. injection H as <- <-.
  (* the first run's discovery *)
  unfold on_error, lift_state in HJ. cbn [fst snd] in HJ.
  destruct (jwks.resolveJWKSURL (HTTPClient r) cr sA) as [[u|e|] sJ0] eqn:EJ; [|discriminate HJ..].
  injection HJ as -> -> <-.
  (* backwards: everything sent by the first run is settled *)
  pose proof (proj1 (sameB_components r cr st entries
    (bundle.SetResolvedJWKSURL (bundle.SetAPIBaseURL comps (api.APIBaseURL cr (OperatorNamespace r))) url))
    (sJ, sort_missing lA)) as HbackC. rewrite HC in HbackC. specialize (HbackC Hsent). cbn [fst snd] in HbackC.
  assert (HsA : sentV (rs_world sA)) by (apply (jwks_sent cr); by rewrite EJ).
  (* forwards: the second run does the same *)
  destruct (same_ok _ _ (s, nothing_learned) (s', nothing_learned) _ _ (sameB_read_secrets r cr st ∅
    (bundle.SetAPIBaseURL comps (api.APIBaseURL cr (OperatorNamespace r)))) Hs Hs' eq_refl HA HsA)
    as (_ & FA & GA & [sA' lA'] & HA' & FA' & GA' & [= ->]).
  destruct (resolve_again (HTTPClient r) cr st sA url sJ FA EJ) as (FJ & Hj). cbn [fst snd] in *.
  destruct (same_ok _ _ (sJ, sort_missing lA) (sJ, sort_missing lA) _ _ (sameB_components r cr st entries
    (bundle.SetResolvedJWKSURL (bundle.SetAPIBaseURL comps (api.APIBaseURL cr (OperatorNamespace r))) url))
    FJ FJ eq_refl HC Hsent) as (_ & _ & GC & _). cbn [fst snd] in GC.
  destruct (Hj sA' FA') as (sJ' & EJ' & FJ' & GJ').
  { rewrite GA', Hf. exact GC. }
  destruct (same_ok _ _ (sJ, sort_missing lA) (sJ', sort_missing lA) _ _ (sameB_components r cr st entries
    (bundle.SetResolvedJWKSURL (bundle.SetAPIBaseURL comps (api.APIBaseURL cr (OperatorNamespace r))) url))
    FJ FJ' eq_refl HC Hsent) as (_ & _ & _ & [sC' lC'] & HC' & FC' & GC' & [= ->]).
  unfold so_bind at 1. rewrite HA'. unfold st_bind at 1. cbn [learn fst snd].
  unfold so_bind at 1. unfold on_error at 1, lift_state at 1. cbn [fst snd]. rewrite EJ'.
  unfold so_bind at 1. rewrite HC'. cbn. eexists. split; [reflexivity|].
  split; [exact FC'|]. split; [|done]. cbn in GC'. change (fields sC' = fields sC). congruence.
Qed.

(** *** The deferred status update *)

Context `{EL : !EnvLaws W} `{CLaws : !ConditionsLaws}.

Definition not_status (c : Call Unstructured) : Prop := match c with CStatusUpdate _ => False | _ => True end.

Lemma prefix_Forall {A} (P : A -> Prop) l k : l `prefix_of` k -> Forall P k -> Forall P l.
Proof. intros [t ->] H. by apply Forall_app in H as [? _]. Qed.

Lemma bind_Forall {A B} (P : B -> Prop) (f : A -> list B) l : (forall a, Forall P (f a)) -> Forall P (l ≫= f).
Proof. intros H. induction l as [|a l IH]; [constructor|]. rewrite bind_cons. by apply Forall_app. Qed.

(** The body writes no status. *)
Lemma body_no_status cr ok k : body_trace r cr ok k -> Forall not_status k.
Proof.
  intros (ks & kh & kw & entries & url & -> & Hks & _ & Hkh & Hkw & _). rewrite !Forall_app. split_and!.
  - eapply prefix_Forall; [exact Hks|]. apply bind_Forall. intros c. unfold component_secret_reads.
    destruct (cReferencedSecrets c cr); [|constructor..]. unfold secret_reads. by apply Forall_map, Forall_true.
  - destruct Hkh as [->|[c ->]]; repeat constructor.
  - assert (Hreads : forall objs, Forall not_status (deployment_reads objs)).
    { intros objs. unfold deployment_reads. by apply Forall_fmap, Forall_true. }
    eapply prefix_Forall; [exact Hkw|]. apply bind_Forall. intros c. unfold component_calls.
    destruct (desired_objects cr entries c) as [[h objs]|e|]; [|constructor..].
    rewrite !Forall_app. split_and!; [apply Hreads| |apply Hreads]. apply bind_Forall. intros o.
    unfold apply.object_calls. destruct (SetControllerReference cr o); [constructor|].
    destruct (ToUnstructured _); repeat constructor.
Qed.

(** What the aggregation leaves alone, through the clock. *)
Definition only_clock (s s' : RState V) : Prop :=
  rlog s' = rlog s /\ fields s' = fields s /\ rs_metrics s' = rs_metrics s
  /\ (fineV (rs_world s) -> fineV (rs_world s')).

#[local] Instance only_clock_PreOrder : PreOrder only_clock.
Proof.
  split; [intros a; unfold only_clock; by split_and!|].
  intros a b c (A1 & A2 & A3 & A4) (B1 & B2 & B3 & B4). unfold only_clock. split_and!; [congruence..|auto].
Qed.

Lemma aggregate_clock cr reps col miss err (s : RState V) :
  only_clock s (status.aggregateStatus (now (E := LE)) cr reps col miss err s).2.
Proof.
  apply (status.aggregateStatus_frame (now (E := LE)) only_clock). intros s0. rewrite now_LE.
  unfold only_clock. split_and!; [done..|]. exact (settled_now (I := I) _).
Qed.

(** The resource as a run left it: as it was, or as written. *)
Definition left_as (cr : HyperFleetConfig) (k : list (Call Unstructured)) (cr1 : HyperFleetConfig) : Prop :=
  (Forall not_status k /\ cr1 = cr) \/ (exists kb, k = kb ++ [CStatusUpdate cr1] /\ Forall not_status kb).

(** A successful run, and what its aggregation says of the resource it left. *)
Lemma run_left cr (s s1 : RState V) :
  reconcile_found (E := LE) r cr s = (Ok tt, s1) ->
  exists cr1 st k sb l, cr1 = with_status cr st /\ rlog s1 = rlog s ++ k /\ left_as cr k cr1
  /\ reconcile_body (E := LE) r cr (s, nothing_learned) = (Ok tt, (sb, l))
  /\ fields s1 = fields sb /\ rs_metrics s1 = rs_metrics sb
  /\ (exists k', rlog s1 = rlog sb ++ k')
  /\ forall s2, exists cr2, (status.aggregateStatus (now (E := LE)) cr1 (componentConditions l)
       (componentsCollected l) (missingSecrets l) None s2).1 = (cr2, false).
Proof.
  unfold reconcile_found. pose proof (publishing.reconcile_body_learned (E := LE) r cr s) as Hl.
  pose proof (reconcile_body_trace r cr (s, nothing_learned)) as (kb & Hkb & Hb).
  destruct (reconcile_body (E := LE) r cr (s, nothing_learned)) as [res [sb l]]. intros Hok.
  apply publishing.update_status_ok in Hok as (-> & cr' & changed & s2 & Hagg & Hch).
  destruct Hl as (Hcol & Hn & Hex & _). cbn [fst snd] in *.
  apply body_no_status in Hb. unfold blog in Hkb. cbn in Hkb.
  assert (Hnames : NoDup (cc_Name <$> componentConditions l)) by (rewrite Hn; apply resolved_names).
  pose proof (publishing.examined_types _ Hex) as Htypes.
  pose proof (aggregate_clock cr (componentConditions l) (componentsCollected l) (missingSecrets l) None sb)
    as (Hlog & Hfld & Hmet & _).
  pose proof (status.aggregateStatus_status (now (E := LE)) cr (componentConditions l) (componentsCollected l)
    (missingSecrets l) None sb) as Hst.
  rewrite Hagg in Hlog, Hfld, Hmet, Hst. cbn [fst snd] in Hlog, Hfld, Hmet, Hst.
  destruct changed.
  - destruct Hch as (w & Hup & ->). exists cr', (cr_Status cr'), (kb ++ [CStatusUpdate cr']), sb, l.
    assert (Hw : wlog w = rlog s2 ++ [CStatusUpdate cr']).
    { unfold LE, logged_Env, log_call in Hup. cbn in Hup. destruct (status_Update cr' (rs_world s2).1) as [e0 w0].
      by injection Hup as _ <-. }
    assert (Hr1 : rlog (set_world w s2) = rlog sb ++ [CStatusUpdate cr']) by (unfold rlog at 1; cbn; by rewrite Hw, Hlog).
    split; [done|]. split; [by rewrite Hr1, Hkb, app_assoc|]. split; [right; by exists kb|]. split; [done|].
    split; [exact Hfld|]. split; [exact Hmet|]. split; [by eexists|]. intros s3. exists cr'.
    pose proof (status.aggregate_again (now (E := LE)) cr (componentConditions l) (componentsCollected l)
      (missingSecrets l) None sb s3 Hnames Htypes) as Ha.
    rewrite Hagg in Ha. exact Ha.
  - subst s1. exists cr, (cr_Status cr), kb, sb, l. split; [by destruct cr|].
    split; [by rewrite Hlog|]. split; [by left|]. split; [done|]. split; [done|]. split; [done|].
    split; [exists []; by rewrite app_nil_r|]. intros s3. exists cr'. rewrite Hcol in *.
    pose proof (status.aggregate_unwritten (now (E := LE)) cr (componentConditions l)
      (missingSecrets l) None sb s3 Hnames Htypes) as Ha.
    rewrite Hagg in Ha. cbn [fst] in Ha. by apply Ha.
Qed.

(** A later run on the resource as the first one left it. *)
Lemma rerun cr (s s1 : RState V) :
  fineV (rs_world s) -> reconcile_found (E := LE) r cr s = (Ok tt, s1) -> sentV (rs_world s1) ->
  exists cr1 k, rlog s1 = rlog s ++ k /\ left_as cr k cr1 /\
  forall s', fineV (rs_world s') -> fields s' = fields s1 ->
  exists s2 k', reconcile_found (E := LE) r cr1 s' = (Ok tt, s2)
    /\ rlog s2 = rlog s' ++ k' /\ Forall not_status k' /\ fields s2 = fields s1
    /\ metrics.AppliedConfig (rs_metrics s2) = metrics.AppliedConfig (rs_metrics s1).
Proof.
  intros Hs Hok Hsent.
  destruct (run_left cr s s1 Hok) as (cr1 & st & k & sb & l & -> & Hk & Hleft & Hbody & Hfld & Hmet & [kl Hkl] & Hagg).
  exists (with_status cr st), k. split; [exact Hk|]. split; [exact Hleft|]. intros s' Hs' Hf.
  assert (Hsb : sentV (rs_world sb)).
  { unfold sentV, rlog, wlog in *. rewrite Hkl in Hsent. by apply Forall_app in Hsent as [? _]. }
  destruct (body_again cr st s sb l Hs Hbody Hsb s' Hs') as (sb' & Hbody' & Hfb' & Hfld' & Hcfg).
  { by rewrite Hf. }
  pose proof (reconcile_body_trace r (with_status cr st) (s', nothing_learned)) as (k' & Hk' & Hb').
  apply body_no_status in Hb'. rewrite Hbody' in Hk'. unfold blog in Hk'. cbn in Hk'.
  unfold reconcile_found. rewrite Hbody'. unfold update_status, st_bind. cbn [reterr].
  pose proof (aggregate_clock (with_status cr st) (componentConditions l) (componentsCollected l)
    (missingSecrets l) None sb') as (Hlog & Hfld2 & Hmet2 & _).
  destruct (Hagg sb') as [cr2 Ha].
  destruct (status.aggregateStatus (now (E := LE)) (with_status cr st) _ _ _ None sb') as [[cr3 ch] s2].
  cbn in Ha. injection Ha as -> ->. cbn [fst snd] in *. exists s2, k'. split; [done|].
  split; [by rewrite Hlog|]. split; [exact Hb'|]. split; [by rewrite Hfld2, Hfld'|]. by rewrite Hmet2, Hcfg, Hmet.
Qed.

(** Later runs of the same process, on the same resource; in between, anything may happen to the
    cluster that keeps it looking the same. *)
Inductive later_runs (cr1 : HyperFleetConfig) : RState V -> list (outcome unit) -> RState V -> Prop :=
| later_none s : later_runs cr1 s [] s
| later_run s w res s2 l s3 :
    I w -> reconcile_found (E := LE) r cr1 (set_world (w, rlog s) s) = (res, s2) ->
    later_runs cr1 s2 l s3 -> later_runs cr1 s (res :: l) s3.

(** C7: a settled cluster is left alone.  When the cluster's answers no
    longer change, in particular not by applying again what a successful
    reconcile applied, and that reconcile left the resource as [cr1], with its
    status written or found up to date, then every later reconcile of [cr1]
    by the same process succeeds, writes no status, whatever the clock
    reads, and reports the same applied configuration: the operator does not wake itself for ever. *)
Theorem settled_left_alone cr (s s1 : RState V)
    (Hw : I (rs_world s).1)
    (Hok : reconcile_found (E := LE) r cr s = (Ok tt, s1))
    (Hsent : forall u owner force, CApply u owner force ∈ rlog s1 -> same_answers I (client_Apply u owner force)) :
  exists cr1 k, rlog s1 = rlog s ++ k /\ left_as cr k cr1 /\
  forall l s3, later_runs cr1 s1 l s3 ->
    Forall (fun res => res = Ok tt) l
    /\ (exists k', rlog s3 = rlog s1 ++ k' /\ Forall not_status k')
    /\ metrics.AppliedConfig (rs_metrics s3) = metrics.AppliedConfig (rs_metrics s1).
Proof.
  assert (Hsv : sentV (rs_world s1)).
  { apply Forall_forall. intros [] Hc; try done. by apply Hsent. }
  destruct (rerun cr s s1 Hw Hok Hsv) as (cr1 & k & Hk & Hleft & Hre). exists cr1, k.
  split; [exact Hk|]. split; [exact Hleft|]. intros l s3 Hl.
  assert (Hgen : forall s0, later_runs cr1 s0 l s3 -> fields s0 = fields s1 ->
    Forall (fun res => res = Ok tt) l /\ (exists k', rlog s3 = rlog s0 ++ k' /\ Forall not_status k')
    /\ (l <> [] -> metrics.AppliedConfig (rs_metrics s3) = metrics.AppliedConfig (rs_metrics s1))).
  { clear Hl. intros s0 Hl. induction Hl as [s0|s0 w res s2 l s3 Hw0 Hrun Hl IH]; intros Hf.
    { split; [constructor|]. split; [exists []; by rewrite app_nil_r|done]. }
    destruct (Hre (set_world (w, rlog s0) s0) Hw0 Hf) as (s2' & k1 & Hrun' & Hk1 & Hn1 & Hf1 & Hc1).
    rewrite Hrun in Hrun'. injection Hrun' as -> ->. destruct (IH Hf1) as (Hok' & (k2 & Hk2 & Hn2) & Hc2).
    split; [by constructor|]. split.
    - exists (k1 ++ k2). rewrite Hk2, Hk1. split; [by rewrite app_assoc|]. by apply Forall_app.
    - intros _. destruct Hl; [exact Hc1|by apply Hc2]. }
  destruct (Hgen s1 Hl eq_refl) as (H1 & H2 & H3). split; [exact H1|]. split; [exact H2|].
  destruct Hl; [done|by apply H3].
Qed.

End body.

End settled.
(** ** The simulated cluster settles *)

Definition looks (secrets : gmap string Secret) (deps : gmap string Deployment) (http : gmap string Response)
    (w : Sim) : Prop :=
  sim_secrets w = secrets /\ sim_deployments w = deps /\ sim_http w = http.

#[global] Instance sim_Settled secrets deps http : Settled (looks secrets deps http).
Proof.
  constructor.
  - done.
  - intros ns n w w' (E1 & E2 & E3) (F1 & F2 & F3). cbn. by rewrite E1, F1.
  - intros ns n w w' (E1 & E2 & E3) (F1 & F2 & F3). cbn. by rewrite E2, F2.
  - intros rd o w w' (E1 & E2 & E3) (F1 & F2 & F3). cbn. split; [|done]. unfold sim_get. by rewrite E2, F2.
  - intros c url w w' (E1 & E2 & E3) (F1 & F2 & F3). cbn. by rewrite E3, F3.
  - intros cr st o. by destruct o.
Qed.

Lemma looks_self w : looks (sim_secrets w) (sim_deployments w) (sim_http w) w.
Proof. by split_and!. Qed.

(** An apply of what is already there. *)
Lemma sim_reapply secrets deps http (u : Object) owner force :
  (forall d, u = ODeployment d -> deps !! dep_Name d = Some (rolled_out d)) ->
  same_answers (looks secrets deps http) (client_Apply (Env := sim_Env) u owner force).
Proof.
  intros Hu w w' (E1 & E2 & E3) _. split; [done|]. unfold looks. cbn. split; [done|]. split; [|done].
  destruct u as [d| | | | | |]; try done. rewrite E2. by apply insert_id, Hu.
Qed.

Definition applied_deployments (k : list (Call Object)) : list Deployment :=
  omap (fun c => match c with CApply (ODeployment d) _ _ => Some d | _ => None end) k.

Lemma map_eq_elem {A B} (f g : A -> B) l x : map f l = map g l -> x ∈ l -> f x = g x.
Proof.
  induction l as [|a l IH]; intros E Hx; [by apply not_elem_of_nil in Hx|]. injection E as E1 E2.
  apply elem_of_cons in Hx as [->|Hx]; auto.
Qed.

(** The simulated cluster after a first reconcile, and a run on it. *)
Definition settled_world : Sim :=
  rs_world (reconcile_found (Y := api.toy_yaml) demo_settings live.demo_live_cr live.demo_live_state).2.
Definition settled_start : RState (Sim * list (Call Object)) :=
  mkRState (settled_world, []) None None metrics.zeroMetrics.
Definition settled_run : outcome unit * RState (Sim * list (Call Object)) :=
  reconcile_found (E := LE (E := sim_Env)) (Y := api.toy_yaml) demo_settings live.demo_live_cr settled_start.

(** Logging the calls keeps a cluster healthy. *)
Lemma logged_Healthy {W} `{E : Env W} `{H : !Healthy W} : Healthy (W * list (Call Unstructured)) (Env0 := LE).
Proof.
  constructor.
  - intros ns n [w k]. destruct (secret_readable ns n w) as (g & w' & Hg & He).
    exists g, (w', k ++ [CGetSecret ns n]). split; [|exact He]. cbn. unfold log_call. cbn. by rewrite Hg.
  - intros cr o. exact (owner_settable (W := W) cr o).
  - intros o. exact (convertible (W := W) o).
  - intros o u [w k] Hu. destruct (appliable (W := W) o u w Hu) as (w1 & H1 & H2). eexists. cbn. unfold log_call. cbn.
    rewrite H1. split; [done|]. intros rd. destruct (H2 rd) as (o' & w2 & H3). exists o'. eexists. cbn.
    by rewrite H3.
  - intros cr [w k]. destruct (status_updatable cr w) as [w' H1]. eexists. cbn. unfold log_call. cbn. by rewrite H1.
Qed.

Lemma settled_run_ok :
  reconcile_found (E := LE (E := sim_Env)) (Y := api.toy_yaml) demo_settings live.demo_live_cr settled_start
  = (Ok tt, settled_run.2).
Proof.
  fold settled_run.
  assert (Hok : is_ok settled_run.1 = true).
  { apply (live.reconcile_found_ok (E := LE (E := sim_Env)) (HW := logged_Healthy) (Y := api.toy_yaml) demo_settings
      live.demo_live_cr (sentinel.mkBrokerInfo sentinel.BrokerTypeRabbitMQ "") live.demo_yaml_total live.demo_valid).
    intros s. by exists "", s. }
  destruct settled_run as [[[]|e|] s]; done.
Qed.

(** Every Deployment the run applied was there already. *)
Lemma settled_deployments :
  map (fun d => sim_deployments settled_world !! dep_Name d) (applied_deployments (rlog (E := sim_Env) settled_run.2))
  = map (fun d => Some (rolled_out d)) (applied_deployments (rlog (E := sim_Env) settled_run.2)).
Proof. vm_compute. reflexivity. Qed.

#[local] Opaque settled_world settled_run.

Lemma settled_left_alone_witness :
  exists cr1 k, rlog (E := sim_Env) settled_run.2 = rlog (E := sim_Env) settled_start ++ k /\ left_as (EB := sim_Env) live.demo_live_cr k cr1
  /\ forall l s3, later_runs (EB := sim_Env)
       (looks (sim_secrets settled_world) (sim_deployments settled_world) (sim_http settled_world))
       (Y := api.toy_yaml) demo_settings cr1 settled_run.2 l s3 -> Forall (fun res => res = Ok tt) l.
Proof.
  pose proof settled_deployments as Hdeps.
  destruct (settled_left_alone (EB := sim_Env)
    (looks (sim_secrets settled_world) (sim_deployments settled_world) (sim_http settled_world))
    (Y := api.toy_yaml) demo_settings live.demo_live_cr settled_start settled_run.2) as (cr1 & k & Hk & Hl & Hr).
  - exact (looks_self settled_world).
  - exact settled_run_ok.
  - intros u owner force Hin. apply sim_reapply. intros d ->.
    apply (map_eq_elem _ _ _ d Hdeps). unfold applied_deployments. apply list_elem_of_omap.
    exists (CApply (ODeployment d) owner force). split; [exact Hin|reflexivity].
  - exists cr1, k. split; [exact Hk|]. split; [exact Hl|]. intros l s3 Hlater.
    exact (proj1 (Hr l s3 Hlater)).
Defined.

End quiescence.
