(* ===== verification/Operands.v ===== *)
(** * The operands of a bundle, together

    What the components of one configuration render, taken together: every
    object is of a type the controller owns, lives in the operator's
    namespace, and no two of them are the same object. *)

From S2P Require Import Prelude Kube ConfigTypes Json Url JsonDecode Contract Api Sentinel Bundle NetAddr.
From S2P Require Import DiscoveryGuard Sha256 Env ConfigHash Metrics State Jwks Status Apply.
From S2P Require Import Observability Sim Reconciler ReconcilerMetrics ReconcilerCalls.

Module operands.
Import reconciler calls.

(** The identity of an object within its namespace. *)
Definition identity (o : Object) : ObjectType * string := (obj_type o, obj_Name o).

(** The identities a component renders under. *)
Definition identities (c : bundle.Component) : list (ObjectType * string) :=
  match c with
  | bundle.API a =>
      [(TServiceAccount, api.ResourceName); (TRole, api.ResourceName); (TRoleBinding, api.ResourceName);
       (TConfigMap, api.ConfigMapName_); (TService, api.ResourceName); (TDeployment, api.ResourceName)]
  | bundle.Sentinel s =>
      let rt := sentinel.ResourceType s in
      [(TServiceAccount, sentinel.ResourceName rt); (TConfigMap, sentinel.ConfigMapName_ rt);
       (TConfigMap, sentinel.BrokerConfigMapName rt); (TNetworkPolicy, sentinel.ResourceName rt);
       (TDeployment, sentinel.ResourceName rt)]
  end.

Definition namespace_of (c : bundle.Component) : string :=
  match c with bundle.API a => api.Namespace a | bundle.Sentinel s => sentinel.Namespace s end.

Section render.
Context `{Y : YamlLib}.

Lemma render_identities (c : bundle.Component) cr objs :
  cRender c cr = Ok objs ->
  identity <$> objs = identities c /\ Forall (fun o => obj_Namespace o = namespace_of c) objs.
Proof.
  destruct c as [a|s]; cbn [cRender bundle.bundle_IsComponent]; intros Hr.
  - apply api.api_Render_ok in Hr as (image & y & _ & ->). split; [done|]. by repeat constructor.
  - apply sentinel.sentinel_Render_ok in Hr as (b & y1 & y2 & _ & _ & _ & _ & ->). split; [done|].
    by repeat constructor.
Qed.

Lemma configured_cloud r cr comps url :
  bundle.Resolve (spec_Bundle (cr_Spec cr)) (bundle_config r) = Ok comps ->
  configured r cr url
  = bundle.SetResolvedJWKSURL (bundle.SetAPIBaseURL (bundle.cloud_components (bundle_config r))
      (api.APIBaseURL cr (OperatorNamespace r))) url.
Proof.
  intros Hr. unfold configured, resolved. rewrite Hr. by apply bundle.Resolve_ok in Hr as (_ & _ & ->).
Qed.

(** Every object of a list of rendered components. *)
Definition all_objects (cr : HyperFleetConfig) (comps : list bundle.Component) : list Object :=
  comps ≫= fun c => match cRender c cr with Ok objs => objs | _ => [] end.

Lemma all_identities cr comps :
  sublist (identity <$> all_objects cr comps) (comps ≫= identities).
Proof.
  unfold all_objects. induction comps as [|c comps IH]; [done|].
  rewrite !bind_cons, fmap_app. apply sublist_app; [|exact IH].
  destruct (cRender c cr) as [objs|e|] eqn:Er; [|apply sublist_nil_l..].
  by destruct (render_identities c cr objs Er) as [-> _].
Qed.

Lemma cloud_identities r v u :
  bundle.SetResolvedJWKSURL (bundle.SetAPIBaseURL (bundle.cloud_components (bundle_config r)) v) u ≫= identities
  = bundle.cloud_components (bundle.demo_config) ≫= identities.
Proof. reflexivity. Qed.

(** C26: the controller owns and caches what it applies: whatever the
    bundle resolves to, every object the components render has one of the
    registered operand types, is in the operator's namespace, and no two
    objects of one configuration share type and name, so no two applies of a
    reconcile fight over an object. *)
Theorem operands_owned (r : Settings) cr comps url
    (Hr : bundle.Resolve (spec_Bundle (cr_Spec cr)) (bundle_config r) = Ok comps) :
  let objs := all_objects cr (configured r cr url) in
  Forall (fun o => obj_type o ∈ NamespacedOperandTypes /\ obj_Namespace o = OperatorNamespace r) objs
  /\ NoDup (identity <$> objs).
Proof.
  cbv zeta. rewrite (configured_cloud r cr comps url Hr).
  set (cs := bundle.SetResolvedJWKSURL _ url). split.
  - assert (Hns : Forall (fun c => namespace_of c = OperatorNamespace r) cs) by (by repeat constructor).
    unfold all_objects. apply Forall_forall. intros o Ho.
    apply list_elem_of_bind in Ho as (c & Ho & Hc). rewrite Forall_forall in Hns.
    destruct (cRender c cr) as [objs|e|] eqn:Er; [|by apply not_elem_of_nil in Ho..].
    destruct (render_identities c cr objs Er) as [_ Hobj]. rewrite Forall_forall in Hobj.
    split; [|by rewrite (Hobj o Ho), (Hns c Hc)].
    unfold NamespacedOperandTypes. destruct o; cbn; set_solver.
  - eapply sublist_NoDup; [|apply all_identities]. unfold cs. rewrite cloud_identities.
    apply (bool_decide_unpack _). vm_compute. exact I.
Qed.

End render.

Lemma operands_owned_witness :
  length (all_objects (Y := api.toy_yaml) apply.demo_apply_cr
    (configured demo_settings apply.demo_apply_cr "")) = 31%nat
  /\ NoDup (identity <$> all_objects (Y := api.toy_yaml) apply.demo_apply_cr
       (configured demo_settings apply.demo_apply_cr "")).
Proof.
  split; [vm_compute; reflexivity|].
  apply (operands_owned (Y := api.toy_yaml) demo_settings apply.demo_apply_cr
    (bundle.cloud_components (bundle_config demo_settings)) ""). reflexivity.
Defined.

(** What the controller asks the manager for. *)
Definition registered (setup : ControllerSetup) : Prop :=
  setup_For setup = "HyperFleetConfig" /\ setup_Owns setup = NamespacedOperandTypes
  /\ setup_Watches setup = [(TSecret, "ResourceVersionChangedPredicate")]
  /\ setup_Named setup = "hyperfleetconfig".

(** The controller is registered for the resource, owns exactly the
    operand types, each once, and watches Secrets without owning them; a change of a Secret
    wakes the singleton exactly when it is in the operator's namespace; and a
    failed registration keeps its cause. *)
Theorem setup_spec (r : Settings) (complete : ControllerSetup -> option error) ns :
  (exists setup, registered setup /\ NoDup (setup_Owns setup) /\ (TSecret ∉ setup_Owns setup)
   /\ (SetupWithManager complete = None <-> complete setup = None)
   /\ forall err, SetupWithManager complete = Some err <->
        exists e, complete setup = Some e /\ err = Wrapf "complete hyperfleetconfig controller: %w" [] e)
  /\ (SingletonName ∈ mapSecretToConfig r ns <-> ns = OperatorNamespace r).
Proof.
  unfold SetupWithManager. set (setup := controllerSetup). split.
  - exists setup. split; [done|]. split; [|split; [|split]].
    + apply (bool_decide_unpack _). vm_compute. exact I.
    + apply (bool_decide_unpack _). vm_compute. exact I.
    + by destruct (complete setup).
    + intros err. destruct (complete setup) as [e|]; cbn.
      * split; [intros [= <-]; by exists e|]. by intros (e' & [= <-] & ->).
      * split; [done|]. by intros (e & ? & _).
  - unfold mapSecretToConfig. destruct (String.eqb_spec ns (OperatorNamespace r)) as [->|Hne]; cbn.
    + split; [done|]. intros _. left.
    + split; [|done]. intros H. by apply not_elem_of_nil in H.
Qed.

End operands.
