(* ===== verification/Flags.v ===== *)
(** * Command-line flags

    The flags [main] of [cmd/main.go] declares, as a table of names and defaults,
    and the parser of Go's [flag] package with its [ExitOnError] behaviour.
    The logging flags that the zap options add are the class [ZapFlags]. *)

From S2P Require Import Prelude.

Module flags.

(** A [StringVar] or [BoolVar] call, with the default. *)
Inductive FlagVar := StringVar (value : string) | BoolVar (value : bool).

(** The value of the variable a flag is bound to. *)
Inductive FlagValue := StringValue (s : string) | BoolValue (b : bool).

#[global] Instance FlagVar_eq_dec : EqDecision FlagVar.
Proof. solve_decision. Defined.

#[global] Instance FlagValue_eq_dec : EqDecision FlagValue.
Proof. solve_decision. Defined.

Definition flag_table : list (string * FlagVar) :=
  [("metrics-bind-address", StringVar ":9090");
   ("health-probe-bind-address", StringVar ":8080");
   ("leader-elect", BoolVar false);
   ("metrics-secure", BoolVar false);
   ("metrics-service-monitor-enabled", BoolVar true);
   ("metrics-service-monitor-ca-secret-name", StringVar "");
   ("metrics-service-monitor-ca-secret-key", StringVar "");
   ("metrics-service-monitor-server-name", StringVar "");
   ("metrics-service-monitor-authorization-secret-name", StringVar "");
   ("metrics-service-monitor-authorization-secret-key", StringVar "");
   ("webhook-cert-path", StringVar "");
   ("webhook-cert-name", StringVar "tls.crt");
   ("webhook-cert-key", StringVar "tls.key");
   ("metrics-cert-path", StringVar "");
   ("metrics-cert-name", StringVar "tls.crt");
   ("metrics-cert-key", StringVar "tls.key");
   ("enable-http2", BoolVar false)].

(** The variables, by the name of their flag. *)
Abbreviation Flags := (gmap string FlagValue).

Definition initial (v : FlagVar) : FlagValue :=
  match v with StringVar s => StringValue s | BoolVar b => BoolValue b end.
Definition defaults : Flags := list_to_map (prod_map id initial <$> flag_table).

Definition string_var (fl : Flags) (name : string) : string :=
  match fl !! name with Some (StringValue s) => s | _ => "" end.
Definition bool_var (fl : Flags) (name : string) : bool :=
  match fl !! name with Some (BoolValue b) => b | _ => false end.

Section variables.
Context (fl : Flags).
Definition metricsAddr := string_var fl "metrics-bind-address".
Definition probeAddr := string_var fl "health-probe-bind-address".
Definition enableLeaderElection := bool_var fl "leader-elect".
Definition secureMetrics := bool_var fl "metrics-secure".
Definition serviceMonitorEnabled := bool_var fl "metrics-service-monitor-enabled".
Definition metricsServiceMonitorCASecretName := string_var fl "metrics-service-monitor-ca-secret-name".
Definition metricsServiceMonitorCASecretKey := string_var fl "metrics-service-monitor-ca-secret-key".
Definition metricsServiceMonitorServerName := string_var fl "metrics-service-monitor-server-name".
Definition metricsServiceMonitorAuthorizationSecretName :=
  string_var fl "metrics-service-monitor-authorization-secret-name".
Definition metricsServiceMonitorAuthorizationSecretKey :=
  string_var fl "metrics-service-monitor-authorization-secret-key".
Definition webhookCertPath := string_var fl "webhook-cert-path".
Definition webhookCertName := string_var fl "webhook-cert-name".
Definition webhookCertKey := string_var fl "webhook-cert-key".
Definition metricsCertPath := string_var fl "metrics-cert-path".
Definition metricsCertName := string_var fl "metrics-cert-name".
Definition metricsCertKey := string_var fl "metrics-cert-key".
Definition enableHTTP2 := bool_var fl "enable-http2".
End variables.

(** ** [flag.Parse] *)

(** [strconv.ParseBool]. *)
Definition ParseBool (s : string) : option bool :=
  if bool_decide (s ∈ ["1"; "t"; "T"; "true"; "TRUE"; "True"]) then Some true
  else if bool_decide (s ∈ ["0"; "f"; "F"; "false"; "FALSE"; "False"]) then Some false
  else None.

(** [Set] of a flag's value. *)
Definition set_var (v : FlagVar) (s : string) : option FlagValue :=
  match v with StringVar _ => Some (StringValue s) | BoolVar _ => BoolValue <$> ParseBool s end.

(** A registered flag: whether it is boolean, and the effect of setting it. *)
Record Flag := mkFlag { IsBoolFlag : bool; Set_ : string -> Flags -> option Flags }.

(** The flags of the zap options: which are boolean, and which texts they take. *)
Class ZapFlags := { zap_flag : string -> option (bool * (string -> bool)) }.

Definition lookup_table (name : string) : option FlagVar := list_to_map (M := gmap string _) flag_table !! name.

Definition lookup_flag `{ZapFlags} (name : string) : option Flag :=
  match lookup_table name with
  | Some v =>
      Some (mkFlag (match v with BoolVar _ => true | _ => false end)
        (fun s (fl : Flags) => (fun x : FlagValue => <[name := x]> fl : Flags) <$> set_var v s))
  | None =>
      (fun z : bool * (string -> bool) => mkFlag z.1 (fun s fl => if z.2 s then Some fl else None)) <$> zap_flag name
  end.

(** How [ExitOnError] ends the process: asked for help, or told something wrong. *)
Inductive Exit := ExitHelp | ExitUsage (e : error).

Definition exit_code (e : Exit) : Z := match e with ExitHelp => 0 | ExitUsage _ => 2 end.

(** Cuts [name=value]; the name is not empty and starts with neither [-] nor [=]. *)
Fixpoint cut_value (s : string) : string * option string :=
  match s with
  | "" => ("", None)
  | String c s' =>
      if Ascii.eqb c "=" then ("", Some s') else let '(n, v) := cut_value s' in (String c n, v)
  end.

Definition bad_name (name : string) : bool :=
  match name with "" => true | String c _ => Ascii.eqb c "-" || Ascii.eqb c "=" end.

(** The text behind one or two dashes; [None] for an argument that ends the flags. *)
Definition strip_dashes (s : string) : option string :=
  match s with
  | String "-" (String "-" "") => None
  | String "-" (String "-" name) => Some name
  | String "-" "" => None
  | String "-" name => Some name
  | _ => None
  end.

Definition set_flag (f : Flag) (name value : string) (fl : Flags) : Exit + Flags :=
  match Set_ f value fl with
  | Some fl' => inr fl'
  | None => inl (ExitUsage (Errorf "invalid value %q for flag -%s" [value; name]))
  end.

Fixpoint Parse `{ZapFlags} (args : list string) (fl : Flags) : Exit + Flags :=
  match args with
  | [] => inr fl
  | s :: args' =>
      match strip_dashes s with
      | None => inr fl
      | Some text =>
          if bad_name text then inl (ExitUsage (Errorf "bad flag syntax: %s" [s])) else
          let '(name, value) := cut_value text in
          match lookup_flag name with
          | None =>
              if String.eqb name "help" || String.eqb name "h" then inl ExitHelp
              else inl (ExitUsage (Errorf "flag provided but not defined: -%s" [name]))
          | Some f =>
              match value with
              | Some v =>
                  match set_flag f name v fl with inl e => inl e | inr fl' => Parse args' fl' end
              | None =>
                  if IsBoolFlag f then
                    match set_flag f name "true" fl with inl e => inl e | inr fl' => Parse args' fl' end
                  else match args' with
                       | [] => inl (ExitUsage (Errorf "flag needs an argument: -%s" [name]))
                       | v :: args'' =>
                           match set_flag f name v fl with inl e => inl e | inr fl' => Parse args'' fl' end
                       end
              end
          end
      end
  end.

(** The flags of a process started with these arguments. *)
Definition parse_flags `{ZapFlags} (args : list string) : Exit + Flags := Parse args defaults.

(** ** Writing flags down *)

Definition print_value (v : FlagValue) : string :=
  match v with StringValue s => s | BoolValue true => "true" | BoolValue false => "false" end.

(** [--name=value]. *)
Definition print_flag (name : string) (v : FlagValue) : string :=
  "--" +:+ name +:+ "=" +:+ print_value v.

Definition print_flags (fl : Flags) : list string :=
  (fun nv => print_flag nv.1 (default (initial nv.2) (fl !! nv.1))) <$> flag_table.

(** Flags of the declared names, each with a value of its declared kind. *)
Definition has_kind (v : FlagVar) (x : FlagValue) : bool :=
  match v, x with StringVar _, StringValue _ | BoolVar _, BoolValue _ => true | _, _ => false end.

Definition well_formed (fl : Flags) : Prop :=
  forall name, match lookup_table name with
               | Some v => exists x, fl !! name = Some x /\ has_kind v x = true
               | None => fl !! name = None
               end.

Section parsing.
Context `{Z : ZapFlags}.

Lemma cut_value_app name v : (forall c, c ∈ String.list_ascii_of_string name -> c <> "="%char) ->
  cut_value (name +:+ "=" +:+ v) = (name, Some v).
Proof.
  induction name as [|c name IH]; intros Hn; [done|]. rewrite string_app_cons. cbn.
  destruct (Ascii.eqb_spec c "=") as [->|_]; [by destruct (Hn "="%char); [left|]|].
  by rewrite IH by (intros d Hd; apply Hn; by right).
Qed.

(** A name that can stand between the dashes and the equals sign. *)
Definition plain_name (name : string) : bool :=
  negb (bad_name name) && forallb (fun c => negb (Ascii.eqb c "=")) (String.list_ascii_of_string name).

Lemma table_names_plain : forallb (fun nv => plain_name nv.1) flag_table = true.
Proof. reflexivity. Qed.

Lemma table_names_distinct : NoDup (flag_table.*1).
Proof. apply (bool_decide_unpack _). vm_compute. exact I. Qed.

Lemma lookup_table_in name v : (name, v) ∈ flag_table -> lookup_table name = Some v.
Proof. intros H. apply elem_of_list_to_map; [exact table_names_distinct|exact H]. Qed.

Lemma lookup_table_Some name v : lookup_table name = Some v -> (name, v) ∈ flag_table.
Proof. apply elem_of_list_to_map_2. Qed.

(** The table is only evaluated by [vm_compute] from here on. *)
#[local] Opaque flag_table lookup_table defaults.

Lemma set_var_print v x : has_kind v x = true -> set_var v (print_value x) = Some x.
Proof. by destruct v, x as [|[]]. Qed.

(** Parsing one printed flag sets its variable. *)
Lemma Parse_print name v x args fl :
  (name, v) ∈ flag_table -> has_kind v x = true ->
  Parse (print_flag name x :: args) fl = Parse args (<[name := x]> fl).
Proof.
  intros Hin Hk. pose proof table_names_plain as Hp. rewrite forallb_forall in Hp.
  specialize (Hp _ (proj1 (list_elem_of_In _ _) Hin)). cbn in Hp.
  apply andb_prop in Hp as [Hb Hc]. rewrite forallb_forall in Hc.
  assert (Hs : strip_dashes (print_flag name x) = Some (name +:+ "=" +:+ print_value x)).
  { unfold print_flag. destruct name as [|c name]; [done|]. reflexivity. }
  cbn [Parse]. rewrite Hs, cut_value_app.
  - assert (Hb' : bad_name (name +:+ "=" +:+ print_value x) = false) by (destruct name as [|c n]; [done|]; by apply negb_true_iff).
    rewrite Hb'. unfold lookup_flag. rewrite (lookup_table_in name v Hin). unfold set_flag. cbn.
    by rewrite set_var_print.
  - intros c Hin'. apply list_elem_of_In in Hin'. specialize (Hc c Hin'). apply negb_true_iff in Hc.
    by apply Ascii.eqb_neq.
Qed.

(** A bare Boolean flag switches its variable on. *)
Lemma Parse_bare name d args fl : (name, BoolVar d) ∈ flag_table ->
  Parse (("--" +:+ name) :: args) fl = Parse args (<[name := BoolValue true]> fl).
Proof.
  intros Hin. pose proof table_names_plain as Hp. rewrite forallb_forall in Hp.
  specialize (Hp _ (proj1 (list_elem_of_In _ _) Hin)). cbn in Hp.
  apply andb_prop in Hp as [Hb Hc]. rewrite forallb_forall in Hc.
  assert (Hcut : cut_value name = (name, None)).
  { clear Hin Hb. induction name as [|x name IH]; [done|]. cbn.
    pose proof (Hc x (or_introl eq_refl)) as Hx. apply negb_true_iff in Hx. rewrite Hx.
    rewrite IH; [done|]. intros y Hy. apply Hc. by right. }
  assert (Hs : strip_dashes ("--" +:+ name) = Some name) by (destruct name; [done|reflexivity]).
  cbn [Parse]. rewrite Hs, (proj1 (negb_true_iff _) Hb), Hcut. unfold lookup_flag.
  by rewrite (lookup_table_in name _ Hin).
Qed.

Lemma Parse_prints (fl : Flags) l acc :
  well_formed fl -> l ⊆ flag_table ->
  Parse ((fun nv => print_flag nv.1 (default (initial nv.2) (fl !! nv.1))) <$> l) acc
  = inr (foldl (fun m nv => <[nv.1 := default (initial nv.2) (fl !! nv.1)]> m) acc l).
Proof.
  intros Hw. revert acc. induction l as [|[name v] l IH]; intros acc Hl; [done|].
  assert (Hin : (name, v) ∈ flag_table) by (apply Hl; left).
  cbn [fmap list_fmap foldl fst snd]. rewrite (Parse_print name v).
  - apply IH. intros x Hx. apply Hl. by right.
  - done.
  - specialize (Hw name). rewrite (lookup_table_in name v Hin) in Hw.
    by destruct Hw as (x & -> & ?).
Qed.

Lemma foldl_insert_lookup (fl : Flags) l (acc : Flags) name :
  Forall (fun nv => is_Some (fl !! nv.1)) l ->
  foldl (fun m (nv : string * FlagVar) => <[nv.1 := default (initial nv.2) (fl !! nv.1)]> m) acc l !! name
  = if decide (name ∈ l.*1) then fl !! name else acc !! name.
Proof.
  intros Hl. revert acc. induction Hl as [|[n v] l [x Hx] Hl IH]; intros acc; [done|].
  cbn [foldl fst snd] in *. rewrite IH, Hx. cbn.
  destruct (decide (name ∈ l.*1)); [by rewrite decide_True by (by right)|].
  destruct (decide (name = n)) as [->|Hne].
  - by rewrite lookup_insert_eq, decide_True by (by left).
  - rewrite lookup_insert_ne by done. rewrite decide_False; [done|]. by intros [?|?]%elem_of_cons.
Qed.

Lemma well_formed_defined (fl : Flags) nv : well_formed fl -> nv ∈ flag_table -> is_Some (fl !! nv.1).
Proof.
  destruct nv as [name v]. intros Hw Hin. specialize (Hw name). rewrite (lookup_table_in name v Hin) in Hw.
  destruct Hw as (x & Hx & _). by exists x.
Qed.

(** The command line determines the settings and every setting can be
    said: parsing the flags as printed, one [--name=value] per flag, from any
    well-formed starting point gives back exactly the printed settings, whatever
    texts the values hold (spaces, dashes, equals signs, nothing at all). *)
Theorem parse_print (fl start : Flags) (Hw : well_formed fl) (Hs : well_formed start) :
  Parse (print_flags fl) start = inr fl.
Proof.
  unfold print_flags. rewrite Parse_prints by done. f_equal. apply map_eq. intros name.
  rewrite foldl_insert_lookup by (apply Forall_forall; intros; by apply well_formed_defined).
  destruct (decide (name ∈ flag_table.*1)) as [|Hn]; [done|].
  assert (Hnone : lookup_table name = None).
  { destruct (lookup_table name) as [v|] eqn:E; [|done]. destruct Hn. apply lookup_table_Some in E.
    exact (list_elem_of_fmap_2 fst _ _ E). }
  specialize (Hw name). specialize (Hs name). rewrite Hnone in Hw, Hs. congruence.
Qed.

End parsing.

#[local] Opaque flag_table lookup_table.

Lemma defaults_well_formed : well_formed defaults.
Proof.
  intros name. destruct (lookup_table name) as [v|] eqn:E.
  - exists (initial v). split; [|by destruct v]. apply lookup_table_Some in E.
    apply elem_of_list_to_map; [rewrite <-list_fmap_compose; exact table_names_distinct|].
    apply list_elem_of_fmap. by exists (name, v).
  - apply not_elem_of_list_to_map_1. intros H. rewrite <-list_fmap_compose in H.
    apply list_elem_of_fmap in H as ([n v] & -> & Hin).
    apply lookup_table_in in Hin. change ((fst ∘ prod_map id initial) (n, v)) with n in E. congruence.
Qed.

#[local] Opaque defaults.

(** Setting one flag to a value of its kind keeps the settings well formed. *)
Lemma insert_well_formed (fl : Flags) name v x :
  well_formed fl -> lookup_table name = Some v -> has_kind v x = true -> well_formed (<[name := x]> fl).
Proof.
  intros Hw Hv Hk n. destruct (decide (n = name)) as [->|Hne].
  - rewrite Hv. exists x. split; [apply lookup_insert_eq|exact Hk].
  - rewrite lookup_insert_ne by done. apply Hw.
Qed.

Lemma Set_well_formed `{ZapFlags} name f s fl fl' :
  lookup_flag name = Some f -> Set_ f s fl = Some fl' -> well_formed fl -> well_formed fl'.
Proof.
  unfold lookup_flag. destruct (lookup_table name) as [v|] eqn:Ev.
  - intros [= <-]. cbn. intros Hs Hw. apply fmap_Some in Hs as (x & Hx & ->).
    apply (insert_well_formed fl name v); [done|done|]. destruct v; cbn in Hx.
    + by injection Hx as <-.
    + by apply fmap_Some in Hx as (? & _ & ->).
  - intros Hz. apply fmap_Some in Hz as (z & _ & ->). cbn. intros Hs. destruct (z.2 s); [|discriminate Hs]. injection Hs as <-. exact id.
Qed.

(** How parsing ended: with settings, or with one of the two exit statuses. *)
Definition parsed_well (r : Exit + Flags) : Prop :=
  match r with
  | inr fl => well_formed fl
  | inl ExitHelp => exit_code ExitHelp = 0%Z
  | inl (ExitUsage e) => exit_code (ExitUsage e) = 2%Z
  end.

Lemma set_flag_well `{ZapFlags} name f value (fl : Flags) (k : Flags -> Exit + Flags) :
  lookup_flag name = Some f -> well_formed fl ->
  (forall fl', well_formed fl' -> parsed_well (k fl')) ->
  parsed_well (match set_flag f name value fl with inl e => inl e | inr fl' => k fl' end).
Proof.
  intros Hf Hw Hk. unfold set_flag. destruct (Set_ f value fl) as [fl'|] eqn:Es; [|done].
  apply Hk. by eapply Set_well_formed.
Qed.

Lemma Parse_well `{ZapFlags} n args fl :
  (length args <= n)%nat -> well_formed fl -> parsed_well (Parse args fl).
Proof.
  revert args fl. induction n as [|n IH]; intros [|s args] fl Hn Hw; [exact Hw|cbn in Hn; lia|exact Hw|].
  cbn in Hn.
  cbn [Parse]. destruct (strip_dashes s) as [text|]; [|done]. destruct (bad_name text); [done|].
  destruct (cut_value text) as [name value]. destruct (lookup_flag name) as [f|] eqn:Ef.
  2: { by destruct (String.eqb name "help" || String.eqb name "h"). }
  assert (Hargs : forall fl', well_formed fl' -> parsed_well (Parse args fl')) by (intros; apply IH; [lia|done]).
  destruct value as [v|]; [by apply set_flag_well|].
  destruct (IsBoolFlag f); [by apply set_flag_well|]. destruct args as [|v args]; [done|].
  apply set_flag_well; [done..|]. intros fl' Hw'. apply IH; [cbn in Hn; lia|done].
Qed.

(** Whatever the arguments, parsing keeps every variable of its declared
    kind, so that after start-up each flag has a value; the process ends with status 0
    only when help was asked for, and with status 2 on anything malformed. *)
Theorem parse_well_formed `{ZapFlags} args : parsed_well (parse_flags args).
Proof. by apply (Parse_well (length args)), defaults_well_formed. Qed.

(** No logging flags, for concrete runs. *)
Definition no_zap : ZapFlags := {| zap_flag := fun _ => None |}.

Example parse_demo :
  match parse_flags (H := no_zap) ["--metrics-secure"; "-metrics-cert-path"; "/certs"; "--leader-elect=T"; "rest"] with
  | inr fl => (secureMetrics fl, metricsCertPath fl, enableLeaderElection fl, metricsAddr fl)
  | inl _ => (false, "", false, "")
  end = (true, "/certs", true, ":9090").
Proof. vm_compute. reflexivity. Qed.

Lemma parse_print_witness :
  Parse (H := no_zap) (print_flags (<["metrics-cert-path" := StringValue "--a=b"]> defaults)) defaults
  = inr (<["metrics-cert-path" := StringValue "--a=b"]> defaults).
Proof.
  apply (parse_print (Z := no_zap)); [|exact defaults_well_formed].
  apply (insert_well_formed defaults _ (StringVar "")); [exact defaults_well_formed|vm_compute; reflexivity|reflexivity].
Defined.

End flags.
