(* ===== verification/ServiceMonitor.v ===== *)
(** * The ServiceMonitor bootstrap

    [internal/servicemonitor/servicemonitor.go]: what a scrape configuration
    must say, the object that is built from it, and the runnable that applies
    it once, when the cluster serves the API.  The discovery client, the
    API client and the cluster are the class [BootstrapEnv]. *)

From S2P Require Import Prelude Kube Json.

Module servicemonitor.

Definition serviceMonitorName : string := "controller-manager-metrics-monitor".
Definition appName : string := "hyperfleet-operator".
Definition metricsServiceName : string := "hyperfleet-operator-controller-manager-metrics-service".
Definition controlPlane : string := "controller-manager".
Definition smGroup : string := "monitoring.coreos.com".
Definition smVersion : string := "v1".
Definition smKind : string := "ServiceMonitor".

Record ScrapeConfig := mkScrapeConfig {
  Secure : bool;
  ServingCertificateConfigured : bool;
  TLSCASecretName : string;
  TLSCASecretKey : string;
  ServerName : string;
  AuthorizationSecretName : string;
  AuthorizationSecretKey : string }.

(** The table of settings that secure scraping cannot do without. *)
Definition required_settings (c : ScrapeConfig) : list (string * string) :=
  [("tls ca secret name", TLSCASecretName c);
   ("tls ca secret key", TLSCASecretKey c);
   ("tls server name", ServerName c);
   ("authorization secret name", AuthorizationSecretName c);
   ("authorization secret key", AuthorizationSecretKey c)].

Fixpoint first_missing (l : list (string * string)) : option error :=
  match l with
  | [] => None
  | (name, value) :: l' =>
      if String.eqb value ""
      then Some (Errorf "secure metrics servicemonitor requires %s" [name])
      else first_missing l'
  end.

Definition Validate (c : ScrapeConfig) : option error :=
  if negb (Secure c) then None
  else match first_missing (required_settings c) with
       | Some err => Some err
       | None =>
           if negb (ServingCertificateConfigured c)
           then Some (Errorf "secure metrics servicemonitor requires --metrics-cert-path" [])
           else None
       end.

(** ** The object *)

(** Assigning a key of a [map[string]any]. *)
Fixpoint set_key (k : string) (v : Json) (m : Members) : Members :=
  match m with
  | [] => [(k, v)]
  | (k', v') :: m' => if String.eqb k k' then (k, v) :: m' else (k', v') :: set_key k v m'
  end.

Definition endpoint (scrapeConfig : ScrapeConfig) : Members :=
  let e := [("path", JString "/metrics"); ("port", JString "metrics");
            ("scheme", JString "http"); ("interval", JString "30s")] in
  if Secure scrapeConfig then
    let e := set_key "scheme" (JString "https") e in
    let e := set_key "tlsConfig" (JObject
      [("serverName", JString (ServerName scrapeConfig));
       ("ca", JObject [("secret", JObject
          [("name", JString (TLSCASecretName scrapeConfig));
           ("key", JString (TLSCASecretKey scrapeConfig))])])]) e in
    set_key "authorization" (JObject
      [("type", JString "Bearer");
       ("credentials", JObject
          [("name", JString (AuthorizationSecretName scrapeConfig));
           ("key", JString (AuthorizationSecretKey scrapeConfig))])]) e
  else e.

(** The parts of the unstructured object that are set: the group, version and
    kind, the metadata, and the [spec] key. *)
Record ServiceMonitor := mkServiceMonitor {
  sm_Group : string; sm_Version : string; sm_Kind : string;
  sm_Meta : ObjectMeta; sm_Spec : Json }.

Definition buildServiceMonitor (namespace : string) (owner : Service) (scrapeConfig : ScrapeConfig) : ServiceMonitor :=
  mkServiceMonitor smGroup smVersion smKind
    (mkObjectMeta serviceMonitorName namespace
       {["control-plane" := controlPlane; "app.kubernetes.io/name" := appName;
         "app.kubernetes.io/managed-by" := appName]}
       None 0 "" ""
       [mkOwnerReference "v1" "Service" (om_Name (svc_Meta owner)) (om_UID (svc_Meta owner)) false])
    (JObject
       [("selector", JObject [("matchLabels", JObject
           [("control-plane", JString controlPlane); ("app.kubernetes.io/name", JString appName)])]);
        ("endpoints", JArray [JObject (endpoint scrapeConfig)])]).

(** ** The runnable *)

(** The outcome of [ServerResourcesForGroupVersion]: a list of the kinds that are
    served, possibly nil, or an error, of which [IsNotFound] singles out one. *)
Inductive Resources_ :=
| Listed (kinds : option (list string))
| ResourcesNotFound (e : error)
| ResourcesError (e : error).

Class BootstrapEnv (W : Type) := {
  NewDiscoveryClient : ST W (option error);
  ServerResources (groupVersion : string) : ST W Resources_;
  NewClient : ST W (option error);
  GetService (namespace name : string) : ST W (error + Service);
  ApplyMonitor (sm : ServiceMonitor) (fieldOwner : string) (force : bool) : ST W (option error);
}.

Definition hasServiceMonitorKind (list : option (list string)) : bool :=
  match list with
  | None => false
  | Some kinds => existsb (fun k => String.eqb k smKind) kinds
  end.

Section start.
Context {W : Type} `{BE : BootstrapEnv W}.

Definition serviceMonitorAvailable : ST W (outcome bool) :=
  (let! err := NewDiscoveryClient in
   match err with
   | Some e => st_ret (Fail (Wrapf "create discovery client: %w" [] e))
   | None =>
       let groupVersion := smGroup +:+ "/" +:+ smVersion in
       let! r := ServerResources groupVersion in
       match r with
       | ResourcesNotFound _ => st_ret (Ok false)
       | ResourcesError e => st_ret (Fail (Wrapf "list server resources for %s: %w" [groupVersion] e))
       | Listed l => st_ret (Ok (hasServiceMonitorKind l))
       end
   end)%st.

Record Bootstrapper := mkBootstrapper {
  Namespace : string;
  ScrapeConfig_ : ScrapeConfig;
  serviceMonitorAvailability : option (ST W (outcome bool)) }.

Definition NeedLeaderElection (b : Bootstrapper) : bool := true.

Definition Start (b : Bootstrapper) : ST W (outcome unit) :=
  (let availability := default serviceMonitorAvailable (serviceMonitorAvailability b) in
   let! available := availability in
   match available with
   | Panic => st_ret Panic
   | Fail _ => st_ret (Ok tt)
   | Ok false => st_ret (Ok tt)
   | Ok true =>
       let! cl := NewClient in
       match cl with
       | Some _ => st_ret (Ok tt)
       | None =>
           let! svc := GetService (Namespace b) metricsServiceName in
           match svc with
           | inl _ => st_ret (Ok tt)
           | inr svc =>
               let sm := buildServiceMonitor (Namespace b) svc (ScrapeConfig_ b) in
               let! _ := ApplyMonitor sm appName true in
               st_ret (Ok tt)
           end
       end
   end)%st.

End start.
Arguments Bootstrapper : clear implicits.

(** ** Running with a log of the calls and their answers *)

Inductive SMCall :=
| CDiscovery (r : option error)
| CResources (groupVersion : string) (r : Resources_)
| CNewClient (r : option error)
| CGetService (namespace name : string) (r : error + Service)
| CApplyMonitor (sm : ServiceMonitor) (fieldOwner : string) (force : bool) (r : option error).

Definition log_answer {W A} (c : A -> SMCall) (m : ST W A) : ST (W * list SMCall) A :=
  fun s => let '(a, w) := m s.1 in (a, (w, s.2 ++ [c a])).

Definition logged_BootstrapEnv {W} (BE : BootstrapEnv W) : BootstrapEnv (W * list SMCall) := {|
  NewDiscoveryClient := log_answer CDiscovery NewDiscoveryClient;
  ServerResources gv := log_answer (CResources gv) (ServerResources gv);
  NewClient := log_answer CNewClient NewClient;
  GetService ns name := log_answer (CGetService ns name) (GetService ns name);
  ApplyMonitor sm o f := log_answer (CApplyMonitor sm o f) (ApplyMonitor sm o f) |}.

(** What a bootstrap may do: stop at the first call that is answered with an error, or
    with a list without the kind; apply once when nothing stopped it. *)
Definition served (r : Resources_) : bool :=
  match r with Listed l => hasServiceMonitorKind l | _ => false end.

Definition resources_call (r : Resources_) : SMCall := CResources "monitoring.coreos.com/v1" r.

Inductive bootstraps (ns : string) (c : ScrapeConfig) : list SMCall -> Prop :=
| bs_no_discovery e : bootstraps ns c [CDiscovery (Some e)]
| bs_not_served r : served r = false -> bootstraps ns c [CDiscovery None; resources_call r]
| bs_no_client r e : served r = true ->
    bootstraps ns c [CDiscovery None; resources_call r; CNewClient (Some e)]
| bs_no_service r e : served r = true ->
    bootstraps ns c [CDiscovery None; resources_call r; CNewClient None;
                     CGetService ns metricsServiceName (inl e)]
| bs_applied r svc err : served r = true ->
    bootstraps ns c [CDiscovery None; resources_call r; CNewClient None;
                     CGetService ns metricsServiceName (inr svc);
                     CApplyMonitor (buildServiceMonitor ns svc c) appName true err].

(** Evaluates the next logged call; closes a goal about a finished log. *)
Ltac run := cbn; unfold log_answer; cbn.
Ltac logged :=
  split; [done|]; eexists; (split; [by rewrite <-?app_assoc|]); by constructor.

Section theorems.
Context {W : Type} (BE : BootstrapEnv W).

(** C30: the bootstrap is best effort: in production (no test seam), whatever the
    cluster answers, [Start] returns nil, and the calls it makes are one of
    the permitted sequences; an object is only sent after the kind was seen among the
    served resources and the metrics Service was read, and it is owned by that Service. *)
Theorem start_refines ns c w log :
  let '(r, (w', log')) :=
    Start (BE := logged_BootstrapEnv BE) (mkBootstrapper ns c None) (w, log) in
  r = Ok tt /\ exists tail, log' = log ++ tail /\ bootstraps ns c tail.
Proof.
  unfold Start, serviceMonitorAvailable, st_bind. run.
  destruct (NewDiscoveryClient w) as [[e|] w1]; run; [logged|].
  destruct (ServerResources _ w1) as [r w2]. cbn.
  destruct (served r) eqn:Es; [|by destruct r as [l|e|e]; cbn in Es |- *; [rewrite Es|..]; logged].
  destruct r as [l|e|e]; try done. cbn in Es |- *. rewrite Es. run.
  destruct (NewClient w2) as [[e|] w3]; run; [logged|].
  destruct (GetService ns metricsServiceName w3) as [[e|svc] w4]; run; [logged|].
  destruct (ApplyMonitor _ _ _ w4) as [err w5]. logged.
Qed.

End theorems.

Lemma first_missing_None l : first_missing l = None <-> Forall (fun nv => nv.2 <> "") l.
Proof.
  induction l as [|[n v] l IH]; cbn; [by split|]. rewrite Forall_cons, <-IH. cbn.
  destruct (String.eqb_spec v ""); naive_solver.
Qed.

(** The string at a path of object keys. *)
Fixpoint text_at (path : list string) (j : Json) : option string :=
  match path with
  | [] => match j with JString s => Some s | _ => None end
  | k :: path' => jget k j ≫= text_at path'
  end.

(** C32: a scrape configuration that passes validation never gives an
    endpoint that weakens TLS: either it is the plain-HTTP endpoint without TLS and
    authorization settings, or it is an HTTPS endpoint with a stable serving certificate,
    a CA reference, a server name and a bearer credential, all non-empty, with no
    other TLS key (in particular none that turns verification off); and secure
    settings are refused exactly when one of those is missing. *)
Theorem validated_endpoint (c : ScrapeConfig) :
  let e := JObject (endpoint c) in
  (Validate c = None <->
     (Secure c = true -> ServingCertificateConfigured c = true
       /\ Forall (fun nv => nv.2 <> "") (required_settings c)))
  /\ (Secure c = false ->
        jget "scheme" e = Some (JString "http") /\ jget "tlsConfig" e = None /\ jget "authorization" e = None)
  /\ (Secure c = true ->
        jget "scheme" e = Some (JString "https")
        /\ text_at ["tlsConfig"; "serverName"] e = Some (ServerName c)
        /\ text_at ["tlsConfig"; "ca"; "secret"; "name"] e = Some (TLSCASecretName c)
        /\ text_at ["tlsConfig"; "ca"; "secret"; "key"] e = Some (TLSCASecretKey c)
        /\ text_at ["authorization"; "type"] e = Some "Bearer"
        /\ text_at ["authorization"; "credentials"; "name"] e = Some (AuthorizationSecretName c)
        /\ text_at ["authorization"; "credentials"; "key"] e = Some (AuthorizationSecretKey c)
        /\ forall k, k <> "serverName" -> k <> "ca" -> (jget "tlsConfig" e ≫= jget k) = None).
Proof.
  cbv zeta. split; [|split].
  - unfold Validate. destruct (Secure c); cbn -[first_missing required_settings]; [|naive_solver].
    rewrite <-first_missing_None. destruct (first_missing _) as [e|]; cbn.
    { split; [intros [=]|]. intros H. by destruct (H eq_refl) as [_ ?]. }
    destruct (ServingCertificateConfigured c); cbn; [done|].
    split; [intros [=]|]. intros H. by destruct (H eq_refl) as [? _].
  - intros Hs. unfold endpoint. by rewrite Hs.
  - intros Hs. unfold endpoint. rewrite Hs. split_and!; try done.
    intros k H1 H2. cbn. apply String.eqb_neq in H1, H2. by rewrite H1, H2.
Qed.

End servicemonitor.
