(* ===== verification/Startup.v ===== *)
(** * Manager start-up ([cmd/main.go])

    What the process does before it reconciles: the broker settings from the
    environment, the scoping of the manager's cache, and [main] itself.  The calls
    [main] makes into controller-runtime are [Event]s; the class [ManagerLib]
    answers each with an error or with nil, and the events made are logged.  A
    [Fail] of the model is an error that is logged before [os.Exit(1)]. *)

From S2P Require Import Prelude Strings Kube ConfigTypes Json Url JsonDecode Contract Api Sentinel Bundle NetAddr.
From S2P Require Import DiscoveryGuard Sha256 Env ConfigHash Metrics State Jwks Status Apply.
From S2P Require Import Observability Sim Reconciler ReconcilerMetrics ReconcilerCalls.
From S2P Require Import ReconcilerStatus ReconcilerLive Version Regexp Flags ServiceMonitor.

Module startup.
Import gostrings reconciler regexp flags live.

(** ** The broker *)

Definition lower : class := [("a", "z")]%char.
Definition lower_digit : class := [("a", "z"); ("0", "9")]%char.
Definition lower_digit_hyphen : class := [("a", "z"); ("0", "9"); ("-", "-")]%char.

(** [^[a-z][a-z0-9-]{4,28}[a-z0-9]$]. *)
Definition gcpProjectIDRegexp : Regexp :=
  Concat (CharClass lower) (Concat (repeat 4 24 (CharClass lower_digit_hyphen)) (CharClass lower_digit)).

(** [getenv] is [os.Getenv]: the empty string for an unset variable. *)
Definition envToBrokerInfo (getenv : string -> string) : outcome sentinel.BrokerInfo :=
  (let brokerType := getenv sentinel.BrokerTypeEnv in
  let? brokerType :=
    (if String.eqb brokerType "" then Ok sentinel.DefaultBrokerType
     else if negb (String.eqb brokerType sentinel.BrokerTypeRabbitMQ)
             && negb (String.eqb brokerType sentinel.BrokerTypeGooglePubSub)
     then Fail (Errorf "BROKER_TYPE must be set to either 'rabbitmq' or 'googlepubsub'" [])
     else Ok brokerType) in
  if String.eqb brokerType sentinel.BrokerTypeGooglePubSub then
    let brokerProjectID := getenv sentinel.BrokerGooglePubSubProjectIDEnv in
    if String.eqb brokerProjectID "" then
      Fail (Errorf "BROKER_GOOGLEPUBSUB_PROJECT_ID must be set and non-empty if broker type is 'googlepubsub'" [])
    else if negb (MatchString gcpProjectIDRegexp brokerProjectID) then
      Fail (Errorf "BROKER_GOOGLEPUBSUB_PROJECT_ID: %q is not a valid GCP project ID" [brokerProjectID])
    else Ok (sentinel.mkBrokerInfo brokerType brokerProjectID)
  else Ok (sentinel.mkBrokerInfo brokerType ""))%go.

(** ** The cache *)

(** The namespaces each cached type is limited to.  The keys are fresh pointers,
    so no two collide. *)
Definition namespacedCacheByObject (operatorNamespace : string) : list (ObjectType * list string) :=
  fold_left (fun byObject operandType => byObject ++ [(operandType, [operatorNamespace])])
    NamespacedOperandTypes [(TSecret, [operatorNamespace])].

(** ** TLS options and files *)

(** The parts of a [tls.Config] that the options set; a certificate source is
    the watcher of a pair of files. *)
Record TLSConfig := mkTLSConfig { NextProtos : list string; GetCertificate : option (string * string) }.

Inductive TLSOpt := DisableHTTP2 | UseCertificate (certFile keyFile : string).

Definition apply_option (o : TLSOpt) (c : TLSConfig) : TLSConfig :=
  match o with
  | DisableHTTP2 => mkTLSConfig ["http/1.1"] (GetCertificate c)
  | UseCertificate certFile keyFile => mkTLSConfig (NextProtos c) (Some (certFile, keyFile))
  end.

(** The server applies its options in order. *)
Definition apply_options (opts : list TLSOpt) (c : TLSConfig) : TLSConfig :=
  fold_left (fun c o => apply_option o c) opts c.

(** ** The calls into controller-runtime *)

Inductive Server := MetricsServer | WebhookServer.

Record MetricsOptions := mkMetricsOptions {
  BindAddress : string; SecureServing : bool; TLSOpts : list TLSOpt;
  FilterProvider : bool }.

Record ManagerOptions := mkManagerOptions {
  Metrics_ : MetricsOptions;
  WebhookTLSOpts : list TLSOpt;
  HealthProbeBindAddress : string;
  LeaderElection : bool;
  LeaderElectionID : string;
  ByObject : list (ObjectType * list string) }.

Inductive Runnable :=
| Bootstrap (namespace : string) (c : servicemonitor.ScrapeConfig)
| CertWatcher (s : Server) (certFile keyFile : string).

Inductive Event :=
| ENewCertWatcher (s : Server) (certFile keyFile : string)
| ENewManager (o : ManagerOptions)
| ESetupController (r : Settings) (setup : ControllerSetup)
| EAdd (r : Runnable)
| EAddHealthzCheck (name : string)
| EAddReadyzCheck (name : string)
| EStart.

(** [ENewManager] stands for [ctrl.NewManager(ctrl.GetConfigOrDie(), ...)]; both
    end the process with status 1 when they fail. *)
Class ManagerLib := { answer : Event -> option error }.

(** The state of the process: the calls made, and its metrics. *)
Record Proc := mkProc { events : list Event; process_metrics : metrics.Metrics }.

Section main.
Context `{ML : ManagerLib} (getenv : string -> string).
Context (commit : string) (ReadBuildInfo : option version.BuildInfo) (runtime_Version : string).

Definition call (e : Event) (msg : string) : ST Proc (outcome unit) := fun p =>
  (match answer e with None => Ok tt | Some err => Fail (Wrapf msg [] err) end,
   mkProc (events p ++ [e]) (process_metrics p)).

Definition metrics_Init : ST Proc (outcome unit) := fun p =>
  (Ok tt, mkProc (events p)
    (metrics.Init (version.Commit commit ReadBuildInfo) (version.GoVersion runtime_Version) (process_metrics p))).

Section flags.
Context (fl : Flags).

(** The one-element slice has no spare capacity, so the two later [append]s to
    it do not share memory: lists. *)
Definition tlsOpts : list TLSOpt :=
  if negb (enableHTTP2 fl) then [] ++ [DisableHTTP2] else [].

(** A server's certificate files: the watcher is made only when a path is given. *)
Definition certFiles (s : Server) : string * (string * string) :=
  match s with
  | WebhookServer => (webhookCertPath fl, (JoinPath [webhookCertPath fl; webhookCertName fl],
                                           JoinPath [webhookCertPath fl; webhookCertKey fl]))
  | MetricsServer => (metricsCertPath fl, (JoinPath [metricsCertPath fl; metricsCertName fl],
                                           JoinPath [metricsCertPath fl; metricsCertKey fl]))
  end.

Definition newCertWatcher (s : Server) (msg : string) : ST Proc (outcome (option (string * string))) :=
  (let '(path, (cert, key)) := certFiles s in
   if (0 <? String.length path)%nat then
     let!? _ := call (ENewCertWatcher s cert key) msg in st_ret (Ok (Some (cert, key)))
   else st_ret (Ok None))%st.

(** [append]s the option of a watcher that was made. *)
Definition with_certificate (opts : list TLSOpt) (w : option (string * string)) : list TLSOpt :=
  match w with Some (cert, key) => opts ++ [UseCertificate cert key] | None => opts end.

Definition metricsServerOptions (w : option (string * string)) : MetricsOptions :=
  mkMetricsOptions (metricsAddr fl) (secureMetrics fl) (with_certificate tlsOpts w) (secureMetrics fl).

Definition operatorNamespace : string :=
  if String.eqb (getenv "OPERATOR_NAMESPACE") "" then "hyperfleet-system" else getenv "OPERATOR_NAMESPACE".

Definition scrapeConfig : servicemonitor.ScrapeConfig :=
  servicemonitor.mkScrapeConfig (secureMetrics fl) (negb (String.eqb (metricsCertPath fl) ""))
    (metricsServiceMonitorCASecretName fl) (metricsServiceMonitorCASecretKey fl)
    (metricsServiceMonitorServerName fl) (metricsServiceMonitorAuthorizationSecretName fl)
    (metricsServiceMonitorAuthorizationSecretKey fl).

(** The reconciler that is built, and what [SetupWithManager] asks the manager for. *)
Definition settings (b : sentinel.BrokerInfo) : Settings :=
  mkSettings true operatorNamespace (getenv api.RelatedImageEnv) (getenv sentinel.RelatedImageEnv)
    (Some b) None.

Definition setupController (r : Settings) : ST Proc (outcome unit) := fun p =>
  (match SetupWithManager (fun setup => answer (ESetupController r setup)) with
   | None => Ok tt
   | Some err => Fail (Wrapf "unable to create controller" [] err)
   end,
   mkProc (events p ++ [ESetupController r controllerSetup]) (process_metrics p)).

Definition addServiceMonitor : ST Proc (outcome unit) :=
  if negb (String.eqb (metricsAddr fl) "0") && serviceMonitorEnabled fl then
    match servicemonitor.Validate scrapeConfig with
    | Some err => st_ret (Fail (Wrapf "invalid ServiceMonitor scrape configuration" [] err))
    | None => call (EAdd (Bootstrap operatorNamespace scrapeConfig)) "unable to add ServiceMonitor bootstrapper"
    end
  else st_ret (Ok tt).

Definition addWatcher (s : Server) (w : option (string * string)) (msg : string) : ST Proc (outcome unit) :=
  match w with
  | Some (cert, key) => call (EAdd (CertWatcher s cert key)) msg
  | None => st_ret (Ok tt)
  end.

(** [main] from the image checks on, with the two watchers. *)
Definition wire_up (webhookCertWatcher metricsCertWatcher : option (string * string)) : ST Proc (outcome unit) :=
  (if String.eqb (getenv sentinel.RelatedImageEnv) ""
   then st_ret (Fail (Errorf "RELATED_IMAGE_HYPERFLEET_SENTINEL not set" [])) else
   let!? brokerInfo := st_ret (envToBrokerInfo getenv) in
   let!? _ := setupController (settings brokerInfo) in
   let!? _ := addServiceMonitor in
   let!? _ := addWatcher MetricsServer metricsCertWatcher
                "unable to add metrics certificate watcher to manager" in
   let!? _ := addWatcher WebhookServer webhookCertWatcher
                "unable to add webhook certificate watcher to manager" in
   let!? _ := call (EAddHealthzCheck "healthz") "unable to set up health check" in
   let!? _ := call (EAddReadyzCheck "readyz") "unable to set up ready check" in
   call EStart "problem running manager")%st.

(** [main] after [metrics.Init]. *)
Definition bring_up : ST Proc (outcome unit) :=
  (let!? webhookCertWatcher := newCertWatcher WebhookServer "Failed to initialize webhook certificate watcher" in
   let!? metricsCertWatcher := newCertWatcher MetricsServer "to initialize metrics certificate watcher" in
   let!? _ := call (ENewManager (mkManagerOptions (metricsServerOptions metricsCertWatcher)
                (with_certificate tlsOpts webhookCertWatcher) (probeAddr fl) (enableLeaderElection fl)
                "85932bfd.redhat.com" (namespacedCacheByObject operatorNamespace)))
              "unable to start manager" in
   wire_up webhookCertWatcher metricsCertWatcher)%st.

(** [main] after [flag.Parse]. *)
Definition run_main : ST Proc (outcome unit) := so_bind metrics_Init (fun _ => bring_up).

End flags.

(** The whole process: its exit status. *)
Definition main `{ZapFlags} (args : list string) : ST Proc Z := fun p =>
  match parse_flags args with
  | inl e => (exit_code e, p)
  | inr fl =>
      let '(r, p') := run_main fl p in
      (match r with Ok _ => 0%Z | _ => 1%Z end, p')
  end.

End main.

(** ** The project ID pattern and the broker settings *)

Lemma list_ascii_length s : length (String.list_ascii_of_string s) = String.length s.
Proof. induction s as [|c s IH]; [done|]. cbn. by rewrite IH. Qed.

(** The pattern in words: 6 to 30 lowercase letters, digits and hyphens,
    starting with a letter, not ending with a hyphen. *)
Definition project_id (s : list ascii) : Prop :=
  (6 <= length s <= 30)%nat
  /\ Forall (fun c => in_class lower_digit_hyphen c = true) s
  /\ (exists c, head s = Some c /\ in_class lower c = true)
  /\ (exists c, last s = Some c /\ in_class lower_digit c = true).

Lemma lower_hyphen c : in_class lower c = true -> in_class lower_digit_hyphen c = true.
Proof. unfold in_class, lower, lower_digit_hyphen. cbn. rewrite !orb_false_r. by intros ->. Qed.

Lemma lower_digit_in c : in_class lower_digit c = true ->
  in_class lower_digit_hyphen c = true.
Proof.
  unfold in_class, lower_digit, lower_digit_hyphen. cbn. rewrite !orb_false_r.
  intros H. apply orb_true_iff in H as [H|H]; rewrite H; [done|by rewrite orb_true_r].
Qed.

Lemma project_id_lang s : lang gcpProjectIDRegexp s <-> project_id s.
Proof.
  unfold gcpProjectIDRegexp, project_id. rewrite lang_cons. split.
  - intros (c & s' & -> & Hc & H). apply lang_concat_inv in H as (s1 & s2 & -> & H1 & H2).
    apply repeat_lang in H1 as [Hl Hf]. apply lang_CharClass in H2 as (d & -> & Hd).
    cbn [length head]. rewrite length_app. cbn [length]. split_and!.
    + lia.
    + lia.
    + constructor; [by apply lower_hyphen|]. apply Forall_app. split; [done|].
      repeat constructor. by apply lower_digit_in.
    + by exists c.
    + exists d. by rewrite app_comm_cons, last_snoc.
  - intros (Hl & Hf & (c & Hc & Hlow) & (d & Hd & Hdig)).
    destruct s as [|c' s]; [done|]. injection Hc as ->. exists c, s. split_and!; [done..|].
    destruct s as [|x s _] using rev_ind; cbn in Hl; [lia|].
    assert (x = d) as -> by (rewrite app_comm_cons, last_snoc in Hd; by injection Hd).
    apply lang_concat_inv. exists s, [d]. split; [done|].
    rewrite length_app in Hl. cbn in Hl. apply Forall_cons in Hf as [_ Hf].
    apply Forall_app in Hf as [Hf _]. split; [|by constructor].
    apply repeat_lang. split; [lia|done].
Qed.

(** The pattern means what the comment next to it says: matching the
    expression, as the matcher computes it, is having 6 to 30 characters, all of
    them lowercase letters, digits or hyphens, the first a letter, the last not a hyphen. *)
Theorem project_id_spec (s : string) :
  MatchString gcpProjectIDRegexp s = true <-> project_id (String.list_ascii_of_string s).
Proof. unfold MatchString. by rewrite matches_spec, project_id_lang. Qed.

(** The environments start-up takes, and the broker each gives. *)
Definition broker_settings (getenv : string -> string) (b : sentinel.BrokerInfo) : Prop :=
  let type := getenv sentinel.BrokerTypeEnv in
  (type = "" \/ type = sentinel.BrokerTypeRabbitMQ)
    /\ b = sentinel.mkBrokerInfo sentinel.BrokerTypeRabbitMQ ""
  \/ type = sentinel.BrokerTypeGooglePubSub
    /\ project_id (String.list_ascii_of_string (getenv sentinel.BrokerGooglePubSubProjectIDEnv))
    /\ b = sentinel.mkBrokerInfo sentinel.BrokerTypeGooglePubSub (getenv sentinel.BrokerGooglePubSubProjectIDEnv).

Lemma envToBrokerInfo_ok getenv b : envToBrokerInfo getenv = Ok b <-> broker_settings getenv b.
Proof.
  unfold envToBrokerInfo, broker_settings. cbn zeta.
  destruct (String.eqb_spec (getenv sentinel.BrokerTypeEnv) "") as [->|Hne]; cbn [outcome_bind].
  { cbn. split; [intros [= <-]; left; auto|]. by intros [[_ ->]|[? _]]. }
  destruct (String.eqb_spec (getenv sentinel.BrokerTypeEnv) sentinel.BrokerTypeRabbitMQ) as [->|Hr]; cbn.
  { split; [intros [= <-]; left; auto|]. by intros [[_ ->]|[? _]]. }
  destruct (String.eqb_spec (getenv sentinel.BrokerTypeEnv) sentinel.BrokerTypeGooglePubSub) as [->|Hg]; cbn;
    [|naive_solver].
  rewrite <-project_id_spec.
  destruct (String.eqb_spec (getenv sentinel.BrokerGooglePubSubProjectIDEnv) "") as [->|Hp].
  { split; [done|]. by intros [[[?|?] _]|(_ & ? & _)]. }
  destruct (MatchString _ _); cbn; naive_solver.
Qed.

Lemma envToBrokerInfo_Panic getenv : envToBrokerInfo getenv <> Panic.
Proof. unfold envToBrokerInfo. cbn zeta. by repeat (case_match; cbn). Qed.

Lemma accepted_broker getenv b : envToBrokerInfo getenv = Ok b -> sentinel.valid_broker b = true.
Proof.
  intros [[_ ->]|(_ & Hp & ->)]%envToBrokerInfo_ok; [done|]. unfold sentinel.valid_broker. cbn.
  destruct (getenv _); [|done]. destruct Hp as (Hl & _). cbn in Hl. lia.
Qed.

(** The broker settings of the environment: which environments are
    accepted and what each gives (unset means RabbitMQ; Pub/Sub needs a well-formed project ID); any other
    is an error, never a panic; and what is accepted is what the Sentinel's
    broker configuration can be rendered from. *)
Theorem envToBrokerInfo_spec getenv :
  (forall b, envToBrokerInfo getenv = Ok b <-> broker_settings getenv b)
  /\ ((forall b, ~ broker_settings getenv b) <-> exists e, envToBrokerInfo getenv = Fail e)
  /\ (forall b, envToBrokerInfo getenv = Ok b -> is_ok (sentinel.build_brokerFileConfig (Some b)) = true).
Proof.
  split_and!.
  - apply envToBrokerInfo_ok.
  - setoid_rewrite <-envToBrokerInfo_ok. pose proof (envToBrokerInfo_Panic getenv).
    destruct (envToBrokerInfo getenv) as [b|e|]; [|naive_solver..].
    split; [intros Hn; by destruct (Hn b)|]. by intros [??].
  - intros b Hb. rewrite sentinel.build_brokerFileConfig_ok. by apply (accepted_broker getenv).
Qed.

(** ** What start-up does *)

Section plan.
Context `{ML : ManagerLib} (getenv : string -> string).
Context (commit : string) (ReadBuildInfo : option version.BuildInfo) (runtime_Version : string).
Context (fl : Flags).

Definition watched (s : Server) : bool := (0 <? String.length (certFiles fl s).1)%nat.

Definition files (s : Server) : option (string * string) := if watched s then Some (certFiles fl s).2 else None.

Definition watcher_calls (f : string -> string -> Event) (s : Server) : list Event :=
  match files s with Some (cert, key) => [f cert key] | None => [] end.

(** The manager that is built. *)
Definition manager : ManagerOptions :=
  mkManagerOptions (metricsServerOptions fl (files MetricsServer))
    (with_certificate (tlsOpts fl) (files WebhookServer)) (probeAddr fl) (enableLeaderElection fl)
    "85932bfd.redhat.com" (namespacedCacheByObject (operatorNamespace getenv)).

Definition bootstrapped : bool := negb (String.eqb (metricsAddr fl) "0") && serviceMonitorEnabled fl.

(** The calls up to the manager, and from the controller on. *)
Definition prepare : list Event :=
  watcher_calls (ENewCertWatcher WebhookServer) WebhookServer
  ++ watcher_calls (ENewCertWatcher MetricsServer) MetricsServer ++ [ENewManager manager].

Definition register (b : sentinel.BrokerInfo) : list Event :=
  [ESetupController (settings getenv b) controllerSetup].

Definition launch : list Event :=
  (if bootstrapped then [EAdd (Bootstrap (operatorNamespace getenv) (scrapeConfig fl))] else [])
  ++ watcher_calls (fun c k => EAdd (CertWatcher MetricsServer c k)) MetricsServer
  ++ watcher_calls (fun c k => EAdd (CertWatcher WebhookServer c k)) WebhookServer
  ++ [EAddHealthzCheck "healthz"; EAddReadyzCheck "readyz"; EStart].

Definition plan (b : sentinel.BrokerInfo) : list Event := prepare ++ register b ++ launch.

(** The inputs start-up takes. *)
Definition accepted (b : sentinel.BrokerInfo) : Prop :=
  getenv sentinel.RelatedImageEnv <> "" /\ envToBrokerInfo getenv = Ok b
  /\ (bootstrapped = true -> servicemonitor.Validate (scrapeConfig fl) = None).

Definition granted (e : Event) : Prop := answer e = None.

(** [m] makes the calls [l], one by one, up to the first that is refused, which
    fails it; when none is, its result is [res]. *)
Definition runs {A} (m : ST Proc (outcome A)) (l : list Event) (res : outcome A) : Prop :=
  forall p,
    (Forall granted l /\ m p = (res, mkProc (events p ++ l) (process_metrics p)))
    \/ exists dn e rest err, l = dn ++ e :: rest /\ Forall granted dn /\ answer e <> None
         /\ m p = (Fail err, mkProc (events p ++ dn ++ [e]) (process_metrics p)).

Lemma runs_ret {A} (r : outcome A) : runs (st_ret r) [] r.
Proof. intros [es ms]. left. split; [done|]. cbn. by rewrite app_nil_r. Qed.

Lemma runs_call e msg : runs (call e msg) [e] (Ok tt).
Proof.
  intros p. unfold call. destruct (answer e) as [err|] eqn:Ee.
  - right. exists [], e, [], (Wrapf msg [] err). split_and!; try done. by rewrite Ee.
  - left. split; [by constructor|done].
Qed.

Lemma runs_bind {A B} (m : ST Proc (outcome A)) (k : A -> ST Proc (outcome B)) l1 l2 a res :
  runs m l1 (Ok a) -> runs (k a) l2 res -> runs (so_bind m k) (l1 ++ l2) res.
Proof.
  intros Hm Hk p. unfold so_bind. destruct (Hm p) as [[Hl ->]|(dn & e & rest & err & -> & Hd & He & ->)].
  - destruct (Hk (mkProc (events p ++ l1) (process_metrics p)))
      as [[Hl2 ->]|(dn & e & rest & err & -> & Hd & He & ->)]; cbn.
    + left. split; [by apply Forall_app|by rewrite app_assoc].
    + right. exists (l1 ++ dn), e, rest, err. rewrite <-!app_assoc. split_and!; try done.
      by apply Forall_app.
  - right. exists dn, e, (rest ++ l2), err. by rewrite <-app_assoc.
Qed.

Lemma runs_fail {A B} (m : ST Proc (outcome A)) (k : A -> ST Proc (outcome B)) l err :
  runs m l (Fail err) -> runs (so_bind m k) l (Fail err).
Proof.
  intros Hm p. unfold so_bind. destruct (Hm p) as [[Hl ->]|(dn & e & rest & err' & -> & Hd & He & ->)].
  - by left.
  - right. by exists dn, e, rest, err'.
Qed.

Lemma runs_abort {A B} err (k : A -> ST Proc (outcome B)) :
  runs (so_bind (st_ret (Fail err)) k) [] (Fail err).
Proof. apply runs_fail, runs_ret. Qed.

Lemma runs_value {A B} (a : A) (k : A -> ST Proc (outcome B)) l res :
  runs (k a) l res -> runs (so_bind (st_ret (Ok a)) k) l res.
Proof. apply (runs_bind _ _ []), runs_ret. Qed.

Lemma runs_newCertWatcher s msg :
  runs (newCertWatcher fl s msg) (watcher_calls (ENewCertWatcher s) s) (Ok (files s)).
Proof.
  unfold newCertWatcher, watcher_calls, files, watched.
  destruct (certFiles fl s) as [path [cert key]]. cbn [fst snd].
  destruct (0 <? String.length path)%nat.
  - apply (runs_bind _ _ [_] [] tt); [apply runs_call|apply runs_ret].
  - apply runs_ret.
Qed.

Lemma runs_addWatcher s msg :
  runs (addWatcher s (files s) msg) (watcher_calls (fun c k => EAdd (CertWatcher s c k)) s) (Ok tt).
Proof.
  unfold addWatcher, watcher_calls. destruct (files s) as [[cert key]|]; [apply runs_call|apply runs_ret].
Qed.

Lemma runs_setupController b : runs (setupController (settings getenv b)) (register b) (Ok tt).
Proof.
  intros p. unfold setupController, SetupWithManager, wrapHyperFleetConfigControllerSetupError, register.
  destruct (answer _) as [err|] eqn:Ee.
  - right. eexists [], _, [], _. split_and!; [reflexivity|done| |reflexivity]. by rewrite Ee.
  - left. split; [by constructor|done].
Qed.

Lemma runs_addServiceMonitor :
  (bootstrapped = true -> servicemonitor.Validate (scrapeConfig fl) = None) ->
  runs (addServiceMonitor getenv fl)
    (if bootstrapped then [EAdd (Bootstrap (operatorNamespace getenv) (scrapeConfig fl))] else []) (Ok tt).
Proof.
  unfold addServiceMonitor, bootstrapped. intros Hv. destruct (_ && _); [|apply runs_ret].
  rewrite Hv by done. apply runs_call.
Qed.

Lemma runs_invalid_monitor err :
  bootstrapped = true -> servicemonitor.Validate (scrapeConfig fl) = Some err ->
  runs (addServiceMonitor getenv fl) [] (Fail (Wrapf "invalid ServiceMonitor scrape configuration" [] err)).
Proof. unfold addServiceMonitor, bootstrapped. intros -> ->. apply runs_ret. Qed.

(** The first calls; what follows them depends on the environment. *)
Lemma runs_prepare l res :
  runs (wire_up getenv fl (files WebhookServer) (files MetricsServer)) l res ->
  runs (bring_up getenv fl) (prepare ++ l) res.
Proof.
  intros Hk. unfold prepare, bring_up. rewrite <-!app_assoc.
  eapply runs_bind; [apply runs_newCertWatcher|]. eapply runs_bind; [apply runs_newCertWatcher|].
  eapply runs_bind; [apply runs_call|exact Hk].
Qed.

(** What start-up does when nothing is refused. *)
Lemma runs_bring_up :
  (exists b, accepted b /\ (runs (bring_up getenv fl) (plan b) (Ok tt)))
  \/ ((forall b, ~ accepted b) /\ exists l e, (EStart ∉ l) /\ runs (bring_up getenv fl) l (Fail e)).
Proof.
  assert (Hprep : EStart ∉ prepare).
  { unfold prepare, watcher_calls. destruct (files _) as [[??]|], (files _) as [[??]|]; set_solver. }
  pose proof runs_prepare as Hrun. unfold wire_up in Hrun.
  destruct (String.eqb_spec (getenv sentinel.RelatedImageEnv) "") as [Hi|Hi].
  { right. split; [by intros b [? _]|]. eexists _, _. split; [|apply Hrun, runs_ret].
    by rewrite app_nil_r. }
  destruct (envToBrokerInfo getenv) as [b|e|] eqn:Eb; [|right|by apply envToBrokerInfo_Panic in Eb].
  2: { split; [intros b (_ & ? & _); congruence|]. eexists _, _. split; [|apply Hrun, runs_abort].
       by rewrite app_nil_r. }
  assert (Hcases : (bootstrapped = true -> servicemonitor.Validate (scrapeConfig fl) = None)
            \/ exists err, bootstrapped = true /\ servicemonitor.Validate (scrapeConfig fl) = Some err).
  { destruct bootstrapped, (servicemonitor.Validate _) as [err|]; eauto; by left. }
  destruct Hcases as [Hv|(err & Hbt & Hv)]; [left; exists b|right].
  - split; [done|]. apply Hrun, runs_value.
    eapply runs_bind; [apply runs_setupController|]. unfold launch.
    eapply runs_bind; [by apply runs_addServiceMonitor|].
    do 2 (eapply runs_bind; [apply runs_addWatcher|]).
    do 2 (eapply (runs_bind _ _ [_]); [apply runs_call|]). apply runs_call.
  - split; [intros b' (_ & _ & H); specialize (H Hbt); congruence|]. eexists _, _. split.
    2: { apply Hrun, runs_value. eapply runs_bind; [apply runs_setupController|].
         by apply runs_fail, runs_invalid_monitor. }
    unfold register. set_solver.
Qed.

(** What a refused or a completed run of planned calls looks like. *)
Lemma prefix_cut (dn rest l : list Event) e : l = dn ++ e :: rest -> (dn ++ [e]) `prefix_of` l.
Proof. intros ->. exists rest. by rewrite <-app_assoc. Qed.

Lemma start_last b dn e rest : plan b = dn ++ e :: rest -> EStart ∈ dn ++ [e] -> rest = [].
Proof.
  intros Hp Hin.
  assert (Hpl : exists l, plan b = l ++ [EStart] /\ EStart ∉ l).
  { unfold plan, prepare, register, launch, watcher_calls.
    exists (removelast (plan b)). unfold plan, prepare, register, launch, watcher_calls.
    destruct (files _) as [[??]|], (files _) as [[??]|], bootstrapped; cbn; (split; [done|set_solver]). }
  destruct Hpl as (l & Hl & Hn). rewrite Hl in Hp.
  destruct rest as [|y rest _] using rev_ind; [done|].
  rewrite app_comm_cons, app_assoc in Hp. apply app_inj_tail in Hp as [-> _].
  destruct Hn. apply elem_of_app in Hin. set_solver.
Qed.

(** What a run of [main] after flag parsing does: the result [r], from [p] to [p']. *)
Definition follows_plan (p : Proc) (r : outcome unit) (p' : Proc) : Prop :=
  exists dn, events p' = events p ++ dn
  /\ process_metrics p' = metrics.Init (version.Commit commit ReadBuildInfo) runtime_Version (process_metrics p)
  /\ (r = Ok tt <-> exists b, accepted b /\ Forall granted (plan b))
  /\ (r = Ok tt \/ exists err, r = Fail err)
  /\ (forall pre e post, dn = pre ++ e :: post -> answer e <> None -> post = [])
  /\ (forall b, accepted b -> dn `prefix_of` plan b)
  /\ (EStart ∈ dn -> exists b, accepted b /\ dn = plan b).

Lemma run_main_plan p :
  let '(r, p') := run_main getenv commit ReadBuildInfo runtime_Version fl p in follows_plan p r p'.
Proof.
  unfold run_main, metrics_Init, so_bind at 1. cbv iota beta.
  set (p0 := mkProc (events p) _).
  assert (Hstop : forall l, Forall granted l -> forall pre e post, l = pre ++ e :: post -> answer e <> None -> post = []).
  { intros l Hl pre e post ->. apply Forall_app in Hl as [_ Hl]. by apply Forall_inv in Hl. }
  assert (Hcut : forall dn x, Forall granted dn ->
            forall pre e post, dn ++ [x] = pre ++ e :: post -> answer e <> None -> post = []).
  { intros dn x Hd pre e post E He. destruct post as [|y post _] using rev_ind; [done|].
    rewrite app_comm_cons, app_assoc in E. apply app_inj_tail in E as [-> _].
    apply Forall_app in Hd as [_ Hd]. by apply Forall_inv in Hd. }
  destruct runs_bring_up as [(b & Hb & Hr)|(Hno & l & err & Hns & Hr)].
  - assert (Hu : forall b', accepted b' -> b' = b).
    { intros b' (_ & H' & _). destruct Hb as (_ & H & _). congruence. }
    destruct (Hr p0) as [[Hg ->]|(dn & e & rest & err & Hp & Hd & He & ->)]; cbn.
    + exists (plan b). split_and!; try done; [|by left|by apply Hstop|by intros ? ->%Hu|by exists b].
      split; [by exists b|done].
    + exists (dn ++ [e]). rewrite <-?app_assoc. split_and!; try done; [|by right; eexists|by apply Hcut| |].
      * split; [done|]. intros (b' & Hb' & Hg). rewrite (Hu b' Hb'), Hp in Hg.
        apply Forall_app in Hg as [_ Hg]. by apply Forall_inv in Hg.
      * intros b' ->%Hu. by eapply prefix_cut.
      * intros Hin. exists b. split; [done|]. by rewrite Hp, (start_last b dn e rest Hp Hin).
  - destruct (Hr p0) as [[Hg ->]|(dn & e & rest & err' & -> & Hd & He & ->)]; cbn.
    + exists l. split_and!; try done; [|by right; eexists|by apply Hstop|by intros ? ?%Hno].
      split; [done|]. by intros (? & ?%Hno & _).
    + exists (dn ++ [e]). rewrite <-?app_assoc. split_and!; try done; [|by right; eexists|by apply Hcut|by intros ? ?%Hno|].
      * split; [done|]. by intros (? & ?%Hno & _).
      * intros Hin. destruct Hns. set_solver.
Qed.

(** When nothing is refused, the whole plan is carried out. *)
Lemma run_main_complete b p : accepted b -> Forall granted (plan b) ->
  run_main getenv commit ReadBuildInfo runtime_Version fl p
  = (Ok tt, mkProc (events p ++ plan b)
      (metrics.Init (version.Commit commit ReadBuildInfo) runtime_Version (process_metrics p))).
Proof.
  intros Hb Hg. unfold run_main, metrics_Init, so_bind at 1. cbv iota beta.
  destruct runs_bring_up as [(b' & Hb' & Hr)|(Hno & _)]; [|by destruct (Hno b)].
  assert (b' = b) as -> by (destruct Hb as (_ & H & _), Hb' as (_ & H' & _); congruence).
  destruct (Hr (mkProc (events p)
    (metrics.Init (version.Commit commit ReadBuildInfo) (version.GoVersion runtime_Version) (process_metrics p))))
    as [[_ ->]|(dn & e & rest & err & Hp & _ & He & _)]; [done|].
  rewrite Hp in Hg. apply Forall_app in Hg as [_ Hg]. by apply Forall_inv in Hg.
Qed.

(** C8: start-up follows its plan: [main] makes the planned calls in order and
    stops at the first that is refused; it returns without error exactly when the inputs are accepted
    (a Sentinel image, valid broker settings, a valid scrape configuration when the
    ServiceMonitor is bootstrapped) and no call is refused; the manager is started
    only then, as the last call, and the metrics were initialised. *)
Theorem main_follows_plan p :
  let '(r, p') := run_main getenv commit ReadBuildInfo runtime_Version fl p in follows_plan p r p'.
Proof. exact (run_main_plan p). Qed.

Lemma watcher_calls_only f s e : e ∈ watcher_calls f s -> exists c k, e = f c k.
Proof. unfold watcher_calls. destruct (files s) as [[c k]|]; set_solver. Qed.

(** The ServiceMonitor is only bootstrapped with a valid configuration. *)
Lemma plan_bootstrap b ns c :
  accepted b -> EAdd (Bootstrap ns c) ∈ plan b ->
  ns = operatorNamespace getenv /\ servicemonitor.Validate c = None
  /\ metricsAddr fl <> "0" /\ serviceMonitorEnabled fl = true.
Proof.
  intros (_ & _ & Hv) Hin. unfold plan, prepare, register, launch in Hin.
  rewrite !elem_of_app in Hin.
  destruct Hin as [[H|[H|H]]|[H|[H|[H|[H|H]]]]];
    try (apply watcher_calls_only in H as (? & ? & [=])); try (exfalso; set_solver).
  destruct bootstrapped eqn:Eb; [|by apply not_elem_of_nil in H].
  apply list_elem_of_singleton in H as [= -> ->]. split; [done|]. split; [by apply Hv|].
  unfold bootstrapped in Eb. by bool_prop.
Qed.

(** Without [--enable-http2], whatever certificate is added. *)
Lemma http1_only (w : option (string * string)) c :
  enableHTTP2 fl = false -> NextProtos (apply_options (with_certificate (tlsOpts fl) w) c) = ["http/1.1"].
Proof. intros H. unfold tlsOpts. rewrite H. by destruct w as [[cert key]|]. Qed.

Lemma accepted_settings b cr :
  accepted b -> spec_Bundle (cr_Spec cr) = BundleCloudCAPI -> valid_settings (settings getenv b) cr b.
Proof.
  intros (Hi & Hb & _) Hc. unfold valid_settings. cbn. split_and!; try done.
  by apply (accepted_broker getenv).
Qed.

(** C31: what accepted inputs start with is safe: the reconciler's
    settings are valid for every resource with the cloud bundle; the operator
    namespace is not empty, and the cache holds Secrets and exactly the types the controller
    owns, each limited to it; without [--enable-http2] both servers
    negotiate only HTTP/1.1; the metrics endpoint is protected exactly when it is
    secure; a ServiceMonitor is bootstrapped only with a valid scrape configuration. *)
Theorem startup_safe b (Ha : accepted b) :
  (forall cr, spec_Bundle (cr_Spec cr) = BundleCloudCAPI -> valid_settings (settings getenv b) cr b)
  /\ operatorNamespace getenv <> ""
  /\ (forall t l, (t, l) ∈ ByObject manager <->
        l = [operatorNamespace getenv] /\ (t = TSecret \/ t ∈ setup_Owns controllerSetup))
  /\ NoDup (ByObject manager).*1
  /\ (enableHTTP2 fl = false -> forall c,
        NextProtos (apply_options (TLSOpts (Metrics_ manager)) c) = ["http/1.1"]
        /\ NextProtos (apply_options (WebhookTLSOpts manager) c) = ["http/1.1"])
  /\ FilterProvider (Metrics_ manager) = SecureServing (Metrics_ manager)
  /\ (forall ns c, EAdd (Bootstrap ns c) ∈ plan b ->
        ns = operatorNamespace getenv /\ servicemonitor.Validate c = None
        /\ metricsAddr fl <> "0" /\ serviceMonitorEnabled fl = true).
Proof.
  split_and!.
  - intros cr. by apply accepted_settings.
  - unfold operatorNamespace. by destruct (String.eqb_spec (getenv "OPERATOR_NAMESPACE") "").
  - intros t l. cbn. rewrite !elem_of_cons, !elem_of_nil. naive_solver.
  - apply (bool_decide_unpack _). vm_compute. exact I.
  - intros H c. split; by apply http1_only.
  - done.
  - intros ns c. by apply plan_bootstrap.
Qed.

End plan.

(** C6: from the command line to a reconciled cluster: when [main] reaches
    the point where the manager runs, it has registered a reconciler, and that
    reconciler, on a healthy cluster and whatever state it is in, reconciles
    every resource with the cloud bundle whose JWKS URL can be resolved without error. *)
Theorem started_reconciles `{ML : ManagerLib} {W} `{E : Env W} `{HW : !Healthy W} `{TL : TemplateLib}
    `{UL : UrlLib} `{CL : ConditionsLib} `{Y : YamlLib}
    getenv commit ReadBuildInfo runtime_Version (fl : Flags) ms
    (Hyaml : forall j, exists y, yaml_Marshal j = inr y)
    (Hstart : EStart ∈ events (snd (run_main getenv commit ReadBuildInfo runtime_Version fl (mkProc [] ms)))) :
  exists r setup, ESetupController r setup
      ∈ events (snd (run_main getenv commit ReadBuildInfo runtime_Version fl (mkProc [] ms)))
    /\ forall cr name (s : RState W),
         spec_Bundle (cr_Spec cr) = BundleCloudCAPI -> jwks_resolvable (W := W) r cr ->
         fst (get_HyperFleetConfig name (snd (env_Now (rs_world s)))) = Found cr ->
         fst (Reconcile r name s) = Ok tt.
Proof.
  pose proof (run_main_plan getenv commit ReadBuildInfo runtime_Version fl (mkProc [] ms)) as Hp.
  destruct (run_main _ _ _ _ fl (mkProc [] ms)) as [res p']. cbn [snd] in *.
  destruct Hp as (dn & Hdn & _ & _ & _ & _ & _ & Hs). cbn in Hdn. subst dn.
  destruct (Hs Hstart) as (b & Hb & Hpl). exists (settings getenv b), controllerSetup. split.
  - rewrite Hpl. unfold plan, register. rewrite !elem_of_app. right. left. left.
  - intros cr name s Hc Hj Hg. apply (reconcile_ok _ cr b name s Hyaml); [|done..].
    by apply (accepted_settings getenv fl).
Qed.

(** ** A concrete start *)

Definition demo_env (name : string) : string :=
  if String.eqb name sentinel.RelatedImageEnv then "sentinel@sha256:1" else
  if String.eqb name sentinel.BrokerTypeEnv then "googlepubsub" else
  if String.eqb name sentinel.BrokerGooglePubSubProjectIDEnv then "my-project-1" else "".

#[local] Instance no_refusal : ManagerLib := {| answer := fun _ => None |}.

Definition demo_flags : Flags :=
  <["metrics-cert-path" := StringValue "/certs"]> (<["leader-elect" := BoolValue true]> defaults).

Definition demo_proc : Proc := mkProc [] metrics.zeroMetrics.

Example demo_run :
  main (H := no_zap) demo_env "abc" None "go1.24" ["--leader-elect"; "-metrics-cert-path=/certs"] demo_proc
  = (0%Z, mkProc
      (plan demo_env demo_flags (sentinel.mkBrokerInfo sentinel.BrokerTypeGooglePubSub "my-project-1"))
      (metrics.Init "abc" "go1.24" metrics.zeroMetrics)).
Proof. vm_compute. reflexivity. Qed.

Lemma startup_safe_witness :
  accepted demo_env demo_flags (sentinel.mkBrokerInfo sentinel.BrokerTypeGooglePubSub "my-project-1")
  /\ NoDup (ByObject (manager demo_env demo_flags)).*1.
Proof.
  assert (H : accepted demo_env demo_flags (sentinel.mkBrokerInfo sentinel.BrokerTypeGooglePubSub "my-project-1")).
  { split; [discriminate|]. split; [vm_compute; reflexivity|]. intros _. vm_compute. reflexivity. }
  split; [exact H|]. exact (proj1 (proj2 (proj2 (proj2 (startup_safe demo_env demo_flags _ H))))).
Defined.

Lemma started_reconciles_witness :
  exists r setup, ESetupController r setup
      ∈ events (snd (run_main demo_env "abc" None "go1.24" demo_flags demo_proc))
    /\ fst (Reconcile (Y := api.toy_yaml) r SingletonName demo_live_state) = Ok tt.
Proof.
  destruct (started_reconciles (Y := api.toy_yaml) (W := Sim) demo_env "abc" None "go1.24" demo_flags
    metrics.zeroMetrics demo_yaml_total) as (r & setup & Hin & Hr).
  - change (EStart ∈ events (snd (run_main demo_env "abc" None "go1.24" demo_flags demo_proc))).
    vm_compute. by repeat first [left | right].
  - exists r, setup. split; [exact Hin|]. apply (Hr demo_live_cr); [reflexivity| |reflexivity].
    intros s. by exists "", s.
Defined.

End startup.
