(* ===== verification/CommandLine.v ===== *)
(** * From the command line to the calls of [main]

    What each flag of the operator does, in terms of a command line that names it and the calls into
    controller-runtime that a successful start makes: the names, defaults and kinds of the flags and
    what they are wired to. *)

From S2P Require Import Prelude Strings Kube ConfigTypes Json Url JsonDecode Contract Api Sentinel Bundle NetAddr.
From S2P Require Import DiscoveryGuard Sha256 Env ConfigHash Metrics State Jwks Status Apply.
From S2P Require Import Observability Sim Reconciler ReconcilerMetrics ReconcilerCalls.
From S2P Require Import ReconcilerStatus ReconcilerLive Version Regexp Flags ServiceMonitor Startup.

Module commandline.
Import gostrings reconciler flags startup.

(** The flags that are given; the others keep their defaults. *)
Record CommandLine := mkCommandLine {
  leader_elect : option bool;
  health_probe_bind_address : option string;
  metrics_bind_address : option string;
  metrics_secure : option bool;
  metrics_service_monitor_enabled : option bool;
  metrics_service_monitor_ca_secret_name : option string;
  metrics_service_monitor_ca_secret_key : option string;
  metrics_service_monitor_server_name : option string;
  metrics_service_monitor_authorization_secret_name : option string;
  metrics_service_monitor_authorization_secret_key : option string;
  webhook_cert_path : option string;
  webhook_cert_name : option string;
  webhook_cert_key : option string;
  metrics_cert_path : option string;
  metrics_cert_name : option string;
  metrics_cert_key : option string;
  enable_http2 : option bool }.

(** [--name=value]; a Boolean that is switched on is the bare [--name]. *)
Definition text_arg (name : string) (o : option string) : list string :=
  match o with Some v => ["--" +:+ name +:+ "=" +:+ v] | None => [] end.
Definition switch_arg (name : string) (o : option bool) : list string :=
  match o with Some true => ["--" +:+ name] | Some false => ["--" +:+ name +:+ "=false"] | None => [] end.

Definition arguments (c : CommandLine) : list string :=
  switch_arg "leader-elect" (leader_elect c)
  ++ text_arg "health-probe-bind-address" (health_probe_bind_address c)
  ++ text_arg "metrics-bind-address" (metrics_bind_address c)
  ++ switch_arg "metrics-secure" (metrics_secure c)
  ++ switch_arg "metrics-service-monitor-enabled" (metrics_service_monitor_enabled c)
  ++ text_arg "metrics-service-monitor-ca-secret-name" (metrics_service_monitor_ca_secret_name c)
  ++ text_arg "metrics-service-monitor-ca-secret-key" (metrics_service_monitor_ca_secret_key c)
  ++ text_arg "metrics-service-monitor-server-name" (metrics_service_monitor_server_name c)
  ++ text_arg "metrics-service-monitor-authorization-secret-name" (metrics_service_monitor_authorization_secret_name c)
  ++ text_arg "metrics-service-monitor-authorization-secret-key" (metrics_service_monitor_authorization_secret_key c)
  ++ text_arg "webhook-cert-path" (webhook_cert_path c)
  ++ text_arg "webhook-cert-name" (webhook_cert_name c)
  ++ text_arg "webhook-cert-key" (webhook_cert_key c)
  ++ text_arg "metrics-cert-path" (metrics_cert_path c)
  ++ text_arg "metrics-cert-name" (metrics_cert_name c)
  ++ text_arg "metrics-cert-key" (metrics_cert_key c)
  ++ switch_arg "enable-http2" (enable_http2 c).

(** ** What a command line asks for *)

Section wanted.
Context (c : CommandLine) (namespace : string).

(** Certificates are served from a directory, if one is given. *)
Definition wanted_files (path name key : option string) : option (string * string) :=
  match path with
  | None | Some "" => None
  | Some dir => Some (JoinPath [dir; default "tls.crt" name], JoinPath [dir; default "tls.key" key])
  end.
Definition wanted_metrics_files := wanted_files (metrics_cert_path c) (metrics_cert_name c) (metrics_cert_key c).
Definition wanted_webhook_files := wanted_files (webhook_cert_path c) (webhook_cert_name c) (webhook_cert_key c).

Definition wanted_tls (w : option (string * string)) : list TLSOpt :=
  (if default false (enable_http2 c) then [] else [DisableHTTP2])
  ++ match w with Some (cert, key) => [UseCertificate cert key] | None => [] end.

Definition wanted_address : string := default ":9090" (metrics_bind_address c).
Definition wanted_secure : bool := default false (metrics_secure c).

(** The manager: addresses, protection of the metrics, leader election, and a cache limited to the namespace. *)
Definition wanted_manager : ManagerOptions :=
  mkManagerOptions (mkMetricsOptions wanted_address wanted_secure (wanted_tls wanted_metrics_files) wanted_secure)
    (wanted_tls wanted_webhook_files) (default ":8080" (health_probe_bind_address c)) (default false (leader_elect c))
    "85932bfd.redhat.com" ((fun t => (t, [namespace])) <$> TSecret :: NamespacedOperandTypes).

(** The ServiceMonitor's settings, and whether there is one: there are metrics, and it is not switched off. *)
Definition wanted_scrape : servicemonitor.ScrapeConfig :=
  servicemonitor.mkScrapeConfig wanted_secure (negb (String.eqb (default "" (metrics_cert_path c)) ""))
    (default "" (metrics_service_monitor_ca_secret_name c)) (default "" (metrics_service_monitor_ca_secret_key c))
    (default "" (metrics_service_monitor_server_name c))
    (default "" (metrics_service_monitor_authorization_secret_name c))
    (default "" (metrics_service_monitor_authorization_secret_key c)).
Definition wanted_monitor : bool :=
  negb (String.eqb wanted_address "0") && default true (metrics_service_monitor_enabled c).

Definition for_files (f : string -> string -> Event) (w : option (string * string)) : list Event :=
  match w with Some (cert, key) => [f cert key] | None => [] end.

(** The calls of a start of the reconciler with settings [r]. *)
Definition wanted_calls (r : Settings) : list Event :=
  for_files (ENewCertWatcher WebhookServer) wanted_webhook_files
  ++ for_files (ENewCertWatcher MetricsServer) wanted_metrics_files
  ++ [ENewManager wanted_manager; ESetupController r controllerSetup]
  ++ (if wanted_monitor then [EAdd (Bootstrap namespace wanted_scrape)] else [])
  ++ for_files (fun cert key => EAdd (CertWatcher MetricsServer cert key)) wanted_metrics_files
  ++ for_files (fun cert key => EAdd (CertWatcher WebhookServer cert key)) wanted_webhook_files
  ++ [EAddHealthzCheck "healthz"; EAddReadyzCheck "readyz"; EStart].

End wanted.

(** ** Parsing it *)

(** A flag that may be given. *)
Definition put (name : string) (o : option FlagValue) (fl : Flags) : Flags :=
  match o with Some v => <[name := v]> fl | None => fl end.

Lemma put_eq name o fl : put name o fl !! name = match o with Some v => Some v | None => fl !! name end.
Proof. destruct o; [apply lookup_insert_eq|done]. Qed.

Lemma put_ne name n o fl : name <> n -> put n o fl !! name = fl !! name.
Proof. destruct o; [|done]. intros. by apply lookup_insert_ne. Qed.

Section parsing.
Context `{Z : ZapFlags}.

Lemma Parse_text name d o args fl : (name, StringVar d) ∈ flag_table ->
  Parse (text_arg name o ++ args) fl = Parse args (put name (StringValue <$> o) fl).
Proof. intros H. destruct o as [v|]; [|done]. exact (Parse_print name (StringVar d) (StringValue v) args fl H eq_refl). Qed.

Lemma Parse_switch name d o args fl : (name, BoolVar d) ∈ flag_table ->
  Parse (switch_arg name o ++ args) fl = Parse args (put name (BoolValue <$> o) fl).
Proof.
  intros H. destruct o as [[]|]; [|exact (Parse_print name (BoolVar d) (BoolValue false) args fl H eq_refl)|done].
  by apply (Parse_bare name d).
Qed.

End parsing.

Ltac in_table := apply (bool_decide_unpack _); vm_compute; exact I.

(** The flags after parsing. *)
Definition parsed (c : CommandLine) : Flags :=
  put "enable-http2" (BoolValue <$> enable_http2 c)
  (put "metrics-cert-key" (StringValue <$> metrics_cert_key c)
  (put "metrics-cert-name" (StringValue <$> metrics_cert_name c)
  (put "metrics-cert-path" (StringValue <$> metrics_cert_path c)
  (put "webhook-cert-key" (StringValue <$> webhook_cert_key c)
  (put "webhook-cert-name" (StringValue <$> webhook_cert_name c)
  (put "webhook-cert-path" (StringValue <$> webhook_cert_path c)
  (put "metrics-service-monitor-authorization-secret-key"
     (StringValue <$> metrics_service_monitor_authorization_secret_key c)
  (put "metrics-service-monitor-authorization-secret-name"
     (StringValue <$> metrics_service_monitor_authorization_secret_name c)
  (put "metrics-service-monitor-server-name" (StringValue <$> metrics_service_monitor_server_name c)
  (put "metrics-service-monitor-ca-secret-key" (StringValue <$> metrics_service_monitor_ca_secret_key c)
  (put "metrics-service-monitor-ca-secret-name" (StringValue <$> metrics_service_monitor_ca_secret_name c)
  (put "metrics-service-monitor-enabled" (BoolValue <$> metrics_service_monitor_enabled c)
  (put "metrics-secure" (BoolValue <$> metrics_secure c)
  (put "metrics-bind-address" (StringValue <$> metrics_bind_address c)
  (put "health-probe-bind-address" (StringValue <$> health_probe_bind_address c)
  (put "leader-elect" (BoolValue <$> leader_elect c) defaults)))))))))))))))).

Lemma arguments_parsed `{ZapFlags} c : parse_flags (arguments c) = inr (parsed c).
Proof.
  unfold parse_flags, arguments, parsed.
  rewrite (Parse_switch "leader-elect" false), (Parse_text "health-probe-bind-address" ":8080"),
    (Parse_text "metrics-bind-address" ":9090"), (Parse_switch "metrics-secure" false),
    (Parse_switch "metrics-service-monitor-enabled" true), (Parse_text "metrics-service-monitor-ca-secret-name" ""),
    (Parse_text "metrics-service-monitor-ca-secret-key" ""), (Parse_text "metrics-service-monitor-server-name" ""),
    (Parse_text "metrics-service-monitor-authorization-secret-name" ""),
    (Parse_text "metrics-service-monitor-authorization-secret-key" ""), (Parse_text "webhook-cert-path" ""),
    (Parse_text "webhook-cert-name" "tls.crt"), (Parse_text "webhook-cert-key" "tls.key"),
    (Parse_text "metrics-cert-path" ""), (Parse_text "metrics-cert-name" "tls.crt"),
    (Parse_text "metrics-cert-key" "tls.key") by in_table.
  rewrite <-(app_nil_r (switch_arg "enable-http2" _)), (Parse_switch "enable-http2" false) by in_table. done.
Qed.

Lemma defaults_lookup name v : defaults !! name = Some v -> forall o,
  match o with Some x => Some x | None => defaults !! name end = Some (default v o).
Proof. by intros -> [x|]. Qed.

(** One flag's value: what was given, or the default. *)
Ltac flag_value :=
  unfold string_var, bool_var, parsed; rewrite ?put_ne, put_eq by done;
  rewrite ?put_ne by done;
  match goal with |- context [fmap ?f ?o] => destruct o; [done|] end;
  rewrite ?put_ne by done; vm_compute; reflexivity.

Section values.
Context (c : CommandLine).

Lemma enableLeaderElection_parsed : enableLeaderElection (parsed c) = default false (leader_elect c).
Proof. unfold enableLeaderElection. flag_value. Qed.
Lemma probeAddr_parsed : probeAddr (parsed c) = default ":8080" (health_probe_bind_address c).
Proof. unfold probeAddr. flag_value. Qed.
Lemma metricsAddr_parsed : metricsAddr (parsed c) = default ":9090" (metrics_bind_address c).
Proof. unfold metricsAddr. flag_value. Qed.
Lemma secureMetrics_parsed : secureMetrics (parsed c) = default false (metrics_secure c).
Proof. unfold secureMetrics. flag_value. Qed.
Lemma serviceMonitorEnabled_parsed : serviceMonitorEnabled (parsed c) = default true (metrics_service_monitor_enabled c).
Proof. unfold serviceMonitorEnabled. flag_value. Qed.
Lemma enableHTTP2_parsed : enableHTTP2 (parsed c) = default false (enable_http2 c).
Proof. unfold enableHTTP2. flag_value. Qed.

Lemma scrapeConfig_parsed : scrapeConfig (parsed c) = wanted_scrape c.
Proof.
  unfold scrapeConfig, wanted_scrape, wanted_secure. rewrite secureMetrics_parsed. f_equal.
  - do 2 f_equal. unfold metricsCertPath. flag_value.
  - unfold metricsServiceMonitorCASecretName. flag_value.
  - unfold metricsServiceMonitorCASecretKey. flag_value.
  - unfold metricsServiceMonitorServerName. flag_value.
  - unfold metricsServiceMonitorAuthorizationSecretName. flag_value.
  - unfold metricsServiceMonitorAuthorizationSecretKey. flag_value.
Qed.

Lemma certFiles_parsed s : certFiles (parsed c) s =
  match s with
  | WebhookServer => (default "" (webhook_cert_path c),
      (JoinPath [default "" (webhook_cert_path c); default "tls.crt" (webhook_cert_name c)],
       JoinPath [default "" (webhook_cert_path c); default "tls.key" (webhook_cert_key c)]))
  | MetricsServer => (default "" (metrics_cert_path c),
      (JoinPath [default "" (metrics_cert_path c); default "tls.crt" (metrics_cert_name c)],
       JoinPath [default "" (metrics_cert_path c); default "tls.key" (metrics_cert_key c)]))
  end.
Proof.
  assert (H1 : webhookCertPath (parsed c) = default "" (webhook_cert_path c)) by (unfold webhookCertPath; flag_value).
  assert (H2 : webhookCertName (parsed c) = default "tls.crt" (webhook_cert_name c)) by (unfold webhookCertName; flag_value).
  assert (H3 : webhookCertKey (parsed c) = default "tls.key" (webhook_cert_key c)) by (unfold webhookCertKey; flag_value).
  assert (H4 : metricsCertPath (parsed c) = default "" (metrics_cert_path c)) by (unfold metricsCertPath; flag_value).
  assert (H5 : metricsCertName (parsed c) = default "tls.crt" (metrics_cert_name c)) by (unfold metricsCertName; flag_value).
  assert (H6 : metricsCertKey (parsed c) = default "tls.key" (metrics_cert_key c)) by (unfold metricsCertKey; flag_value).
  destruct s; cbn [certFiles]; by rewrite ?H1, ?H2, ?H3, ?H4, ?H5, ?H6.
Qed.

Lemma files_parsed s : files (parsed c) s
  = match s with WebhookServer => wanted_webhook_files c | MetricsServer => wanted_metrics_files c end.
Proof.
  unfold files, watched. rewrite certFiles_parsed.
  destruct s; unfold wanted_webhook_files, wanted_metrics_files, wanted_files;
    [destruct (metrics_cert_path c) as [[|]|]|destruct (webhook_cert_path c) as [[|]|]]; done.
Qed.

End values.

(** The plan of a start with these arguments. *)
Lemma plan_parsed getenv c b :
  plan getenv (parsed c) b = wanted_calls c (operatorNamespace getenv) (settings getenv b).
Proof.
  unfold plan, prepare, register, launch, watcher_calls, manager, metricsServerOptions, bootstrapped, tlsOpts,
    wanted_calls, wanted_monitor, wanted_manager, wanted_address, wanted_secure, for_files.
  rewrite !files_parsed, enableLeaderElection_parsed, probeAddr_parsed, metricsAddr_parsed, secureMetrics_parsed,
    serviceMonitorEnabled_parsed, enableHTTP2_parsed, scrapeConfig_parsed.
  rewrite <-!app_assoc. unfold wanted_tls, with_certificate.
  by destruct (wanted_metrics_files c) as [[??]|], (wanted_webhook_files c) as [[??]|], (default false (enable_http2 c)).
Qed.

Lemma accepted_parsed getenv c b :
  getenv sentinel.RelatedImageEnv <> "" -> envToBrokerInfo getenv = Ok b ->
  (wanted_monitor c = true -> servicemonitor.Validate (wanted_scrape c) = None) -> accepted getenv (parsed c) b.
Proof.
  intros Hi Hb Hv. split; [done|]. split; [done|]. unfold bootstrapped.
  rewrite metricsAddr_parsed, serviceMonitorEnabled_parsed, scrapeConfig_parsed. exact Hv.
Qed.

(** C33: what the command line does.  For any choice of flags, in the environment of a
    valid broker and image and with valid settings for the ServiceMonitor if one is made, the process makes
    exactly these calls and runs: metrics on the given address, :9090 by default, in clear and
    without authentication unless --metrics-secure; probes on :8080 by default; leader election only
    when asked for; HTTP/1.1 only unless --enable-http2; certificates of each server from
    its directory when one is given, from tls.crt and tls.key by default; a
    ServiceMonitor with the given Secrets unless switched off or there are no metrics. *)
Theorem command_line_configures `{ML : ManagerLib} `{ZapFlags} getenv commit ReadBuildInfo runtime_Version
    (c : CommandLine) b (p : Proc)
    (Himage : getenv sentinel.RelatedImageEnv <> "") (Hbroker : envToBrokerInfo getenv = Ok b)
    (Hscrape : wanted_monitor c = true -> servicemonitor.Validate (wanted_scrape c) = None)
    (Hgranted : Forall granted (wanted_calls c (operatorNamespace getenv) (settings getenv b))) :
  exists p', main getenv commit ReadBuildInfo runtime_Version (arguments c) p = (0%Z, p')
  /\ events p' = events p ++ wanted_calls c (operatorNamespace getenv) (settings getenv b).
Proof.
  unfold main. rewrite arguments_parsed. rewrite <-plan_parsed in *.
  rewrite (run_main_complete getenv commit ReadBuildInfo runtime_Version (parsed c) b p); [by eexists| |exact Hgranted].
  by apply accepted_parsed.
Qed.

(** ** The command line of [config/manager/manager.yaml] *)

Definition manager_yaml : CommandLine :=
  mkCommandLine (Some true) (Some ":8080") (Some ":9090") None None None None None None None None None None None None
    None None.

Example manager_yaml_arguments :
  arguments manager_yaml = ["--leader-elect"; "--health-probe-bind-address=:8080"; "--metrics-bind-address=:9090"].
Proof. reflexivity. Qed.

Lemma command_line_configures_witness :
  exists p', main (ML := no_refusal) (H := no_zap) demo_env "abc" None "go1.24" (arguments manager_yaml) demo_proc = (0%Z, p')
  /\ length (events p') = 6%nat
  /\ LeaderElection (wanted_manager manager_yaml "hyperfleet-system") = true.
Proof.
  destruct (command_line_configures (ML := no_refusal) (H := no_zap) demo_env "abc" None "go1.24" manager_yaml
    (sentinel.mkBrokerInfo sentinel.BrokerTypeGooglePubSub "my-project-1") demo_proc) as (p' & Hm & He).
  - discriminate.
  - vm_compute. reflexivity.
  - intros _. reflexivity.
  - apply Forall_forall. intros e _. reflexivity.
  - exists p'. split; [exact Hm|]. split; [|reflexivity]. rewrite He. reflexivity.
Defined.

End commandline.
