(* ===== verification/Rbac.v ===== *)
(** * The permissions the operator declares, and the calls it makes

    The [+kubebuilder:rbac] markers of [hyperfleetconfig_controller.go] and
    [servicemonitor.go] become the manager's Role and ClusterRole.  Every call that the
    reconcile loop, the informers of its cache and the ServiceMonitor bootstrap
    make is covered by them, whatever the API server answers.  A marker with a namespace
    is a rule of the Role in it, which [config/default]'s namespace
    transformer moves to the operator's namespace.  Leader election and the
    authentication of metrics requests have hand-written roles of their own under
    [config/rbac] and are left out. *)

From S2P Require Import Prelude Kube ConfigTypes Json Url JsonDecode Contract Api Sentinel Bundle NetAddr.
From S2P Require Import DiscoveryGuard Sha256 Env ConfigHash Metrics State Jwks Status Apply.
From S2P Require Import Observability Sim Reconciler ReconcilerMetrics ReconcilerCalls Operands.
From S2P Require Import ServiceMonitor Startup.

Module rbac.
Import reconciler calls operands.

(** ** The markers *)

Record Rule := mkRule {
  r_groups : list string; r_resources : list string; r_verbs : list string; r_namespace : option string }.

Definition deploy_namespace : string := "hyperfleet-system".

Definition controller_rules : list Rule :=
  [mkRule ["hyperfleet.redhat.com"] ["hyperfleetconfigs"]
     ["get"; "list"; "watch"; "create"; "update"; "patch"; "delete"] None;
   mkRule ["hyperfleet.redhat.com"] ["hyperfleetconfigs/status"] ["get"; "update"; "patch"] None;
   mkRule ["hyperfleet.redhat.com"] ["hyperfleetconfigs/finalizers"] ["update"] None;
   mkRule ["apps"] ["deployments"]
     ["get"; "list"; "watch"; "create"; "update"; "patch"] (Some deploy_namespace);
   mkRule [""] ["services"; "serviceaccounts"; "configmaps"]
     ["get"; "list"; "watch"; "create"; "update"; "patch"] (Some deploy_namespace);
   mkRule ["rbac.authorization.k8s.io"] ["roles"; "rolebindings"]
     ["get"; "list"; "watch"; "create"; "update"; "patch"] (Some deploy_namespace);
   mkRule ["networking.k8s.io"] ["networkpolicies"]
     ["get"; "list"; "watch"; "create"; "update"; "patch"; "delete"] (Some deploy_namespace);
   mkRule [""] ["secrets"] ["get"; "list"; "watch"] (Some deploy_namespace)].

Definition servicemonitor_rules : list Rule :=
  [mkRule ["monitoring.coreos.com"] ["servicemonitors"]
     ["get"; "list"; "watch"; "create"; "update"; "patch"] (Some deploy_namespace)].

Definition manager_rules : list Rule := controller_rules ++ servicemonitor_rules.

(** The rules as installed in namespace [ns]. *)
Definition deployed (ns : string) (rules : list Rule) : list Rule :=
  map (fun rl => mkRule (r_groups rl) (r_resources rl) (r_verbs rl) ((fun _ => ns) <$> r_namespace rl)) rules.

(** ** What a request needs *)

Definition mem (x : string) (l : list string) : bool := existsb (String.eqb x) l.

(** A rule of a ClusterRole holds everywhere, a rule of a Role in its namespace;
    [ns] is [None] for a cluster-scoped request. *)
Definition allows (rules : list Rule) (ns : option string) (gr : string * string) (verb : string) : bool :=
  existsb (fun rl => mem gr.1 (r_groups rl) && mem gr.2 (r_resources rl) && mem verb (r_verbs rl)
                     && match r_namespace rl with None => true | Some n => bool_decide (ns = Some n) end) rules.

Definition grants (rules : list Rule) (ns : option string) (gr : string * string) (verbs : list string) : bool :=
  forallb (allows rules ns gr) verbs.

(** The API group and resource of a type. *)
Definition resource_of (t : ObjectType) : string * string :=
  match t with
  | TDeployment => ("apps", "deployments")
  | TService => ("", "services")
  | TServiceAccount => ("", "serviceaccounts")
  | TConfigMap => ("", "configmaps")
  | TRole => ("rbac.authorization.k8s.io", "roles")
  | TRoleBinding => ("rbac.authorization.k8s.io", "rolebindings")
  | TNetworkPolicy => ("networking.k8s.io", "networkpolicies")
  | TSecret => ("", "secrets")
  end.

Definition config_resource (sub : string) : string * string :=
  ("hyperfleet.redhat.com", "hyperfleetconfigs" +:+ sub).

(** A read through the cache also lists and watches; a server-side apply
    creates what is absent. *)
Definition read_verbs (rd : Reader) : list string :=
  match rd with CachedClient => ["get"; "list"; "watch"] | APIReader => ["get"] end.
Definition apply_verbs : list string := ["create"; "patch"].

(** A Role without rules can be applied, and bound, by anyone: the API server's
    check against privilege escalation has nothing to compare. *)
Definition escalates (o : Object) : Prop := match o with ORole x => Rules x <> [] | _ => False end.

(** An operand with a controller reference to the resource blocks its deletion,
    which takes [update] on the owner's finalizers. *)
Definition may_apply (rules : list Rule) (o : Object) : Prop :=
  grants rules (Some (obj_Namespace o)) (resource_of (obj_type o)) apply_verbs = true
  /\ grants rules None (config_resource "/finalizers") ["update"] = true /\ ~ escalates o.

Section permitted.
Context {W : Type} `{E : Env W} (rules : list Rule).

Definition permitted (owner : HyperFleetConfig) (c : Call Unstructured) : Prop :=
  match c with
  | CGetConfig _ => grants rules None (config_resource "") (read_verbs CachedClient) = true
  | CGetSecret ns _ => grants rules (Some ns) (resource_of TSecret) (read_verbs CachedClient) = true
  | CGetDeployment ns _ => grants rules (Some ns) (resource_of TDeployment) (read_verbs CachedClient) = true
  | CGetObject rd o => grants rules (Some (obj_Namespace o)) (resource_of (obj_type o)) (read_verbs rd) = true
  | CApply u _ _ => exists o o1, SetControllerReference owner o = inr o1 /\ ToUnstructured o1 = inr u
                      /\ may_apply rules o
  | CStatusUpdate _ => grants rules None (config_resource "/status") ["update"] = true
  | CHTTP _ _ => True
  end.

End permitted.

(** The bootstrap reads through a client of its own. *)
Definition bootstrap_permitted (rules : list Rule) (c : servicemonitor.SMCall) : Prop :=
  match c with
  | servicemonitor.CGetService ns _ _ => grants rules (Some ns) (resource_of TService) ["get"] = true
  | servicemonitor.CApplyMonitor sm _ _ _ =>
      grants rules (Some (om_Namespace (servicemonitor.sm_Meta sm)))
        (servicemonitor.sm_Group sm, "servicemonitors") apply_verbs = true
  | _ => True
  end.

(** ** Grants of the installed rules *)

(** In its own namespace the installed rules decide as any other installation does in its. *)
Lemma allows_deployed ns rules gr verb :
  allows (deployed ns rules) (Some ns) gr verb = allows (deployed "" rules) (Some "") gr verb.
Proof.
  unfold allows, deployed. induction rules as [|rl rules IH]; [done|]. cbn. rewrite IH. f_equal. f_equal.
  destruct (r_namespace rl); cbn; [|done]. by rewrite !bool_decide_eq_true_2.
Qed.

Lemma allows_cluster ns rules gr verb :
  allows (deployed ns rules) None gr verb = allows (deployed "" rules) None gr verb.
Proof.
  unfold allows, deployed. induction rules as [|rl rules IH]; [done|]. cbn. rewrite IH. f_equal. f_equal.
  destruct (r_namespace rl); cbn; [|done]. by rewrite !bool_decide_eq_false_2.
Qed.

Lemma grants_deployed ns rules gr verbs :
  grants (deployed ns rules) (Some ns) gr verbs = grants (deployed "" rules) (Some "") gr verbs.
Proof. unfold grants. induction verbs as [|v vs IH]; [done|]. cbn. by rewrite allows_deployed, IH. Qed.

Lemma grants_cluster ns rules gr verbs :
  grants (deployed ns rules) None gr verbs = grants (deployed "" rules) None gr verbs.
Proof. unfold grants. induction verbs as [|v vs IH]; [done|]. cbn. by rewrite allows_cluster, IH. Qed.

Ltac granted := rewrite ?grants_deployed, ?grants_cluster; reflexivity.

(** Every operand type, and Secrets, can be read; the operand types can be applied. *)
Lemma types_readable ns t rd : grants (deployed ns manager_rules) (Some ns) (resource_of t) (read_verbs rd) = true.
Proof. destruct t, rd; granted. Qed.

Lemma operands_writable ns t : t ∈ NamespacedOperandTypes ->
  grants (deployed ns manager_rules) (Some ns) (resource_of t) apply_verbs = true.
Proof. intros H. assert (t <> TSecret) by set_solver. destruct t; try done; granted. Qed.

(** What the rules do not grant. *)
Lemma mem_spec x l : mem x l = true -> x ∈ l.
Proof. unfold mem. intros (y & Hy & ->%String.eqb_eq)%existsb_exists. by apply list_elem_of_In. Qed.

Lemma allows_rule rules ns gr verb : allows rules ns gr verb = true ->
  exists rl, rl ∈ rules /\ gr.1 ∈ r_groups rl /\ gr.2 ∈ r_resources rl /\ verb ∈ r_verbs rl
             /\ forall n, r_namespace rl = Some n -> ns = Some n.
Proof.
  unfold allows. intros (rl & Hin & Hm)%existsb_exists. apply andb_true_iff in Hm as [Hm Hn].
  apply andb_true_iff in Hm as [Hm Hv]. apply andb_true_iff in Hm as [Hg Hr].
  exists rl. rewrite list_elem_of_In. repeat split; [done|by apply mem_spec..|].
  intros n E. rewrite E in Hn. by apply bool_decide_eq_true in Hn.
Qed.

Lemma secrets_read_only op ns verb :
  allows (deployed op manager_rules) ns (resource_of TSecret) verb = true -> verb ∈ read_verbs CachedClient.
Proof.
  intros (rl & Hin & _ & Hr & Hv & _)%allows_rule. cbn in Hin.
  repeat (apply elem_of_cons in Hin as [-> |Hin]; [cbn in Hr, Hv; by try set_solver|]). set_solver.
Qed.

Lemma nothing_elsewhere op ns gr verb : ns <> Some op ->
  allows (deployed op manager_rules) ns gr verb = true -> gr.1 = "hyperfleet.redhat.com".
Proof.
  intros Hns (rl & Hin & Hg & _ & _ & Hn)%allows_rule. cbn in Hin.
  repeat (apply elem_of_cons in Hin as [-> |Hin]; [cbn in Hg, Hn; first [by apply list_elem_of_singleton in Hg | by destruct (Hns (Hn _ eq_refl))]|]).
  set_solver.
Qed.

(** ** What the components send *)

Definition sendable (ns : string) (o : Object) : Prop :=
  obj_type o ∈ NamespacedOperandTypes /\ obj_Namespace o = ns /\ ~ escalates o.

Section sent.
Context {W : Type} `{E : Env W} `{EL : !EnvLaws W} `{TL : TemplateLib} `{UL : UrlLib} `{CL : ConditionsLib} `{Y : YamlLib}.
Context (r : Settings).

Lemma rendered_sendable (c : bundle.Component) cr objs :
  cRender c cr = Ok objs -> Forall (sendable (namespace_of c)) objs.
Proof.
  destruct c as [a|s]; cbn [cRender bundle.bundle_IsComponent]; intros Hr.
  - apply api.api_Render_ok in Hr as (image & y & _ & ->).
    repeat constructor; cbn; try (by intros []); unfold NamespacedOperandTypes; set_solver.
  - apply sentinel.sentinel_Render_ok in Hr as (b & y1 & y2 & _ & _ & _ & _ & ->).
    repeat constructor; cbn; try (by intros []); unfold NamespacedOperandTypes; set_solver.
Qed.

(** Stamping changes annotations only. *)
Lemma stamped_sendable ns target hash o : sendable ns o ->
  sendable ns (observability.stamp_template (rollout.stamp_one target hash o)).
Proof.
  destruct o as [d|?|?|?|?|?|?]; cbn; try done. by destruct (String.eqb (dep_Name d) _).
Qed.

Lemma desired_sendable (c : bundle.Component) cr entries hash objs :
  desired_objects cr entries c = Ok (hash, objs) -> Forall (sendable (namespace_of c)) objs.
Proof.
  unfold desired_objects, rollout.stampConfigHash. destruct (cRender c cr) as [objs0|e|] eqn:Er; [|done..].
  cbn. intros [= _ <-]. apply rendered_sendable in Er. rewrite map_map.
  apply Forall_forall. intros o Ho. apply list_elem_of_In, in_map_iff in Ho as (o0 & <- & Ho0).
  rewrite Forall_forall in Er. apply stamped_sendable, Er. by apply list_elem_of_In.
Qed.

Lemma configured_namespace cr url :
  Forall (fun c => namespace_of c = OperatorNamespace r) (configured r cr url).
Proof.
  unfold configured, resolved. destruct (bundle.Resolve _ _) as [comps|e|] eqn:Er; [|constructor..].
  apply bundle.Resolve_ok in Er as (_ & _ & ->). by repeat constructor.
Qed.

(** ** The calls of a reconcile *)

#[local] Abbreviation rules := (deployed (OperatorNamespace r) manager_rules).

Lemma secret_reads_permitted cr refs :
  Forall (permitted rules cr) (secret_reads (OperatorNamespace r) refs).
Proof. unfold secret_reads. induction refs; constructor; [|done]. apply (types_readable _ TSecret CachedClient). Qed.

Lemma deployment_reads_permitted cr objs : Forall (sendable (OperatorNamespace r)) objs ->
  Forall (permitted rules cr) (deployment_reads objs).
Proof.
  induction 1 as [|o objs (_ & Hns & _) H IH]; [constructor|]. rewrite deployment_reads_cons.
  destruct o as [d|?|?|?|?|?|?]; cbn; try exact IH. constructor; [|exact IH].
  cbn. change (observability.dep_Namespace d) with (obj_Namespace (ODeployment d)). rewrite Hns.
  apply (types_readable _ TDeployment CachedClient).
Qed.

Lemma object_calls_permitted rd cr o : sendable (OperatorNamespace r) o ->
  Forall (permitted rules cr) (apply.object_calls rd cr o).
Proof.
  intros (Ht & Hns & He). unfold apply.object_calls.
  destruct (SetControllerReference cr o) as [e|o1] eqn:E1; [constructor|].
  destruct (ToUnstructured o1) as [e|u] eqn:E2; [constructor|].
  constructor; [|constructor; [|constructor]]; cbn [permitted].
  - exists o, o1. split; [done|]. split; [done|]. unfold may_apply. rewrite Hns.
    split; [by apply operands_writable|]. split; [granted|done].
  - destruct (SetControllerReference_same _ _ _ E1) as (-> & _ & ->). rewrite Hns. apply types_readable.
Qed.

Lemma component_calls_permitted cr entries (c : bundle.Component) : namespace_of c = OperatorNamespace r ->
  Forall (permitted rules cr) (component_calls r cr entries c).
Proof.
  intros Hns. unfold component_calls. destruct (desired_objects cr entries c) as [[h objs]|e|] eqn:Ed; [|constructor..].
  apply desired_sendable in Ed. rewrite Hns in Ed.
  apply Forall_app; split; [by apply deployment_reads_permitted|].
  apply Forall_app; split; [|by apply deployment_reads_permitted].
  clear -Ed EL. induction Ed as [|o objs Ho H IH]; [constructor|]. rewrite bind_cons.
  apply Forall_app. split; [by apply object_calls_permitted|exact IH].
Qed.

Lemma prefix_permitted cr k k' : k `prefix_of` k' ->
  Forall (permitted (E := E) rules cr) k' -> Forall (permitted rules cr) k.
Proof. intros [l ->]. by intros [? _]%Forall_app. Qed.

Lemma body_permitted cr ok k : body_trace r cr ok k -> Forall (permitted rules cr) k.
Proof.
  intros (ks & kh & kw & entries & url & -> & Hks & _ & Hkh & Hkw & _).
  apply Forall_app; split; [|apply Forall_app; split].
  - eapply prefix_permitted; [exact Hks|]. unfold secret_phase.
    induction (resolved r cr) as [|c cs IH]; [constructor|]. rewrite bind_cons.
    apply Forall_app. split; [|exact IH]. unfold component_secret_reads.
    destruct (cReferencedSecrets c cr); [apply secret_reads_permitted|constructor..].
  - destruct Hkh as [->|[c ->]]; by repeat constructor.
  - eapply prefix_permitted; [exact Hkw|]. unfold work_phase, work_calls.
    pose proof (configured_namespace cr url) as Hns.
    induction Hns as [|c cs Hc H IH]; [constructor|]. rewrite bind_cons.
    apply Forall_app. split; [by apply component_calls_permitted|exact IH].
Qed.

Lemma trace_permitted name cr ok k : reconcile_trace r name cr ok k -> Forall (permitted rules cr) k.
Proof.
  intros (kb & ku & okb & -> & Hb & _ & Hu). apply Forall_app; split.
  - by repeat constructor.
  - apply Forall_app; split; [by eapply body_permitted|].
    destruct Hu as [->|[st ->]]; by repeat constructor.
Qed.

(** C40: the declared permissions are enough, and Secrets stay read-only.  Installed
    in the operator's namespace, the markers cover every call of every reconcile,
    whatever is answered, with what an apply needs beyond itself (creating what is absent, the
    owner's finalizers, no Role that could escalate); the reads of every informer that
    the cache is scoped for, and of the resource's own; and every call of the ServiceMonitor bootstrap.
    On Secrets they allow reading and nothing else, and outside the operator's namespace only the resource. *)
Theorem operator_permitted name (s : RState (W * list (Call Unstructured))) :
  (exists k owner, rlog (snd (Reconcile (E := LE) r name s)) = rlog s ++ k /\ Forall (permitted rules owner) k)
  /\ (forall t nss ns, (t, nss) ∈ startup.namespacedCacheByObject (OperatorNamespace r) -> ns ∈ nss ->
        grants rules (Some ns) (resource_of t) (read_verbs CachedClient) = true)
  /\ grants rules None (config_resource "") (read_verbs CachedClient) = true
  /\ (forall c k, servicemonitor.bootstraps (OperatorNamespace r) c k -> Forall (bootstrap_permitted rules) k)
  /\ (forall ns verb, allows rules ns (resource_of TSecret) verb = true -> verb ∈ read_verbs CachedClient)
  /\ (forall ns gr verb, ns <> Some (OperatorNamespace r) -> allows rules ns gr verb = true ->
        gr.1 = "hyperfleet.redhat.com").
Proof.
  split; [|split; [|split; [|split; [|split]]]].
  - destruct (reconcile_traced r name s) as (k & Hk & Ht). exists k.
    destruct (fst (get_HyperFleetConfig name (snd (env_Now (rs_world s).1)))) as [cr| |e];
      [exists cr; split; [exact Hk|by eapply trace_permitted]|..];
      subst k; exists apply.demo_apply_cr; (split; [exact Hk|]); by repeat constructor.
  - intros t nss ns Ht Hns. assert (nss = [OperatorNamespace r]) as ->.
    { unfold startup.namespacedCacheByObject in Ht. cbn in Ht. set_solver. }
    apply list_elem_of_singleton in Hns as ->. apply types_readable.
  - granted.
  - intros c k Hb. destruct Hb; repeat constructor; unfold bootstrap_permitted; [granted..|].
    change (om_Namespace _) with (OperatorNamespace r). granted.
  - apply secrets_read_only.
  - apply nothing_elsewhere.
Qed.

End sent.

Lemma operator_permitted_witness :
  let s := mkRState (demo_world, []) None None metrics.zeroMetrics in
  let log := rlog (snd (Reconcile (E := LE) (Y := api.toy_yaml) demo_settings SingletonName s)) in
  (40 <= length log)%nat
  /\ exists k owner, log = k /\
       Forall (permitted (deployed (OperatorNamespace demo_settings) manager_rules) owner) k.
Proof.
  intros s log. split; [vm_compute; lia|].
  destruct (operator_permitted (Y := api.toy_yaml) demo_settings SingletonName s) as [(k & owner & Hk & Hp) _].
  exists k, owner. split; [exact Hk|exact Hp].
Defined.

End rbac.
