(* ===== verification/RelatedImages.v ===== *)
(** * The related-images validator ([validators/related-images/main.go])

    A build-time check of an OLM bundle: every image a deployment runs, or is told of
    by a [RELATED_IMAGE_] variable, is pinned by digest and listed in
    [spec.relatedImages].  The YAML decoder and the pullspec parser are third-party
    ([BundleLib]); the order in which Go ranges over a map is unspecified ([MapRange]). *)

From S2P Require Import Prelude.

Module relatedimages.

Definition relatedImagePrefix : string := "RELATED_IMAGE_".
Definition validatorName : string := "related-images".

(** ** Data *)

(** A message's detail is a call of [fmt.Sprintf]: its format and arguments. *)
Record validationMsg := mkMsg { Type_ : string; Level : string; Field : string; Detail : string * list string }.

Record manifestResult := mkResult { r_Name : string; Errors : list validationMsg; Warnings : list validationMsg }.

Record imageEntry := mkImageEntry { ie_Name : string; ie_Image : string }.
Record env := mkEnv { env_Name : string; env_Value : string }.
Record container := mkContainer { c_Name : string; c_Image : string; c_Env : list env }.
Record deployment := mkDeployment { Containers : list container; InitContainers : list container }.
Record csvDocument := mkCsv { Deployments : list deployment; RelatedImages : list imageEntry }.

(** A parsed pullspec: the digest, if it has one, with its algorithm and the
    error its own validation gives. *)
Record Digest := mkDigest { Algorithm : string; digest_Validate : option error }.

Class BundleLib := {
  Unmarshal_csv (data : string) : error + csvDocument;
  ParseNormalizedNamed (image : string) : error + option Digest }.

(** [range] over a [map[string]bool]: every entry once, in some order. *)
Class MapRange := {
  range : gmap string bool -> list (string * bool);
  range_perm m : range m ≡ₚ map_to_list m }.

(** The file system, as the validator reads it. *)
Class Files := {
  ReadDir (path : string) : error + list string;
  ReadFile (path : string) : error + string }.

Definition errMsg (field format : string) (args : list string) : validationMsg :=
  mkMsg "FailedValidation" "error" field (format, args).

(** The validator appends to the errors of the result it builds. *)
Definition report (m : validationMsg) : ST (list validationMsg) unit := modify (fun l => l ++ [m]).

(** [if !ok { result.Errors = append(...) }]. *)
Definition require (ok : bool) (m : validationMsg) : ST (list validationMsg) unit :=
  if ok then st_ret tt else report m.

Section checks.
Context `{BL : BundleLib}.

Definition isSHA256DigestPullspec (image : string) : bool :=
  match ParseNormalizedNamed image with
  | inl _ => false
  | inr None => false
  | inr (Some digest) =>
      String.eqb (Algorithm digest) "sha256" && match digest_Validate digest with None => true | Some _ => false end
  end.

Definition not_digest (image : string) : validationMsg :=
  errMsg "relatedImages" "image reference is not a sha256 digest: %v" [image].

Definition allContainers (dep : deployment) : list container := Containers dep ++ InitContainers dep.

Fixpoint container_loop (cs : list container) (containerImages : gmap string bool) :
    ST (list validationMsg) (gmap string bool) :=
  (match cs with
   | [] => st_ret containerImages
   | c :: cs' =>
       let containerImages := <[c_Image c := false]> containerImages in
       let! _ := require (isSHA256DigestPullspec (c_Image c)) (not_digest (c_Image c)) in
       container_loop cs' containerImages
   end)%st.

Fixpoint deployment_loop (deps : list deployment) (containerImages : gmap string bool) :
    ST (list validationMsg) (gmap string bool) :=
  (match deps with
   | [] => st_ret containerImages
   | dep :: deps' =>
       let! containerImages := container_loop (allContainers dep) containerImages in
       deployment_loop deps' containerImages
   end)%st.

Definition validateContainerImages (deployments : list deployment) : ST (list validationMsg) (gmap string bool) :=
  deployment_loop deployments ∅.

(** The two maps, after the entries left. *)
Fixpoint image_loop (images : list imageEntry) (relatedImages : gmap string string)
    (containerImages : gmap string bool) :
    ST (list validationMsg) (gmap string string * gmap string bool) :=
  (match images with
   | [] => st_ret (relatedImages, containerImages)
   | image :: images' =>
       let! _ := require (isSHA256DigestPullspec (ie_Image image)) (not_digest (ie_Image image)) in
       match relatedImages !! ie_Image image with
       | None =>
           image_loop images' (<[ie_Image image := ie_Name image]> relatedImages)
             (match containerImages !! ie_Image image with
              | Some _ => <[ie_Image image := true]> containerImages
              | None => containerImages
              end)
       | Some _ =>
           let! _ := report (errMsg "relatedImages" "duplicate value of image: %v" [ie_Image image]) in
           image_loop images' relatedImages containerImages
       end
   end)%st.

Definition validateRelatedImages (images : list imageEntry) (containerImages : gmap string bool) :
    ST (list validationMsg) (gmap string string * gmap string bool) :=
  image_loop images ∅ containerImages.

(** One container's variables. *)
Fixpoint env_loop (c : container) (es : list env) (envRelatedImages : list string)
    (relatedImages : gmap string string) : ST (list validationMsg) unit :=
  (match es with
   | [] => st_ret tt
   | e :: es' =>
       if HasPrefix (env_Name e) relatedImagePrefix then
         let! _ := require (isSHA256DigestPullspec (env_Value e)) (not_digest (env_Value e)) in
         if bool_decide (env_Name e ∈ envRelatedImages) then
           let! _ := report (errMsg "relatedImages" "duplicate env var %s in container %s" [env_Name e; c_Name c]) in
           env_loop c es' envRelatedImages relatedImages
         else
           let! _ := require (bool_decide (is_Some (relatedImages !! env_Value e)))
             (errMsg "relatedImages" "env var %s not found in spec.relatedImages (value: %s)"
                [env_Name e; env_Value e]) in
           env_loop c es' (envRelatedImages ++ [env_Name e]) relatedImages
       else env_loop c es' envRelatedImages relatedImages
   end)%st.

Definition validateEnvVars (deployments : list deployment) (relatedImages : gmap string string) :
    ST (list validationMsg) unit :=
  st_iter (fun dep => st_iter (fun c => env_loop c (c_Env c) [] relatedImages) (allContainers dep)) deployments.

Definition unmatched (im : string * bool) : ST (list validationMsg) unit :=
  require im.2 (errMsg "spec.relatedImages" "container image not in relatedImages: %q" [im.1]).

Definition check_csv `{MapRange} (csv : csvDocument) : ST (list validationMsg) unit :=
  (let! containerImages := validateContainerImages (Deployments csv) in
   let! (relatedImages, containerImages) := validateRelatedImages (RelatedImages csv) containerImages in
   let! _ := validateEnvVars (Deployments csv) relatedImages in
   st_iter unmatched (range containerImages))%st.

Definition validateCSVData `{MapRange} (data : string) : manifestResult :=
  match Unmarshal_csv data with
  | inl err => mkResult validatorName [errMsg "" "failed to parse CSV: %v" []] []
  | inr csv => mkResult validatorName (snd (check_csv csv [])) []
  end.

(** The first file of the directory with the suffix of a CSV. *)
Fixpoint find_entry (dir : string) (entries : list string) : option string :=
  match entries with
  | [] => None
  | e :: entries' =>
      if HasSuffix e ".clusterserviceversion.yaml" then Some (dir +:+ "/" +:+ e) else find_entry dir entries'
  end.

Definition findCSV `{Files} (bundleRoot : string) : error + string :=
  let manifestsDir := bundleRoot +:+ "/manifests" in
  match ReadDir manifestsDir with
  | inl err => inl (Wrapf "reading manifests directory: %w" [] err)
  | inr entries =>
      match find_entry manifestsDir entries with
      | Some path => inr path
      | None => inl (Errorf "no CSV found in manifests directory" [])
      end
  end.

Definition validate `{MapRange} `{Files} (bundleRoot : string) : manifestResult :=
  match findCSV bundleRoot with
  | inl err => mkResult validatorName [errMsg "" "failed to find CSV: %v" []] []
  | inr csvPath =>
      match ReadFile csvPath with
      | inl err => mkResult validatorName [errMsg "" "failed to read CSV: %v" []] []
      | inr data => validateCSVData data
      end
  end.

(** [main], after [flag.Parse] set [csvPath] and left [args]: the exit status and
    the result it prints, if any. *)
Definition main `{MapRange} `{Files} (csvPath : string) (args : list string) : Z * option manifestResult :=
  if negb (String.eqb csvPath "") then
    match ReadFile csvPath with
    | inl _ => (1%Z, None)
    | inr data =>
        let result := validateCSVData data in
        ((if (0 <? length (Errors result))%nat then 1 else 0)%Z, Some result)
    end
  else match args with
       | arg :: _ => (0%Z, Some (validate arg))
       | [] => (1%Z, None)
       end.

(** ** What a valid document is *)

Definition containers_of (csv : csvDocument) : list container := Deployments csv ≫= allContainers.

Definition related_env (c : container) : list env :=
  filter (fun e => HasPrefix (env_Name e) relatedImagePrefix = true) (c_Env c).

Definition pinned (image : string) : Prop := isSHA256DigestPullspec image = true.

Record consistent (csv : csvDocument) : Prop := {
  containers_pinned c : c ∈ containers_of csv -> pinned (c_Image c);
  containers_related c : c ∈ containers_of csv -> c_Image c ∈ ie_Image <$> RelatedImages csv;
  related_pinned im : im ∈ RelatedImages csv -> pinned (ie_Image im);
  related_distinct : NoDup (ie_Image <$> RelatedImages csv);
  env_pinned c e : c ∈ containers_of csv -> e ∈ related_env c -> pinned (env_Value e);
  env_related c e : c ∈ containers_of csv -> e ∈ related_env c -> env_Value e ∈ ie_Image <$> RelatedImages csv;
  env_distinct c : c ∈ containers_of csv -> NoDup (env_Name <$> related_env c) }.

(** [m] computes [v], reports [new], and reports nothing exactly when [P] holds. *)
Definition checks {A} (m : ST (list validationMsg) A) (v : A) (new : list validationMsg) (P : Prop) : Prop :=
  (forall errs, m errs = (v, errs ++ new)) /\ (new = [] <-> P).

Lemma checks_ret {A} (v : A) : checks (st_ret v) v [] True.
Proof. split; [|done]. intros errs. unfold st_ret. by rewrite app_nil_r. Qed.

Lemma checks_bind {A B} (m : ST _ A) (k : A -> ST _ B) v w n1 n2 P Q :
  checks m v n1 P -> checks (k v) w n2 Q -> checks (st_bind m k) w (n1 ++ n2) (P /\ Q).
Proof.
  intros [Hm HP] [Hk HQ]. split.
  - intros errs. unfold st_bind. by rewrite Hm, Hk, app_assoc.
  - rewrite <-HP, <-HQ. split; [apply app_nil|]. by intros [-> ->].
Qed.

Lemma checks_report m : checks (report m) tt [m] False.
Proof. by split. Qed.

Lemma checks_require b m : checks (require b m) tt (if b then [] else [m]) (b = true).
Proof. destruct b; cbn; [|by split]. split; [|done]. intros errs. cbn. unfold st_ret. by rewrite app_nil_r. Qed.

Lemma checks_iff {A} (m : ST _ A) v n P Q : (P <-> Q) -> checks m v n P -> checks m v n Q.
Proof. intros H [? ?]. split; [done|]. by rewrite <-H. Qed.

(** A loop reports nothing exactly when no step does. *)
Lemma checks_iter {X} (f : X -> ST _ unit) (P : X -> Prop) l :
  (forall x, x ∈ l -> exists new, checks (f x) tt new (P x)) ->
  exists new, checks (st_iter f l) tt new (Forall P l).
Proof.
  induction l as [|x l IH]; intros Hf.
  - exists []. eapply checks_iff; [|apply checks_ret]. by rewrite Forall_nil.
  - destruct (Hf x ltac:(left)) as [n1 H1]. destruct IH as [n2 H2]; [intros y Hy; apply Hf; by right|].
    exists (n1 ++ n2). cbn [st_iter]. eapply checks_iff; [symmetry; apply Forall_cons|].
    by eapply checks_bind.
Qed.

Lemma container_loop_checks cs ci : exists new,
  checks (container_loop cs ci) (foldl (fun m c => <[c_Image c := false]> m) ci cs) new
    (Forall (fun c => pinned (c_Image c)) cs).
Proof.
  revert ci. induction cs as [|c cs IH]; intros ci.
  - exists []. eapply checks_iff; [|apply checks_ret]. by rewrite Forall_nil.
  - destruct (IH (<[c_Image c := false]> ci)) as [n H]. eexists.
    eapply checks_iff; [symmetry; apply Forall_cons|]. cbn [container_loop foldl].
    eapply checks_bind; [apply checks_require|exact H].
Qed.

Lemma deployment_loop_checks deps ci : exists new,
  checks (deployment_loop deps ci) (foldl (fun m c => <[c_Image c := false]> m) ci (deps ≫= allContainers)) new
    (Forall (fun c => pinned (c_Image c)) (deps ≫= allContainers)).
Proof.
  revert ci. induction deps as [|dep deps IH]; intros ci.
  - exists []. eapply checks_iff; [|apply checks_ret]. by rewrite Forall_nil.
  - destruct (container_loop_checks (allContainers dep) ci) as [n1 H1].
    destruct (IH (foldl (fun m c => <[c_Image c := false]> m) ci (allContainers dep))) as [n2 H2].
    exists (n1 ++ n2). rewrite bind_cons, foldl_app. cbn [deployment_loop].
    eapply checks_iff; [symmetry; apply Forall_app|]. by eapply checks_bind.
Qed.

(** Every container image is in the map, unmatched at first. *)
Lemma images_false cs (ci : gmap string bool) i :
  foldl (fun m c => <[c_Image c := false]> m) ci cs !! i
  = if decide (i ∈ c_Image <$> cs) then Some false else ci !! i.
Proof.
  revert ci. induction cs as [|c cs IH]; intros ci; [done|]. cbn [foldl]. rewrite IH, fmap_cons.
  destruct (decide (i ∈ c_Image <$> cs)); [by rewrite decide_True by (by right)|].
  destruct (decide (i = c_Image c)) as [->|Hne].
  - by rewrite lookup_insert_eq, decide_True by (by left).
  - rewrite lookup_insert_ne by done. rewrite decide_False; [done|]. by intros [?|?]%elem_of_cons.
Qed.

Lemma image_loop_checks images rel ci : exists rel' ci' new,
  checks (image_loop images rel ci) (rel', ci') new
    (Forall (fun im => pinned (ie_Image im)) images /\ NoDup (ie_Image <$> images)
     /\ forall i, i ∈ ie_Image <$> images -> rel !! i = None)
  /\ (forall i, is_Some (rel' !! i) <-> is_Some (rel !! i) \/ i ∈ ie_Image <$> images)
  /\ (forall i, ci' !! i = Some false <->
        ci !! i = Some false /\ ~ (i ∈ ie_Image <$> images /\ rel !! i = None)).
Proof.
  revert rel ci. induction images as [|im images IH]; intros rel ci; cbn [image_loop].
  - exists rel, ci, []. split; [|split; intros i; set_solver].
    eapply checks_iff; [|apply checks_ret]. split; [|done]. intros _. split_and!; [done|constructor|set_solver].
  - rewrite fmap_cons. destruct (rel !! ie_Image im) as [x|] eqn:Er.
    + destruct (IH rel ci) as (rel' & ci' & n & H & H1 & H2). exists rel', ci'. eexists. split; [|split].
      * eapply checks_iff; [|eapply checks_bind; [apply checks_require|eapply checks_bind; [apply checks_report|exact H]]].
        split; [by intros (_ & [] & _)|]. intros (_ & _ & Hn). specialize (Hn _ ltac:(left)). congruence.
      * intros i. rewrite H1, elem_of_cons. naive_solver.
      * intros i. rewrite H2, elem_of_cons. naive_solver.
    + set (ci2 := match ci !! ie_Image im with Some _ => <[ie_Image im := true]> ci | None => ci end).
      assert (Hci : forall i, ci2 !! i = Some false <-> ci !! i = Some false /\ i <> ie_Image im).
      { intros i. unfold ci2. destruct (decide (i = ie_Image im)) as [->|Hne].
        - destruct (ci !! ie_Image im) eqn:E; [rewrite lookup_insert_eq|rewrite E]; naive_solver.
        - destruct (ci !! ie_Image im); [rewrite lookup_insert_ne by done|]; naive_solver. }
      destruct (IH (<[ie_Image im := ie_Name im]> rel) ci2) as (rel' & ci' & n & H & H1 & H2).
      assert (Hrel : forall i, <[ie_Image im := ie_Name im]> rel !! i = None <-> rel !! i = None /\ i <> ie_Image im).
      { intros i. rewrite lookup_insert_None. naive_solver. }
      exists rel', ci'. eexists. split; [|split].
      * eapply checks_iff; [|eapply checks_bind; [apply checks_require|exact H]].
        rewrite Forall_cons, NoDup_cons. setoid_rewrite Hrel. setoid_rewrite elem_of_cons. naive_solver.
      * intros i. rewrite H1, elem_of_cons. rewrite <-!not_eq_None_Some, Hrel.
        destruct (decide (i = ie_Image im)), (decide (i ∈ ie_Image <$> images)); naive_solver.
      * intros i. rewrite H2, Hci, Hrel, elem_of_cons. naive_solver.
Qed.

Lemma env_loop_checks c es seen rel : exists new,
  checks (env_loop c es seen rel) tt new
    (let l := filter (fun e => HasPrefix (env_Name e) relatedImagePrefix = true) es in
     Forall (fun e => pinned (env_Value e) /\ is_Some (rel !! env_Value e)) l
     /\ NoDup (env_Name <$> l) /\ forall n, n ∈ env_Name <$> l -> n ∉ seen).
Proof.
  revert seen. induction es as [|e es IH]; intros seen; cbn [env_loop].
  - exists []. eapply checks_iff; [|apply checks_ret]. cbn. split; [|done]. intros _.
    split_and!; [constructor|constructor|set_solver].
  - rewrite filter_cons. destruct (HasPrefix (env_Name e) relatedImagePrefix) eqn:Ep.
    2: { rewrite decide_False by done. apply IH. }
    rewrite decide_True by done. cbn zeta. rewrite fmap_cons.
    destruct (bool_decide_reflect (env_Name e ∈ seen)) as [Hs|Hs].
    + destruct (IH seen) as [n H]. eexists.
      eapply checks_iff; [|eapply checks_bind; [apply checks_require|eapply checks_bind; [apply checks_report|exact H]]].
      split; [by intros (_ & [] & _)|]. intros (_ & _ & Hn). by destruct (Hn (env_Name e) ltac:(left)).
    + destruct (IH (seen ++ [env_Name e])) as [n H]. eexists.
      eapply checks_iff; [|eapply checks_bind; [apply checks_require|eapply checks_bind; [apply checks_require|exact H]]].
      cbn zeta. rewrite Forall_cons, NoDup_cons, bool_decide_eq_true. setoid_rewrite elem_of_cons.
      setoid_rewrite elem_of_app. setoid_rewrite list_elem_of_singleton. naive_solver.
Qed.

Lemma validateEnvVars_checks deps rel : exists new,
  checks (validateEnvVars deps rel) tt new
    (Forall (fun c => Forall (fun e => pinned (env_Value e) /\ is_Some (rel !! env_Value e)) (related_env c)
                      /\ NoDup (env_Name <$> related_env c)) (deps ≫= allContainers)).
Proof.
  unfold validateEnvVars.
  destruct (checks_iter (fun dep => st_iter (fun c => env_loop c (c_Env c) [] rel) (allContainers dep))
    (fun dep => Forall (fun c => Forall (fun e => pinned (env_Value e) /\ is_Some (rel !! env_Value e)) (related_env c)
                      /\ NoDup (env_Name <$> related_env c)) (allContainers dep)) deps) as [n H].
  - intros dep _. apply checks_iter. intros c _. destruct (env_loop_checks c (c_Env c) [] rel) as [n H].
    exists n. eapply checks_iff; [|exact H]. unfold related_env. set_solver.
  - exists n. eapply checks_iff; [|exact H]. by rewrite Forall_bind.
Qed.

(** The messages of the entries that no related image matched. *)
Definition unmatched_msg (im : string * bool) : list validationMsg :=
  if im.2 then [] else [errMsg "spec.relatedImages" "container image not in relatedImages: %q" [im.1]].
Definition unmatched_msgs (l : list (string * bool)) : list validationMsg := l ≫= unmatched_msg.

(** The errors of a document: the ones found in a fixed order, and one per container
    image left unmatched, in the order of the map. *)
Lemma check_csv_checks csv : exists (found : list validationMsg) (left : gmap string bool) (P : Prop),
  (found = [] <-> P)
  /\ (P /\ (forall i, left !! i <> Some false) <-> consistent csv)
  /\ forall (MR : MapRange), snd (check_csv csv []) = found ++
       unmatched_msgs (range left).
Proof.
  destruct (deployment_loop_checks (Deployments csv) ∅) as [n1 H1].
  destruct (image_loop_checks (RelatedImages csv) ∅ (foldl (fun m c => <[c_Image c := false]> m) ∅
    (Deployments csv ≫= allContainers))) as (rel & ci & n2 & H2 & Hrel & Hci).
  destruct (validateEnvVars_checks (Deployments csv) rel) as [n3 H3].
  exists (n1 ++ n2 ++ n3), ci. eexists. split; [|split].
  - transitivity (n1 = [] /\ n2 = [] /\ n3 = []); [|destruct H1 as [_ Q1], H2 as [_ Q2], H3 as [_ Q3]; rewrite Q1, Q2, Q3; reflexivity].
    split; [by intros [-> [-> ->]%app_nil]%app_nil|]. by intros (-> & -> & ->).
  - setoid_rewrite Hci. setoid_rewrite images_false. setoid_rewrite lookup_empty in Hrel.
    rewrite !Forall_forall. setoid_rewrite Forall_forall.
    assert (Hr : forall i, is_Some (rel !! i) <-> i ∈ ie_Image <$> RelatedImages csv).
    { intros i. rewrite Hrel. split; [by intros [[? [=]]|?]|by right]. }
    setoid_rewrite Hr. split.
    + intros ((Hp & (Hip & Hnd & _) & He) & Hm). split; try done; try (by intros; eapply He).
      intros c Hc. destruct (decide (c_Image c ∈ ie_Image <$> RelatedImages csv)) as [|Hn]; [done|].
      destruct (Hm (c_Image c)). rewrite decide_True by (by apply list_elem_of_fmap_2). naive_solver.
    + intros [G1 G2 G3 G4 G5 G6 G7]. split_and!; try done; [by intros; split_and!; naive_solver|].
      intros i [Hd Hn]. case_decide as Hi; [|by rewrite lookup_empty in Hd].
      apply list_elem_of_fmap in Hi as (c & -> & Hc). destruct Hn. split; [by apply G2|done].
  - intros MR. unfold check_csv, validateContainerImages, validateRelatedImages, st_bind.
    rewrite (proj1 H1), (proj1 H2), (proj1 H3). cbn [app snd].
    assert (Hu : forall l errs, st_iter unmatched l errs = (tt, errs ++ unmatched_msgs l)).
    { clear. unfold unmatched_msgs. induction l as [|im l IH]; intros errs; cbn [st_iter]; [unfold st_ret; by rewrite app_nil_r|].
      unfold st_bind, unmatched at 1. rewrite (proj1 (checks_require _ _)), IH, bind_cons.
      by rewrite <-app_assoc. }
    rewrite Hu. cbn. by rewrite <-!app_assoc.
Qed.

Lemma range_complete `{MR : MapRange} (m : gmap string bool) :
  unmatched_msgs (range m) = []
  <-> forall i, m !! i <> Some false.
Proof.
  split.
  - intros H i Hi. assert (Hin : (i, false) ∈ range m) by (by rewrite range_perm, elem_of_map_to_list).
    apply list_elem_of_split in Hin as (l1 & l2 & Hl). unfold unmatched_msgs in H. rewrite Hl, bind_app, bind_cons in H.
    by apply app_nil in H as [_ [=]].
  - intros H. assert (Hall : Forall (fun im => im.2 = true) (range m)).
    { apply Forall_forall. intros [i b]. rewrite range_perm, elem_of_map_to_list. cbn.
      destruct b; [done|]. by intros ?%H. }
    unfold unmatched_msgs. induction Hall as [|im l Hb _ IH]; [done|].
    rewrite bind_cons, IH. unfold unmatched_msg. by rewrite Hb.
Qed.

(** C29: the validator accepts exactly the consistent documents: it reports no error
    iff every image a container runs is pinned and related, the related images are pinned
    and distinct, and every [RELATED_IMAGE_] variable is unique in its container,
    pinned and related. *)
Theorem validateCSVData_spec `{MapRange} data csv (Hcsv : Unmarshal_csv data = inr csv) :
  Errors (validateCSVData data) = [] <-> consistent csv.
Proof.
  unfold validateCSVData. rewrite Hcsv. cbn [Errors].
  destruct (check_csv_checks csv) as (found & left & P & Hf & Hc & He).
  rewrite He, <-Hc, <-Hf, <-range_complete. split; [apply app_nil|]. by intros [-> ->].
Qed.

(** C35: the verdict does not depend on Go's map order: whatever the order
    of a range over a map, the same errors are reported, up to order, and the
    exit status of a run is the same; in CSV mode it is 0 exactly when the document could be
    read, parsed and is consistent. *)
Theorem main_deterministic `{Files} (MR1 MR2 : MapRange) csvPath args :
  (forall data, Errors (validateCSVData (H := MR1) data) ≡ₚ Errors (validateCSVData (H := MR2) data))
  /\ fst (main (H := MR1) csvPath args) = fst (main (H := MR2) csvPath args)
  /\ (csvPath <> "" ->
       (fst (main (H := MR1) csvPath args) = 0%Z <->
        exists data csv, ReadFile csvPath = inr data /\ Unmarshal_csv data = inr csv /\ consistent csv)).
Proof.
  assert (Hp : forall data, Errors (validateCSVData (H := MR1) data) ≡ₚ Errors (validateCSVData (H := MR2) data)).
  { intros data. unfold validateCSVData. destruct (Unmarshal_csv data) as [err|csv]; [done|]. cbn [Errors].
    destruct (check_csv_checks csv) as (found & left & P & _ & _ & He). rewrite !He.
    unfold unmatched_msgs. by rewrite (range_perm (MapRange := MR1)), (range_perm (MapRange := MR2)). }
  split; [exact Hp|]. unfold main. destruct (String.eqb_spec csvPath "") as [->|Hne]; cbn [negb].
  { split; [by destruct args|done]. }
  destruct (ReadFile csvPath) as [err|data]; cbn.
  { split; [done|]. intros _. split; [done|]. by intros (? & ? & ? & _). }
  rewrite <-(Permutation_length (Hp data)). split; [done|]. intros _.
  transitivity (Errors (validateCSVData (H := MR1) data) = []).
  { destruct (Errors _); cbn; [done|]. split; discriminate. }
  unfold validateCSVData. destruct (Unmarshal_csv data) as [err|csv] eqn:Ec.
  { split; [done|]. intros (? & ? & [= <-] & ? & _). congruence. }
  cbn [Errors]. destruct (check_csv_checks csv) as (found & left & P & Hf & Hc & He).
  rewrite He. transitivity (consistent csv).
  - rewrite <-Hc, <-Hf, <-(range_complete (MR := MR1)). split; [apply app_nil|]. by intros [-> ->].
  - split; [by exists data, csv|]. intros (? & ? & [= <-] & ? & ?). congruence.
Qed.

End checks.
(** ** A concrete validation *)

(** Pullspecs of the form [name@sha256:digest]; one document. *)
Definition demo_csv : csvDocument :=
  mkCsv [mkDeployment
           [mkContainer "manager" "op@sha256:1"
              [mkEnv "RELATED_IMAGE_HYPERFLEET_SENTINEL" "s@sha256:2"; mkEnv "OPERATOR_NAMESPACE" "ns"]] []]
        [mkImageEntry "op" "op@sha256:1"; mkImageEntry "sentinel" "s@sha256:2"].

Definition demo_lib : BundleLib := {|
  Unmarshal_csv := fun data => if String.eqb data "csv" then inr demo_csv else inl (External "yaml");
  ParseNormalizedNamed := fun image =>
    inr (if Contains image "@sha256:" then Some (mkDigest "sha256" None) else None) |}.

Definition demo_range : MapRange := {| range := map_to_list; range_perm m := reflexivity (map_to_list m) |}.

Lemma validateCSVData_spec_witness : consistent (BL := demo_lib) demo_csv.
Proof.
  apply (validateCSVData_spec (BL := demo_lib) (H := demo_range) "csv" demo_csv); [reflexivity|].
  vm_compute. reflexivity.
Defined.

(** A container image that is neither pinned nor listed. *)
Definition bad_csv : csvDocument :=
  mkCsv [mkDeployment [mkContainer "manager" "op:latest" []] []] [mkImageEntry "op" "op@sha256:1"].

Example bad_errors :
  length (snd (check_csv (BL := demo_lib) (H := demo_range) bad_csv [])) = 2%nat.
Proof. vm_compute. reflexivity. Qed.

End relatedimages.
