(* ===== verification/TestUtils.v ===== *)
(** * Helpers of the end-to-end tests ([test/utils/utils.go])

    The suite's helpers run [kubectl], [kind] and [podman] and edit source files.  The
    operating system answers through the class [OSLib]; what is printed on
    ginkgo's writer is logged. *)

From S2P Require Import Prelude Strings.

Module testutils.
Import gostrings.

Definition prometheusOperatorVersion : string := "v0.77.1".
Definition prometheusOperatorURL (version : string) : string :=
  "https://github.com/prometheus-operator/prometheus-operator/releases/download/" +:+ version +:+ "/bundle.yaml".
Definition certmanagerVersion : string := "v1.16.3".
Definition certmanagerURLTmpl (version : string) : string :=
  "https://github.com/cert-manager/cert-manager/releases/download/" +:+ version +:+ "/cert-manager.yaml".

(** ** The operating system *)

(** [exec.Cmd]: [cmd_Env] is [None] when the process environment is inherited. *)
Record Cmd := mkCmd { Args : list string; Dir : string; cmd_Env : option (list string) }.

(** [exec.Command]. *)
Definition Command (name : string) (arg : list string) : Cmd := mkCmd (name :: arg) "" None.

(** A call's error is [None] when it succeeds.  [W] is everything outside the
    process that a call can see or change. *)
Class OSLib (W : Type) := {
  Getwd : W -> string * option error;
  Chdir : string -> ST W (option error);
  Environ : W -> list string;
  LookupEnv : string -> W -> option string;
  CombinedOutput : Cmd -> ST W (string * option error);
  MkdirTemp : string -> string -> ST W (string * option error);
  RemoveAll : string -> ST W (option error);
  ReadFile : string -> W -> error + string;
  WriteFile : string -> string -> ST W (option error) }.

(** A line on ginkgo's writer: a format, its arguments and the error it prints. *)
Record Line := mkLine { l_format : string; l_args : list string; l_error : option error }.

Record Session (W : Type) := mkSession { world : W; GinkgoWriter : list Line }.
Arguments mkSession {W} _ _.
Arguments world {W} _.
Arguments GinkgoWriter {W} _.

Section helpers.
Context {W : Type} `{OS : OSLib W}.
#[local] Open Scope st_scope.

#[local] Abbreviation M := (ST (Session W)).

Definition lift {A} (m : ST W A) : M A :=
  fun s => let '(a, w) := m (world s) in (a, mkSession w (GinkgoWriter s)).

Definition Fprintf (l : Line) : M unit :=
  modify (fun s => mkSession (world s) (GinkgoWriter s ++ [l])).

Definition warnError (err : error) : M unit := Fprintf (mkLine "warning: %v" [] (Some err)).

(** [if err != nil { warnError(err) }]. *)
Definition warn_if (err : option error) : M unit :=
  match err with Some e => warnError e | None => st_ret tt end.

(** [if err != nil { return fmt.Errorf(format, args, err) }]. *)
Definition wrap_err (format : string) (args : list string) (err : option error) : option error :=
  Wrapf format args <$> err.

(** [os.Getenv]. *)
Definition Getenv (key : string) (w : W) : string :=
  match LookupEnv key w with Some v => v | None => "" end.

(** ** Commands *)

Definition GetProjectDir (w : W) : string * option error :=
  match Getwd w with
  | (wd, Some err) => (wd, Some (Wrapf "failed to get current working directory: %w" [] err))
  | (wd, None) => (ReplaceAll wd "/test/e2e" "", None)
  end.

Definition Run (cmd : Cmd) : M (string * option error) :=
  let! (dir, _) := get_state (fun s => GetProjectDir (world s)) in
  let cmd := mkCmd (Args cmd) dir (cmd_Env cmd) in
  let! err := lift (Chdir (Dir cmd)) in
  let! _ := (match err with
             | Some e => Fprintf (mkLine "chdir dir: %q" [] (Some e))
             | None => st_ret tt
             end) in
  let! environ := get_state (fun s => Environ (world s)) in
  let cmd := mkCmd (Args cmd) (Dir cmd) (Some (environ ++ ["GO111MODULE=on"])) in
  let command := JoinStrings (Args cmd) " " in
  let! _ := Fprintf (mkLine "running: %q" [command] None) in
  let! (output, err) := lift (CombinedOutput cmd) in
  st_ret (output, wrap_err "%q failed with error %q: %w" [command; output] err).

(** The error of a command whose output is not used. *)
Definition run_err (cmd : Cmd) : M (option error) :=
  let! (_, err) := Run cmd in st_ret err.

Definition InstallPrometheusOperator : M (option error) :=
  run_err (Command "kubectl" ["create"; "-f"; prometheusOperatorURL prometheusOperatorVersion]).

Definition UninstallPrometheusOperator : M unit :=
  let! err := run_err (Command "kubectl" ["delete"; "-f"; prometheusOperatorURL prometheusOperatorVersion]) in
  warn_if err.

Definition UninstallCertManager : M unit :=
  let! err := run_err (Command "kubectl" ["delete"; "-f"; certmanagerURLTmpl certmanagerVersion]) in
  warn_if err.

Definition InstallCertManager : M (option error) :=
  let! err := run_err (Command "kubectl" ["apply"; "-f"; certmanagerURLTmpl certmanagerVersion]) in
  match err with
  | Some e => st_ret (Some e)
  | None => run_err (Command "kubectl" ["wait"; "deployment.apps/cert-manager-webhook";
                       "--for"; "condition=Available"; "--namespace"; "cert-manager"; "--timeout"; "5m"])
  end.

(** ** Which CRDs are installed *)

Definition GetNonEmptyLines (output : string) : list string :=
  List.filter (fun element => negb (String.eqb element "")) (SplitByte LF output).

(** The two nested loops with a return inside. *)
Definition any_listed (crds crdList : list string) : bool :=
  existsb (fun crd => existsb (fun line => Contains line crd) crdList) crds.

Definition prometheusCRDs : list string :=
  ["prometheuses.monitoring.coreos.com"; "prometheusrules.monitoring.coreos.com";
   "prometheusagents.monitoring.coreos.com"].

Definition certManagerCRDs : list string :=
  ["certificates.cert-manager.io"; "issuers.cert-manager.io"; "clusterissuers.cert-manager.io";
   "certificaterequests.cert-manager.io"; "orders.acme.cert-manager.io"; "challenges.acme.cert-manager.io"].

Definition IsPrometheusCRDsInstalled : M bool :=
  let! (output, err) := Run (Command "kubectl" ["get"; "crds"; "-o"; "custom-columns=NAME:.metadata.name"]) in
  match err with
  | Some _ => st_ret false
  | None => st_ret (any_listed prometheusCRDs (GetNonEmptyLines output))
  end.

Definition IsCertManagerCRDsInstalled : M bool :=
  let! (output, err) := Run (Command "kubectl" ["get"; "crds"]) in
  match err with
  | Some _ => st_ret false
  | None => st_ret (any_listed certManagerCRDs (GetNonEmptyLines output))
  end.

(** ** Loading an image *)

(** The body of the Podman branch, inside which the temporary directory exists. *)
Definition load_archive (archiveDir name cluster : string) : M (option error) :=
  let archivePath := JoinPath [archiveDir; "operator.tar"] in
  let! err := run_err (Command "podman" ["save"; "--format"; "docker-archive"; "-o"; archivePath; name]) in
  match err with
  | Some e => st_ret (Some (Wrapf "save Podman image %q: %w" [name] e))
  | None =>
      let! err := run_err (Command "kind" ["load"; "image-archive"; archivePath; "--name"; cluster]) in
      match err with
      | Some e => st_ret (Some (Wrapf "load Podman image archive into Kind: %w" [] e))
      | None => st_ret None
      end
  end.

(** The deferred function of the Podman branch. *)
Definition remove_archive (archiveDir : string) : M unit :=
  let! err := lift (RemoveAll archiveDir) in
  warn_if (wrap_err "remove temporary image archive directory: %w" [] err).

Definition LoadImageToKindClusterWithName (name : string) : M (option error) :=
  let! kind_cluster := get_state (fun s => LookupEnv "KIND_CLUSTER" (world s)) in
  let cluster := match kind_cluster with Some v => v | None => "kind" end in
  let! provider := get_state (fun s => Getenv "KIND_EXPERIMENTAL_PROVIDER" (world s)) in
  if String.eqb provider "podman" then
    let! (archiveDir, err) := lift (MkdirTemp "" "hyperfleet-kind-image-*") in
    match err with
    | Some e => st_ret (Some (Wrapf "create temporary image archive directory: %w" [] e))
    | None =>
        let! err := load_archive archiveDir name cluster in
        let! _ := remove_archive archiveDir in
        st_ret err
    end
  else
    let kindOptions := ["load"; "docker-image"; name; "--name"; cluster] in
    run_err (Command "kind" kindOptions).

(** ** Uncommenting code *)

(** What the loop over the scanner writes; [None] when the first [Scan] fails.
    Writing to a [bytes.Buffer] never fails. *)
Definition uncomment (target prefix : string) : option string :=
  match ScanLines target with
  | [] => None
  | texts => Some (JoinStrings ((fun t => TrimPrefix t prefix) <$> texts) nl)
  end.

Definition UncommentCode (filename target prefix : string) : M (option error) :=
  let! read := get_state (fun s => ReadFile filename (world s)) in
  match read with
  | inl err => st_ret (Some (Wrapf "failed to read file %q: %w" [filename] err))
  | inr content =>
      match Index content target with
      | None => st_ret (Some (Errorf "unable to find the code %q to be uncomment" [target]))
      | Some idx =>
          match uncomment target prefix with
          | None => st_ret None
          | Some middle =>
              let out := take_string idx content +:+ middle
                           +:+ drop_string (idx + String.length target) content in
              let! err := lift (WriteFile filename out) in
              st_ret (wrap_err "failed to write file %q: %w" [filename] err)
          end
      end
  end.

(** ** Theorems *)

(** Code that was commented out by putting [prefix] before each of its lines. *)
Definition commented (prefix : string) (ls : list string) : string :=
  JoinStrings ((fun l => prefix +:+ l) <$> ls) nl.

(** A line a scanner gives back as it is. *)
Definition plain_line (l : string) : bool :=
  negb (has_byte LF l) && String.eqb (dropCR l) l && fits l.

Lemma plain_line_spec l : plain_line l = true ->
  has_byte LF l = false /\ fits l = true /\ dropCR l = l.
Proof. unfold plain_line. intros H. by bool_prop. Qed.

Lemma scan_plain_lines ls : ls <> [] -> last ls <> Some "" -> Forall (fun l => plain_line l = true) ls ->
  ScanLines (JoinStrings ls nl) = ls.
Proof.
  intros Hne Hlast H. unfold ScanLines. rewrite SplitByte_join; [|done|].
  - rewrite drop_last_empty_id by done. apply scan_tokens_id.
    eapply Forall_impl; [exact H|]. intros l Hl. by apply plain_line_spec in Hl as (? & ? & ?).
  - eapply Forall_impl; [exact H|]. intros l Hl. by apply plain_line_spec in Hl as (? & ? & ?).
Qed.

Lemma last_commented prefix ls : prefix <> "" -> last ((fun l => prefix +:+ l) <$> ls) <> Some "".
Proof.
  intros Hp. rewrite fmap_last. destruct (last ls) as [l|]; [|discriminate].
  destruct prefix; [done|]. discriminate.
Qed.

Lemma uncomment_texts target prefix texts : ScanLines target = texts -> texts <> [] ->
  uncomment target prefix = Some (JoinStrings ((fun t => TrimPrefix t prefix) <$> texts) nl).
Proof. unfold uncomment. intros -> H. by destruct texts. Qed.

Lemma trim_prefixed prefix (ls : list string) :
  (fun t => TrimPrefix t prefix) <$> ((fun l => prefix +:+ l) <$> ls) = ls.
Proof. induction ls as [|l ls IH]; csimpl; [done|]. by rewrite TrimPrefix_app, IH. Qed.

(** Uncommenting undoes commenting. *)
Lemma uncomment_commented prefix ls : prefix <> "" -> ls <> [] ->
  Forall (fun l => plain_line (prefix +:+ l) = true) ls ->
  uncomment (commented prefix ls) prefix = Some (JoinStrings ls nl).
Proof.
  intros Hp Hne H. rewrite (uncomment_texts _ _ ((fun l => prefix +:+ l) <$> ls)).
  - by rewrite trim_prefixed.
  - apply scan_plain_lines; [by destruct ls|by apply last_commented|by rewrite Forall_fmap].
  - by destruct ls.
Qed.

(** The file written in place of one that holds commented code is the same file with
    the prefixes gone, and nothing else of it changes. *)
Theorem UncommentCode_restores filename prefix before after ls (s : Session W) :
  prefix <> "" -> ls <> [] -> Forall (fun l => plain_line (prefix +:+ l) = true) ls ->
  let content := before +:+ commented prefix ls +:+ after in
  ReadFile filename (world s) = inr content ->
  Index content (commented prefix ls) = Some (String.length before) ->
  UncommentCode filename (commented prefix ls) prefix s =
  (let '(err, w) := WriteFile filename (before +:+ JoinStrings ls nl +:+ after) (world s) in
   (wrap_err "failed to write file %q: %w" [filename] err, mkSession w (GinkgoWriter s))).
Proof.
  intros Hp Hne H content Hread Hidx. unfold UncommentCode, get_state, st_bind at 1.
  rewrite Hread, Hidx, (uncomment_commented _ _ Hp Hne H).
  unfold content. rewrite take_string_app.
  assert (E : drop_string (String.length before + String.length (commented prefix ls))
                (before +:+ commented prefix ls +:+ after) = after).
  { rewrite <- string_app_length, <- string_app_assoc. apply drop_string_app. }
  rewrite E. unfold st_bind, lift, st_ret.
  by destruct (WriteFile filename _ (world s)) as [err w].
Qed.

(** The line feed at the end of a target is not written back: the text is the one
    written for the target without it. *)
Lemma uncomment_final_newline target prefix : last (SplitByte LF target) <> Some "" ->
  uncomment (target +:+ nl) prefix = uncomment target prefix.
Proof. intros H. unfold uncomment. by rewrite ScanLines_final. Qed.

(** Cutting the output into lines loses no match: a CRD is reported exactly when the
    command succeeds and its output mentions one of the names. *)
Lemma any_listed_spec crds output :
  Forall (fun crd => crd <> "" /\ has_byte LF crd = false) crds ->
  any_listed crds (GetNonEmptyLines output) = existsb (fun crd => Contains output crd) crds.
Proof.
  unfold any_listed, GetNonEmptyLines. induction 1 as [|crd crds [Hne Hlf] H IH]; [done|].
  cbn [existsb]. rewrite IH, (Contains_lines crd output Hne Hlf). f_equal.
  clear IH. induction (SplitByte LF output) as [|l ls IHl]; [done|]. cbn [List.filter existsb].
  destruct (String.eqb_spec l "") as [->|]; cbn [negb existsb]; [|by rewrite IHl].
  rewrite IHl. by destruct crd.
Qed.

Theorem CRDsInstalled_spec (s : Session W) :
  let mentioned crds r :=
    match r with ((output, None), s') => (existsb (fun crd => Contains output crd) crds, s')
               | ((_, Some _), s') => (false, s') end in
  IsPrometheusCRDsInstalled s = mentioned prometheusCRDs
    (Run (Command "kubectl" ["get"; "crds"; "-o"; "custom-columns=NAME:.metadata.name"]) s)
  /\ IsCertManagerCRDsInstalled s = mentioned certManagerCRDs (Run (Command "kubectl" ["get"; "crds"]) s).
Proof.
  assert (HP : Forall (fun crd => crd <> "" /\ has_byte LF crd = false) prometheusCRDs)
    by (repeat (constructor; [split; [discriminate|reflexivity]|]); constructor).
  assert (HC : Forall (fun crd => crd <> "" /\ has_byte LF crd = false) certManagerCRDs)
    by (repeat (constructor; [split; [discriminate|reflexivity]|]); constructor).
  unfold IsPrometheusCRDsInstalled, IsCertManagerCRDsInstalled, st_bind, st_ret.
  split; destruct (Run _ s) as [[output [e|]] s']; try reflexivity.
  - by rewrite (any_listed_spec _ _ HP).
  - by rewrite (any_listed_spec _ _ HC).
Qed.

(** The Podman branch removes its temporary directory last, however it ends. *)
Theorem archive_removed name d w (s : Session W) :
  Getenv "KIND_EXPERIMENTAL_PROVIDER" (world s) = "podman" ->
  MkdirTemp "" "hyperfleet-kind-image-*" (world s) = ((d, None), w) ->
  exists w1, world (snd (LoadImageToKindClusterWithName name s)) = snd (RemoveAll d w1).
Proof.
  intros Hp Hm. unfold LoadImageToKindClusterWithName, get_state, st_bind, lift at 1.
  rewrite Hp. simpl. rewrite Hm.
  destruct (load_archive _ _ _ _) as [err s1].
  unfold remove_archive, st_bind, lift. exists (world s1).
  destruct (RemoveAll d (world s1)) as [[e|] w2]; done.
Qed.

End helpers.

(** ** A concrete system: files by name, commands that print nothing *)

#[local] Instance file_system : OSLib (gmap string string) := {
  Getwd _ := ("/src/test/e2e", None);
  Chdir _ := st_ret None;
  Environ _ := ["HOME=/root"];
  LookupEnv key _ := if String.eqb key "KIND_EXPERIMENTAL_PROVIDER" then Some "podman" else None;
  CombinedOutput cmd := fun w => (("", None), <["last command" := JoinStrings (Args cmd) " " +:+ " in " +:+ Dir cmd]> w);
  MkdirTemp _ pattern := fun w => (("/tmp/" +:+ pattern, None), <["/tmp/" +:+ pattern := ""]> w);
  RemoveAll path := fun w => (None, delete path w);
  ReadFile path w := match w !! path with Some s => inr s | None => inl (External "not found") end;
  WriteFile path data := fun w => (None, <[path := data]> w) }.

Definition demo_lines : list string := ["- ../crd"; "- ../prometheus"].
Definition demo_session : Session (gmap string string) :=
  mkSession {[ "k.yaml" := "resources:" +:+ nl +:+ commented "#" demo_lines +:+ nl ]} [].

(** [UncommentCode_restores] on a kustomization file. *)
Lemma UncommentCode_restores_demo :
  UncommentCode "k.yaml" (commented "#" demo_lines) "#" demo_session =
  (None, mkSession {[ "k.yaml" := "resources:" +:+ nl +:+ "- ../crd" +:+ nl +:+ "- ../prometheus" +:+ nl ]} []).
Proof.
  rewrite (UncommentCode_restores "k.yaml" "#" ("resources:" +:+ nl) nl demo_lines);
    [vm_compute; reflexivity|discriminate|discriminate|repeat constructor|vm_compute; reflexivity|vm_compute; reflexivity].
Defined.

(** An image is loaded from the project's directory, and the archive is gone. *)
Example load_demo :
  let s := LoadImageToKindClusterWithName "operator:dev" (mkSession (∅ : gmap string string) []) in
  fst s = None
  /\ map_to_list (world (snd s)) =
       [("last command", "kind load image-archive /tmp/hyperfleet-kind-image-*/operator.tar --name kind in /src")].
Proof. vm_compute. auto. Qed.

(** A line of 65,536 bytes ends the scan, so it and the lines after it are deleted
    from the file and no error is returned. *)
Definition long_line : string :=
  String.string_of_list_ascii (repeat "x"%char (Z.to_nat 65536)).

Example long_line_lost :
  uncomment ("#a" +:+ nl +:+ "#" +:+ long_line +:+ nl +:+ "#b") "#" = Some "a".
Proof. vm_compute. reflexivity. Qed.

End testutils.
